(** * Othello rules engine: dense-grid and packed-bitboard engines

    A shallow embedding of [game_env.py]: the classes [StateEnv] (dense
    [N x N x 3] array), [StateConverter] and [StateEnvBitBoard] (two 64-bit
    masks and the player to move), followed by the properties of the rules
    engine proved on the embedding.

    Conventions of the embedding.
    - Python integers are unbounded: they are modelled by [Z], and the
      operators [&], [|], [<<], [>>] by [Z.land], [Z.lor], [Z.shiftl],
      [Z.shiftr].
    - A bitboard state is the Python list [[black, white, player]]: a
      [list Z] read through [py_index], which fails where Python raises
      [IndexError].
    - A dense board is a [uint8] array, modelled by nested lists of [Z].
      [+] and [-] on two of its entries, or on an entry and a Python
      integer, are [uint8] operations and wrap at 256 ([to_uint8]);
      [sum()] adds in 64 bits, where the sums met here do not wrap.
    - A [while] loop is a [Fixpoint] on a fuel argument that returns [None]
      when the fuel runs out; theorems prove that the fuel handed out by the
      engine is always enough.
    - Cell [(row, col)] of the 8x8 board is bit [63 - (8 * row + col)]. *)

From Stdlib Require Import ZArith List Lia Bool String.
From stdpp Require Import base option list.
Import ListNotations.

Local Open Scope Z_scope.

(** ** Python lists *)

(** [l[i]] for a Python list: negative indices count from the end, anything
    out of range raises [IndexError] ([None]). *)
Definition py_index {A : Type} (l : list A) (i : Z) : option A :=
  if 0 <=? i then l !! Z.to_nat i
  else if - Z.of_nat (length l) <=? i then l !! Z.to_nat (Z.of_nat (length l) + i)
  else None.

(** [l[i] = v] for a Python list. *)
Definition py_setitem {A : Type} (l : list A) (i : Z) (v : A) : option (list A) :=
  if 0 <=? i then
    if i <? Z.of_nat (length l) then Some (<[Z.to_nat i := v]> l) else None
  else if - Z.of_nat (length l) <=? i
       then Some (<[Z.to_nat (Z.of_nat (length l) + i) := v]> l)
  else None.

(** Python truthiness of an integer, as in [0 if(p) else 1]. *)
Definition truthy (x : Z) : bool := negb (x =? 0).

(** [d[k]] for a dictionary, kept as the list of its items in insertion
    order: the value of the first item with key [k], and [KeyError]
    ([None]) when there is none. *)
Fixpoint dict_get {K V : Type} (eqb : K -> K -> bool) (d : list (K * V)) (k : K)
  : option V :=
  match d with
  | [] => None
  | (k', v) :: d' => if eqb k k' then Some v else dict_get eqb d' k
  end.

(** ** The packed-bitboard engine, class [StateEnvBitBoard] *)

Module BitBoard.

(** The object built by [__init__]: the two dictionaries are association
    lists in insertion order, [_directions] is the key view of the second. *)
Record StateEnvBitBoard : Type := mkEnv {
  _size : Z;
  _max : Z;
  _incorrect_shift_mask : list (string * Z);
  _bit_shift_fn : list (string * (Z -> Z));
  _directions : list string
}.

Definition shift_table : list (string * (Z -> Z)) :=
  [ ("left"%string,         fun x => Z.shiftl x 1);
    ("right"%string,        fun x => Z.shiftr x 1);
    ("top"%string,          fun x => Z.shiftl x 8);
    ("bottom"%string,       fun x => Z.shiftr x 8);
    ("right_top"%string,    fun x => Z.shiftl x 7);
    ("left_top"%string,     fun x => Z.shiftl x 9);
    ("right_bottom"%string, fun x => Z.shiftr x 9);
    ("left_bottom"%string,  fun x => Z.shiftr x 7) ].

(** [__init__(self, board_size=8)]: the argument is not used. *)
Definition init (board_size : Z) : StateEnvBitBoard :=
  {| _size := 8;
     _max := 0xFFFFFFFFFFFFFFFF;
     _incorrect_shift_mask :=
       [ ("left"%string,         18374403900871474942);
         ("right"%string,        9187201950435737471);
         ("top"%string,          18446744073709551360);
         ("bottom"%string,       72057594037927935);
         ("right_top"%string,    9187201950435737344);
         ("left_top"%string,     18374403900871474688);
         ("right_bottom"%string, 35887507618889599);
         ("left_bottom"%string,  71775015237779198) ];
     _bit_shift_fn := shift_table;
     _directions := map fst shift_table |}.

(** The call [StateEnvBitBoard(board_size)]: [None] would be a raised
    exception.  [__init__] holds no [raise] and nothing that can fail, so
    the call always returns the object. *)
Definition construct (board_size : Z) : option StateEnvBitBoard :=
  Some (init board_size).

(** Fuel handed to every [while] loop of the engine: one unit per cell. *)
Definition loop_fuel : nat := 64.

(** One unrolled block of [_legal_moves_helper]:
    [while(c): m = m | (e & shift(c) & mask); c = board_notp & shift(c) & mask]. *)
Fixpoint legal_loop (fuel : nat) (shift : Z -> Z) (mask board_notp e c m : Z)
  : option Z :=
  if c =? 0 then Some m
  else match fuel with
       | O => None
       | S fuel' =>
           legal_loop fuel' shift mask board_notp e
             (Z.land (Z.land board_notp (shift c)) mask)
             (Z.lor m (Z.land (Z.land e (shift c)) mask))
       end.

(** A block with its initialisation
    [c = board_notp & shift(board_p) & mask]. *)
Definition legal_dir (shift : Z -> Z) (mask board_p board_notp e m : Z)
  : option Z :=
  legal_loop loop_fuel shift mask board_notp e
    (Z.land (Z.land board_notp (shift board_p)) mask) m.

(** [_legal_moves_helper(self, s)]. *)
Definition _legal_moves_helper (self : StateEnvBitBoard) (s : list Z)
  : option Z :=
  p ← py_index s 2;
  let not_p := if truthy p then 0 else 1 in
  board_p ← py_index s p;
  board_notp ← py_index s not_p;
  let m := 0 in
  let e := _max self - Z.lor board_p board_notp in
  (* left *)
  m ← legal_dir (fun x => Z.shiftl x 1) 18374403900871474942 board_p board_notp e m;
  (* right *)
  m ← legal_dir (fun x => Z.shiftr x 1) 9187201950435737471 board_p board_notp e m;
  (* top *)
  m ← legal_dir (fun x => Z.shiftl x 8) 18446744073709551360 board_p board_notp e m;
  (* bottom *)
  m ← legal_dir (fun x => Z.shiftr x 8) 72057594037927935 board_p board_notp e m;
  (* right_top *)
  m ← legal_dir (fun x => Z.shiftl x 7) 9187201950435737344 board_p board_notp e m;
  (* left_top *)
  m ← legal_dir (fun x => Z.shiftl x 9) 18374403900871474688 board_p board_notp e m;
  (* right_bottom *)
  m ← legal_dir (fun x => Z.shiftr x 9) 35887507618889599 board_p board_notp e m;
  (* left_bottom *)
  m ← legal_dir (fun x => Z.shiftr x 7) 71775015237779198 board_p board_notp e m;
  Some m.

(** The loop of one block of [_get_next_board]:
    [while(c & board_notp): m = m | c; c = shift(c) & mask];
    returns the final [(c, m)]. *)
Fixpoint flip_loop (fuel : nat) (shift : Z -> Z) (mask board_notp c m : Z)
  : option (Z * Z) :=
  if Z.land c board_notp =? 0 then Some (c, m)
  else match fuel with
       | O => None
       | S fuel' =>
           flip_loop fuel' shift mask board_notp
             (Z.land (shift c) mask) (Z.lor m c)
       end.

(** One unrolled block of [_get_next_board]: starts from
    [m = 0; c = board_notp & shift(a) & mask], runs the loop, and adds [m] to
    [update_master] only when the walk stopped on a disc of the mover. *)
Definition flip_dir (shift : Z -> Z) (mask board_p board_notp a update_master : Z)
  : option Z :=
  '(c, m) ← flip_loop loop_fuel shift mask board_notp
              (Z.land (Z.land board_notp (shift a)) mask) 0;
  if negb (truthy (Z.land c board_p)) then Some update_master
  else Some (Z.lor update_master m).

(** [_get_next_board(self, s, a)]. *)
Definition _get_next_board (self : StateEnvBitBoard) (s : list Z) (a : Z)
  : option (list Z) :=
  p ← py_index s 2;
  let not_p := if truthy p then 0 else 1 in
  board_p ← py_index s p;
  board_notp ← py_index s not_p;
  let update_master := 0 in
  (* left *)
  update_master ← flip_dir (fun x => Z.shiftl x 1) 18374403900871474942 board_p board_notp a update_master;
  (* right *)
  update_master ← flip_dir (fun x => Z.shiftr x 1) 9187201950435737471 board_p board_notp a update_master;
  (* top *)
  update_master ← flip_dir (fun x => Z.shiftl x 8) 18446744073709551360 board_p board_notp a update_master;
  (* bottom *)
  update_master ← flip_dir (fun x => Z.shiftr x 8) 72057594037927935 board_p board_notp a update_master;
  (* right_top *)
  update_master ← flip_dir (fun x => Z.shiftl x 7) 9187201950435737344 board_p board_notp a update_master;
  (* left_top *)
  update_master ← flip_dir (fun x => Z.shiftl x 9) 18374403900871474688 board_p board_notp a update_master;
  (* right_bottom *)
  update_master ← flip_dir (fun x => Z.shiftr x 9) 35887507618889599 board_p board_notp a update_master;
  (* left_bottom *)
  update_master ← flip_dir (fun x => Z.shiftr x 7) 71775015237779198 board_p board_notp a update_master;
  let board_p := Z.lor (Z.lor board_p update_master) a in
  let board_notp := board_notp - update_master in
  if p =? 0 then Some [board_p; board_notp; p]
  else Some [board_notp; board_p; p].

(** [reset(self)]: returns [[starter_board, legal_moves, player]]. *)
Definition reset (self : StateEnvBitBoard) : option (list Z * Z * Z) :=
  let starter_b := 34628173824 in
  let starter_w := 68853694464 in
  let player := 1 in
  let starter_board := [starter_b; starter_w; player] in
  legal_moves ← _legal_moves_helper self starter_board;
  Some (starter_board, legal_moves, player).

(** [step(self, s, a)]: returns [(s_next, legal_moves, s_next[2], done)]. *)
Definition step (self : StateEnvBitBoard) (s : list Z) (a : Z)
  : option (list Z * Z * Z * Z) :=
  let done := 0 in
  s_next ← _get_next_board self s a;
  s2 ← py_index s 2;
  s_next ← py_setitem s_next 2 (if truthy s2 then 0 else 1);
  legal_moves ← _legal_moves_helper self s_next;
  if legal_moves =? 0 then
    s_next0 ← py_index s_next 0;
    s_next1 ← py_index s_next 1;
    if Z.lor s_next0 s_next1 =? _max self then
      let done := 1 in
      s_next2 ← py_index s_next 2;
      Some (s_next, legal_moves, s_next2, done)
    else
      s_next2 ← py_index s_next 2;
      s_next ← py_setitem s_next 2 (if truthy s_next2 then 0 else 1);
      legal_moves ← _legal_moves_helper self s_next;
      if legal_moves =? 0 then
        let done := 1 in
        s_next2 ← py_index s_next 2;
        Some (s_next, legal_moves, s_next2, done)
      else
        s_next2 ← py_index s_next 2;
        Some (s_next, legal_moves, s_next2, done)
  else
    s_next2 ← py_index s_next 2;
    Some (s_next, legal_moves, s_next2, done).

(** One counting loop of [count_coins]:
    [while(t): n += (t & 1); t = t >> 1]. *)
Fixpoint count_loop (fuel : nat) (t n : Z) : option Z :=
  if t =? 0 then Some n
  else match fuel with
       | O => None
       | S fuel' => count_loop fuel' (Z.shiftr t 1) (n + Z.land t 1)
       end.

(** [count_coins(self, s)]: returns [(b, w)]. *)
Definition count_coins (self : StateEnvBitBoard) (s : list Z) : option (Z * Z) :=
  t ← py_index s 0;
  b ← count_loop loop_fuel t 0;
  t ← py_index s 1;
  w ← count_loop loop_fuel t 0;
  Some (b, w).

(** [_get_neighbors(self, s, e)]: the loop over [self._directions] looks
    the shift and the mask of each direction up in the two dictionaries. *)
Definition _get_neighbors (self : StateEnvBitBoard) (s e : Z) : option Z :=
  let n := 0 in
  n ← foldl (fun acc k =>
               n ← acc;
               shift ← dict_get String.eqb (_bit_shift_fn self) k;
               mask ← dict_get String.eqb (_incorrect_shift_mask self) k;
               Some (Z.lor n (Z.land (shift s) mask)))
        (Some n) (_directions self);
  let n := Z.land n e in
  Some n.

End BitBoard.


(** ** numpy arrays *)

(** A two-dimensional and a three-dimensional [ndarray], as nested lists in
    row-major order.  An axis is indexed like a Python list: negative
    indices wrap, anything else out of range raises [IndexError]. *)
Definition ndarray2 : Type := list (list Z).
Definition ndarray3 : Type := list (list (list Z)).

(** Storing an integer into a [uint8] array keeps its low eight bits. *)
Definition to_uint8 (x : Z) : Z := x mod 256.

(** [a[r, c]]. *)
Definition get2 (a : ndarray2) (r c : Z) : option Z :=
  row ← py_index a r; py_index row c.

(** [a[r, c] = v]. *)
Definition set2 (a : ndarray2) (r c v : Z) : option ndarray2 :=
  row ← py_index a r;
  row' ← py_setitem row c v;
  py_setitem a r row'.

(** [s[r, c, k]]. *)
Definition get3 (s : ndarray3) (r c k : Z) : option Z :=
  row ← py_index s r; cell ← py_index row c; py_index cell k.

(** [s[r, c, k] = v]. *)
Definition set3 (s : ndarray3) (r c k v : Z) : option ndarray3 :=
  row ← py_index s r;
  cell ← py_index row c;
  cell' ← py_setitem cell k v;
  row' ← py_setitem row c cell';
  py_setitem s r row'.

(** [np.zeros((n, m))] and [np.zeros((n, m, 3))]. *)
Definition zeros2 (n m : nat) : ndarray2 := replicate n (replicate m 0).
Definition zeros3 (n m : nat) : ndarray3 := replicate n (replicate m [0; 0; 0]).

(** [s[:, :, k] = v]: channel [k] of every cell. *)
Definition fill_channel (s : ndarray3) (k : nat) (v : Z) : ndarray3 :=
  map (map (fun cell => <[k := v]> cell)) s.

(** [s[:, :, k]]. *)
Definition channel (s : ndarray3) (k : nat) : ndarray2 :=
  map (map (fun cell => cell !!! k)) s.

(** [a.sum()] for a list and for a two-dimensional array. *)
Definition sum1 (l : list Z) : Z := fold_right Z.add 0 l.
Definition sum2 (a : ndarray2) : Z := sum1 (map sum1 a).

(** [range(n)]. *)
Definition range (n : Z) : list Z := map Z.of_nat (seq 0 (Z.to_nat n)).

(** A [for] loop whose body may fail, threading the loop state. *)
Fixpoint for_each {A S : Type} (l : list A) (body : A -> S -> option S) (st : S)
  : option S :=
  match l with
  | [] => Some st
  | x :: l' => st' ← body x st; for_each l' body st'
  end.

(** ** The dense-grid engine, class [StateEnv] *)

Module Dense.

Record StateEnv : Type := mkEnv { _size : Z }.

(** [__init__(self, board_size=8)]. *)
Definition init (board_size : Z) : StateEnv :=
  {| _size := if board_size mod 2 =? 0 then board_size else board_size + 1 |}.

(** The call [StateEnv(board_size)]: [None] would be a raised exception.
    [__init__] holds no [raise], and [%] and [+] do not fail on integers,
    so the call always returns the object. *)
Definition construct (board_size : Z) : option StateEnv :=
  Some (init board_size).

(** [_check_legal_index(self, row, col)]. *)
Definition _check_legal_index (self : StateEnv) (row col : Z) : bool :=
  (0 <=? row) && (row <? _size self) && (0 <=? col) && (col <? _size self).

(** The eight [del_row, del_col] pairs, in the order of the source. *)
Definition directions : list (Z * Z) :=
  [(-1, -1); (-1, 0); (-1, 1); (0, -1); (0, 1); (1, -1); (1, 0); (1, 1)].

(** Fuel handed to the two [while(True)] loops: one unit per row. *)
Definition loop_fuel (self : StateEnv) : nat := Z.to_nat (_size self).

(** The search loop: [i] is incremented first, then the cell
    [(row + i * del_row, col + i * del_col)] is inspected.  Returns
    [(found, n_row, n_col)] as they stand at the [break]. *)
Fixpoint search_loop (fuel : nat) (self : StateEnv) (s : ndarray3)
    (row col del_row del_col current_player i : Z) : option (bool * Z * Z) :=
  match fuel with
  | O => None
  | S fuel' =>
      let i := i + 1 in
      let n_row := row + i * del_row in
      let n_col := col + i * del_col in
      if _check_legal_index self n_row n_col then
        b ← get3 s n_row n_col 0;
        w ← get3 s n_row n_col 1;
        if b + w =? 0 then Some (false, n_row, n_col)
        else
          v ← get3 s n_row n_col current_player;
          if v =? 1 then Some (true, n_row, n_col)
          else search_loop fuel' self s row col del_row del_col current_player i
      else Some (false, n_row, n_col)
  end.

(** The loop that turns the discs over, up to [(n_row, n_col)] excluded. *)
Fixpoint turn_loop (fuel : nat) (row col del_row del_col n_row n_col
    current_player opposite_player i : Z) (s_new : ndarray3) : option ndarray3 :=
  match fuel with
  | O => None
  | S fuel' =>
      let i := i + 1 in
      if (row + i * del_row =? n_row) && (col + i * del_col =? n_col)
      then Some s_new
      else
        s_new ← set3 s_new (row + i * del_row) (col + i * del_col) opposite_player 0;
        s_new ← set3 s_new (row + i * del_row) (col + i * del_col) current_player 1;
        turn_loop fuel' row col del_row del_col n_row n_col
          current_player opposite_player i s_new
  end.

(** The body of the loop over the eight directions. *)
Definition dir_body (self : StateEnv) (s : ndarray3) (play : bool)
    (current_player opposite_player row col : Z) (d : Z * Z)
    (st : ndarray2 * ndarray3) : option (ndarray2 * ndarray3) :=
  let '(del_row, del_col) := d in
  let '(legal_moves, s_new) := st in
  let n_row := row + del_row in
  let n_col := col + del_col in
  if _check_legal_index self n_row n_col then
    v ← get3 s n_row n_col opposite_player;
    if v =? 1 then
      '(found, n_row, n_col) ←
        search_loop (loop_fuel self) self s row col del_row del_col current_player 1;
      if (found : bool) then
        legal_moves ← set2 legal_moves row col 1;
        if play then
          s_new ← turn_loop (loop_fuel self) row col del_row del_col n_row n_col
                    current_player opposite_player 0 s_new;
          Some (legal_moves, s_new)
        else Some (legal_moves, s_new)
      else Some (legal_moves, s_new)
    else Some (legal_moves, s_new)
  else Some (legal_moves, s_new).

(** The body of the loops over [row] and [col]. *)
Definition cell_body (self : StateEnv) (s : ndarray3) (play : bool)
    (current_player opposite_player row col : Z)
    (st : ndarray2 * ndarray3) : option (ndarray2 * ndarray3) :=
  let '(legal_moves, s_new) := st in
  b ← get3 s row col 0;
  w ← get3 s row col 1;
  if to_uint8 (b + w) =? 0 then
    s_new ← (if play then set3 s_new row col current_player 1 else Some s_new);
    for_each directions
      (dir_body self s play current_player opposite_player row col)
      (legal_moves, s_new)
  else Some (legal_moves, s_new).

(** [_legal_moves_helper(self, s, action_row, action_col, play)]: returns
    [(legal_moves, s_new)].  [None] for an argument stands for Python's
    [None], which is not an index. *)
Definition _legal_moves_helper (self : StateEnv) (s : ndarray3)
    (action_row action_col : option Z) (play : bool)
  : option (ndarray2 * ndarray3) :=
  current_player ← get3 s 0 0 2;
  let opposite_player := if truthy current_player then 0 else 1 in
  let legal_moves := zeros2 (Z.to_nat (_size self)) (Z.to_nat (_size self)) in
  row_range ← (if play then r ← action_row; Some [r] else Some (range (_size self)));
  col_range ← (if play then c ← action_col; Some [c] else Some (range (_size self)));
  let s_new := s in
  for_each row_range
    (fun row => for_each col_range
       (cell_body self s play current_player opposite_player row))
    (legal_moves, s_new).

(** [reset(self)]: returns [(s, legal_moves, 1)]. *)
Definition reset (self : StateEnv) : option (ndarray3 * ndarray2 * Z) :=
  if _size self <? 0 then None
  else
    let starter_board := zeros3 (Z.to_nat (_size self)) (Z.to_nat (_size self)) in
    let half_width := _size self / 2 - 1 in
    (* white coins *)
    starter_board ← set3 starter_board half_width half_width 1 1;
    starter_board ← set3 starter_board (half_width + 1) (half_width + 1) 1 1;
    (* black coins *)
    starter_board ← set3 starter_board half_width (half_width + 1) 0 1;
    starter_board ← set3 starter_board (half_width + 1) half_width 0 1;
    (* white to start *)
    let starter_board := fill_channel starter_board 2 1 in
    '(legal_moves, s) ← _legal_moves_helper self starter_board None None false;
    Some (s, legal_moves, 1).

(** [s[:, :, :2].sum()]. *)
Definition sum_coins (s : ndarray3) : Z :=
  sum2 (channel s 0) + sum2 (channel s 1).

(** [step(self, s, a)]: returns [(s_next, legal_moves, int(s_next[0,0,2]), done)].
    The board is a [uint8] array, so [s[0,0,2]] is a [uint8] scalar and
    [s[0,0,2] - 1] is computed in [uint8], where it wraps: it is [0] for
    player [1] and [255] for player [0].  [abs] and the store into the
    [uint8] channel leave that value as it is. *)
Definition step (self : StateEnv) (s : ndarray3) (a : Z)
  : option (ndarray3 * ndarray2 * Z * Z) :=
  let done := 0 in
  if _size self =? 0 then None
  else
    '(_, s_next) ← _legal_moves_helper self s
                     (Some (a / _size self)) (Some (a mod _size self)) true;
    s002 ← get3 s 0 0 2;
    let s_next := fill_channel s_next 2 (to_uint8 (Z.abs (to_uint8 (s002 - 1)))) in
    '(legal_moves, s_next) ← _legal_moves_helper self s_next None None false;
    if sum2 legal_moves =? 0 then
      if sum_coins s_next =? _size self ^ 2 then
        let done := 1 in
        p ← get3 s_next 0 0 2;
        Some (s_next, legal_moves, p, done)
      else
        let s_next := fill_channel s_next 2 s002 in
        '(legal_moves, _) ← _legal_moves_helper self s_next None None false;
        if sum2 legal_moves =? 0 then
          let done := 1 in
          p ← get3 s_next 0 0 2;
          Some (s_next, legal_moves, p, done)
        else
          p ← get3 s_next 0 0 2;
          Some (s_next, legal_moves, p, done)
    else
      p ← get3 s_next 0 0 2;
      Some (s_next, legal_moves, p, done).

(** [count_coins(self, s)]. *)
Definition count_coins (self : StateEnv) (s : ndarray3) : Z * Z :=
  (sum2 (channel s 0), sum2 (channel s 1)).

End Dense.


(** ** Conversions between the representations, class [StateConverter] *)

(** The values [convert] receives and returns: a tuple or list of integers,
    a three- or two-dimensional array, an integer, or Python's [None]. *)
Inductive pyval : Type :=
| VTuple (l : list Z)
| VArray3 (s : ndarray3)
| VArray2 (a : ndarray2)
| VInt (x : Z)
| VNone.

(** [range(n-1, -1, -1)]. *)
Definition rev_range (n : Z) : list Z := rev (range n).

(** [a.reshape((-1, n))] for a flat array of [rows * n] elements. *)
Fixpoint reshape (n rows : nat) (l : list Z) : ndarray2 :=
  match rows with
  | O => []
  | S rows' => take n l :: reshape n rows' (drop n l)
  end.

(** [int(np.multiply(a, w).sum())] on [uint64]. *)
Definition weighted_sum (a w : ndarray2) : Z :=
  sum2 (zip_with (zip_with Z.mul) a w) mod 2 ^ 64.

Module Converter.

Record StateConverter : Type := mkConv {
  _size : Z;
  _array_to_bitboard : ndarray2
}.

(** [__init__(self, board_size=8)].  The weights are stored in a [uint64]
    array: a weight of [2^64] or more does not fit ([OverflowError]), and a
    size that is not positive cannot be reshaped to. *)
Definition init (board_size : Z) : option StateConverter :=
  let flat := replicate (Z.to_nat (board_size ^ 2)) 0 in
  '(flat, _) ← for_each (rev_range (Z.of_nat (length flat)))
      (fun i '(flat, x) =>
         if x <? 2 ^ 64 then
           flat ← py_setitem flat i x; Some (flat, x * 2)
         else None)
      (flat, 1);
  if board_size <=? 0 then None
  else Some {| _size := board_size;
               _array_to_bitboard :=
                 reshape (Z.to_nat board_size) (Z.to_nat board_size) flat |}.

(** The two nested loops that unpack a mask into channel [coin]:
    [board[i, j, coin] = t & 1; t = t >> 1], from the last cell backwards.
    Returns the board and the remaining [t]. *)
Definition unpack (self : StateConverter) (coin : Z) (board : ndarray3) (t : Z)
  : option (ndarray3 * Z) :=
  for_each (rev_range (_size self))
    (fun i => for_each (rev_range (_size self))
       (fun j '(board, t) =>
          board ← set3 board i j coin (Z.land t 1);
          Some (board, Z.shiftr t 1)))
    (board, t).

(** [board[:, :, 0] = a] for an array [a] of the shape of the board. *)
Definition assign_channel0 (board : ndarray3) (a : ndarray2) : option ndarray3 :=
  if decide (length a = length board
             /\ Forall2 (fun ra rb => length ra = length rb) a board)
  then Some (zip_with (zip_with (fun v cell => <[0%nat := to_uint8 v]> cell)) a board)
  else None.

(** The first half of [convert]: the internal [board] for the input, and
    the value bound to [s] afterwards. *)
Definition read_input (self : StateConverter) (s : pyval) (input_format : string)
  : option (ndarray3 * pyval) :=
  let board := zeros3 (Z.to_nat (_size self)) (Z.to_nat (_size self)) in
  if String.eqb input_format "bitboard" then
    match s with
    | VTuple l =>
        t ← py_index l 0;
        '(board, _) ← unpack self 0 board t;
        t ← py_index l 1;
        '(board, _) ← unpack self 1 board t;
        p ← py_index l 2;
        Some (fill_channel board 2 (to_uint8 p), s)
    | _ => None
    end
  else if String.eqb input_format "ndarray3d" then
    match s with
    | VArray3 b => Some (b, s)
    | _ => None
    end
  else if String.eqb input_format "bitboard_single" then
    match s with
    | VInt x => '(board, x) ← unpack self 0 board x; Some (board, VInt x)
    | _ => None
    end
  else if String.eqb input_format "ndarray" then
    match s with
    | VArray2 a => board ← assign_channel0 board a; Some (board, s)
    | _ => None
    end
  else if String.eqb input_format "position" then
    match s with
    | VInt x =>
        if _size self =? 0 then None
        else board ← set3 board (x / _size self) (x mod _size self) 0 1;
             Some (board, s)
    | _ => None
    end
  else Some (board, s).

(** [convert(self, s, input_format, output_format)]. *)
Definition convert (self : StateConverter) (s : pyval)
    (input_format output_format : string) : option pyval :=
  if String.eqb input_format output_format then Some s
  else
    '(board, s) ← read_input self s input_format;
    if String.eqb output_format "bitboard" then
      let board_b := weighted_sum (channel board 0) (_array_to_bitboard self) in
      let board_w := weighted_sum (channel board 1) (_array_to_bitboard self) in
      match s with
      | VArray3 s => player ← get3 s 0 0 2; Some (VTuple [board_b; board_w; player])
      | _ => None
      end
    else if String.eqb output_format "ndarray3d" then Some (VArray3 board)
    else if String.eqb output_format "ndarray" then Some (VArray2 (channel board 0))
    else if String.eqb output_format "bitboard_single" then
      Some (VInt (weighted_sum (channel board 0) (_array_to_bitboard self)))
    else Some VNone.

End Converter.

(** ** Symmetries of arrays: numpy's [flip] and [rot90] *)

(** [np.flip(x, axis=0)] reverses the rows of a two-dimensional array,
    [np.flip(x, axis=1)] reverses every row. *)
Definition flip_axis0 (x : ndarray2) : ndarray2 := rev x.
Definition flip_axis1 (x : ndarray2) : ndarray2 := map (@rev Z) x.

(** [np.transpose(x)]: column [j] of [x] becomes row [j]. *)
Definition transpose (x : ndarray2) : ndarray2 :=
  map (fun j => map (fun row => nth j row 0) x) (seq 0 (length (hd [] x))).

(** [np.rot90(x, k)], as numpy computes it: the identity for [k % 4 == 0],
    two flips for [2], a flip and a transposition for [1] and [3]. *)
Definition rot90 (x : ndarray2) (k : Z) : ndarray2 :=
  let k := k mod 4 in
  if k =? 0 then x
  else if k =? 2 then flip_axis1 (flip_axis0 x)
  else if k =? 1 then transpose (flip_axis1 x)
  else flip_axis1 (transpose x).

(** ** The game between two players, class [Game] *)

Module Game.

(** A player, as [Game] uses one: a [move] function from the state and the
    legal moves, each in the format the player asks for, to an action in
    the format it announces. *)
Record Player : Type := mkPlayer {
  move : pyval -> pyval -> pyval;
  get_state_input_format : string;
  get_legal_moves_input_format : string;
  get_move_output_format : string
}.

(** One entry of [_hist]:
    [[s, legal_moves, current_player, a, next_s, next_legal_moves,
      next_player, done, reward]]. *)
Record transition : Type := mkTransition {
  t_s : list Z;
  t_legal_moves : Z;
  t_current_player : Z;
  t_a : Z;
  t_next_s : list Z;
  t_next_legal_moves : Z;
  t_next_player : Z;
  t_done : Z;
  t_reward : Z
}.

(** The object: [_p] and [_hist] are the attributes [reset] creates,
    [None] before that. *)
Record Game : Type := mkGame {
  _p1 : Player;
  _p2 : Player;
  _size : Z;
  _env : BitBoard.StateEnvBitBoard;
  _converter : Converter.StateConverter;
  _rewards : list (string * Z);
  _p : option (list (Z * Player));
  _hist : option (list transition)
}.

(** [__init__(self, player1, player2, board_size=8)]; the converter is
    built with its default size 8. *)
Definition init (player1 player2 : Player) (board_size : Z) : option Game :=
  converter ← Converter.init 8;
  Some {| _p1 := player1;
          _p2 := player2;
          _size := board_size;
          _env := BitBoard.init board_size;
          _converter := converter;
          _rewards := [("tie"%string, 0); ("win"%string, 1); ("loss"%string, -1)];
          _p := None;
          _hist := None |}.

(** [reset(self, random_assignment=True)]; [below_half] is the outcome of
    [np.random.rand() < 0.5]. *)
Definition reset (self : Game) (below_half random_assignment : bool) : Game :=
  {| _p1 := _p1 self;
     _p2 := _p2 self;
     _size := _size self;
     _env := _env self;
     _converter := _converter self;
     _rewards := _rewards self;
     _p := Some (if below_half && random_assignment
                 then [(0, _p1 self); (1, _p2 self)]
                 else [(1, _p1 self); (0, _p2 self)]);
     _hist := Some [] |}.

(** Fuel handed to the loop of [play]: one unit per cell. *)
Definition loop_fuel : nat := 64.

(** The loop of [play], entered with [done = 0]: returns the last state and
    the history. *)
Fixpoint play_while (fuel : nat) (self : Game) (p : list (Z * Player))
    (s : list Z) (legal_moves current_player : Z) (hist : list transition)
  : option (list Z * list transition) :=
  match fuel with
  | O => None
  | S fuel' =>
      pl ← dict_get Z.eqb p current_player;
      s_in ← Converter.convert (_converter self) (VTuple s) "bitboard"
                (get_state_input_format pl);
      legal_moves_in ← Converter.convert (_converter self) (VInt legal_moves)
                         "bitboard_single" (get_legal_moves_input_format pl);
      let a := move pl s_in legal_moves_in in
      a ← Converter.convert (_converter self) a (get_move_output_format pl)
             "bitboard_single";
      match a with
      | VInt a =>
          '(next_s, next_legal_moves, next_player, done) ←
            BitBoard.step (_env self) s a;
          let hist :=
            hist ++ [mkTransition s legal_moves current_player a
                       next_s next_legal_moves next_player done (-1)] in
          if truthy done then Some (next_s, hist)
          else play_while fuel' self p next_s next_legal_moves next_player hist
      | _ => None
      end
  end.

(** [play(self)]: returns the winner, and the object with its history. *)
Definition play (self : Game) : option (Z * Game) :=
  '(s, legal_moves, current_player) ← BitBoard.reset (_env self);
  p ← _p self;
  hist ← _hist self;
  '(s, hist) ← play_while loop_fuel self p s legal_moves current_player hist;
  '(b, w) ← BitBoard.count_coins (_env self) s;
  let winner := if w <? b then 0 else if b <? w then 1 else -1 in
  last ← py_index hist (-1);
  hist ← py_setitem hist (-1)
           (mkTransition (t_s last) (t_legal_moves last) (t_current_player last)
              (t_a last) (t_next_s last) (t_next_legal_moves last)
              (t_next_player last) (t_done last) winner);
  Some (winner,
        {| _p1 := _p1 self;
           _p2 := _p2 self;
           _size := _size self;
           _env := _env self;
           _converter := _converter self;
           _rewards := _rewards self;
           _p := _p self;
           _hist := Some hist |}).

(** The dictionary [_nd_trans_fn] of [create_board_reps]. *)
Definition _nd_trans_fn : list (string * (ndarray2 -> ndarray2)) :=
  [ ("normal_left"%string,       fun x => rot90 x 1);
    ("normal_top"%string,        fun x => rot90 x 2);
    ("normal_right"%string,      fun x => rot90 x 3);
    ("horizontal_bottom"%string, fun x => flip_axis0 x);
    ("horizontal_left"%string,   fun x => rot90 (flip_axis0 x) 1);
    ("horizontal_top"%string,    fun x => rot90 (flip_axis0 x) 2);
    ("horizontal_right"%string,  fun x => rot90 (flip_axis0 x) 3);
    ("vertical_bottom"%string,   fun x => flip_axis1 x);
    ("vertical_left"%string,     fun x => rot90 (flip_axis1 x) 1);
    ("vertical_top"%string,      fun x => rot90 (flip_axis1 x) 2);
    ("vertical_right"%string,    fun x => rot90 (flip_axis1 x) 3) ].

(** [self._converter.convert(x, input_format='bitboard_single',
    output_format='ndarray')], which returns an array. *)
Definition to_ndarray (self : Game) (x : Z) : option ndarray2 :=
  v ← Converter.convert (_converter self) (VInt x) "bitboard_single" "ndarray";
  match v with
  | VArray2 a => Some a
  | _ => None
  end.

(** [create_board_reps(self, transition_list)]: the dictionary of the
    twelve representations, as the list of its items in insertion order. *)
Definition create_board_reps (self : Game) (transition_list : transition)
  : option (list (string * transition)) :=
  let s := t_s transition_list in
  let legal_moves := t_legal_moves transition_list in
  let current_player := t_current_player transition_list in
  let a := t_a transition_list in
  let next_s := t_next_s transition_list in
  let next_legal_moves := t_next_legal_moves transition_list in
  let next_player := t_next_player transition_list in
  let done := t_done transition_list in
  let winner := t_reward transition_list in
  s0 ← py_index s 0;
  s1_nd ← to_ndarray self s0;
  s1 ← py_index s 1;
  s2_nd ← to_ndarray self s1;
  legal_moves_nd ← to_ndarray self legal_moves;
  a_nd ← to_ndarray self a;
  next_s0 ← py_index next_s 0;
  next_s1_nd ← to_ndarray self next_s0;
  next_s1 ← py_index next_s 1;
  next_s2_nd ← to_ndarray self next_s1;
  next_legal_moves_nd ← to_ndarray self next_legal_moves;
  let w := Converter._array_to_bitboard (_converter self) in
  reps ← for_each _nd_trans_fn
    (fun '(key, f) transition_dict =>
       s2 ← py_index s 2;
       next_s2 ← py_index next_s 2;
       Some (transition_dict ++
             [(key,
               mkTransition
                 [weighted_sum (f s1_nd) w; weighted_sum (f s2_nd) w; s2]
                 (weighted_sum (f legal_moves_nd) w)
                 current_player
                 (weighted_sum (f a_nd) w)
                 [weighted_sum (f next_s1_nd) w; weighted_sum (f next_s2_nd) w;
                  next_s2]
                 (weighted_sum (f next_legal_moves_nd) w)
                 next_player done winner)]))
    [("normal_bottom"%string, transition_list)];
  Some reps.

End Game.

(** ** Vocabulary of the specification *)

(** Cell [(r, c)] lies on the 8x8 board. *)
Definition inb (r c : Z) : bool :=
  (0 <=? r) && (r <? 8) && (0 <=? c) && (c <? 8).

(** The bit of a mask that stands for cell [(r, c)]. *)
Definition bit (r c : Z) : Z := 63 - (8 * r + c).

(** Mask [x] holds cell [(r, c)]; never so off the board. *)
Definition cell (x r c : Z) : bool := inb r c && Z.testbit x (bit r c).

(** A 64-bit mask. *)
Definition board64 (x : Z) : Prop := 0 <= x < 2 ^ 64.

(** From [(r, c)], direction [(dr, dc)] crosses exactly [n >= 1] opposing
    discs and then reaches a disc of the mover.  [own] and [opp] are false
    off the board, so the run ends before the edge and before an empty
    cell. *)
Definition run (own opp : Z -> Z -> bool) (r c dr dc n : Z) : Prop :=
  1 <= n
  /\ (forall i, 1 <= i <= n -> opp (r + i * dr) (c + i * dc) = true)
  /\ own (r + (n + 1) * dr) (c + (n + 1) * dc) = true.

(** Some direction from [(r, c)] holds a run. *)
Definition captures (own opp : Z -> Z -> bool) (r c : Z) : Prop :=
  exists dr dc n, In (dr, dc) Dense.directions /\ run own opp r c dr dc n.

(** Cell [(r, c)] lies on a run from [(r0, c0)]: a move at [(r0, c0)]
    turns it over. *)
Definition flipped (own opp : Z -> Z -> bool) (r0 c0 r c : Z) : Prop :=
  exists dr dc n i,
    In (dr, dc) Dense.directions /\ run own opp r0 c0 dr dc n
    /\ 1 <= i <= n /\ r = r0 + i * dr /\ c = c0 + i * dc.

(** A shift with its mask moves every disc one cell against [(dr, dc)]:
    the result holds cell [q] exactly when the argument holds [q + (dr, dc)]. *)
Definition shift_ok (shift : Z -> Z) (mask dr dc : Z) : Prop :=
  board64 mask
  /\ forall x r c, inb r c = true ->
       Z.testbit (Z.land (shift x) mask) (bit r c) = cell x (r + dr) (c + dc).

(** A valid bitboard state: two disjoint 64-bit masks and a player. *)
Definition valid_state (s : list Z) : Prop :=
  exists b w p, s = [b; w; p]
    /\ board64 b /\ board64 w /\ Z.land b w = 0 /\ (p = 0 \/ p = 1).

(** The masks of the side to move and of the other side. *)
Definition mover_board (s : list Z) : Z :=
  match s with
  | [b; w; p] => if p =? 0 then b else w
  | _ => 0
  end.

Definition other_board (s : list Z) : Z :=
  match s with
  | [b; w; p] => if p =? 0 then w else b
  | _ => 0
  end.

(** The mask of a direction keeps exactly the cells whose neighbour in
    direction [(dr, dc)] is on the board (checked cell by cell). *)
Definition mask_check (mask dr dc : Z) : bool :=
  forallb (fun r => forallb (fun c =>
      Bool.eqb (Z.testbit mask (bit r c)) (inb (r + dr) (c + dc)))
    (range 8)) (range 8).

(** From [(r, c)] itself, [k + 1] opposing discs in a row in direction
    [(dr, dc)], then a disc of the mover. *)
Definition chain (own opp : Z -> Z -> bool) (dr dc k r c : Z) : Prop :=
  (forall i, 0 <= i <= k -> opp (r + i * dr) (c + i * dc) = true)
  /\ own (r + (k + 1) * dr) (c + (k + 1) * dc) = true.

(** Mask [x] is 64 bits wide and holds exactly the cells that satisfy [P]. *)
Definition holds (x : Z) (P : Z -> Z -> Prop) : Prop :=
  board64 x
  /\ forall r c, inb r c = true -> (Z.testbit x (bit r c) = true <-> P r c).

(** Cell [(r, c)] holds no disc of either mask. *)
Definition vacant (board_p board_notp r c : Z) : Prop :=
  cell board_p r c = false /\ cell board_notp r c = false.

(** The legal cells of the side that owns [board_p]: vacant cells of the
    board from which some direction holds a run. *)
Definition legal_cell (board_p board_notp r c : Z) : Prop :=
  vacant board_p board_notp r c
  /\ captures (cell board_p) (cell board_notp) r c.

(** The two masks after the mover plays on [(r0, c0)]: the mover gains the
    cell and every disc turned over, the other side loses the latter. *)
Definition moved_own (board_p board_notp r0 c0 r c : Z) : Prop :=
  cell board_p r c = true
  \/ flipped (cell board_p) (cell board_notp) r0 c0 r c
  \/ (r = r0 /\ c = c0).

Definition moved_opp (board_p board_notp r0 c0 r c : Z) : Prop :=
  cell board_notp r c = true
  /\ ~ flipped (cell board_p) (cell board_notp) r0 c0 r c.

(** The player to move, the other player, and the state with the turn
    handed to [q]. *)
Definition player (s : list Z) : Z :=
  match s with
  | [_; _; p] => p
  | _ => 0
  end.

Definition opponent (p : Z) : Z := if truthy p then 0 else 1.

Definition set_player (s : list Z) (q : Z) : list Z := <[2%nat := q]> s.

(** The mask of all occupied cells. *)
Definition occupied (s : list Z) : Z :=
  match s with
  | [b; w; _] => Z.lor b w
  | _ => 0
  end.

(** Total reads of an array, and the shapes of arrays. *)
Definition at2 (a : ndarray2) (r c : Z) : Z := default 0 (get2 a r c).
Definition at3 (s : ndarray3) (r c k : Z) : Z := default 0 (get3 s r c k).

Definition shape2 (n m : Z) (a : ndarray2) : Prop :=
  Z.of_nat (length a) = n /\ Forall (fun row => Z.of_nat (length row) = m) a.

Definition shape3 (n m : Z) (s : ndarray3) : Prop :=
  Z.of_nat (length s) = n
  /\ Forall (fun row => Z.of_nat (length row) = m
                        /\ Forall (fun cell => length cell = 3%nat) row) s.

(** Channel [k] of cell [(r, c)] of a dense board holds a disc; never so
    off the board. *)
Definition dcell (self : Dense.StateEnv) (s : ndarray3) (k r c : Z) : bool :=
  Dense._check_legal_index self r c && (at3 s r c k =? 1).

(** A value of a mask array. *)
Definition bit01 (x : Z) : Prop := x = 0 \/ x = 1.

(** A valid dense state of size [n]: an [n x n x 3] array in which every
    cell is empty or holds one disc, and whose third channel is the player
    to move everywhere. *)
Definition valid_dense (n : Z) (s : ndarray3) : Prop :=
  1 <= n /\ shape3 n n s
  /\ bit01 (at3 s 0 0 2)
  /\ forall r c, 0 <= r < n -> 0 <= c < n ->
       at3 s r c 2 = at3 s 0 0 2
       /\ bit01 (at3 s r c 0) /\ bit01 (at3 s r c 1)
       /\ at3 s r c 0 + at3 s r c 1 <= 1.

(** [captures] and [flipped] restricted to a list of directions. *)
Definition captures_in (dirs : list (Z * Z)) (own opp : Z -> Z -> bool)
    (r c : Z) : Prop :=
  exists dr dc n, In (dr, dc) dirs /\ run own opp r c dr dc n.

Definition flipped_in (dirs : list (Z * Z)) (own opp : Z -> Z -> bool)
    (r0 c0 r c : Z) : Prop :=
  exists dr dc n i,
    In (dr, dc) dirs /\ run own opp r0 c0 dr dc n
    /\ 1 <= i <= n /\ r = r0 + i * dr /\ c = c0 + i * dc.

(** Cell [(r, c)] of a dense board is empty. *)
Definition dvacant (s : ndarray3) (r c : Z) : Prop :=
  at3 s r c 0 = 0 /\ at3 s r c 1 = 0.

(** The legal cells of a dense board for the side on channel [cur]. *)
Definition dlegal (self : Dense.StateEnv) (s : ndarray3) (cur oppc r c : Z) : Prop :=
  dvacant s r c /\ captures (dcell self s cur) (dcell self s oppc) r c.

(** The discs of a dense board of size [n], whatever its third channel
    holds: every cell is empty or holds one disc. *)
Definition valid_discs (n : Z) (s : ndarray3) : Prop :=
  1 <= n /\ shape3 n n s
  /\ forall r c, 0 <= r < n -> 0 <= c < n ->
       bit01 (at3 s r c 0) /\ bit01 (at3 s r c 1)
       /\ at3 s r c 0 + at3 s r c 1 <= 1.

(** The scan for legal moves looks behind a disc of channel [k]: some empty
    cell of the board has such a disc next to it in one of the eight
    directions, and the next cell in that direction is on the board and
    occupied.  That is where the scan reads the channel of the side to
    move. *)
Definition looks_behind (self : Dense.StateEnv) (s : ndarray3) (k : Z) : Prop :=
  exists r c dr dc,
    (0 <= r < Dense._size self /\ 0 <= c < Dense._size self)
    /\ dvacant s r c /\ In (dr, dc) Dense.directions
    /\ dcell self s k (r + dr) (c + dc) = true
    /\ Dense._check_legal_index self (r + 2 * dr) (c + 2 * dc) = true
    /\ ~ dvacant s (r + 2 * dr) (c + 2 * dc).

(** The weights of a converter of size [n]: cell [(r, c)] weighs the power
    of two of its distance from the last cell. *)
Definition weights (n : Z) : ndarray2 :=
  map (fun r => map (fun c => 2 ^ (n * n - 1 - (n * r + c))) (range n)) (range n).

(** The converter built for the 8x8 board. *)
Definition weights8 : ndarray2 :=
  map (fun r => map (fun c => 2 ^ bit r c) (range 8)) (range 8).

Definition conv8 : Converter.StateConverter :=
  {| Converter._size := 8; Converter._array_to_bitboard := weights8 |}.

(** [t >> 1], [k] times, and the bit it leaves in front. *)
Definition shr_iter (k : nat) (t : Z) : Z := Nat.iter k (fun t => Z.shiftr t 1) t.

Definition bitz (x k : Z) : Z := Z.land (shr_iter (Z.to_nat k) x) 1.

(** The dense array of a mask, and the dense board of two masks and a
    player: cell [(r, c)] reads bit [bit r c]. *)
Definition mask_array (x : Z) : ndarray2 :=
  map (fun r => map (fun c => bitz x (bit r c)) (range 8)) (range 8).

Definition board_array (b w p : Z) : ndarray3 :=
  map (fun r => map (fun c => [bitz b (bit r c); bitz w (bit r c); p]) (range 8))
      (range 8).

(** The integer whose bits, least significant first, are the list. *)
Definition lsb_val (l : list Z) : Z := fold_right (fun x acc => x + 2 * acc) 0 l.

(** The dense board of a bitboard state. *)
Definition state_array (s : list Z) : ndarray3 :=
  match s with
  | [b; w; p] => board_array b w p
  | _ => []
  end.

(** The converter sends position [pos] to the mask of its cell (checked
    position by position). *)
Definition position_check : bool :=
  forallb (fun pos =>
      match Converter.convert conv8 (VInt pos) "position" "bitboard_single" with
      | Some (VInt a) => a =? 2 ^ (63 - pos)
      | _ => false
      end)
    (range 64).

(** The side to move has a legal cell; every cell of the board is
    occupied. *)
Definition can_move (s : list Z) : Prop :=
  exists r c, inb r c = true /\ legal_cell (mover_board s) (other_board s) r c.

Definition board_full (s : list Z) : Prop :=
  forall r c, inb r c = true -> ~ vacant (mover_board s) (other_board s) r c.

Definition dcan_move (self : Dense.StateEnv) (d : ndarray3) : Prop :=
  exists r c, 0 <= r < Dense._size self /\ 0 <= c < Dense._size self
    /\ dlegal self d (at3 d 0 0 2) (1 - at3 d 0 0 2) r c.

Definition dboard_full (self : Dense.StateEnv) (d : ndarray3) : Prop :=
  forall r c, 0 <= r < Dense._size self -> 0 <= c < Dense._size self ->
    ~ dvacant d r c.

(** An action drawn from a legal-move set: the mask of one of its cells. *)
Definition legal_action (m a : Z) : Prop :=
  exists r c, inb r c = true /\ a = 2 ^ bit r c /\ Z.testbit m (bit r c) = true.

(** The states a game of the bitboard engine passes through, each with the
    legal-move set the engine returned with it: [reset], then [step] on
    actions drawn from the current set. *)
Inductive reachable (self : BitBoard.StateEnvBitBoard) : list Z -> Z -> Prop :=
| reach_reset s m p :
    BitBoard.reset self = Some (s, m, p) -> reachable self s m
| reach_step s m a s' m' p' done :
    reachable self s m -> legal_action m a ->
    BitBoard.step self s a = Some (s', m', p', done) ->
    reachable self s' m'.

(** The same for the dense engine; an action is the index of a cell whose
    entry in the legal-move array is set. *)
Definition dlegal_action (self : Dense.StateEnv) (lm : ndarray2) (a : Z) : Prop :=
  0 <= a < Dense._size self ^ 2
  /\ at2 lm (a / Dense._size self) (a mod Dense._size self) = 1.

Inductive dreachable (self : Dense.StateEnv) : ndarray3 -> ndarray2 -> Prop :=
| dreach_reset d lm p :
    Dense.reset self = Some (d, lm, p) -> dreachable self d lm
| dreach_step d lm a d' lm' p' done :
    dreachable self d lm -> dlegal_action self lm a ->
    Dense.step self d a = Some (d', lm', p', done) ->
    dreachable self d' lm'.

(** Cell [(r, c)] of a dense board holds a disc. *)
Definition doccupied (d : ndarray3) (r c : Z) : Prop :=
  at3 d r c 0 + at3 d r c 1 = 1.

(** The number of discs of a mask and the number of empty cells of a
    state. *)
Definition popcount64 (x : Z) : Z :=
  sum1 (map (fun i => Z.b2z (Z.testbit x i)) (range 64)).

Definition empties (s : list Z) : Z := 64 - popcount64 (occupied s).

(** [n] consecutive [step]s from state [s] with legal-move set [m], each on
    an action drawn from the current set and each but the last returning
    [done = 0]; the last returns [(s', m', done)]. *)
Inductive plays (self : BitBoard.StateEnvBitBoard)
  : nat -> list Z -> Z -> list Z -> Z -> Z -> Prop :=
| plays_last s m a s' m' p' done :
    legal_action m a ->
    BitBoard.step self s a = Some (s', m', p', done) ->
    plays self 1 s m s' m' done
| plays_more n s m a s1 m1 p1 s' m' done :
    legal_action m a ->
    BitBoard.step self s a = Some (s1, m1, p1, 0) ->
    plays self n s1 m1 s' m' done ->
    plays self (S n) s m s' m' done.

(** The loop of [Game.play], [while (not done): a = move(s, legal_moves);
    s, legal_moves, _, done = step(s, a)], with the agent as the function
    [move] and without the history; returns the number of steps and the
    last result. *)
Fixpoint play_loop (self : BitBoard.StateEnvBitBoard) (move : list Z -> Z -> Z)
    (fuel : nat) (s : list Z) (m : Z) : option (nat * list Z * Z * Z) :=
  match fuel with
  | O => None
  | S fuel' =>
      '(s', m', _, done) ← BitBoard.step self s (move s m);
      if done =? 0 then
        '(n, s'', m'', done') ← play_loop self move fuel' s' m';
        Some (S n, s'', m'', done')
      else Some (1%nat, s', m', done)
  end.

(** The starting position, channel by channel, and its legal cells. *)
Definition start_black : ndarray2 :=
  [ [0; 0; 0; 0; 0; 0; 0; 0];
    [0; 0; 0; 0; 0; 0; 0; 0];
    [0; 0; 0; 0; 0; 0; 0; 0];
    [0; 0; 0; 0; 1; 0; 0; 0];
    [0; 0; 0; 1; 0; 0; 0; 0];
    [0; 0; 0; 0; 0; 0; 0; 0];
    [0; 0; 0; 0; 0; 0; 0; 0];
    [0; 0; 0; 0; 0; 0; 0; 0] ].

Definition start_white : ndarray2 :=
  [ [0; 0; 0; 0; 0; 0; 0; 0];
    [0; 0; 0; 0; 0; 0; 0; 0];
    [0; 0; 0; 0; 0; 0; 0; 0];
    [0; 0; 0; 1; 0; 0; 0; 0];
    [0; 0; 0; 0; 1; 0; 0; 0];
    [0; 0; 0; 0; 0; 0; 0; 0];
    [0; 0; 0; 0; 0; 0; 0; 0];
    [0; 0; 0; 0; 0; 0; 0; 0] ].

Definition start_legal : ndarray2 :=
  [ [0; 0; 0; 0; 0; 0; 0; 0];
    [0; 0; 0; 0; 0; 0; 0; 0];
    [0; 0; 0; 0; 1; 0; 0; 0];
    [0; 0; 0; 0; 0; 1; 0; 0];
    [0; 0; 1; 0; 0; 0; 0; 0];
    [0; 0; 0; 1; 0; 0; 0; 0];
    [0; 0; 0; 0; 0; 0; 0; 0];
    [0; 0; 0; 0; 0; 0; 0; 0] ].

(** The state and the legal-move set [reset] returns, as masks and as a
    dense board; and those one move later, after white has played on cell
    [(3, 5)] (position 29, mask [2 ^ 34]). *)
Definition start_state : list Z := [34628173824; 68853694464; 1].
Definition start_moves : Z := 8813810810880.
Definition start_dense : ndarray3 := board_array 34628173824 68853694464 1.

Definition second_state : list Z := [268435456; 120393302016; 0].
Definition second_moves : Z := 21990299664384.
Definition second_dense : ndarray3 := board_array 268435456 120393302016 0.
Definition second_legal : ndarray2 := mask_array 21990299664384.

(** The board after black's answer on cell [(2, 3)] (position 19, mask
    [2 ^ 44]), as the move applicator leaves it: the disc on [(3, 3)] is
    turned over and the player channel is still black's. *)
Definition third_post : ndarray3 := board_array 17661173956608 51673825280 0.

(** A player, as [Game.play] asks one for a move: this one plays the
    first legal cell in row-major order, the highest bit of the set. *)
Definition highest_move (s : list Z) (legal_moves : Z) : Z :=
  2 ^ Z.log2 legal_moves.

(** ** Vocabulary for [Game] *)

(** An entry of the history with its reward replaced, as
    [self._hist[-1][-1] = winner] does. *)
Definition with_reward (t : Game.transition) (reward : Z) : Game.transition :=
  Game.mkTransition (Game.t_s t) (Game.t_legal_moves t) (Game.t_current_player t)
    (Game.t_a t) (Game.t_next_s t) (Game.t_next_legal_moves t)
    (Game.t_next_player t) (Game.t_done t) reward.

(** A player that plays by the rules in game [self]: on every valid state
    with a legal move, the conversions [play] applies to its arguments
    succeed, and its answer converts to the mask of one of the legal
    cells. *)
Definition lawful (self : Game.Game) (pl : Game.Player) : Prop :=
  forall s m,
    valid_state s ->
    BitBoard._legal_moves_helper (Game._env self) s = Some m ->
    m <> 0 ->
    exists s_in m_in a,
      Converter.convert (Game._converter self) (VTuple s) "bitboard"
        (Game.get_state_input_format pl) = Some s_in
      /\ Converter.convert (Game._converter self) (VInt m) "bitboard_single"
           (Game.get_legal_moves_input_format pl) = Some m_in
      /\ Converter.convert (Game._converter self) (Game.move pl s_in m_in)
           (Game.get_move_output_format pl) "bitboard_single" = Some (VInt a)
      /\ legal_action m a.

(** The entries a game adds to the history from state [s] with legal
    moves [m] and player [p] to its last state [s']: each entry is a
    [step] of the engine on an action drawn from the legal moves, each
    starts where the entry before ended, [done] is 1 on the last entry and
    0 on the others, and every reward is still -1. *)
Inductive played (env : BitBoard.StateEnvBitBoard)
  : list Z -> Z -> Z -> list Game.transition -> list Z -> Prop :=
| played_last s m p a s' m' p' :
    legal_action m a ->
    BitBoard.step env s a = Some (s', m', p', 1) ->
    played env s m p [Game.mkTransition s m p a s' m' p' 1 (-1)] s'
| played_more s m p a s1 m1 p1 rest s' :
    legal_action m a ->
    BitBoard.step env s a = Some (s1, m1, p1, 0) ->
    played env s1 m1 p1 rest s' ->
    played env s m p (Game.mkTransition s m p a s1 m1 p1 0 (-1) :: rest) s'.

(** A player that takes masks and answers with a mask: the first legal
    cell in row-major order. *)
Definition highest_player : Game.Player :=
  {| Game.move := fun _ legal_moves =>
       match legal_moves with
       | VInt m => VInt (highest_move [] m)
       | _ => VNone
       end;
     Game.get_state_input_format := "bitboard";
     Game.get_legal_moves_input_format := "bitboard_single";
     Game.get_move_output_format := "bitboard_single" |}.

(** ** Vocabulary for the symmetries of the board *)

(** A symmetry of the square board: it may swap rows and columns, and
    then mirror the rows, the columns or both.  [sym_cell] is the cell it
    reads for cell [(r, c)], [sym_dir] is what it does to a direction, and
    [sym_inv] is the symmetry that undoes it. *)
Record symmetry : Type := mkSym {
  swaps : bool;
  mirrors_rows : bool;
  mirrors_cols : bool
}.

Definition sym_cell (g : symmetry) (r c : Z) : Z * Z :=
  let '(r, c) := if swaps g then (c, r) else (r, c) in
  (if mirrors_rows g then 7 - r else r, if mirrors_cols g then 7 - c else c).

Definition sym_dir (g : symmetry) (dr dc : Z) : Z * Z :=
  let '(dr, dc) := if swaps g then (dc, dr) else (dr, dc) in
  (if mirrors_rows g then - dr else dr, if mirrors_cols g then - dc else dc).

Definition sym_inv (g : symmetry) : symmetry :=
  if swaps g then mkSym true (mirrors_cols g) (mirrors_rows g) else g.

(** An array function [f] acts on 8x8 arrays as the symmetry [g]: cell
    [(r, c)] of [f a] is cell [sym_cell g r c] of [a]. *)
Definition moves_cells (f : ndarray2 -> ndarray2) (g : symmetry) : Prop :=
  forall a, shape2 8 8 a ->
    shape2 8 8 (f a)
    /\ forall r c, 0 <= r < 8 -> 0 <= c < 8 ->
         at2 (f a) r c = at2 a (sym_cell g r c).1 (sym_cell g r c).2.

(** What [create_board_reps] makes of a mask and of a state under the
    array function [f]: the mask of the transformed array. *)
Definition mask_image (f : ndarray2 -> ndarray2) (x : Z) : Z :=
  weighted_sum (f (mask_array x)) weights8.

Definition state_image (f : ndarray2 -> ndarray2) (s : list Z) : list Z :=
  match s with
  | b :: w :: p :: _ => [mask_image f b; mask_image f w; p]
  | _ => s
  end.

Definition transition_image (f : ndarray2 -> ndarray2) (t : Game.transition)
  : Game.transition :=
  Game.mkTransition
    (state_image f (Game.t_s t)) (mask_image f (Game.t_legal_moves t))
    (Game.t_current_player t) (mask_image f (Game.t_a t))
    (state_image f (Game.t_next_s t)) (mask_image f (Game.t_next_legal_moves t))
    (Game.t_next_player t) (Game.t_done t) (Game.t_reward t).

(** An entry of a history that the engine stands behind: a valid state
    with its legal moves, an action drawn from them, and what [step]
    returns for the two. *)
Definition genuine (env : BitBoard.StateEnvBitBoard) (t : Game.transition) : Prop :=
  valid_state (Game.t_s t)
  /\ BitBoard._legal_moves_helper env (Game.t_s t) = Some (Game.t_legal_moves t)
  /\ legal_action (Game.t_legal_moves t) (Game.t_a t)
  /\ BitBoard.step env (Game.t_s t) (Game.t_a t)
     = Some (Game.t_next_s t, Game.t_next_legal_moves t,
             Game.t_next_player t, Game.t_done t).

(** The first entry of every game in which white opens on cell [(3, 5)]. *)
Definition opening_transition : Game.transition :=
  Game.mkTransition start_state start_moves 1 17179869184
    second_state second_moves 0 0 (-1).

(** ** Masks and cells *)

Lemma inb_iff r c : inb r c = true <-> 0 <= r < 8 /\ 0 <= c < 8.
Proof. unfold inb. rewrite !andb_true_iff, !Z.leb_le, !Z.ltb_lt. lia. Qed.

Lemma inb_false_iff r c : inb r c = false <-> ~ (0 <= r < 8 /\ 0 <= c < 8).
Proof. rewrite <- inb_iff. destruct (inb r c); intuition congruence. Qed.

Lemma bit_range r c : inb r c = true -> 0 <= bit r c < 64.
Proof. rewrite inb_iff. unfold bit. lia. Qed.

Lemma bit_inj r c r' c' :
  inb r c = true -> inb r' c' = true -> bit r c = bit r' c' -> r = r' /\ c = c'.
Proof. rewrite !inb_iff. unfold bit. lia. Qed.

Lemma bit_surj i :
  0 <= i < 64 -> exists r c, inb r c = true /\ bit r c = i.
Proof.
  intros Hi. exists ((63 - i) / 8), ((63 - i) mod 8).
  rewrite inb_iff. unfold bit.
  pose proof (Z.div_mod (63 - i) 8 ltac:(lia)).
  pose proof (Z.mod_pos_bound (63 - i) 8 ltac:(lia)).
  assert (0 <= (63 - i) / 8 < 8)
    by (split; [apply Z.div_pos; lia | apply Z.div_lt_upper_bound; lia]).
  lia.
Qed.

Lemma cell_true x r c :
  cell x r c = true <-> inb r c = true /\ Z.testbit x (bit r c) = true.
Proof. unfold cell. apply andb_true_iff. Qed.

Lemma cell_inb x r c : inb r c = true -> cell x r c = Z.testbit x (bit r c).
Proof. unfold cell. now intros ->. Qed.

Lemma cell_outb x r c : inb r c = false -> cell x r c = false.
Proof. unfold cell. now intros ->. Qed.

Lemma board64_high x n : board64 x -> 64 <= n -> Z.testbit x n = false.
Proof.
  intros [H0 H1] Hn.
  now apply (proj1 (Z.bounded_iff_bits_nonneg 64 x ltac:(lia) H0)).
Qed.

Lemma board64_ext x y :
  board64 x -> board64 y ->
  (forall r c, inb r c = true -> Z.testbit x (bit r c) = Z.testbit y (bit r c)) ->
  x = y.
Proof.
  intros Hx Hy H. apply Z.bits_inj'. intros n Hn.
  destruct (Z_lt_le_dec n 64) as [Hlt|Hge].
  - destruct (bit_surj n ltac:(lia)) as (r & c & Hrc & <-). now apply H.
  - now rewrite !board64_high.
Qed.

Lemma board64_zero x :
  board64 x -> (forall r c, inb r c = true -> Z.testbit x (bit r c) = false) ->
  x = 0.
Proof.
  intros Hx H. apply board64_ext; [assumption | unfold board64; lia |].
  intros r c Hrc. rewrite Z.bits_0. now apply H.
Qed.

Lemma board64_nonzero x :
  board64 x -> x <> 0 -> exists r c, inb r c = true /\ Z.testbit x (bit r c) = true.
Proof.
  intros Hx Hne.
  assert (Hpos : 0 < x) by (unfold board64 in Hx; lia).
  pose proof (Z.bit_log2 x Hpos) as Hb.
  assert (Hl : 0 <= Z.log2 x < 64).
  { split; [apply Z.log2_nonneg|]. apply Z.log2_lt_pow2; [lia|]. apply Hx. }
  destruct (bit_surj _ Hl) as (r & c & Hrc & Hbit).
  exists r, c. split; [assumption|]. now rewrite Hbit.
Qed.

Lemma board64_land_r x mask : board64 mask -> board64 (Z.land x mask).
Proof.
  intros Hm.
  assert (H0 : 0 <= Z.land x mask) by (apply Z.land_nonneg; right; apply Hm).
  split; [assumption|].
  apply (Z.bounded_iff_bits_nonneg 64 _ ltac:(lia) H0).
  intros l Hl. rewrite Z.land_spec, (board64_high mask) by assumption.
  apply andb_false_r.
Qed.

Lemma board64_land_l x y : board64 x -> board64 (Z.land x y).
Proof. rewrite Z.land_comm. apply board64_land_r. Qed.

Lemma board64_lor x y : board64 x -> board64 y -> board64 (Z.lor x y).
Proof.
  intros Hx Hy.
  assert (H0 : 0 <= Z.lor x y) by (apply Z.lor_nonneg; split; [apply Hx | apply Hy]).
  split; [assumption|].
  apply (Z.bounded_iff_bits_nonneg 64 _ ltac:(lia) H0).
  intros l Hl. now rewrite Z.lor_spec, !board64_high.
Qed.

Lemma board64_0 : board64 0.
Proof. unfold board64. lia. Qed.

Lemma board64_pow2 r c : inb r c = true -> board64 (2 ^ bit r c).
Proof.
  intros H. apply bit_range in H. split; [apply Z.pow_nonneg; lia|].
  apply Z.pow_lt_mono_r; lia.
Qed.

(** ** The eight shifts *)

Lemma in_range n x : In x (range n) <-> 0 <= x < n.
Proof.
  unfold range. rewrite in_map_iff. split.
  - intros (k & <- & Hk). apply in_seq in Hk. lia.
  - intros H. exists (Z.to_nat x). split; [lia|]. apply in_seq. lia.
Qed.

Lemma mask_check_spec mask dr dc r c :
  mask_check mask dr dc = true -> inb r c = true ->
  Z.testbit mask (bit r c) = inb (r + dr) (c + dc).
Proof.
  unfold mask_check. rewrite forallb_forall. intros H Hrc.
  apply inb_iff in Hrc. destruct Hrc as [Hr Hc].
  specialize (H r (proj2 (in_range 8 r) Hr)).
  rewrite forallb_forall in H.
  specialize (H c (proj2 (in_range 8 c) Hc)).
  now apply Bool.eqb_prop in H.
Qed.

Lemma shift_ok_shiftl k mask dr dc :
  board64 mask -> mask_check mask dr dc = true -> 8 * dr + dc = k ->
  shift_ok (fun x => Z.shiftl x k) mask dr dc.
Proof.
  intros Hm Hchk Hk. split; [assumption|]. intros x r c Hrc.
  pose proof (bit_range r c Hrc) as Hb.
  rewrite Z.land_spec, Z.shiftl_spec by lia.
  rewrite (mask_check_spec _ _ _ _ _ Hchk Hrc).
  unfold cell. rewrite andb_comm. f_equal. f_equal. unfold bit. lia.
Qed.

Lemma shift_ok_shiftr k mask dr dc :
  board64 mask -> mask_check mask dr dc = true -> 8 * dr + dc = - k ->
  shift_ok (fun x => Z.shiftr x k) mask dr dc.
Proof.
  intros Hm Hchk Hk. split; [assumption|]. intros x r c Hrc.
  pose proof (bit_range r c Hrc) as Hb.
  rewrite Z.land_spec, Z.shiftr_spec by lia.
  rewrite (mask_check_spec _ _ _ _ _ Hchk Hrc).
  unfold cell. rewrite andb_comm. f_equal. f_equal. unfold bit. lia.
Qed.

Ltac shift_ok_tac :=
  first [ apply shift_ok_shiftl | apply shift_ok_shiftr ];
  [ unfold board64; lia | vm_compute; reflexivity | reflexivity ].

Lemma shift_ok_left : shift_ok (fun x => Z.shiftl x 1) 18374403900871474942 0 1.
Proof. shift_ok_tac. Qed.

Lemma shift_ok_right : shift_ok (fun x => Z.shiftr x 1) 9187201950435737471 0 (-1).
Proof. shift_ok_tac. Qed.

Lemma shift_ok_top : shift_ok (fun x => Z.shiftl x 8) 18446744073709551360 1 0.
Proof. shift_ok_tac. Qed.

Lemma shift_ok_bottom : shift_ok (fun x => Z.shiftr x 8) 72057594037927935 (-1) 0.
Proof. shift_ok_tac. Qed.

Lemma shift_ok_right_top : shift_ok (fun x => Z.shiftl x 7) 9187201950435737344 1 (-1).
Proof. shift_ok_tac. Qed.

Lemma shift_ok_left_top : shift_ok (fun x => Z.shiftl x 9) 18374403900871474688 1 1.
Proof. shift_ok_tac. Qed.

Lemma shift_ok_right_bottom : shift_ok (fun x => Z.shiftr x 9) 35887507618889599 (-1) (-1).
Proof. shift_ok_tac. Qed.

Lemma shift_ok_left_bottom : shift_ok (fun x => Z.shiftr x 7) 71775015237779198 (-1) 1.
Proof. shift_ok_tac. Qed.

(** ** One direction of the legal-move sweep *)

(** Close a goal [f a b = true] from [H : f a' b' = true] with equal
    coordinates. *)
Ltac coords H :=
  match goal with
  | |- ?f ?a ?b = true =>
      match type of H with
      | f ?a' ?b' = true =>
          let E := fresh "E" in
          assert (E : f a b = f a' b') by (f_equal; lia);
          exact (eq_ind_r (fun t => t = true) H E)
      end
  end.

Section Sweep.

Variables (shift : Z -> Z) (mask dr dc : Z).
Hypothesis Hok : shift_ok shift mask dr dc.
Hypothesis Hdir : dr <> 0 \/ dc <> 0.
Variables (board_p board_notp e : Z).

Let own := cell board_p.
Let opp := cell board_notp.

Lemma chain_step k r c :
  0 <= k ->
  chain own opp dr dc (k + 1) r c
  <-> opp r c = true /\ chain own opp dr dc k (r + dr) (c + dc).
Proof.
  intros Hk. unfold chain. split.
  - intros [Hopp Hown]. repeat split.
    + pose proof (Hopp 0 ltac:(lia)) as H. coords H.
    + intros i Hi. pose proof (Hopp (i + 1) ltac:(lia)) as H. coords H.
    + coords Hown.
  - intros (H0 & Hopp & Hown). split.
    + intros i Hi. destruct (Z.eq_dec i 0) as [ -> |Hne].
      * coords H0.
      * pose proof (Hopp (i - 1) ltac:(lia)) as H. coords H.
    + coords Hown.
Qed.

Lemma chain_inb k r c : 0 <= k -> chain own opp dr dc k r c -> inb r c = true.
Proof.
  intros Hk [Hopp _]. pose proof (Hopp 0 ltac:(lia)) as H.
  apply cell_true in H. destruct H as [H _].
  now replace (r + 0 * dr) with r in H by lia; replace (c + 0 * dc) with c in H by lia.
Qed.

Lemma chain_suffix k j r c :
  0 <= k <= j -> chain own opp dr dc j r c ->
  chain own opp dr dc k (r + (j - k) * dr) (c + (j - k) * dc).
Proof.
  intros Hkj [Hopp Hown]. split.
  - intros i Hi. pose proof (Hopp (j - k + i) ltac:(lia)) as H. coords H.
  - coords Hown.
Qed.

Lemma chain_short k r c : 0 <= k -> chain own opp dr dc k r c -> k < 7.
Proof.
  intros Hk [Hopp Hown].
  destruct (Z_lt_le_dec k 7) as [|Hge]; [assumption | exfalso].
  pose proof (Hopp 0 ltac:(lia)) as H0. pose proof (Hopp 7 ltac:(lia)) as H7.
  apply cell_true in H0, H7, Hown.
  destruct H0 as [H0 _], H7 as [H7 _], Hown as [Hown _].
  apply inb_iff in H0, H7, Hown.
  assert (Hr : dr = -1 \/ dr = 0 \/ dr = 1) by lia.
  assert (Hc : dc = -1 \/ dc = 0 \/ dc = 1) by lia.
  destruct Hr as [ -> | [ -> | -> ] ], Hc as [ -> | [ -> | -> ] ]; lia.
Qed.

Lemma run_chain r c n :
  run own opp r c dr dc n
  <-> 1 <= n /\ chain own opp dr dc (n - 1) (r + dr) (c + dc).
Proof.
  unfold run, chain. split.
  - intros (Hn & Hopp & Hown). repeat split; [assumption | |].
    + intros i Hi. pose proof (Hopp (i + 1) ltac:(lia)) as H. coords H.
    + coords Hown.
  - intros (Hn & Hopp & Hown). repeat split; [assumption | |].
    + intros i Hi. pose proof (Hopp (i - 1) ltac:(lia)) as H. coords H.
    + coords Hown.
Qed.

Lemma shifted_holds c k r0 c0 :
  0 <= k -> holds c (chain own opp dr dc k) -> inb r0 c0 = true ->
  Z.testbit (Z.land (shift c) mask) (bit r0 c0) = true
  <-> chain own opp dr dc k (r0 + dr) (c0 + dc).
Proof.
  intros Hk [_ Hc] Hrc. destruct Hok as [_ Hs]. rewrite Hs by assumption.
  rewrite cell_true. split.
  - intros [Hin Hb]. now apply Hc.
  - intros Hch. pose proof (chain_inb _ _ _ Hk Hch) as Hin.
    split; [assumption|]. now apply Hc.
Qed.

Lemma legal_loop_spec fuel : forall k c m,
  0 <= k -> 7 <= k + Z.of_nat fuel ->
  holds c (chain own opp dr dc k) ->
  exists m',
    BitBoard.legal_loop fuel shift mask board_notp e c m = Some m'
    /\ (board64 m -> board64 m')
    /\ forall r0 c0, inb r0 c0 = true ->
         (Z.testbit m' (bit r0 c0) = true
          <-> Z.testbit m (bit r0 c0) = true
              \/ (Z.testbit e (bit r0 c0) = true
                  /\ exists j, k <= j /\ chain own opp dr dc j (r0 + dr) (c0 + dc))).
Proof.
  induction fuel as [|fuel IH]; intros k c m Hk Hfuel Hc.
  - (* no fuel left: the sweep has left the board, [c] is empty *)
    assert (Hc0 : c = 0).
    { destruct (Z.eq_dec c 0) as [|Hne]; [assumption | exfalso].
      destruct (board64_nonzero c (proj1 Hc) Hne) as (r0 & c0 & Hin & Hb).
      apply (proj2 Hc) in Hb; [|assumption].
      apply chain_short in Hb; lia. }
    subst c. simpl. exists m. split; [reflexivity|]. split; [tauto|].
    intros r0 c0 Hin. split; [tauto|]. intros [H|(_ & j & Hj & Hch)]; [assumption|].
    apply chain_short in Hch; lia.
  - simpl. destruct (Z.eqb_spec c 0) as [Hc0|Hne].
    + exists m. split; [reflexivity|]. split; [tauto|].
      intros r0 c0 Hin. split; [tauto|]. intros [H|(_ & j & Hj & Hch)]; [assumption|].
      exfalso. pose proof (chain_suffix k j _ _ ltac:(lia) Hch) as Hs.
      pose proof (chain_inb _ _ _ Hk Hs) as Hin'.
      apply (proj2 Hc) in Hs; [|assumption].
      subst c. now rewrite Z.bits_0 in Hs.
    + set (c' := Z.land (Z.land board_notp (shift c)) mask).
      set (m1 := Z.lor m (Z.land (Z.land e (shift c)) mask)).
      assert (Hc' : holds c' (chain own opp dr dc (k + 1))).
      { split; [apply board64_land_r, Hok|].
        intros r0 c0 Hin. unfold c'. rewrite <- Z.land_assoc, Z.land_spec.
        rewrite andb_true_iff, (shifted_holds c k) by assumption.
        rewrite chain_step by assumption. unfold opp at 2.
        now rewrite cell_inb. }
      destruct (IH (k + 1) c' m1 ltac:(lia) ltac:(lia) Hc')
        as (m' & Hrun & Hb64 & Hm').
      exists m'. split; [assumption|]. split.
      { intros Hm. apply Hb64. unfold m1. apply board64_lor; [assumption|].
        apply board64_land_r, Hok. }
      intros r0 c0 Hin. rewrite Hm' by assumption. unfold m1.
      rewrite Z.lor_spec, orb_true_iff, <- Z.land_assoc, Z.land_spec.
      rewrite andb_true_iff, (shifted_holds c k) by assumption.
      split.
      * intros [[H|[He Hch]]|(He & j & Hj & Hch)]; [now left | right..].
        -- split; [assumption|]. exists k. split; [lia | assumption].
        -- split; [assumption|]. exists j. split; [lia | assumption].
      * intros [H|(He & j & Hj & Hch)]; [now left; left|].
        destruct (Z.eq_dec j k) as [ -> |Hjk].
        -- left; right. now split.
        -- right. split; [assumption|]. exists j. split; [lia | assumption].
Qed.

Lemma legal_dir_spec m :
  exists m',
    BitBoard.legal_dir shift mask board_p board_notp e m = Some m'
    /\ (board64 m -> board64 m')
    /\ forall r0 c0, inb r0 c0 = true ->
         (Z.testbit m' (bit r0 c0) = true
          <-> Z.testbit m (bit r0 c0) = true
              \/ (Z.testbit e (bit r0 c0) = true
                  /\ exists n, run own opp r0 c0 dr dc n)).
Proof.
  unfold BitBoard.legal_dir.
  set (c := Z.land (Z.land board_notp (shift board_p)) mask).
  assert (Hc : holds c (chain own opp dr dc 0)).
  { split; [apply board64_land_r, Hok|].
    intros r0 c0 Hin. unfold c. rewrite <- Z.land_assoc, Z.land_spec.
    destruct Hok as [_ Hs]. rewrite Hs, andb_true_iff by assumption.
    unfold chain. split.
    - intros [Ho Hw]. split.
      + intros i Hi. assert (i = 0) as -> by lia.
        assert (H : opp r0 c0 = true) by (unfold opp; now rewrite cell_inb).
        coords H.
      + fold own in Hw. coords Hw.
    - intros [Ho Hw]. split.
      + pose proof (Ho 0 ltac:(lia)) as H.
        assert (H' : opp r0 c0 = true) by coords H.
        unfold opp in H'. now rewrite cell_inb in H'.
      + fold own. coords Hw. }
  destruct (legal_loop_spec BitBoard.loop_fuel 0 c m ltac:(lia)
              ltac:(unfold BitBoard.loop_fuel; lia) Hc) as (m' & Hrun & Hb & Hm').
  exists m'. split; [assumption|]. split; [assumption|].
  intros r0 c0 Hin. rewrite Hm' by assumption.
  split; (intros [H|[He Hex]]; [now left | right; split; [assumption|]]).
  - destruct Hex as (j & Hj & Hch). exists (j + 1). apply run_chain.
    split; [lia|]. now replace (j + 1 - 1) with j by lia.
  - destruct Hex as (n & Hrun'). apply run_chain in Hrun'.
    destruct Hrun' as [Hn Hch]. exists (n - 1). split; [lia | assumption].
Qed.

End Sweep.

(** ** The legal-move generator of the bitboard engine *)

Lemma complement_spec x :
  board64 x ->
  board64 (0xFFFFFFFFFFFFFFFF - x)
  /\ forall i, 0 <= i < 64 ->
       Z.testbit (0xFFFFFFFFFFFFFFFF - x) i = negb (Z.testbit x i).
Proof.
  intros Hx. change 0xFFFFFFFFFFFFFFFF with (Z.ones 64).
  assert (Hd : Z.ldiff x (Z.ones 64) = 0).
  { apply Z.bits_inj'. intros n Hn. rewrite Z.ldiff_spec, Z.bits_0.
    destruct (Z_lt_le_dec n 64).
    - rewrite Z.ones_spec_low by lia. apply andb_false_r.
    - now rewrite board64_high. }
  rewrite (Z.sub_nocarry_ldiff _ _ Hd). split.
  - assert (H0 : 0 <= Z.ldiff (Z.ones 64) x).
    { apply Z.ldiff_nonneg. left. rewrite Z.ones_equiv. lia. }
    split; [assumption|].
    apply (Z.bounded_iff_bits_nonneg 64 _ ltac:(lia) H0).
    intros l Hl. rewrite Z.ldiff_spec, Z.ones_spec_high by lia. reflexivity.
  - intros i Hi. now rewrite Z.ldiff_spec, Z.ones_spec_low by lia.
Qed.

Lemma valid_state_boards s :
  valid_state s ->
  board64 (mover_board s) /\ board64 (other_board s)
  /\ Z.land (mover_board s) (other_board s) = 0.
Proof.
  intros (b & w & p & -> & Hb & Hw & Hd & [ -> | -> ]); simpl;
    repeat split; try assumption; try apply Hb; try apply Hw.
  now rewrite Z.land_comm.
Qed.

Lemma disjoint_cells x y r c :
  Z.land x y = 0 -> cell x r c = true -> cell y r c = true -> False.
Proof.
  intros Hd Hx Hy. apply cell_true in Hx, Hy.
  assert (H : Z.testbit (Z.land x y) (bit r c) = true).
  { rewrite Z.land_spec. now rewrite (proj2 Hx), (proj2 Hy). }
  rewrite Hd, Z.bits_0 in H. discriminate.
Qed.

(** The reads at the head of [_legal_moves_helper] and [_get_next_board]. *)
Lemma valid_state_reads s :
  valid_state s ->
  exists p, (p = 0 \/ p = 1)
    /\ py_index s 2 = Some p
    /\ py_index s p = Some (mover_board s)
    /\ py_index s (if truthy p then 0 else 1) = Some (other_board s).
Proof.
  intros (b & w & p & -> & _ & _ & _ & Hp). exists p. split; [assumption|].
  destruct Hp as [ -> | -> ]; repeat split.
Qed.

Lemma in_directions dr dc :
  In (dr, dc) Dense.directions
  <-> (dr, dc) = (0, 1) \/ (dr, dc) = (0, -1) \/ (dr, dc) = (1, 0)
      \/ (dr, dc) = (-1, 0) \/ (dr, dc) = (1, -1) \/ (dr, dc) = (1, 1)
      \/ (dr, dc) = (-1, -1) \/ (dr, dc) = (-1, 1).
Proof. unfold Dense.directions. simpl. intuition congruence. Qed.

Ltac pick_dir :=
  first [ right; split; [assumption | eexists; eassumption] | left; pick_dir ].

Lemma legal_moves_helper_boards bs board_p board_notp s :
  board64 board_p -> board64 board_notp ->
  (exists p, py_index s 2 = Some p /\ py_index s p = Some board_p
     /\ py_index s (if truthy p then 0 else 1) = Some board_notp) ->
  exists m,
    BitBoard._legal_moves_helper (BitBoard.init bs) s = Some m
    /\ holds m (legal_cell board_p board_notp).
Proof.
  intros Hbp Hbn (p & E2 & Ep & En).
  unfold BitBoard._legal_moves_helper. rewrite E2. cbn [mbind option_bind].
  rewrite Ep. cbn [mbind option_bind]. rewrite En. cbn [mbind option_bind].
  cbn [BitBoard._max BitBoard.init].
  destruct (complement_spec _ (board64_lor _ _ Hbp Hbn)) as [He64 He].
  set (e := 0xFFFFFFFFFFFFFFFF - Z.lor board_p board_notp) in *.
  destruct (legal_dir_spec _ _ _ _ shift_ok_left ltac:(lia) board_p board_notp e 0)
    as (m1 & E1 & B1 & H1). rewrite E1. cbn [mbind option_bind].
  destruct (legal_dir_spec _ _ _ _ shift_ok_right ltac:(lia) board_p board_notp e m1)
    as (m2 & E & B2 & H2). rewrite E. clear E. cbn [mbind option_bind].
  destruct (legal_dir_spec _ _ _ _ shift_ok_top ltac:(lia) board_p board_notp e m2)
    as (m3 & E & B3 & H3). rewrite E. clear E. cbn [mbind option_bind].
  destruct (legal_dir_spec _ _ _ _ shift_ok_bottom ltac:(lia) board_p board_notp e m3)
    as (m4 & E & B4 & H4). rewrite E. clear E. cbn [mbind option_bind].
  destruct (legal_dir_spec _ _ _ _ shift_ok_right_top ltac:(lia) board_p board_notp e m4)
    as (m5 & E & B5 & H5). rewrite E. clear E. cbn [mbind option_bind].
  destruct (legal_dir_spec _ _ _ _ shift_ok_left_top ltac:(lia) board_p board_notp e m5)
    as (m6 & E & B6 & H6). rewrite E. clear E. cbn [mbind option_bind].
  destruct (legal_dir_spec _ _ _ _ shift_ok_right_bottom ltac:(lia) board_p board_notp e m6)
    as (m7 & E & B7 & H7). rewrite E. clear E. cbn [mbind option_bind].
  destruct (legal_dir_spec _ _ _ _ shift_ok_left_bottom ltac:(lia) board_p board_notp e m7)
    as (m8 & E & B8 & H8). rewrite E. clear E. cbn [mbind option_bind].
  exists m8. split; [reflexivity|]. split.
  { apply B8, B7, B6, B5, B4, B3, B2, B1, board64_0. }
  intros r c Hin.
  rewrite H8, H7, H6, H5, H4, H3, H2, H1, Z.bits_0 by assumption.
  assert (Hvac : Z.testbit e (bit r c) = true <-> vacant board_p board_notp r c).
  { rewrite He by (now apply bit_range). unfold vacant.
    rewrite !cell_inb, Z.lor_spec by assumption.
    destruct (Z.testbit board_p (bit r c)), (Z.testbit board_notp (bit r c));
      simpl; intuition congruence. }
  unfold legal_cell, captures. rewrite <- Hvac. split.
  - intros H.
    repeat (destruct H as [H|H]); try discriminate;
      (destruct H as [Hv [n Hn]]; split; [assumption|];
       do 2 eexists; exists n; split; [|exact Hn]; apply in_directions; tauto).
  - intros [Hv (dr & dc & n & Hd & Hn)]. apply in_directions in Hd.
    repeat (destruct Hd as [Hd|Hd]); injection Hd as -> ->; pick_dir.
Qed.

Lemma legal_moves_helper_valid bs s :
  valid_state s ->
  exists m,
    BitBoard._legal_moves_helper (BitBoard.init bs) s = Some m
    /\ holds m (legal_cell (mover_board s) (other_board s)).
Proof.
  intros Hv. destruct (valid_state_boards s Hv) as (Hbp & Hbn & _).
  destruct (valid_state_reads s Hv) as (p & _ & E2 & Ep & En).
  apply legal_moves_helper_boards; eauto.
Qed.

(** ** One direction of the move applicator *)

Lemma holds_ext x P Q :
  holds x P -> (forall r c, inb r c = true -> (P r c <-> Q r c)) -> holds x Q.
Proof.
  intros [Hb H] HPQ. split; [assumption|].
  intros r c Hin. rewrite <- HPQ by assumption. now apply H.
Qed.

Lemma holds_unique x y P : holds x P -> holds y P -> x = y.
Proof.
  intros [Hx HxP] [Hy HyP]. apply board64_ext; try assumption.
  intros r c Hin. apply eq_true_iff_eq. now rewrite HxP, HyP.
Qed.

Lemma holds_lor x y P Q :
  holds x P -> holds y Q -> holds (Z.lor x y) (fun r c => P r c \/ Q r c).
Proof.
  intros [Hx HxP] [Hy HyQ]. split; [now apply board64_lor|].
  intros r c Hin. now rewrite Z.lor_spec, orb_true_iff, HxP, HyQ.
Qed.

Lemma holds_0 : holds 0 (fun _ _ => False).
Proof.
  split; [apply board64_0|]. intros r c _. rewrite Z.bits_0. intuition discriminate.
Qed.

Lemma holds_pow2 r0 c0 :
  inb r0 c0 = true -> holds (2 ^ bit r0 c0) (fun r c => r = r0 /\ c = c0).
Proof.
  intros Hin. split; [now apply board64_pow2|].
  intros r c Hrc. pose proof (bit_range _ _ Hin) as Hb.
  rewrite Z.pow2_bits_eqb, Z.eqb_eq by lia. split.
  - intros H. symmetry in H. now apply bit_inj in H.
  - now intros [ -> -> ].
Qed.

Lemma holds_cell x P r c : holds x P -> (cell x r c = true <-> inb r c = true /\ P r c).
Proof.
  intros [_ H]. rewrite cell_true. split; intros [Hin Hp]; (split; [assumption|]);
    now apply H.
Qed.

(** A mask of at most one cell meets another mask exactly when that
    mask holds the cell. *)
Lemma single_land c y qr qc :
  holds c (fun r c => r = qr /\ c = qc) ->
  (Z.land c y =? 0) = negb (cell y qr qc).
Proof.
  intros Hc. destruct (cell y qr qc) eqn:Hy; simpl.
  - apply Z.eqb_neq. intros H0. apply cell_true in Hy. destruct Hy as [Hin Hy].
    assert (Hb : Z.testbit (Z.land c y) (bit qr qc) = true).
    { rewrite Z.land_spec, Hy, andb_true_r. now apply (proj2 Hc). }
    rewrite H0, Z.bits_0 in Hb. discriminate.
  - apply Z.eqb_eq. apply board64_zero; [apply board64_land_l, Hc|].
    intros r c0 Hin. rewrite Z.land_spec.
    destruct (Z.testbit c (bit r c0)) eqn:Hb; [|reflexivity].
    apply (proj2 Hc) in Hb; [|assumption]. destruct Hb as [-> ->].
    now rewrite cell_inb in Hy.
Qed.

Section Flip.

Variables (shift : Z -> Z) (mask dr dc : Z).
Hypothesis Hok : shift_ok shift mask dr dc.
Hypothesis Hdir : dr <> 0 \/ dc <> 0.
Hypothesis Hunit : -1 <= dr <= 1 /\ -1 <= dc <= 1.
Variables (board_p board_notp : Z).
Hypothesis Hdisj : Z.land board_p board_notp = 0.
Variables (r0 c0 : Z).
Hypothesis Hin0 : inb r0 c0 = true.

Let own := cell board_p.
Let opp := cell board_notp.

(** The cell reached after [k] steps of the walk, which moves against the
    direction of [shift_ok]. *)
Let at_step (k r c : Z) : Prop := r = r0 + k * - dr /\ c = c0 + k * - dc.

Lemma unit_cases :
  (dr = -1 \/ dr = 0 \/ dr = 1) /\ (dc = -1 \/ dc = 0 \/ dc = 1).
Proof. lia. Qed.

Lemma shifted_single c k :
  0 <= k -> holds c (at_step k) ->
  holds (Z.land (shift c) mask) (at_step (k + 1)).
Proof.
  intros Hk Hc. split; [apply board64_land_r, Hok|].
  intros r c1 Hin. destruct Hok as [_ Hs]. rewrite Hs by assumption.
  rewrite (holds_cell _ _ _ _ Hc). unfold at_step. split.
  - intros [_ [H1 H2]]. lia.
  - intros [H1 H2]. split; [|lia].
    (* the walk came from a cell of the board *)
    apply inb_iff. apply inb_iff in Hin, Hin0. clear Hs Hc Hok.
    destruct unit_cases as [Hr Hc].
    destruct Hr as [ -> | [ -> | -> ] ], Hc as [ -> | [ -> | -> ] ]; lia.
Qed.

Lemma walk_short k :
  1 <= k -> opp (r0 + k * - dr) (c0 + k * - dc) = true -> k < 8.
Proof.
  intros Hk H. apply cell_true in H. destruct H as [H _].
  apply inb_iff in H, Hin0.
  destruct Hunit as [Hr Hc].
  assert (Hr' : dr = -1 \/ dr = 0 \/ dr = 1) by lia.
  assert (Hc' : dc = -1 \/ dc = 0 \/ dc = 1) by lia.
  destruct Hr' as [ -> | [ -> | -> ] ], Hc' as [ -> | [ -> | -> ] ]; lia.
Qed.

Lemma walk_unique n n' :
  0 <= n ->
  (forall i, 1 <= i <= n -> opp (r0 + i * - dr) (c0 + i * - dc) = true) ->
  opp (r0 + (n + 1) * - dr) (c0 + (n + 1) * - dc) = false ->
  run own opp r0 c0 (- dr) (- dc) n' -> n' = n.
Proof.
  intros Hn Hopp Hstop (Hn' & Hopp' & Hown').
  destruct (Z.lt_trichotomy n' n) as [Hlt|[Heq|Hgt]]; [exfalso | assumption | exfalso].
  - pose proof (Hopp (n' + 1) ltac:(lia)) as H.
    exact (disjoint_cells _ _ _ _ Hdisj Hown' H).
  - pose proof (Hopp' (n + 1) ltac:(lia)) as H. congruence.
Qed.

Lemma flip_loop_spec fuel : forall k c m,
  1 <= k -> 8 <= k + Z.of_nat fuel ->
  holds c (at_step k) ->
  holds m (fun r c => exists i, 1 <= i < k /\ at_step i r c) ->
  (forall i, 1 <= i < k -> opp (r0 + i * - dr) (c0 + i * - dc) = true) ->
  exists c' m' n,
    BitBoard.flip_loop fuel shift mask board_notp c m = Some (c', m')
    /\ k - 1 <= n
    /\ (forall i, 1 <= i <= n -> opp (r0 + i * - dr) (c0 + i * - dc) = true)
    /\ opp (r0 + (n + 1) * - dr) (c0 + (n + 1) * - dc) = false
    /\ holds c' (at_step (n + 1))
    /\ holds m' (fun r c => exists i, 1 <= i <= n /\ at_step i r c).
Proof.
  induction fuel as [|fuel IH]; intros k c m Hk Hfuel Hc Hm Hopp;
    pose proof (single_land c board_notp _ _ Hc) as Hchk; fold opp in Hchk.
  - assert (Hstop : opp (r0 + k * - dr) (c0 + k * - dc) = false).
    { destruct (opp _ _) eqn:E; [|reflexivity]. apply walk_short in E; lia. }
    simpl. rewrite Hchk, Hstop. simpl.
    exists c, m, (k - 1). split; [reflexivity|]. split; [lia|].
    split; [intros i Hi; apply Hopp; lia|].
    replace (k - 1 + 1) with k by lia.
    split; [assumption|]. split; [assumption|].
    apply (holds_ext _ _ _ Hm). intros r c1 Hin.
    split; intros (i & Hi & Hat); exists i; (split; [lia | assumption]).
  - simpl. rewrite Hchk.
    destruct (opp (r0 + k * - dr) (c0 + k * - dc)) eqn:Hstop; simpl.
    + destruct (IH (k + 1) (Z.land (shift c) mask) (Z.lor m c)
                  ltac:(lia) ltac:(lia)) as (c' & m' & n & E & Hn & Ho & Hs & Hc' & Hm').
      * apply shifted_single; [lia | assumption].
      * apply (holds_ext _ _ _ (holds_lor _ _ _ _ Hm Hc)).
        intros r c1 Hin. split.
        -- intros [(i & Hi & Hat)|Hat]; [exists i | exists k]; (split; [lia | assumption]).
        -- intros (i & Hi & Hat). destruct (Z.eq_dec i k) as [ -> |Hne].
           ++ now right.
           ++ left. exists i. split; [lia | assumption].
      * intros i Hi. destruct (Z.eq_dec i k) as [ -> |Hne]; [assumption|].
        apply Hopp. lia.
      * exists c', m', n. split; [assumption|]. split; [lia|]. tauto.
    + exists c, m, (k - 1). split; [reflexivity|]. split; [lia|].
      split; [intros i Hi; apply Hopp; lia|].
      replace (k - 1 + 1) with k by lia.
      split; [assumption|]. split; [assumption|].
      apply (holds_ext _ _ _ Hm). intros r c1 Hin.
      split; intros (i & Hi & Hat); exists i; (split; [lia | assumption]).
Qed.

(** The cells a move at [(r0, c0)] turns over in this direction. *)
Let turned (r c : Z) : Prop :=
  exists n i, run own opp r0 c0 (- dr) (- dc) n
    /\ 1 <= i <= n /\ r = r0 + i * - dr /\ c = c0 + i * - dc.

Lemma flip_dir_spec u P :
  holds u P ->
  exists u',
    BitBoard.flip_dir shift mask board_p board_notp (2 ^ bit r0 c0) u = Some u'
    /\ holds u' (fun r c => P r c \/ turned r c).
Proof.
  intros Hu. unfold BitBoard.flip_dir.
  set (c1 := Z.land (Z.land board_notp (shift (2 ^ bit r0 c0))) mask).
  assert (Hc1 : holds c1 (fun r c => at_step 1 r c /\ opp r c = true)).
  { split; [apply board64_land_r, Hok|].
    intros r c Hin. unfold c1. rewrite <- Z.land_assoc, Z.land_spec.
    destruct Hok as [_ Hs]. rewrite Hs, andb_true_iff by assumption.
    rewrite (holds_cell _ _ _ _ (holds_pow2 _ _ Hin0)).
    unfold opp, at_step. rewrite cell_inb by assumption. split.
    - intros (Ho & _ & H1 & H2). split; [lia | assumption].
    - intros ([H1 H2] & Ho). split; [assumption|].
      split; [|lia]. replace (r + dr) with r0 by lia.
      now replace (c + dc) with c0 by lia. }
  destruct (opp (r0 + 1 * - dr) (c0 + 1 * - dc)) eqn:Hfirst.
  - (* the neighbour is an opposing disc: the walk starts *)
    assert (Hc1' : holds c1 (at_step 1)).
    { apply (holds_ext _ _ _ Hc1). intros r c Hin. split; [tauto|].
      intros Hat. split; [assumption|]. destruct Hat as [-> ->]. exact Hfirst. }
    destruct (flip_loop_spec BitBoard.loop_fuel 1 c1 0 ltac:(lia)
                ltac:(unfold BitBoard.loop_fuel; lia) Hc1')
      as (c' & m' & n & E & Hn & Ho & Hs & Hc' & Hm').
    { apply (holds_ext _ _ _ holds_0). intros r c Hin. split; [tauto|].
      intros (i & Hi & _). lia. }
    { intros i Hi. lia. }
    rewrite E. cbn [mbind option_bind].
    pose proof (single_land c' board_p _ _ Hc') as Hchk. fold own in Hchk.
    unfold truthy. rewrite Hchk, !negb_involutive.
    assert (Hn1 : 1 <= n).
    { destruct (Z.eq_dec n 0) as [ -> |]; [|lia]. change (0 + 1) with 1 in Hs. congruence. }
    destruct (own (r0 + (n + 1) * - dr) (c0 + (n + 1) * - dc)) eqn:Hown.
    + exists (Z.lor u m'). split; [reflexivity|].
      apply (holds_ext _ _ _ (holds_lor _ _ _ _ Hu Hm')).
      intros r c Hin. split; (intros [HP|H]; [now left | right]).
      * destruct H as (i & Hi & Hat). exists n, i.
        split; [|split; [assumption | exact Hat]].
        split; [assumption|]. split; assumption.
      * destruct H as (n' & i & Hrun & Hi & Hat).
        pose proof (walk_unique n n' ltac:(lia) Ho Hs Hrun) as ->.
        exists i. split; [assumption | exact Hat].
    + exists u. split; [reflexivity|].
      apply (holds_ext _ _ _ Hu). intros r c Hin. split; [now left|].
      intros [HP|(n' & i & Hrun & _)]; [assumption | exfalso].
      pose proof (walk_unique n n' ltac:(lia) Ho Hs Hrun) as ->.
      destruct Hrun as (_ & _ & Hown'). congruence.
  - (* no opposing neighbour: nothing to turn over *)
    assert (Hc0 : c1 = 0).
    { apply board64_zero; [apply Hc1|]. intros r c Hin.
      destruct (Z.testbit c1 (bit r c)) eqn:Hb; [|reflexivity].
      apply (proj2 Hc1) in Hb; [|assumption].
      destruct Hb as [[-> ->] Ho]. congruence. }
    rewrite Hc0. simpl. exists u. split; [reflexivity|].
    apply (holds_ext _ _ _ Hu). intros r c Hin. split; [now left|].
    intros [HP|(n' & i & (Hn' & Hopp' & _) & _)]; [assumption | exfalso].
    pose proof (Hopp' 1 ltac:(lia)) as H. congruence.
Qed.

End Flip.

(** ** The move applicator of the bitboard engine *)

Lemma flipped_opp own opp r0 c0 r c : flipped own opp r0 c0 r c -> opp r c = true.
Proof.
  intros (dr & dc & n & i & _ & (_ & Hopp & _) & Hi & -> & ->). now apply Hopp.
Qed.

Lemma holds_sub x y P Q :
  holds x P -> holds y Q -> (forall r c, inb r c = true -> Q r c -> P r c) ->
  holds (x - y) (fun r c => P r c /\ ~ Q r c).
Proof.
  intros [Hx HxP] [Hy HyQ] Hsub.
  assert (Hd : Z.ldiff y x = 0).
  { apply board64_zero.
    - split; [apply Z.ldiff_nonneg; left; apply Hy|].
      apply (Z.bounded_iff_bits_nonneg 64 _ ltac:(lia));
        [apply Z.ldiff_nonneg; left; apply Hy|].
      intros l Hl. now rewrite Z.ldiff_spec, (board64_high y).
    - intros r c Hin. rewrite Z.ldiff_spec.
      destruct (Z.testbit y (bit r c)) eqn:E; [|reflexivity].
      apply HyQ, Hsub, HxP in E; try assumption. now rewrite E. }
  rewrite (Z.sub_nocarry_ldiff _ _ Hd). split.
  - split; [apply Z.ldiff_nonneg; left; apply Hx|].
    apply (Z.bounded_iff_bits_nonneg 64 _ ltac:(lia));
      [apply Z.ldiff_nonneg; left; apply Hx|].
    intros l Hl. now rewrite Z.ldiff_spec, (board64_high x).
  - intros r c Hin. rewrite Z.ldiff_spec, andb_true_iff, negb_true_iff.
    rewrite HxP by assumption. rewrite <- HyQ by assumption.
    destruct (Z.testbit y (bit r c)); intuition congruence.
Qed.

Ltac pick_turn :=
  first [ right; do 2 eexists; split; [eassumption | split; [eassumption | split; reflexivity]]
        | left; pick_turn ].

Lemma get_next_board_boards bs board_p board_notp p s r0 c0 :
  board64 board_p -> board64 board_notp -> Z.land board_p board_notp = 0 ->
  py_index s 2 = Some p -> py_index s p = Some board_p ->
  py_index s (if truthy p then 0 else 1) = Some board_notp ->
  inb r0 c0 = true ->
  exists bp' bn',
    BitBoard._get_next_board (BitBoard.init bs) s (2 ^ bit r0 c0)
      = Some (if p =? 0 then [bp'; bn'; p] else [bn'; bp'; p])
    /\ holds bp' (moved_own board_p board_notp r0 c0)
    /\ holds bn' (moved_opp board_p board_notp r0 c0).
Proof.
  intros Hbp Hbn Hdisj E2 Ep En Hin.
  unfold BitBoard._get_next_board. rewrite E2. cbn [mbind option_bind].
  rewrite Ep. cbn [mbind option_bind]. rewrite En. cbn [mbind option_bind].
  destruct (flip_dir_spec _ _ _ _ shift_ok_left ltac:(lia) ltac:(lia)
              _ _ Hdisj _ _ Hin _ _ holds_0) as (u1 & E & H1).
  rewrite E. clear E. cbn [mbind option_bind].
  destruct (flip_dir_spec _ _ _ _ shift_ok_right ltac:(lia) ltac:(lia)
              _ _ Hdisj _ _ Hin _ _ H1) as (u2 & E & H2).
  rewrite E. clear E H1. cbn [mbind option_bind].
  destruct (flip_dir_spec _ _ _ _ shift_ok_top ltac:(lia) ltac:(lia)
              _ _ Hdisj _ _ Hin _ _ H2) as (u3 & E & H3).
  rewrite E. clear E H2. cbn [mbind option_bind].
  destruct (flip_dir_spec _ _ _ _ shift_ok_bottom ltac:(lia) ltac:(lia)
              _ _ Hdisj _ _ Hin _ _ H3) as (u4 & E & H4).
  rewrite E. clear E H3. cbn [mbind option_bind].
  destruct (flip_dir_spec _ _ _ _ shift_ok_right_top ltac:(lia) ltac:(lia)
              _ _ Hdisj _ _ Hin _ _ H4) as (u5 & E & H5).
  rewrite E. clear E H4. cbn [mbind option_bind].
  destruct (flip_dir_spec _ _ _ _ shift_ok_left_top ltac:(lia) ltac:(lia)
              _ _ Hdisj _ _ Hin _ _ H5) as (u6 & E & H6).
  rewrite E. clear E H5. cbn [mbind option_bind].
  destruct (flip_dir_spec _ _ _ _ shift_ok_right_bottom ltac:(lia) ltac:(lia)
              _ _ Hdisj _ _ Hin _ _ H6) as (u7 & E & H7).
  rewrite E. clear E H6. cbn [mbind option_bind].
  destruct (flip_dir_spec _ _ _ _ shift_ok_left_bottom ltac:(lia) ltac:(lia)
              _ _ Hdisj _ _ Hin _ _ H7) as (u8 & E & H8).
  rewrite E. clear E H7. cbn [mbind option_bind].
  assert (Hu : holds u8 (flipped (cell board_p) (cell board_notp) r0 c0)).
  { apply (holds_ext _ _ _ H8). intros r c Hrc. unfold flipped. split.
    - intros H.
      repeat (destruct H as [H|H]); try contradiction;
        destruct H as (n & i & Hrun & Hi & Hr & Hc);
        do 2 eexists; exists n, i;
        (split; [|split; [exact Hrun | split; [exact Hi | split; [exact Hr | exact Hc]]]]);
        vm_compute; tauto.
    - intros (dr & dc & n & i & Hd & Hrun & Hi & Hr & Hc).
      apply in_directions in Hd.
      repeat (destruct Hd as [Hd|Hd]); injection Hd as -> ->; subst r c; pick_turn. }
  exists (Z.lor (Z.lor board_p u8) (2 ^ bit r0 c0)), (board_notp - u8).
  split; [now destruct (p =? 0)|]. split.
  - apply (holds_ext _ (fun r c => (cell board_p r c = true
        \/ flipped (cell board_p) (cell board_notp) r0 c0 r c) \/ (r = r0 /\ c = c0))).
    + apply holds_lor; [apply holds_lor|]; try assumption.
      * split; [assumption|]. intros r c Hrc. now rewrite cell_inb.
      * now apply holds_pow2.
    + intros r c Hrc. unfold moved_own. tauto.
  - apply (holds_sub _ _ (fun r c => cell board_notp r c = true)); try assumption.
    + split; [assumption|]. intros r c Hrc. now rewrite cell_inb.
    + intros r c _. apply flipped_opp.
Qed.

Lemma get_next_board_valid bs s r0 c0 :
  valid_state s -> inb r0 c0 = true ->
  vacant (mover_board s) (other_board s) r0 c0 ->
  exists s',
    BitBoard._get_next_board (BitBoard.init bs) s (2 ^ bit r0 c0) = Some s'
    /\ valid_state s'
    /\ py_index s' 2 = py_index s 2
    /\ holds (mover_board s') (moved_own (mover_board s) (other_board s) r0 c0)
    /\ holds (other_board s') (moved_opp (mover_board s) (other_board s) r0 c0).
Proof.
  intros Hv Hin [Hv1 Hv2].
  destruct (valid_state_boards s Hv) as (Hbp & Hbn & Hdisj).
  destruct (valid_state_reads s Hv) as (p & Hp & E2 & Ep & En).
  destruct (get_next_board_boards bs _ _ p s r0 c0 Hbp Hbn Hdisj E2 Ep En Hin)
    as (bp' & bn' & E & Hown & Hopp).
  assert (Hd' : Z.land bp' bn' = 0).
  { apply board64_zero; [apply board64_land_l, Hown|].
    intros r c Hrc. rewrite Z.land_spec.
    destruct (Z.testbit bp' (bit r c)) eqn:E1; [|reflexivity].
    destruct (Z.testbit bn' (bit r c)) eqn:E2'; [|reflexivity]. exfalso.
    apply (proj2 Hown) in E1; [|assumption].
    apply (proj2 Hopp) in E2'; [|assumption].
    destruct E2' as [Ho Hnf]. destruct E1 as [H|[H|[-> ->]]].
    - exact (disjoint_cells _ _ _ _ Hdisj H Ho).
    - contradiction.
    - congruence. }
  eexists. split; [exact E|].
  destruct Hp as [ -> | -> ]; simpl.
  - split; [|rewrite E2; auto].
    exists bp', bn', 0. repeat split; try apply Hown; try apply Hopp; auto.
  - split; [|rewrite E2; auto].
    exists bn', bp', 1. repeat split; try apply Hown; try apply Hopp; auto.
    now rewrite Z.land_comm.
Qed.

(** ** Turn resolution of the bitboard engine *)

Lemma valid_set_player s q :
  valid_state s -> q = 0 \/ q = 1 -> valid_state (set_player s q).
Proof.
  intros (b & w & p & -> & Hb & Hw & Hd & Hp) Hq.
  exists b, w, q. split; [reflexivity | tauto].
Qed.

Lemma valid_player s : valid_state s -> player s = 0 \/ player s = 1.
Proof. now intros (b & w & p & -> & _ & _ & _ & Hp). Qed.

Lemma valid_py_player s : valid_state s -> py_index s 2 = Some (player s).
Proof. now intros (b & w & p & -> & _). Qed.

Lemma opponent_cases p : p = 0 \/ p = 1 -> opponent p = 1 - p.
Proof. now intros [ -> | -> ]. Qed.

Lemma set_player_boards s :
  valid_state s ->
  mover_board (set_player s (opponent (player s))) = other_board s
  /\ other_board (set_player s (opponent (player s))) = mover_board s
  /\ mover_board (set_player s (player s)) = mover_board s
  /\ other_board (set_player s (player s)) = other_board s
  /\ occupied s = Z.lor (mover_board s) (other_board s).
Proof.
  intros (b & w & p & -> & _ & _ & _ & [ -> | -> ]); simpl; repeat split.
  apply Z.lor_comm.
Qed.

Lemma step_spec bs s r0 c0 :
  valid_state s -> inb r0 c0 = true ->
  vacant (mover_board s) (other_board s) r0 c0 ->
  let self := BitBoard.init bs in
  let p := player s in
  exists post m1,
    BitBoard._get_next_board self s (2 ^ bit r0 c0) = Some post
    /\ valid_state post /\ player post = p
    /\ BitBoard._legal_moves_helper self (set_player post (opponent p)) = Some m1
    /\ ((m1 <> 0
         /\ BitBoard.step self s (2 ^ bit r0 c0)
            = Some (set_player post (opponent p), m1, opponent p, 0))
        \/ (m1 = 0 /\ occupied post = 0xFFFFFFFFFFFFFFFF
            /\ BitBoard.step self s (2 ^ bit r0 c0)
               = Some (set_player post (opponent p), 0, opponent p, 1))
        \/ (m1 = 0 /\ occupied post <> 0xFFFFFFFFFFFFFFFF
            /\ exists m2,
                 BitBoard._legal_moves_helper self (set_player post p) = Some m2
                 /\ BitBoard.step self s (2 ^ bit r0 c0)
                    = Some (set_player post p, m2, p, if m2 =? 0 then 1 else 0))).
Proof.
  intros Hv Hin Hvac self p. subst self.
  destruct (get_next_board_valid bs s r0 c0 Hv Hin Hvac)
    as (post & Enext & Hvpost & Epl & _).
  rewrite (valid_py_player _ Hv), (valid_py_player _ Hvpost) in Epl.
  injection Epl as Epl. fold p in Epl.
  pose proof (valid_player _ Hv) as Hp. fold p in Hp.
  assert (Hq : opponent p = 0 \/ opponent p = 1)
    by (destruct Hp as [ -> | -> ]; simpl; auto).
  destruct (legal_moves_helper_valid bs _ (valid_set_player post _ Hvpost Hq))
    as (m1 & E1 & _).
  destruct (legal_moves_helper_valid bs _ (valid_set_player post _ Hvpost Hp))
    as (m2 & E2 & _).
  exists post, m1. split; [assumption|]. split; [assumption|].
  split; [assumption|]. split; [assumption|].
  unfold BitBoard.step. rewrite Enext. cbn [mbind option_bind].
  rewrite (valid_py_player _ Hv). fold p. cbn [mbind option_bind].
  destruct Hvpost as (b' & w' & p' & -> & Hb' & Hw' & Hd' & Hp').
  simpl in Epl. subst p'.
  change (py_setitem [b'; w'; p] 2 (if truthy p then 0 else 1))
    with (Some (set_player [b'; w'; p] (opponent p))).
  cbn [mbind option_bind]. rewrite E1. cbn [mbind option_bind].
  destruct (Z.eqb_spec m1 0) as [Hm1|Hm1].
  - right. subst m1.
    change (py_index (set_player [b'; w'; p] (opponent p)) 0) with (Some b').
    change (py_index (set_player [b'; w'; p] (opponent p)) 1) with (Some w').
    cbn [mbind option_bind]. cbn [BitBoard._max BitBoard.init occupied].
    destruct (Z.eqb_spec (Z.lor b' w') 0xFFFFFFFFFFFFFFFF) as [Hfull|Hfull].
    + left. repeat split; assumption.
    + right. split; [reflexivity|]. split; [assumption|].
      exists m2. split; [assumption|].
      change (py_index (set_player [b'; w'; p] (opponent p)) 2)
        with (Some (opponent p)).
      cbn [mbind option_bind].
      replace (py_setitem (set_player [b'; w'; p] (opponent p)) 2
                 (if truthy (opponent p) then 0 else 1))
        with (Some (set_player [b'; w'; p] p))
        by (destruct Hp as [ -> | -> ]; reflexivity).
      cbn [mbind option_bind]. rewrite E2. cbn [mbind option_bind].
      destruct (m2 =? 0); reflexivity.
  - left. split; [assumption|]. reflexivity.
Qed.

(** ** Arrays *)

Lemma py_index_lookup {A} (l : list A) i :
  0 <= i < Z.of_nat (length l) -> py_index l i = l !! Z.to_nat i.
Proof.
  intros Hi. unfold py_index. destruct (Z.leb_spec 0 i); [reflexivity | lia].
Qed.

Lemma py_index_Some {A} (l : list A) i :
  0 <= i < Z.of_nat (length l) -> exists x, py_index l i = Some x.
Proof.
  intros Hi. rewrite py_index_lookup by assumption.
  apply lookup_lt_is_Some_2. lia.
Qed.

Lemma py_index_out {A} (l : list A) i :
  Z.of_nat (length l) <= i \/ i < - Z.of_nat (length l) -> py_index l i = None.
Proof.
  intros H. unfold py_index.
  destruct (Z.leb_spec 0 i) as [Hi|Hi].
  - apply lookup_ge_None_2. lia.
  - destruct (Z.leb_spec (- Z.of_nat (length l)) i); [lia|reflexivity].
Qed.

Lemma py_setitem_insert {A} (l : list A) i v :
  0 <= i < Z.of_nat (length l) -> py_setitem l i v = Some (<[Z.to_nat i := v]> l).
Proof.
  intros Hi. unfold py_setitem. destruct (Z.leb_spec 0 i); [|lia].
  destruct (Z.ltb_spec i (Z.of_nat (length l))); [reflexivity | lia].
Qed.

Lemma shape3_row n m s r :
  shape3 n m s -> 0 <= r < n ->
  exists row, py_index s r = Some row
    /\ Z.of_nat (length row) = m
    /\ Forall (fun cell => length cell = 3%nat) row.
Proof.
  intros [Hlen Hrows] Hr.
  destruct (py_index_Some s r ltac:(lia)) as [row E]. exists row.
  split; [assumption|]. rewrite py_index_lookup in E by lia.
  exact (Forall_lookup_1 _ _ _ _ Hrows E).
Qed.

Lemma row_cell (row : list (list Z)) c :
  Forall (fun cell => length cell = 3%nat) row ->
  0 <= c < Z.of_nat (length row) ->
  exists cell, py_index row c = Some cell /\ length cell = 3%nat.
Proof.
  intros Hcells Hc.
  destruct (py_index_Some row c Hc) as [cell E]. exists cell.
  split; [assumption|]. rewrite py_index_lookup in E by lia.
  exact (Forall_lookup_1 _ _ _ _ Hcells E).
Qed.

Lemma get3_at3 n m s r c k :
  shape3 n m s -> 0 <= r < n -> 0 <= c < m -> 0 <= k < 3 ->
  get3 s r c k = Some (at3 s r c k).
Proof.
  intros Hs Hr Hc Hk. unfold at3, get3.
  destruct (shape3_row n m s r Hs Hr) as (row & -> & Hlen & Hcells).
  cbn [mbind option_bind].
  destruct (row_cell row c Hcells ltac:(lia)) as (cell & -> & Hlen3).
  cbn [mbind option_bind].
  destruct (py_index_Some cell k ltac:(lia)) as [x ->]. reflexivity.
Qed.

Lemma set3_spec n m s r c k v :
  shape3 n m s -> 0 <= r < n -> 0 <= c < m -> 0 <= k < 3 ->
  exists s', set3 s r c k v = Some s'
    /\ shape3 n m s'
    /\ forall r' c' k', 0 <= r' < n -> 0 <= c' < m -> 0 <= k' < 3 ->
         at3 s' r' c' k'
         = if decide (r' = r /\ c' = c /\ k' = k) then v else at3 s r' c' k'.
Proof.
  intros Hs Hr Hc Hk. unfold set3.
  destruct (shape3_row n m s r Hs Hr) as (row & Erow & Hlen & Hcells).
  destruct (row_cell row c Hcells ltac:(lia)) as (cell & Ecell & Hlen3).
  destruct Hs as [Hn Hrows].
  rewrite Erow. cbn [mbind option_bind]. rewrite Ecell. cbn [mbind option_bind].
  rewrite py_setitem_insert by lia. cbn [mbind option_bind].
  rewrite py_setitem_insert by lia. cbn [mbind option_bind].
  rewrite py_setitem_insert by lia.
  eexists. split; [reflexivity|].
  assert (Hrow' : Z.of_nat (length (<[Z.to_nat c := <[Z.to_nat k := v]> cell]> row)) = m
                  /\ Forall (fun cell => length cell = 3%nat)
                       (<[Z.to_nat c := <[Z.to_nat k := v]> cell]> row)).
  { split; [now rewrite length_insert|].
    apply Forall_insert; [assumption|]. now rewrite length_insert. }
  split.
  { split; [now rewrite length_insert|]. now apply Forall_insert. }
  intros r' c' k' Hr' Hc' Hk'. unfold at3, get3.
  rewrite py_index_lookup by (rewrite length_insert; lia).
  rewrite py_index_lookup in Erow by lia. rewrite py_index_lookup in Ecell by lia.
  destruct (decide (r' = r)) as [ -> |Hne].
  - rewrite list_lookup_insert_eq by lia. cbn [mbind option_bind].
    rewrite py_index_lookup by (rewrite length_insert; lia).
    destruct (decide (c' = c)) as [ -> |Hnc].
    + rewrite list_lookup_insert_eq by lia. cbn [mbind option_bind].
      rewrite py_index_lookup by (rewrite length_insert; lia).
      rewrite (py_index_lookup s), Erow by lia. cbn [mbind option_bind].
      rewrite (py_index_lookup row), Ecell by lia. cbn [mbind option_bind].
      rewrite (py_index_lookup cell) by lia.
      destruct (decide (k' = k)) as [ -> |Hnk].
      * rewrite list_lookup_insert_eq by lia.
        destruct (decide _) as [|Hn']; [reflexivity | tauto].
      * rewrite list_lookup_insert_ne by lia.
        destruct (decide _) as [Hy|]; [lia | reflexivity].
    + rewrite list_lookup_insert_ne by lia.
      rewrite (py_index_lookup s), Erow by lia. cbn [mbind option_bind].
      rewrite (py_index_lookup row) by lia.
      destruct (decide _) as [Hy|]; [lia | reflexivity].
  - rewrite list_lookup_insert_ne by lia.
    rewrite (py_index_lookup s) by lia.
    destruct (decide _) as [Hy|]; [lia | reflexivity].
Qed.

Lemma shape2_row n m a r :
  shape2 n m a -> 0 <= r < n ->
  exists row, py_index a r = Some row /\ Z.of_nat (length row) = m.
Proof.
  intros [Hlen Hrows] Hr.
  destruct (py_index_Some a r ltac:(lia)) as [row E]. exists row.
  split; [assumption|]. rewrite py_index_lookup in E by lia.
  exact (Forall_lookup_1 _ _ _ _ Hrows E).
Qed.

Lemma get2_at2 n m a r c :
  shape2 n m a -> 0 <= r < n -> 0 <= c < m -> get2 a r c = Some (at2 a r c).
Proof.
  intros Ha Hr Hc. unfold at2, get2.
  destruct (shape2_row n m a r Ha Hr) as (row & -> & Hlen).
  cbn [mbind option_bind].
  destruct (py_index_Some row c ltac:(lia)) as [x ->]. reflexivity.
Qed.

Lemma set2_spec n m a r c v :
  shape2 n m a -> 0 <= r < n -> 0 <= c < m ->
  exists a', set2 a r c v = Some a'
    /\ shape2 n m a'
    /\ forall r' c', 0 <= r' < n -> 0 <= c' < m ->
         at2 a' r' c' = if decide (r' = r /\ c' = c) then v else at2 a r' c'.
Proof.
  intros Ha Hr Hc. unfold set2.
  destruct (shape2_row n m a r Ha Hr) as (row & Erow & Hlen).
  destruct Ha as [Hn Hrows].
  rewrite Erow. cbn [mbind option_bind].
  rewrite py_setitem_insert by lia. cbn [mbind option_bind].
  rewrite py_setitem_insert by lia.
  eexists. split; [reflexivity|]. split.
  { split; [now rewrite length_insert|].
    apply Forall_insert; [assumption|]. now rewrite length_insert. }
  intros r' c' Hr' Hc'. unfold at2, get2.
  rewrite py_index_lookup by (rewrite length_insert; lia).
  rewrite py_index_lookup in Erow by lia.
  destruct (decide (r' = r)) as [ -> |Hne].
  - rewrite list_lookup_insert_eq by lia. cbn [mbind option_bind].
    rewrite py_index_lookup by (rewrite length_insert; lia).
    rewrite (py_index_lookup a), Erow by lia. cbn [mbind option_bind].
    rewrite (py_index_lookup row) by lia.
    destruct (decide (c' = c)) as [ -> |Hnc].
    + rewrite list_lookup_insert_eq by lia.
      destruct (decide _) as [|Hn']; [reflexivity | tauto].
    + rewrite list_lookup_insert_ne by lia.
      destruct (decide _) as [Hy|]; [lia | reflexivity].
  - rewrite list_lookup_insert_ne by lia.
    rewrite (py_index_lookup a) by lia.
    destruct (decide _) as [Hy|]; [lia | reflexivity].
Qed.

(** ** One direction of the dense engine *)

Lemma check_legal_index_iff self r c :
  Dense._check_legal_index self r c = true
  <-> 0 <= r < Dense._size self /\ 0 <= c < Dense._size self.
Proof.
  unfold Dense._check_legal_index.
  rewrite !andb_true_iff, !Z.leb_le, !Z.ltb_lt. lia.
Qed.

Lemma dcell_true self s k r c :
  dcell self s k r c = true
  <-> (0 <= r < Dense._size self /\ 0 <= c < Dense._size self) /\ at3 s r c k = 1.
Proof.
  unfold dcell. now rewrite andb_true_iff, check_legal_index_iff, Z.eqb_eq.
Qed.

Lemma dcell_false self s k r c :
  0 <= r < Dense._size self -> 0 <= c < Dense._size self ->
  (dcell self s k r c = false <-> at3 s r c k <> 1).
Proof.
  intros Hr Hc. unfold dcell.
  rewrite (proj2 (check_legal_index_iff self r c)) by tauto.
  simpl. apply Z.eqb_neq.
Qed.

Section DenseDir.

Variables (self : Dense.StateEnv) (s : ndarray3).
Hypothesis Hvalid : valid_dense (Dense._size self) s.
Variables (cur oppc : Z).
Hypothesis Hcur : (cur = 0 /\ oppc = 1) \/ (cur = 1 /\ oppc = 0).
Variables (row col dr dc : Z).
Hypothesis Hrow : 0 <= row < Dense._size self.
Hypothesis Hcol : 0 <= col < Dense._size self.
Hypothesis Hdir : dr <> 0 \/ dc <> 0.
Hypothesis Hunit : -1 <= dr <= 1 /\ -1 <= dc <= 1.

Let N := Dense._size self.
Let own := dcell self s cur.
Let opp := dcell self s oppc.

Lemma dense_disjoint r c : own r c = true -> opp r c = true -> False.
Proof.
  unfold own, opp. rewrite !dcell_true. intros [[Hr Hc] H1] [_ H2].
  destruct Hvalid as (_ & _ & _ & Hcells).
  destruct (Hcells r c Hr Hc) as (_ & _ & _ & Hsum).
  destruct Hcur as [[-> ->]|[-> ->]]; lia.
Qed.

Lemma dense_unit_cases :
  (dr = -1 \/ dr = 0 \/ dr = 1) /\ (dc = -1 \/ dc = 0 \/ dc = 1).
Proof. lia. Qed.

(** A cell of the board [i >= 1] steps away is less than [N] steps away. *)
Lemma dense_walk_short i :
  1 <= i -> 0 <= row + i * dr < N -> 0 <= col + i * dc < N -> i < N.
Proof.
  intros Hi Hr Hc. unfold N in *.
  destruct dense_unit_cases as [Hr' Hc'].
  destruct Hr' as [ -> | [ -> | -> ] ], Hc' as [ -> | [ -> | -> ] ]; lia.
Qed.

Lemma no_run i :
  1 <= i ->
  (forall j, 1 <= j <= i -> opp (row + j * dr) (col + j * dc) = true) ->
  own (row + (i + 1) * dr) (col + (i + 1) * dc) = false ->
  opp (row + (i + 1) * dr) (col + (i + 1) * dc) = false ->
  forall n, ~ run own opp row col dr dc n.
Proof.
  intros Hi Hopp Hown' Hopp' n (Hn & Ho & Hw).
  destruct (Z.lt_trichotomy n i) as [Hlt|[ -> |Hgt]].
  - exact (dense_disjoint _ _ Hw (Hopp (n + 1) ltac:(lia))).
  - congruence.
  - pose proof (Ho (i + 1) ltac:(lia)). congruence.
Qed.

Lemma search_loop_spec fuel : forall i,
  1 <= i -> N <= i + Z.of_nat fuel ->
  (forall j, 1 <= j <= i -> opp (row + j * dr) (col + j * dc) = true) ->
  exists found nr nc,
    Dense.search_loop fuel self s row col dr dc cur i = Some (found, nr, nc)
    /\ (found = true ->
        exists n, run own opp row col dr dc n
          /\ nr = row + (n + 1) * dr /\ nc = col + (n + 1) * dc)
    /\ (found = false -> forall n, ~ run own opp row col dr dc n).
Proof.
  induction fuel as [|fuel IH]; intros i Hi Hfuel Hopp.
  - exfalso. pose proof (Hopp i ltac:(lia)) as H.
    apply dcell_true in H. destruct H as [[Hr Hc] _].
    pose proof (dense_walk_short i Hi Hr Hc). lia.
  - cbn [Dense.search_loop].
    destruct (Dense._check_legal_index self (row + (i + 1) * dr) (col + (i + 1) * dc))
      eqn:Hin.
    + apply check_legal_index_iff in Hin. destruct Hin as [Hr Hc].
      destruct Hvalid as (HN & Hshape & _ & Hcells).
      destruct (Hcells _ _ Hr Hc) as (_ & Hb & Hw & Hsum).
      rewrite (get3_at3 _ _ _ _ _ 0 Hshape Hr Hc ltac:(lia)). cbn [mbind option_bind].
      rewrite (get3_at3 _ _ _ _ _ 1 Hshape Hr Hc ltac:(lia)). cbn [mbind option_bind].
      destruct (Z.eqb_spec (at3 s (row + (i + 1) * dr) (col + (i + 1) * dc) 0
                            + at3 s (row + (i + 1) * dr) (col + (i + 1) * dc) 1) 0)
        as [Hblank|Hdisc].
      * (* an empty cell: no run *)
        exists false, (row + (i + 1) * dr), (col + (i + 1) * dc).
        split; [reflexivity|]. split; [discriminate|]. intros _.
        apply (no_run i Hi Hopp).
        -- apply dcell_false; [assumption..|].
           unfold bit01 in Hb, Hw. destruct Hcur as [[-> ->]|[-> ->]]; lia.
        -- apply dcell_false; [assumption..|].
           unfold bit01 in Hb, Hw. destruct Hcur as [[-> ->]|[-> ->]]; lia.
      * rewrite (get3_at3 _ _ _ _ _ cur Hshape Hr Hc
                   ltac:(destruct Hcur as [[-> ->]|[-> ->]]; lia)).
        cbn [mbind option_bind].
        destruct (Z.eqb_spec (at3 s (row + (i + 1) * dr) (col + (i + 1) * dc) cur) 1)
          as [Hmine|Hnot].
        -- (* a disc of the mover: the run is closed *)
           exists true, (row + (i + 1) * dr), (col + (i + 1) * dc).
           split; [reflexivity|]. split; [|discriminate]. intros _.
           exists i. split; [|split; reflexivity].
           split; [assumption|]. split; [assumption|].
           apply dcell_true. tauto.
        -- (* an opposing disc: the walk goes on *)
           apply IH; [lia | lia |].
           intros j Hj. destruct (Z.eq_dec j (i + 1)) as [ -> |Hne];
             [|apply Hopp; lia].
           apply dcell_true. split; [tauto|].
           unfold bit01 in Hb, Hw. destruct Hcur as [[-> ->]|[-> ->]]; lia.
    + (* the edge of the board: no run *)
      exists false, (row + (i + 1) * dr), (col + (i + 1) * dc).
      split; [reflexivity|]. split; [discriminate|]. intros _.
      apply (no_run i Hi Hopp); unfold own, opp, dcell; now rewrite Hin.
Qed.


Lemma run_unique n n' :
  run own opp row col dr dc n -> run own opp row col dr dc n' -> n = n'.
Proof.
  intros (Hn & Ho & Hw) (Hn' & Ho' & Hw').
  destruct (Z.lt_trichotomy n n') as [Hlt|[Heq|Hgt]]; [exfalso | assumption | exfalso].
  - exact (dense_disjoint _ _ Hw (Ho' (n + 1) ltac:(lia))).
  - exact (dense_disjoint _ _ Hw' (Ho (n' + 1) ltac:(lia))).
Qed.

(** The cells of the walk after step [i], up to step [n]. *)
Let seg (n i r c : Z) : Prop :=
  exists j, i < j <= n /\ r = row + j * dr /\ c = col + j * dc.

Lemma turn_loop_spec n fuel : forall i s_new,
  (forall j, 1 <= j <= n -> 0 <= row + j * dr < N /\ 0 <= col + j * dc < N) ->
  0 <= i <= n -> n + 1 <= i + Z.of_nat fuel ->
  shape3 N N s_new ->
  exists s',
    Dense.turn_loop fuel row col dr dc (row + (n + 1) * dr) (col + (n + 1) * dc)
      cur oppc i s_new = Some s'
    /\ shape3 N N s'
    /\ forall r c, 0 <= r < N -> 0 <= c < N ->
         at3 s' r c 2 = at3 s_new r c 2
         /\ (at3 s' r c cur = 1 <-> at3 s_new r c cur = 1 \/ seg n i r c)
         /\ (at3 s' r c oppc = 1 <-> at3 s_new r c oppc = 1 /\ ~ seg n i r c)
         /\ (bit01 (at3 s_new r c cur) -> bit01 (at3 s' r c cur))
         /\ (bit01 (at3 s_new r c oppc) -> bit01 (at3 s' r c oppc)).
Proof.
  induction fuel as [|fuel IH]; intros i s_new Hseg Hi Hfuel Hshape; [lia|].
  cbn [Dense.turn_loop].
  destruct (Z.eq_dec i n) as [ -> |Hne].
  - rewrite !Z.eqb_refl. simpl. exists s_new. split; [reflexivity|].
    split; [assumption|]. intros r c Hr Hc.
    assert (Hnone : ~ seg n n r c) by (intros (j & Hj & _); lia).
    tauto.
  - assert (Hcont : (row + (i + 1) * dr =? row + (n + 1) * dr)
                    && (col + (i + 1) * dc =? col + (n + 1) * dc) = false).
    { apply andb_false_iff. rewrite !Z.eqb_neq.
      destruct dense_unit_cases as [Hr' Hc'].
      destruct Hr' as [ -> | [ -> | -> ] ], Hc' as [ -> | [ -> | -> ] ]; lia. }
    rewrite Hcont.
    destruct (Hseg (i + 1) ltac:(lia)) as [Hr1 Hc1].
    destruct (set3_spec N N s_new _ _ oppc 0 Hshape Hr1 Hc1
                ltac:(destruct Hcur as [[-> ->]|[-> ->]]; lia))
      as (s1 & -> & Hshape1 & Hs1).
    cbn [mbind option_bind].
    destruct (set3_spec N N s1 _ _ cur 1 Hshape1 Hr1 Hc1
                ltac:(destruct Hcur as [[-> ->]|[-> ->]]; lia))
      as (s2 & -> & Hshape2 & Hs2).
    cbn [mbind option_bind].
    destruct (IH (i + 1) s2 Hseg ltac:(lia) ltac:(lia) Hshape2)
      as (s' & E & Hshape' & Hs').
    exists s'. split; [assumption|]. split; [assumption|].
    intros r c Hr Hc. destruct (Hs' r c Hr Hc) as (H2 & Hc' & Ho' & Hbc & Hbo).
    assert (Hstep : seg n i r c
                    <-> (r = row + (i + 1) * dr /\ c = col + (i + 1) * dc)
                        \/ seg n (i + 1) r c).
    { unfold seg. split.
      - intros (j & Hj & Hrj & Hcj). destruct (Z.eq_dec j (i + 1)) as [ -> |];
          [now left | right; exists j; repeat split; [lia..|assumption|assumption]].
      - intros [[Hrj Hcj]|(j & Hj & Hrj & Hcj)];
          [exists (i + 1) | exists j]; repeat split; try assumption; lia. }
    assert (E2 : at3 s2 r c 2 = at3 s_new r c 2).
    { rewrite Hs2, Hs1 by lia.
      repeat (destruct (decide _) as [?|?]);
        try reflexivity; destruct Hcur as [[-> ->]|[-> ->]]; lia. }
    assert (Ec : at3 s2 r c cur
                 = if decide (r = row + (i + 1) * dr /\ c = col + (i + 1) * dc)
                   then 1 else at3 s_new r c cur).
    { rewrite Hs2, Hs1 by (destruct Hcur as [[-> ->]|[-> ->]]; lia).
      repeat (destruct (decide _) as [?|?]);
        try reflexivity; destruct Hcur as [[-> ->]|[-> ->]]; lia. }
    assert (Eo : at3 s2 r c oppc
                 = if decide (r = row + (i + 1) * dr /\ c = col + (i + 1) * dc)
                   then 0 else at3 s_new r c oppc).
    { rewrite Hs2, Hs1 by (destruct Hcur as [[-> ->]|[-> ->]]; lia).
      repeat (destruct (decide _) as [?|?]);
        try reflexivity; destruct Hcur as [[-> ->]|[-> ->]]; lia. }
    rewrite Ec in Hc', Hbc. rewrite Eo in Ho', Hbo. rewrite E2 in H2.
    rewrite Hc', Ho', Hstep.
    split; [assumption|].
    destruct (decide (r = row + (i + 1) * dr /\ c = col + (i + 1) * dc)) as [Hy|Hn].
    + split; [intuition lia|]. split; [intuition lia|].
      split; intros _; [apply Hbc | apply Hbo]; unfold bit01; lia.
    + tauto.
Qed.

(** The cells a move at [(row, col)] turns over in this direction. *)
Let on_run (r c : Z) : Prop :=
  exists n i, run own opp row col dr dc n
    /\ 1 <= i <= n /\ r = row + i * dr /\ c = col + i * dc.

Lemma dir_body_spec play lm s_new :
  shape2 N N lm -> shape3 N N s_new ->
  exists lm' s_new',
    Dense.dir_body self s play cur oppc row col (dr, dc) (lm, s_new)
      = Some (lm', s_new')
    /\ shape2 N N lm' /\ shape3 N N s_new'
    /\ (forall r c, 0 <= r < N -> 0 <= c < N ->
          (at2 lm' r c = 1
           <-> at2 lm r c = 1
               \/ (r = row /\ c = col /\ exists n, run own opp row col dr dc n))
          /\ (bit01 (at2 lm r c) -> bit01 (at2 lm' r c)))
    /\ (play = false -> s_new' = s_new)
    /\ (play = true -> forall r c, 0 <= r < N -> 0 <= c < N ->
          at3 s_new' r c 2 = at3 s_new r c 2
          /\ (at3 s_new' r c cur = 1 <-> at3 s_new r c cur = 1 \/ on_run r c)
          /\ (at3 s_new' r c oppc = 1 <-> at3 s_new r c oppc = 1 /\ ~ on_run r c)
          /\ (bit01 (at3 s_new r c cur) -> bit01 (at3 s_new' r c cur))
          /\ (bit01 (at3 s_new r c oppc) -> bit01 (at3 s_new' r c oppc))).
Proof.
  intros Hlm Hsn.
  (* what happens when this direction holds no run *)
  assert (Hnone : (forall n, ~ run own opp row col dr dc n) ->
    shape2 N N lm /\ shape3 N N s_new
    /\ (forall r c, 0 <= r < N -> 0 <= c < N ->
          (at2 lm r c = 1
           <-> at2 lm r c = 1
               \/ (r = row /\ c = col /\ exists n, run own opp row col dr dc n))
          /\ (bit01 (at2 lm r c) -> bit01 (at2 lm r c)))
    /\ (play = false -> s_new = s_new)
    /\ (play = true -> forall r c, 0 <= r < N -> 0 <= c < N ->
          at3 s_new r c 2 = at3 s_new r c 2
          /\ (at3 s_new r c cur = 1 <-> at3 s_new r c cur = 1 \/ on_run r c)
          /\ (at3 s_new r c oppc = 1 <-> at3 s_new r c oppc = 1 /\ ~ on_run r c)
          /\ (bit01 (at3 s_new r c cur) -> bit01 (at3 s_new r c cur))
          /\ (bit01 (at3 s_new r c oppc) -> bit01 (at3 s_new r c oppc)))).
  { intros Hno. split; [assumption|]. split; [assumption|]. split.
    - intros r c _ _. split; [|tauto]. split; [tauto|].
      intros [H|(_ & _ & n & Hn)]; [assumption | destruct (Hno n Hn)].
    - split; [reflexivity|]. intros _ r c _ _.
      assert (Hnr : ~ on_run r c) by (intros (n & i & Hn & _); exact (Hno n Hn)).
      tauto. }
  unfold Dense.dir_body.
  destruct (Dense._check_legal_index self (row + dr) (col + dc)) eqn:Hin.
  2:{ (* the neighbour is off the board *)
      exists lm, s_new. split; [reflexivity|]. apply Hnone.
      intros n (Hn & Ho & _). pose proof (Ho 1 ltac:(lia)) as H.
      apply dcell_true in H. destruct H as [H _].
      apply check_legal_index_iff in H.
      replace (row + 1 * dr) with (row + dr) in H by lia.
      replace (col + 1 * dc) with (col + dc) in H by lia. congruence. }
  apply check_legal_index_iff in Hin. destruct Hin as [Hr1 Hc1].
  pose proof Hvalid as (HN & Hshape & _ & Hcells).
  rewrite (get3_at3 _ _ _ _ _ oppc Hshape Hr1 Hc1
             ltac:(destruct Hcur as [[-> ->]|[-> ->]]; lia)).
  cbn [mbind option_bind].
  destruct (Z.eqb_spec (at3 s (row + dr) (col + dc) oppc) 1) as [Hadj|Hadj].
  2:{ (* the neighbour is not an opposing disc *)
      exists lm, s_new. split; [reflexivity|]. apply Hnone.
      intros n (Hn & Ho & _). pose proof (Ho 1 ltac:(lia)) as H.
      apply dcell_true in H. destruct H as [_ H].
      replace (row + 1 * dr) with (row + dr) in H by lia.
      replace (col + 1 * dc) with (col + dc) in H by lia. congruence. }
  destruct (search_loop_spec (Dense.loop_fuel self) 1 ltac:(lia)
              ltac:(unfold Dense.loop_fuel, N in *; lia))
    as (found & nr & nc & E & Hfound & Hnot).
  { intros j Hj. assert (j = 1) as -> by lia. apply dcell_true.
    replace (row + 1 * dr) with (row + dr) by lia.
    replace (col + 1 * dc) with (col + dc) by lia. tauto. }
  rewrite E. cbn [mbind option_bind].
  destruct found.
  2:{ exists lm, s_new. split; [reflexivity|]. apply Hnone. now apply Hnot. }
  destruct (Hfound eq_refl) as (n & Hrun & -> & ->). clear Hfound Hnot.
  destruct (set2_spec N N lm row col 1 Hlm Hrow Hcol) as (lm' & -> & Hlm' & Hat).
  cbn [mbind option_bind].
  assert (Hlmspec : forall r c, 0 <= r < N -> 0 <= c < N ->
          (at2 lm' r c = 1
           <-> at2 lm r c = 1
               \/ (r = row /\ c = col /\ exists n, run own opp row col dr dc n))
          /\ (bit01 (at2 lm r c) -> bit01 (at2 lm' r c))).
  { intros r c Hr Hc. rewrite Hat by assumption.
    destruct (decide (r = row /\ c = col)) as [[-> ->]|Hn'].
    - split; [|intros _; now right]. split; [|reflexivity].
      intros _. right. eauto.
    - split; [|tauto]. split; [tauto|]. intros [H|(H1 & H2 & _)]; tauto. }
  assert (Hseg : forall j, 1 <= j <= n ->
            0 <= row + j * dr < N /\ 0 <= col + j * dc < N).
  { intros j Hj. destruct Hrun as (_ & Ho & _).
    pose proof (Ho j Hj) as H. apply dcell_true in H. apply H. }
  destruct play.
  - destruct (turn_loop_spec n (Dense.loop_fuel self) 0 s_new Hseg
                ltac:(destruct Hrun; lia)) as (s' & -> & Hs' & Hpt); [|assumption|].
    { (* the run fits on the board *)
      destruct Hrun as (Hn & _ & Hw). apply dcell_true in Hw. destruct Hw as [[Hr Hc] _].
      pose proof (dense_walk_short (n + 1) ltac:(lia) Hr Hc).
      unfold Dense.loop_fuel, N in *. lia. }
    cbn [mbind option_bind]. exists lm', s'. split; [reflexivity|].
    split; [assumption|]. split; [assumption|]. split; [assumption|].
    split; [discriminate|]. intros _ r c Hr Hc.
    assert (Hon : on_run r c <-> seg n 0 r c).
    { unfold on_run, seg. split.
      - intros (n' & i & Hrun' & Hi & Hri & Hci).
        rewrite (run_unique _ _ Hrun Hrun'). exists i. repeat split; try assumption; lia.
      - intros (j & Hj & Hrj & Hcj). exists n, j.
        split; [exact Hrun|]. repeat split; try assumption; lia. }
    rewrite Hon. now apply Hpt.
  - exists lm', s_new. split; [reflexivity|].
    split; [assumption|]. split; [assumption|]. split; [assumption|].
    split; [reflexivity | discriminate].
Qed.

End DenseDir.

(** ** Loops of the dense engine *)

Lemma for_each_inv {A S : Type} (I : list A -> S -> Prop) (body : A -> S -> option S) :
  forall l pre st,
    I pre st ->
    (forall pre' x st, In x l -> I pre' st ->
       exists st', body x st = Some st' /\ I (pre' ++ [x]) st') ->
    exists st', for_each l body st = Some st' /\ I (pre ++ l) st'.
Proof.
  induction l as [|x l IH]; intros pre st Hst Hbody.
  - exists st. split; [reflexivity|]. now rewrite app_nil_r.
  - destruct (Hbody pre x st ltac:(now left) Hst) as (st1 & E1 & H1).
    cbn [for_each]. rewrite E1. cbn [mbind option_bind].
    destruct (IH (pre ++ [x]) st1 H1) as (st' & E' & H').
    { intros pre' y st2 Hy. apply Hbody. now right. }
    exists st'. split; [assumption|]. now rewrite <- app_assoc in H'.
Qed.

Lemma directions_unit dr dc :
  In (dr, dc) Dense.directions ->
  (dr <> 0 \/ dc <> 0) /\ (-1 <= dr <= 1 /\ -1 <= dc <= 1).
Proof.
  intros H. apply in_directions in H.
  repeat (destruct H as [H|H]); injection H as -> ->; lia.
Qed.

Section DenseCell.

Variables (self : Dense.StateEnv) (s : ndarray3).
Hypothesis Hvalid : valid_dense (Dense._size self) s.
Variables (cur oppc : Z).
Hypothesis Hcur : (cur = 0 /\ oppc = 1) \/ (cur = 1 /\ oppc = 0).
Variables (row col : Z).
Hypothesis Hrow : 0 <= row < Dense._size self.
Hypothesis Hcol : 0 <= col < Dense._size self.

Let N := Dense._size self.
Let own := dcell self s cur.
Let opp := dcell self s oppc.

(** The state of the direction loop after the directions [pre]. *)
Let dirs_inv (play : bool) (lm : ndarray2) (s_new : ndarray3)
    (pre : list (Z * Z)) (st : ndarray2 * ndarray3) : Prop :=
  shape2 N N st.1 /\ shape3 N N st.2
  /\ (forall r c, 0 <= r < N -> 0 <= c < N ->
        (at2 st.1 r c = 1
         <-> at2 lm r c = 1
             \/ (r = row /\ c = col /\ captures_in pre own opp row col))
        /\ (bit01 (at2 lm r c) -> bit01 (at2 st.1 r c)))
  /\ (play = false -> st.2 = s_new)
  /\ (play = true -> forall r c, 0 <= r < N -> 0 <= c < N ->
        at3 st.2 r c 2 = at3 s_new r c 2
        /\ (at3 st.2 r c cur = 1
            <-> at3 s_new r c cur = 1 \/ flipped_in pre own opp row col r c)
        /\ (at3 st.2 r c oppc = 1
            <-> at3 s_new r c oppc = 1 /\ ~ flipped_in pre own opp row col r c)
        /\ (bit01 (at3 s_new r c cur) -> bit01 (at3 st.2 r c cur))
        /\ (bit01 (at3 s_new r c oppc) -> bit01 (at3 st.2 r c oppc))).

Lemma captures_in_snoc pre dr dc r c :
  captures_in (pre ++ [(dr, dc)]) own opp r c
  <-> captures_in pre own opp r c \/ exists n, run own opp r c dr dc n.
Proof.
  unfold captures_in. split.
  - intros (dr' & dc' & n & Hd & Hrun). apply in_app_or in Hd.
    destruct Hd as [Hd|[Hd|[]]]; [left; eauto 6|].
    injection Hd as <- <-. right. eauto.
  - intros [(dr' & dc' & n & Hd & Hrun)|(n & Hrun)].
    + exists dr', dc', n. split; [apply in_or_app; now left | assumption].
    + exists dr, dc, n. split; [apply in_or_app; right; now left | assumption].
Qed.

Lemma flipped_in_snoc pre dr dc r c :
  flipped_in (pre ++ [(dr, dc)]) own opp row col r c
  <-> flipped_in pre own opp row col r c
      \/ exists n i, run own opp row col dr dc n
           /\ 1 <= i <= n /\ r = row + i * dr /\ c = col + i * dc.
Proof.
  unfold flipped_in. split.
  - intros (dr' & dc' & n & i & Hd & Hrest). apply in_app_or in Hd.
    destruct Hd as [Hd|[Hd|[]]]; [left; eauto 8|].
    injection Hd as <- <-. right. eauto.
  - intros [(dr' & dc' & n & i & Hd & Hrest)|(n & i & Hrest)].
    + exists dr', dc', n, i. split; [apply in_or_app; now left | assumption].
    + exists dr, dc, n, i. split; [apply in_or_app; right; now left | assumption].
Qed.

Lemma dirs_spec play lm s_new :
  shape2 N N lm -> shape3 N N s_new ->
  exists st,
    for_each Dense.directions
      (Dense.dir_body self s play cur oppc row col) (lm, s_new) = Some st
    /\ dirs_inv play lm s_new Dense.directions st.
Proof.
  intros Hlm Hsn.
  apply (for_each_inv (dirs_inv play lm s_new) _ Dense.directions [] (lm, s_new)).
  - (* before the first direction *)
    split; [assumption|]. split; [assumption|]. split.
    + intros r c _ _. split; [|tauto]. split; [tauto|].
      intros [H|(_ & _ & dr & dc & n & [] & _)]. assumption.
    + split; [reflexivity|]. intros _ r c _ _.
      assert (Hno : ~ flipped_in [] own opp row col r c)
        by (intros (dr & dc & n & i & [] & _)).
      simpl. tauto.
  - (* one more direction *)
    intros pre [dr dc] [lm1 s1] Hd (Hlm1 & Hs1 & Hpt & Hnp & Hp).
    cbn [fst snd] in *.
    destruct (directions_unit dr dc Hd) as [Hdir Hunit].
    destruct (dir_body_spec self s Hvalid cur oppc Hcur row col dr dc
                Hrow Hcol Hdir Hunit play lm1 s1 Hlm1 Hs1)
      as (lm2 & s2 & E & Hlm2 & Hs2 & Hpt2 & Hnp2 & Hp2).
    exists (lm2, s2). split; [assumption|].
    split; [assumption|]. split; [assumption|]. cbn [fst snd]. split.
    + intros r c Hr Hc.
      destruct (Hpt r c Hr Hc) as [H1 B1], (Hpt2 r c Hr Hc) as [H2 B2].
      split; [|tauto]. rewrite H2, H1, captures_in_snoc. tauto.
    + split.
      * intros Hf. rewrite (Hnp2 Hf). now apply Hnp.
      * intros Ht r c Hr Hc.
        destruct (Hp Ht r c Hr Hc) as (A2 & Ac & Ao & Bc & Bo).
        destruct (Hp2 Ht r c Hr Hc) as (A2' & Ac' & Ao' & Bc' & Bo').
        rewrite A2', Ac', Ao', Ac, Ao, flipped_in_snoc.
        split; [assumption|]. tauto.
Qed.


Lemma vacant_test :
  (to_uint8 (at3 s row col 0 + at3 s row col 1) =? 0) = true <-> dvacant s row col.
Proof.
  destruct Hvalid as (_ & _ & _ & Hcells).
  destruct (Hcells row col Hrow Hcol) as (_ & Hb & Hw & Hsum).
  unfold dvacant, to_uint8, bit01 in *. rewrite Z.eqb_eq.
  rewrite Z.mod_small by lia. lia.
Qed.

Lemma cell_body_spec play lm s_new :
  shape2 N N lm -> shape3 N N s_new ->
  exists lm' s',
    Dense.cell_body self s play cur oppc row col (lm, s_new) = Some (lm', s')
    /\ shape2 N N lm' /\ shape3 N N s'
    /\ (forall r c, 0 <= r < N -> 0 <= c < N ->
          (at2 lm' r c = 1
           <-> at2 lm r c = 1
               \/ (r = row /\ c = col /\ dlegal self s cur oppc row col))
          /\ (bit01 (at2 lm r c) -> bit01 (at2 lm' r c)))
    /\ (play = false -> s' = s_new)
    /\ (play = true -> ~ dvacant s row col -> s' = s_new)
    /\ (play = true -> dvacant s row col ->
        forall r c, 0 <= r < N -> 0 <= c < N ->
          at3 s' r c 2 = at3 s_new r c 2
          /\ (at3 s' r c cur = 1
              <-> at3 s_new r c cur = 1 \/ (r = row /\ c = col)
                  \/ flipped own opp row col r c)
          /\ (at3 s' r c oppc = 1
              <-> at3 s_new r c oppc = 1 /\ ~ flipped own opp row col r c)
          /\ (bit01 (at3 s_new r c cur) -> bit01 (at3 s' r c cur))
          /\ (bit01 (at3 s_new r c oppc) -> bit01 (at3 s' r c oppc))).
Proof.
  intros Hlm Hsn. unfold Dense.cell_body.
  pose proof Hvalid as (HN & Hshape & _ & Hcells).
  rewrite (get3_at3 _ _ _ _ _ 0 Hshape Hrow Hcol ltac:(lia)). cbn [mbind option_bind].
  rewrite (get3_at3 _ _ _ _ _ 1 Hshape Hrow Hcol ltac:(lia)). cbn [mbind option_bind].
  destruct (to_uint8 (at3 s row col 0 + at3 s row col 1) =? 0) eqn:Hvac.
  - apply vacant_test in Hvac.
    assert (Hfirst : exists s1,
              (if play then set3 s_new row col cur 1 else Some s_new) = Some s1
              /\ shape3 N N s1
              /\ (play = false -> s1 = s_new)
              /\ (play = true -> forall r c k, 0 <= r < N -> 0 <= c < N -> 0 <= k < 3 ->
                    at3 s1 r c k
                    = if decide (r = row /\ c = col /\ k = cur) then 1
                      else at3 s_new r c k)).
    { destruct play.
      - destruct (set3_spec N N s_new row col cur 1 Hsn Hrow Hcol
                    ltac:(destruct Hcur as [[-> ->]|[-> ->]]; lia))
          as (s1 & E & Hs1 & Hat).
        exists s1. split; [assumption|]. split; [assumption|].
        split; [discriminate|]. intros _. exact Hat.
      - exists s_new. split; [reflexivity|]. split; [assumption|].
        split; [reflexivity | discriminate]. }
    destruct Hfirst as (s1 & -> & Hs1 & Hnp1 & Hp1). cbn [mbind option_bind].
    destruct (dirs_spec play lm s1 Hlm Hs1)
      as ([lm' s'] & E & Hlm' & Hs' & Hpt & Hnp & Hp).
    cbn [fst snd] in *.
    exists lm', s'. split; [assumption|]. split; [assumption|].
    split; [assumption|]. split.
    { intros r c Hr Hc. destruct (Hpt r c Hr Hc) as [H1 B1].
      split; [|assumption]. rewrite H1. unfold dlegal.
      change (captures_in Dense.directions own opp row col)
        with (captures own opp row col). tauto. }
    split; [intros Hf; rewrite (Hnp Hf); now apply Hnp1|].
    split; [tauto|]. intros Ht _ r c Hr Hc.
    destruct (Hp Ht r c Hr Hc) as (A2 & Ac & Ao & Bc & Bo).
    change (flipped_in Dense.directions own opp row col r c)
      with (flipped own opp row col r c) in *.
    rewrite A2, Ac, Ao.
    rewrite (Hp1 Ht r c 2), (Hp1 Ht r c cur), (Hp1 Ht r c oppc) in *
      by (try assumption; destruct Hcur as [[-> ->]|[-> ->]]; lia).
    destruct (decide (r = row /\ c = col /\ 2 = cur)) as [Hy|_];
      [destruct Hcur as [[-> ->]|[-> ->]]; lia|].
    destruct (decide (r = row /\ c = col /\ oppc = cur)) as [Hy|_];
      [destruct Hcur as [[-> ->]|[-> ->]]; lia|].
    split; [reflexivity|].
    destruct (decide (r = row /\ c = col /\ cur = cur)) as [Hy|Hn].
    + split; [tauto|]. split; [tauto|]. split; [|assumption].
      intros _. apply Bc. now right.
    + split; [|tauto]. split; [tauto|]. intros [H|[H|H]]; tauto.
  - exists lm, s_new. split; [reflexivity|]. split; [assumption|].
    split; [assumption|]. split.
    { intros r c _ _. split; [|tauto]. split; [tauto|].
      intros [H|(_ & _ & Hv & _)]; [assumption|].
      apply vacant_test in Hv. congruence. }
    split; [reflexivity|]. split; [reflexivity|].
    intros _ Hv. apply vacant_test in Hv. congruence.
Qed.

End DenseCell.

(** ** The legal-move generator and the move applicator of the dense engine *)

Lemma py_index_In {A} (l : list A) i x : py_index l i = Some x -> In x l.
Proof.
  unfold py_index. intros H. apply list_elem_of_In.
  destruct (0 <=? i); [eapply list_elem_of_lookup_2; eassumption|].
  destruct (_ <=? i); [eapply list_elem_of_lookup_2; eassumption | discriminate].
Qed.

Lemma zeros2_shape n : 0 <= n -> shape2 n n (zeros2 (Z.to_nat n) (Z.to_nat n)).
Proof.
  intros Hn. unfold zeros2. split.
  - rewrite length_replicate. lia.
  - apply Forall_replicate. rewrite length_replicate. lia.
Qed.

Lemma zeros2_at n m r c : at2 (zeros2 n m) r c = 0.
Proof.
  unfold at2, get2, zeros2.
  destruct (py_index (replicate n (replicate m 0)) r) as [row|] eqn:Er; [|reflexivity].
  apply py_index_In, list_elem_of_In, elem_of_replicate in Er. destruct Er as [-> _].
  cbn [mbind option_bind].
  destruct (py_index (replicate m 0) c) as [x|] eqn:Ec; [|reflexivity].
  apply py_index_In, list_elem_of_In, elem_of_replicate in Ec. now destruct Ec as [-> _].
Qed.

Section DenseHelper.

Variables (self : Dense.StateEnv) (s : ndarray3).
Hypothesis Hvalid : valid_dense (Dense._size self) s.

Let N := Dense._size self.
Let cur := at3 s 0 0 2.
Let oppc := 1 - cur.

Lemma helper_channels :
  ((cur = 0 /\ oppc = 1) \/ (cur = 1 /\ oppc = 0))
  /\ get3 s 0 0 2 = Some cur
  /\ (if truthy cur then 0 else 1) = oppc.
Proof.
  destruct Hvalid as (HN & Hshape & Hp & _).
  split; [unfold oppc, cur, bit01 in *; lia|].
  split; [apply (get3_at3 _ _ _ _ _ 2 Hshape); lia|].
  unfold oppc. fold cur in Hp. destruct Hp as [ -> | -> ]; reflexivity.
Qed.

Lemma helper_scan_spec ar ac :
  exists lm,
    Dense._legal_moves_helper self s ar ac false = Some (lm, s)
    /\ shape2 N N lm
    /\ forall r c, 0 <= r < N -> 0 <= c < N ->
         bit01 (at2 lm r c)
         /\ (at2 lm r c = 1 <-> dlegal self s cur oppc r c).
Proof.
  destruct helper_channels as (Hcur & Eget & Eopp).
  pose proof Hvalid as (HN & Hshape & _).
  unfold Dense._legal_moves_helper. rewrite Eget. cbn [mbind option_bind].
  rewrite Eopp.
  set (inv_rows := fun (pre : list Z) (st : ndarray2 * ndarray3) =>
    st.2 = s /\ shape2 N N st.1
    /\ forall r c, 0 <= r < N -> 0 <= c < N ->
         bit01 (at2 st.1 r c)
         /\ (at2 st.1 r c = 1 <-> In r pre /\ dlegal self s cur oppc r c)).
  destruct (for_each_inv inv_rows
              (fun row => for_each (range N)
                 (Dense.cell_body self s false cur oppc row))
              (range N) [] (zeros2 (Z.to_nat N) (Z.to_nat N), s))
    as ([lm s'] & E & Hs' & Hlm & Hpt).
  - (* before the first row *)
    split; [reflexivity|]. split; [apply zeros2_shape; unfold N; lia|].
    intros r c _ _. cbn [fst]. rewrite zeros2_at.
    split; [now left|]. split; [discriminate | intros [[] _]].
  - (* one more row *)
    intros pre row [lm1 s1] Hin (Hs1 & Hlm1 & Hpt1). cbn [fst snd] in *. subst s1.
    apply in_range in Hin.
    set (inv_cols := fun (prec : list Z) (st : ndarray2 * ndarray3) =>
      st.2 = s /\ shape2 N N st.1
      /\ forall r c, 0 <= r < N -> 0 <= c < N ->
           bit01 (at2 st.1 r c)
           /\ (at2 st.1 r c = 1
               <-> (In r pre \/ (r = row /\ In c prec))
                   /\ dlegal self s cur oppc r c)).
    destruct (for_each_inv inv_cols (Dense.cell_body self s false cur oppc row)
                (range N) [] (lm1, s))
      as ([lm2 s2] & E2 & Hs2 & Hlm2 & Hpt2).
    + split; [reflexivity|]. split; [assumption|].
      intros r c Hr Hc. cbn [fst]. destruct (Hpt1 r c Hr Hc) as [B H].
      split; [assumption|]. rewrite H. simpl. tauto.
    + intros prec col [lm3 s3] Hinc (Hs3 & Hlm3 & Hpt3). cbn [fst snd] in *. subst s3.
      apply in_range in Hinc.
      destruct (cell_body_spec self s Hvalid cur oppc Hcur row col Hin Hinc
                  false lm3 s Hlm3 Hshape)
        as (lm4 & s4 & E4 & Hlm4 & _ & Hpt4 & Hs4 & _).
      exists (lm4, s4). split; [assumption|].
      split; [now apply Hs4|]. split; [assumption|].
      intros r c Hr Hc. cbn [fst].
      destruct (Hpt3 r c Hr Hc) as [B3 H3], (Hpt4 r c Hr Hc) as [H4 B4].
      split; [tauto|]. rewrite H4, H3. rewrite in_app_iff. simpl.
      intuition (subst; auto).
    + exists (lm2, s2). split; [assumption|]. cbn [fst snd] in *.
      split; [assumption|]. split; [assumption|].
      intros r c Hr Hc. destruct (Hpt2 r c Hr Hc) as [B2 H2].
      split; [assumption|]. rewrite H2. change ([] ++ range N) with (range N).
      rewrite (in_range N c), in_app_iff. simpl.
      split; intros [[Hl|Hx] Hd]; (split; [|assumption]).
      * now left.
      * right; left. symmetry. apply Hx.
      * now left.
      * destruct Hx as [ <- |[]]. right. now split.
  - cbn [fst snd] in *. subst s'. exists lm. split; [exact E|].
    split; [assumption|]. intros r c Hr Hc.
    destruct (Hpt r c Hr Hc) as [B H]. split; [assumption|].
    rewrite H. simpl. rewrite (in_range N r). tauto.
Qed.

Lemma helper_play_spec r0 c0 :
  0 <= r0 < N -> 0 <= c0 < N -> dvacant s r0 c0 ->
  exists lm s',
    Dense._legal_moves_helper self s (Some r0) (Some c0) true = Some (lm, s')
    /\ shape3 N N s'
    /\ forall r c, 0 <= r < N -> 0 <= c < N ->
         at3 s' r c 2 = at3 s r c 2
         /\ (at3 s' r c cur = 1
             <-> at3 s r c cur = 1 \/ (r = r0 /\ c = c0)
                 \/ flipped (dcell self s cur) (dcell self s oppc) r0 c0 r c)
         /\ (at3 s' r c oppc = 1
             <-> at3 s r c oppc = 1
                 /\ ~ flipped (dcell self s cur) (dcell self s oppc) r0 c0 r c)
         /\ bit01 (at3 s' r c cur) /\ bit01 (at3 s' r c oppc).
Proof.
  intros Hr0 Hc0 Hvac.
  destruct helper_channels as (Hcur & Eget & Eopp).
  pose proof Hvalid as (HN & Hshape & _ & Hcells).
  unfold Dense._legal_moves_helper. rewrite Eget. cbn [mbind option_bind].
  rewrite Eopp. cbn [for_each].
  destruct (cell_body_spec self s Hvalid cur oppc Hcur r0 c0 Hr0 Hc0
              true _ s (zeros2_shape N ltac:(lia)) Hshape)
    as (lm & s' & E & _ & Hs' & _ & _ & _ & Hpt).
  fold N. rewrite E. cbn [mbind option_bind].
  exists lm, s'. split; [reflexivity|]. split; [assumption|].
  intros r c Hr Hc.
  destruct (Hpt eq_refl Hvac r c Hr Hc) as (A2 & Ac & Ao & Bc & Bo).
  destruct (Hcells r c Hr Hc) as (_ & Hb & Hw & _).
  split; [assumption|]. split; [assumption|]. split; [assumption|].
  split; [apply Bc | apply Bo]; destruct Hcur as [[-> ->]|[-> ->]]; assumption.
Qed.

End DenseHelper.

(** ** Whole-array operations *)

Lemma py_index_map {A B} (f : A -> B) (l : list A) i :
  py_index (map f l) i = f <$> py_index l i.
Proof.
  unfold py_index. rewrite length_map.
  destruct (0 <=? i); [exact (list_lookup_fmap f l _)|].
  destruct (_ <=? i); [exact (list_lookup_fmap f l _) | reflexivity].
Qed.

Lemma fill_channel_spec n m s v :
  shape3 n m s ->
  shape3 n m (fill_channel s 2 v)
  /\ forall r c k, 0 <= r < n -> 0 <= c < m -> 0 <= k < 3 ->
       at3 (fill_channel s 2 v) r c k = if decide (k = 2) then v else at3 s r c k.
Proof.
  intros Hs. split.
  - destruct Hs as [Hn Hrows]. unfold fill_channel. split.
    + now rewrite length_map.
    + apply Forall_map. eapply Forall_impl; [exact Hrows|].
      intros row [Hlen Hcells]. cbn beta. split; [now rewrite length_map|].
      apply Forall_map. eapply Forall_impl; [exact Hcells|].
      intros cell Hc. cbn beta. now rewrite length_insert.
  - intros r c k Hr Hc Hk. unfold at3, get3, fill_channel.
    destruct (shape3_row n m s r Hs Hr) as (row & Erow & Hlen & Hcells).
    destruct (row_cell row c Hcells ltac:(lia)) as (cell & Ecell & Hlen3).
    rewrite py_index_map, Erow. cbn [fmap option_fmap option_map mbind option_bind].
    rewrite py_index_map, Ecell. cbn [fmap option_fmap option_map mbind option_bind].
    rewrite py_index_lookup by (rewrite length_insert; lia).
    rewrite (py_index_lookup cell) by lia.
    destruct (decide (k = 2)) as [ -> |Hne].
    + change (Z.to_nat 2) with 2%nat. now rewrite list_lookup_insert_eq by lia.
    + rewrite list_lookup_insert_ne by lia. reflexivity.
Qed.

Lemma channel_spec n m s k :
  shape3 n m s -> 0 <= k < 3 ->
  shape2 n m (channel s (Z.to_nat k))
  /\ forall r c, 0 <= r < n -> 0 <= c < m ->
       at2 (channel s (Z.to_nat k)) r c = at3 s r c k.
Proof.
  intros Hs Hk. split.
  - destruct Hs as [Hn Hrows]. unfold channel. split.
    + now rewrite length_map.
    + apply Forall_map. eapply Forall_impl; [exact Hrows|].
      intros row [Hlen _]. cbn beta. now rewrite length_map.
  - intros r c Hr Hc. unfold at2, get2, at3, get3, channel.
    destruct (shape3_row n m s r Hs Hr) as (row & Erow & Hlen & Hcells).
    destruct (row_cell row c Hcells ltac:(lia)) as (cell & Ecell & Hlen3).
    rewrite py_index_map, Erow. cbn [fmap option_fmap option_map mbind option_bind].
    rewrite py_index_map, Ecell. cbn [fmap option_fmap option_map mbind option_bind].
    rewrite py_index_lookup by lia.
    rewrite list_lookup_total_alt.
    destruct (lookup_lt_is_Some_2 cell (Z.to_nat k) ltac:(lia)) as [x ->].
    reflexivity.
Qed.

Lemma cellmap_spec n m s (f : list Z -> Z) :
  shape3 n m s ->
  shape2 n m (map (map f) s)
  /\ forall r c, 0 <= r < n -> 0 <= c < m ->
       exists cell, at2 (map (map f) s) r c = f cell
         /\ length cell = 3%nat
         /\ forall k, 0 <= k < 3 -> cell !! Z.to_nat k = Some (at3 s r c k).
Proof.
  intros Hs. split.
  - destruct Hs as [Hn Hrows]. split.
    + now rewrite length_map.
    + apply Forall_map. eapply Forall_impl; [exact Hrows|].
      intros row [Hlen _]. cbn beta. now rewrite length_map.
  - intros r c Hr Hc. unfold at2, get2, at3, get3.
    destruct (shape3_row n m s r Hs Hr) as (row & Erow & Hlen & Hcells).
    destruct (row_cell row c Hcells ltac:(lia)) as (cell & Ecell & Hlen3).
    exists cell.
    rewrite py_index_map, Erow. cbn [fmap option_fmap option_map mbind option_bind].
    rewrite py_index_map, Ecell. cbn [fmap option_fmap option_map mbind option_bind].
    split; [reflexivity|]. split; [assumption|].
    intros k Hk. rewrite py_index_lookup by lia.
    destruct (lookup_lt_is_Some_2 cell (Z.to_nat k) ltac:(lia)) as [x ->].
    reflexivity.
Qed.

Lemma at2_forall n m a (P : Z -> Prop) :
  shape2 n m a ->
  (Forall (Forall P) a <-> forall r c, 0 <= r < n -> 0 <= c < m -> P (at2 a r c)).
Proof.
  intros Ha. split.
  - intros HF r c Hr Hc. unfold at2, get2.
    destruct (shape2_row n m a r Ha Hr) as (row & Erow & Hlen).
    rewrite Erow. cbn [mbind option_bind].
    destruct (py_index_Some row c ltac:(lia)) as [x Ex]. rewrite Ex. simpl.
    rewrite List.Forall_forall in HF. apply py_index_In in Erow, Ex.
    specialize (HF row Erow). rewrite List.Forall_forall in HF. now apply HF.
  - intros HP. destruct Ha as [Hn Hrows].
    apply Forall_lookup. intros i row Ei.
    pose proof (lookup_lt_Some _ _ _ Ei) as Hi.
    pose proof (Forall_lookup_1 _ _ _ _ Hrows Ei) as Hlen. cbn beta in Hlen.
    apply Forall_lookup. intros j x Ej.
    pose proof (lookup_lt_Some _ _ _ Ej) as Hj.
    specialize (HP (Z.of_nat i) (Z.of_nat j) ltac:(lia) ltac:(lia)).
    unfold at2, get2 in HP.
    rewrite py_index_lookup, Nat2Z.id, Ei in HP by lia. cbn [mbind option_bind] in HP.
    rewrite py_index_lookup, Nat2Z.id, Ej in HP by lia. exact HP.
Qed.

Lemma sum1_bounds (hi : Z) l :
  Forall (fun x => 0 <= x <= hi) l ->
  0 <= sum1 l <= Z.of_nat (length l) * hi
  /\ (sum1 l = 0 <-> Forall (fun x => x = 0) l)
  /\ (sum1 l = Z.of_nat (length l) * hi <-> Forall (fun x => x = hi) l).
Proof.
  induction 1 as [|x l Hx Hl IH]; cbn [sum1 fold_right length].
  - split; [lia|]. split; (split; [constructor | reflexivity]).
  - fold (sum1 l). destruct IH as (Hb & H0 & H1).
    split; [lia|]. split.
    + split.
      * intros Hsum. constructor; [lia|]. apply H0. lia.
      * intros HF. inversion HF as [|? ? Hx0 Hl0]; subst. apply H0 in Hl0. lia.
    + split.
      * intros Hsum. constructor; [lia|]. apply H1. lia.
      * intros HF. inversion HF as [|? ? Hx0 Hl0]; subst. apply H1 in Hl0. lia.
Qed.

Lemma sum2_bounds n m a :
  0 <= m -> shape2 n m a ->
  (forall r c, 0 <= r < n -> 0 <= c < m -> bit01 (at2 a r c)) ->
  (sum2 a = 0 <-> forall r c, 0 <= r < n -> 0 <= c < m -> at2 a r c = 0)
  /\ (sum2 a = n * m <-> forall r c, 0 <= r < n -> 0 <= c < m -> at2 a r c = 1).
Proof.
  intros Hm Ha Hbits.
  assert (E0 : (forall r c, 0 <= r < n -> 0 <= c < m -> at2 a r c = 0)
               <-> Forall (Forall (fun x => x = 0)) a)
    by (symmetry; apply (at2_forall n m a (fun x => x = 0) Ha)).
  assert (E1 : (forall r c, 0 <= r < n -> 0 <= c < m -> at2 a r c = 1)
               <-> Forall (Forall (fun x => x = 1)) a)
    by (symmetry; apply (at2_forall n m a (fun x => x = 1) Ha)).
  rewrite E0, E1. clear E0 E1.
  apply (at2_forall n m a _ Ha) in Hbits.
  destruct Ha as [Hn Hrows]. unfold sum2.
  assert (Hrow : Forall (fun row =>
            0 <= sum1 row <= m
            /\ (sum1 row = 0 <-> Forall (fun x => x = 0) row)
            /\ (sum1 row = m <-> Forall (fun x => x = 1) row)) a).
  { apply List.Forall_forall. intros row Hin.
    rewrite List.Forall_forall in Hbits, Hrows.
    specialize (Hbits row Hin). specialize (Hrows row Hin). cbn beta in Hrows.
    assert (H01 : Forall (fun x => 0 <= x <= 1) row).
    { eapply Forall_impl; [exact Hbits|]. unfold bit01. intros; lia. }
    destruct (sum1_bounds 1 row H01) as (B & Z0 & Z1).
    rewrite Z.mul_1_r, Hrows in B, Z1. tauto. }
  assert (Hsums : Forall (fun x => 0 <= x <= m) (map sum1 a)).
  { apply Forall_map. eapply Forall_impl; [exact Hrow|]. cbn beta. tauto. }
  destruct (sum1_bounds m _ Hsums) as (_ & Z0 & Z1).
  rewrite length_map, Hn in Z1. rewrite Z0, Z1, !Forall_map.
  split; (split; intros HF; apply List.Forall_forall; intros row Hin;
          rewrite List.Forall_forall in HF, Hrow;
          specialize (HF row Hin); specialize (Hrow row Hin); cbn beta in *; tauto).
Qed.

Lemma sum2_add (f g : list Z -> Z) (s : ndarray3) :
  sum2 (map (map f) s) + sum2 (map (map g) s)
  = sum2 (map (map (fun cell => f cell + g cell)) s).
Proof.
  unfold sum2.
  induction s as [|row s IH]; [reflexivity|].
  cbn [map sum1 fold_right]. fold (sum1 (map sum1 (map (map f) s))).
  fold (sum1 (map sum1 (map (map g) s))).
  fold (sum1 (map sum1 (map (map (fun cell => f cell + g cell)) s))).
  rewrite <- IH.
  assert (Hr : sum1 (map f row) + sum1 (map g row)
               = sum1 (map (fun cell => f cell + g cell) row)).
  { clear. induction row as [|x row IH]; [reflexivity|].
    cbn [map sum1 fold_right]. fold (sum1 (map f row)). fold (sum1 (map g row)).
    fold (sum1 (map (fun cell => f cell + g cell) row)). lia. }
  lia.
Qed.

Lemma sum_coins_full n s :
  valid_dense n s ->
  (Dense.sum_coins s = n ^ 2
   <-> forall r c, 0 <= r < n -> 0 <= c < n -> at3 s r c 0 + at3 s r c 1 = 1).
Proof.
  intros (Hn & Hshape & _ & Hcells). unfold Dense.sum_coins, channel.
  rewrite sum2_add.
  destruct (cellmap_spec n n s (fun cell => cell !!! 0%nat + cell !!! 1%nat) Hshape)
    as [Hsh Hat].
  assert (Hocc : forall r c, 0 <= r < n -> 0 <= c < n ->
            at2 (map (map (fun cell => cell !!! 0%nat + cell !!! 1%nat)) s) r c
            = at3 s r c 0 + at3 s r c 1).
  { intros r c Hr Hc. destruct (Hat r c Hr Hc) as (cell & -> & _ & Hk).
    pose proof (Hk 0 ltac:(lia)) as H0. pose proof (Hk 1 ltac:(lia)) as H1.
    change (Z.to_nat 0) with 0%nat in H0. change (Z.to_nat 1) with 1%nat in H1.
    rewrite !list_lookup_total_alt, H0, H1. reflexivity. }
  destruct (sum2_bounds n n _ ltac:(lia) Hsh) as [_ Hfull].
  { intros r c Hr Hc. rewrite Hocc by assumption.
    destruct (Hcells r c Hr Hc) as (_ & Hb & Hw & Hsum).
    unfold bit01 in *. lia. }
  replace (n ^ 2) with (n * n) by lia. rewrite Hfull.
  split; intros H r c Hr Hc; specialize (H r c Hr Hc);
    now rewrite Hocc in * by assumption.
Qed.

(** ** Turn resolution of the dense engine *)

Lemma fill_channel_twice s k v w :
  fill_channel (fill_channel s k w) k v = fill_channel s k v.
Proof.
  unfold fill_channel. rewrite map_map. apply map_ext. intros row.
  rewrite map_map. apply map_ext. intros cell. apply list_insert_insert_eq.
Qed.

Lemma valid_dense_channels n s :
  valid_dense n s ->
  (at3 s 0 0 2 = 0 /\ 1 - at3 s 0 0 2 = 1) \/ (at3 s 0 0 2 = 1 /\ 1 - at3 s 0 0 2 = 0).
Proof. intros (_ & _ & Hp & _). unfold bit01 in Hp. lia. Qed.

(** ** The scan of a board whose player channel has wrapped *)

Lemma for_each_fixed {A S : Type} (l : list A) (body : A -> S -> option S) (st : S) :
  (forall x, In x l -> body x st = Some st \/ body x st = None) ->
  (for_each l body st = Some st /\ forall x, In x l -> body x st = Some st)
  \/ (for_each l body st = None /\ exists x, In x l /\ body x st = None).
Proof.
  induction l as [|x l IH]; intros Hbody.
  - left. split; [reflexivity | intros x []].
  - cbn [for_each].
    destruct (Hbody x ltac:(now left)) as [E|E]; rewrite E; cbn [mbind option_bind].
    + destruct IH as [[E' Hall]|[E' (y & Hy & Ey)]].
      { intros y Hy. apply Hbody. now right. }
      * left. split; [assumption|]. intros y [ <- |Hy]; [assumption | now apply Hall].
      * right. split; [assumption|]. exists y. split; [now right | assumption].
    + right. split; [reflexivity|]. exists x. split; [now left | assumption].
Qed.

Lemma get3_channel_out n m s r c k :
  shape3 n m s -> 0 <= r < n -> 0 <= c < m -> 3 <= k ->
  get3 s r c k = None.
Proof.
  intros Hs Hr Hc Hk. unfold get3.
  destruct (shape3_row n m s r Hs Hr) as (row & -> & Hlen & Hcells).
  cbn [mbind option_bind].
  destruct (row_cell row c Hcells ltac:(lia)) as (cell & -> & Hlen3).
  cbn [mbind option_bind]. apply py_index_out. lia.
Qed.

Lemma valid_dense_discs n s : valid_dense n s -> valid_discs n s.
Proof.
  intros (Hn & Hshape & _ & Hcells). split; [assumption|]. split; [assumption|].
  intros r c Hr Hc. destruct (Hcells r c Hr Hc) as (_ & Hb & Hw & Hsum). tauto.
Qed.

Section DenseWrapped.

Variables (self : Dense.StateEnv) (s : ndarray3).
Hypothesis Hdiscs : valid_discs (Dense._size self) s.

Let N := Dense._size self.

(** Direction [(dr, dc)] from [(row, col)] starts on a black disc with an
    occupied cell of the board behind it. *)
Let behind (row col dr dc : Z) : Prop :=
  dcell self s 0 (row + dr) (col + dc) = true
  /\ Dense._check_legal_index self (row + 2 * dr) (col + 2 * dc) = true
  /\ ~ dvacant s (row + 2 * dr) (col + 2 * dc).

Lemma discs_vacant r c :
  0 <= r < N -> 0 <= c < N ->
  (at3 s r c 0 + at3 s r c 1 = 0 <-> dvacant s r c)
  /\ ((to_uint8 (at3 s r c 0 + at3 s r c 1) =? 0) = true <-> dvacant s r c).
Proof.
  intros Hr Hc. destruct Hdiscs as (_ & _ & Hcells).
  destruct (Hcells r c Hr Hc) as (Hb & Hw & Hsum).
  unfold dvacant, to_uint8, bit01 in *. rewrite Z.eqb_eq.
  rewrite Z.mod_small by lia. lia.
Qed.

Lemma wrapped_dir play row col dr dc st :
  (Dense.dir_body self s play 255 0 row col (dr, dc) st = None
   /\ behind row col dr dc)
  \/ (Dense.dir_body self s play 255 0 row col (dr, dc) st = Some st
      /\ ~ behind row col dr dc).
Proof.
  destruct Hdiscs as (HN & Hshape & Hcells). destruct st as [lm sn].
  unfold behind, Dense.dir_body.
  destruct (Dense._check_legal_index self (row + dr) (col + dc)) eqn:E1.
  2:{ right. split; [reflexivity|]. intros (H & _). apply dcell_true in H.
      apply not_true_iff_false in E1. apply E1, check_legal_index_iff. tauto. }
  pose proof (proj1 (check_legal_index_iff _ _ _) E1) as [Hr1 Hc1].
  rewrite (get3_at3 _ _ _ _ _ 0 Hshape Hr1 Hc1 ltac:(lia)). cbn [mbind option_bind].
  destruct (Z.eqb_spec (at3 s (row + dr) (col + dc) 0) 1) as [E2|E2].
  2:{ right. split; [reflexivity|]. intros (H & _). apply dcell_true in H. tauto. }
  unfold Dense.loop_fuel. fold N.
  destruct (Z.to_nat N) as [|fuel] eqn:EN; [exfalso; unfold N in *; lia|].
  cbn [Dense.search_loop]. change (1 + 1) with 2.
  destruct (Dense._check_legal_index self (row + 2 * dr) (col + 2 * dc)) eqn:E3.
  2:{ cbn [mbind option_bind]. right. split; [reflexivity|].
      intros (_ & H & _). discriminate. }
  pose proof (proj1 (check_legal_index_iff _ _ _) E3) as [Hr2 Hc2].
  rewrite (get3_at3 _ _ _ _ _ 0 Hshape Hr2 Hc2 ltac:(lia)). cbn [mbind option_bind].
  rewrite (get3_at3 _ _ _ _ _ 1 Hshape Hr2 Hc2 ltac:(lia)). cbn [mbind option_bind].
  destruct (Z.eqb_spec (at3 s (row + 2 * dr) (col + 2 * dc) 0
                        + at3 s (row + 2 * dr) (col + 2 * dc) 1) 0) as [E4|E4].
  - cbn [mbind option_bind]. right. split; [reflexivity|].
    intros (_ & _ & H). apply H.
    exact (proj1 (proj1 (discs_vacant _ _ Hr2 Hc2)) E4).
  - rewrite (get3_channel_out _ _ _ _ _ 255 Hshape Hr2 Hc2 ltac:(lia)).
    cbn [mbind option_bind]. left. split; [reflexivity|].
    split; [apply dcell_true; tauto|]. split; [reflexivity|].
    intros H. apply E4.
    exact (proj2 (proj1 (discs_vacant _ _ Hr2 Hc2)) H).
Qed.

Lemma wrapped_cell row col st :
  0 <= row < N -> 0 <= col < N ->
  (Dense.cell_body self s false 255 0 row col st = None
   /\ dvacant s row col
   /\ exists dr dc, In (dr, dc) Dense.directions /\ behind row col dr dc)
  \/ (Dense.cell_body self s false 255 0 row col st = Some st
      /\ ~ (dvacant s row col
            /\ exists dr dc, In (dr, dc) Dense.directions /\ behind row col dr dc)).
Proof.
  intros Hrow Hcol. destruct Hdiscs as (HN & Hshape & Hcells).
  destruct st as [lm sn]. unfold Dense.cell_body.
  rewrite (get3_at3 _ _ _ _ _ 0 Hshape Hrow Hcol ltac:(lia)). cbn [mbind option_bind].
  rewrite (get3_at3 _ _ _ _ _ 1 Hshape Hrow Hcol ltac:(lia)). cbn [mbind option_bind].
  destruct (to_uint8 (at3 s row col 0 + at3 s row col 1) =? 0) eqn:Hvac.
  - apply (proj2 (discs_vacant row col Hrow Hcol)) in Hvac. cbn [mbind option_bind].
    destruct (for_each_fixed Dense.directions
                (Dense.dir_body self s false 255 0 row col) (lm, sn))
      as [[E Hall]|[E ([dr dc] & Hin & Ex)]].
    + intros [dr dc] _.
      destruct (wrapped_dir false row col dr dc (lm, sn)) as [[H _]|[H _]]; tauto.
    + right. split; [assumption|]. intros (_ & dr & dc & Hin & Hb).
      specialize (Hall _ Hin).
      destruct (wrapped_dir false row col dr dc (lm, sn)) as [[H _]|[_ H]];
        [congruence | contradiction].
    + left. split; [assumption|]. split; [assumption|]. exists dr, dc.
      split; [assumption|].
      destruct (wrapped_dir false row col dr dc (lm, sn)) as [[_ H]|[H _]];
        [assumption | congruence].
  - right. split; [reflexivity|]. intros (Hv & _).
    apply (proj2 (discs_vacant row col Hrow Hcol)) in Hv. congruence.
Qed.

Lemma helper_wrapped_spec :
  at3 s 0 0 2 = 255 ->
  (Dense._legal_moves_helper self s None None false = None
   /\ looks_behind self s 0)
  \/ (Dense._legal_moves_helper self s None None false
      = Some (zeros2 (Z.to_nat N) (Z.to_nat N), s)
      /\ ~ looks_behind self s 0).
Proof.
  intros Hp. pose proof Hdiscs as (HN & Hshape & Hcells).
  unfold Dense._legal_moves_helper.
  rewrite (get3_at3 _ _ _ 0 0 2 Hshape) by lia. rewrite Hp.
  cbn [mbind option_bind]. change (truthy 255) with true. cbv iota. fold N.
  set (st := (zeros2 (Z.to_nat N) (Z.to_nat N), s)).
  assert (Hcols : forall row, In row (range N) ->
            (for_each (range N) (Dense.cell_body self s false 255 0 row) st = Some st
             /\ forall col, In col (range N) ->
                  Dense.cell_body self s false 255 0 row col st = Some st)
            \/ (for_each (range N) (Dense.cell_body self s false 255 0 row) st = None
                /\ exists col, In col (range N)
                     /\ Dense.cell_body self s false 255 0 row col st = None)).
  { intros row Hrow. apply in_range in Hrow. apply for_each_fixed.
    intros col Hcol. apply in_range in Hcol.
    destruct (wrapped_cell row col st Hrow Hcol) as [[H _]|[H _]]; tauto. }
  destruct (for_each_fixed (range N)
              (fun row => for_each (range N) (Dense.cell_body self s false 255 0 row)) st)
    as [[E Hall]|[E (row & Hrow & Ex)]].
  - intros row Hrow. destruct (Hcols row Hrow) as [[H _]|[H _]]; tauto.
  - right. split; [exact E|].
    intros (r & c & dr & dc & [Hr Hc] & Hv & Hin & Hb).
    assert (Hr' : In r (range N)) by now apply in_range.
    assert (Hc' : In c (range N)) by now apply in_range.
    specialize (Hall r Hr'). cbn beta in Hall.
    destruct (Hcols r Hr') as [[_ Hcs]|[H _]]; [|congruence].
    specialize (Hcs c Hc').
    destruct (wrapped_cell r c st Hr Hc) as [[H _]|[_ H]]; [congruence|].
    apply H. split; [assumption|]. exists dr, dc. split; [assumption | exact Hb].
  - left. split; [exact E|]. cbn beta in Ex.
    destruct (Hcols row Hrow) as [[H _]|[_ (col & Hcol & Ec)]]; [congruence|].
    apply in_range in Hrow, Hcol.
    destruct (wrapped_cell row col st Hrow Hcol)
      as [(_ & Hv & dr & dc & Hin & Hb)|[H _]]; [|congruence].
    exists row, col, dr, dc. split; [split; assumption|]. split; [assumption|].
    split; [assumption | exact Hb].
Qed.

End DenseWrapped.

Lemma channel_fill s k q :
  k <> 2%nat -> channel (fill_channel s 2 q) k = channel s k.
Proof.
  intros Hk. unfold channel, fill_channel. rewrite map_map. apply map_ext.
  intros row. rewrite map_map. apply map_ext. intros cell.
  now apply list_lookup_total_insert_ne.
Qed.

Lemma sum_coins_fill s q : Dense.sum_coins (fill_channel s 2 q) = Dense.sum_coins s.
Proof. unfold Dense.sum_coins. now rewrite !channel_fill by lia. Qed.

Lemma sum2_zeros2 n m : sum2 (zeros2 n m) = 0.
Proof.
  unfold sum2, zeros2.
  assert (Hrow : sum1 (replicate m 0) = 0) by (induction m as [|m IH]; simpl; lia).
  induction n as [|n IH]; [reflexivity|].
  cbn [replicate map sum1 fold_right]. fold (sum1 (map sum1 (replicate n (replicate m 0)))).
  rewrite Hrow, IH. reflexivity.
Qed.

Lemma valid_discs_fill n s q :
  valid_discs n s ->
  valid_discs n (fill_channel s 2 q)
  /\ at3 (fill_channel s 2 q) 0 0 2 = q
  /\ forall r c k, 0 <= r < n -> 0 <= c < n -> k = 0 \/ k = 1 ->
       at3 (fill_channel s 2 q) r c k = at3 s r c k.
Proof.
  intros (Hn & Hshape & Hcells).
  destruct (fill_channel_spec n n s q Hshape) as [Hsh Hat].
  assert (Hsame : forall r c k, 0 <= r < n -> 0 <= c < n -> k = 0 \/ k = 1 ->
            at3 (fill_channel s 2 q) r c k = at3 s r c k).
  { intros r c k Hr Hc Hk. rewrite Hat by lia.
    destruct (decide (k = 2)) as [|_]; [lia | reflexivity]. }
  split; [|split; [|exact Hsame]].
  - split; [assumption|]. split; [assumption|]. intros r c Hr Hc.
    rewrite !Hsame by (try assumption; lia). now apply Hcells.
  - rewrite Hat by lia. now destruct (decide (2 = 2)).
Qed.

Lemma valid_discs_dense n s q :
  valid_discs n s -> bit01 q -> valid_dense n (fill_channel s 2 q).
Proof.
  intros Hd Hq. pose proof Hd as (Hn & Hshape & Hcells).
  destruct (valid_discs_fill n s q Hd) as ((_ & Hsh & Hc') & Ep & _).
  destruct (fill_channel_spec n n s q Hshape) as [_ Hat].
  split; [assumption|]. split; [assumption|]. split; [now rewrite Ep|].
  intros r c Hr Hc. split; [|now apply Hc'].
  rewrite Ep, Hat by lia. now destruct (decide (2 = 2)).
Qed.

Lemma looks_behind_fill self s q k :
  shape3 (Dense._size self) (Dense._size self) s -> k = 0 \/ k = 1 ->
  (looks_behind self (fill_channel s 2 q) k <-> looks_behind self s k).
Proof.
  intros Hshape Hk.
  destruct (fill_channel_spec _ _ s q Hshape) as [_ Hat].
  assert (Hsame : forall r c j, 0 <= r < Dense._size self -> 0 <= c < Dense._size self ->
            j = 0 \/ j = 1 -> at3 (fill_channel s 2 q) r c j = at3 s r c j).
  { intros r c j Hr Hc Hj. rewrite Hat by lia.
    destruct (decide (j = 2)) as [|_]; [lia | reflexivity]. }
  assert (Hvac : forall r c, 0 <= r < Dense._size self -> 0 <= c < Dense._size self ->
            (dvacant (fill_channel s 2 q) r c <-> dvacant s r c)).
  { intros r c Hr Hc. unfold dvacant. now rewrite !Hsame by (try assumption; lia). }
  assert (Hcell : forall r c,
            dcell self (fill_channel s 2 q) k r c = dcell self s k r c).
  { intros r c. unfold dcell.
    destruct (Dense._check_legal_index self r c) eqn:E; [|reflexivity].
    apply check_legal_index_iff in E. now rewrite Hsame by tauto. }
  unfold looks_behind.
  split; intros (r & c & dr & dc & Hrc & Hv & Hin & Hd & Hl & Hn);
    exists r, c, dr, dc; pose proof (proj1 (check_legal_index_iff _ _ _) Hl) as [Hr2 Hc2];
    (split; [assumption|]); (split; [apply (Hvac r c); tauto|]);
    (split; [assumption|]); (split; [now rewrite Hcell in * |]);
    (split; [assumption|]); intros Hv'; apply Hn; now apply (Hvac _ _ Hr2 Hc2).
Qed.

Section DenseStep.

Variables (self : Dense.StateEnv) (s : ndarray3).
Hypothesis Hvalid : valid_dense (Dense._size self) s.
Variables (r0 c0 : Z).
Hypothesis Hr0 : 0 <= r0 < Dense._size self.
Hypothesis Hc0 : 0 <= c0 < Dense._size self.
Hypothesis Hvac : dvacant s r0 c0.

Let N := Dense._size self.
Let cur := at3 s 0 0 2.
Let oppc := 1 - cur.

(** The board after the move: what [helper_play_spec] says of it. *)
Let moved (post : ndarray3) : Prop :=
  shape3 N N post
  /\ forall r c, 0 <= r < N -> 0 <= c < N ->
       at3 post r c 2 = at3 s r c 2
       /\ (at3 post r c cur = 1
           <-> at3 s r c cur = 1 \/ (r = r0 /\ c = c0)
               \/ flipped (dcell self s cur) (dcell self s oppc) r0 c0 r c)
       /\ (at3 post r c oppc = 1
           <-> at3 s r c oppc = 1
               /\ ~ flipped (dcell self s cur) (dcell self s oppc) r0 c0 r c)
       /\ bit01 (at3 post r c cur) /\ bit01 (at3 post r c oppc).

Lemma step_channels : (cur = 0 /\ oppc = 1) \/ (cur = 1 /\ oppc = 0).
Proof. exact (valid_dense_channels _ _ Hvalid). Qed.

Lemma moved_valid post q :
  moved post -> bit01 q -> valid_dense N (fill_channel post 2 q).
Proof.
  intros [Hshape Hpt] Hq.
  pose proof Hvalid as (HN & _ & _ & Hcells).
  destruct (fill_channel_spec N N post q Hshape) as [Hsh Hat].
  split; [assumption|]. split; [assumption|].
  split; [rewrite Hat by lia; assumption|].
  intros r c Hr Hc. rewrite !Hat by lia.
  destruct (decide (2 = 2)) as [_|]; [|lia].
  destruct (decide (0 = 2)) as [|_]; [lia|].
  destruct (decide (1 = 2)) as [|_]; [lia|].
  split; [reflexivity|].
  destruct (Hpt r c Hr Hc) as (_ & Ac & Ao & Bc & Bo).
  destruct (Hcells r c Hr Hc) as (_ & Hb & Hw & Hsum).
  pose proof step_channels as Hch. destruct Hvac as [V0 V1].
  clear Hpt Hat. clearbody cur oppc.
  assert (Hboth : ~ (at3 post r c cur = 1 /\ at3 post r c oppc = 1)).
  { intros [H1 H2]. apply Ac in H1. apply Ao in H2. destruct H2 as [H2 Hnf].
    destruct H1 as [H1|[[-> ->]|H1]]; [| |contradiction];
      destruct Hch as [[-> ->]|[-> ->]]; lia. }
  unfold bit01 in *.
  destruct Hch as [[-> ->]|[-> ->]]; lia.
Qed.

Lemma dense_step_spec :
  cur = 1 ->
  exists lm0 post lm1,
    Dense._legal_moves_helper self s (Some r0) (Some c0) true = Some (lm0, post)
    /\ moved post
    /\ Dense._legal_moves_helper self (fill_channel post 2 oppc) None None false
       = Some (lm1, fill_channel post 2 oppc)
    /\ ((sum2 lm1 <> 0
         /\ Dense.step self s (r0 * N + c0)
            = Some (fill_channel post 2 oppc, lm1, oppc, 0))
        \/ (sum2 lm1 = 0
            /\ Dense.sum_coins (fill_channel post 2 oppc) = N ^ 2
            /\ Dense.step self s (r0 * N + c0)
               = Some (fill_channel post 2 oppc, lm1, oppc, 1))
        \/ (sum2 lm1 = 0
            /\ Dense.sum_coins (fill_channel post 2 oppc) <> N ^ 2
            /\ exists lm2,
                 Dense._legal_moves_helper self (fill_channel post 2 cur)
                   None None false = Some (lm2, fill_channel post 2 cur)
                 /\ Dense.step self s (r0 * N + c0)
                    = Some (fill_channel post 2 cur, lm2, cur,
                            if sum2 lm2 =? 0 then 1 else 0))).
Proof.
  intros Hwhite.
  pose proof Hvalid as (HN & Hshape & Hp & Hcells). fold cur in Hp.
  destruct (helper_play_spec self s Hvalid r0 c0 Hr0 Hc0 Hvac)
    as (lm0 & post & Eplay & Hmoved).
  fold cur oppc N in Hmoved. change (moved post) in Hmoved.
  assert (Ho : bit01 oppc) by (unfold oppc, bit01 in *; lia).
  pose proof (moved_valid post oppc Hmoved Ho) as Hv1.
  pose proof (moved_valid post cur Hmoved Hp) as Hv2.
  destruct (helper_scan_spec self _ Hv1 None None) as (lm1 & E1 & _).
  destruct (helper_scan_spec self _ Hv2 None None) as (lm2 & E2 & _).
  exists lm0, post, lm1. split; [assumption|]. split; [assumption|].
  split; [assumption|].
  assert (Ediv : (r0 * N + c0) / N = r0) by (symmetry; apply Z.div_unique with c0; lia).
  assert (Emod : (r0 * N + c0) mod N = c0) by (symmetry; apply Z.mod_unique with r0; lia).
  assert (Eabs : to_uint8 (Z.abs (to_uint8 (cur - 1))) = oppc).
  { unfold oppc. rewrite Hwhite. reflexivity. }
  assert (Eg1 : get3 (fill_channel post 2 oppc) 0 0 2 = Some oppc).
  { destruct Hv1 as (_ & Hsh1 & _).
    rewrite (get3_at3 N N _ 0 0 2 Hsh1) by lia.
    destruct (fill_channel_spec N N post oppc (proj1 Hmoved)) as [_ Hat].
    now rewrite Hat by lia. }
  assert (Eg2 : get3 (fill_channel post 2 cur) 0 0 2 = Some cur).
  { destruct Hv2 as (_ & Hsh2 & _).
    rewrite (get3_at3 N N _ 0 0 2 Hsh2) by lia.
    destruct (fill_channel_spec N N post cur (proj1 Hmoved)) as [_ Hat].
    now rewrite Hat by lia. }
  unfold Dense.step. fold N.
  destruct (Z.eqb_spec N 0) as [|_]; [lia|].
  rewrite Ediv, Emod, Eplay. cbn [mbind option_bind].
  rewrite (get3_at3 N N s 0 0 2 Hshape) by lia. fold cur. cbn [mbind option_bind].
  rewrite Eabs, E1. cbn [mbind option_bind].
  destruct (Z.eqb_spec (sum2 lm1) 0) as [Hz|Hnz].
  - right. destruct (Z.eqb_spec (Dense.sum_coins (fill_channel post 2 oppc)) (N ^ 2))
      as [Hfull|Hnfull].
    + left. rewrite Eg1. now repeat split.
    + right. split; [assumption|]. split; [assumption|].
      exists lm2. rewrite fill_channel_twice, E2. cbn [mbind option_bind].
      split; [reflexivity|]. rewrite Eg2. cbn [mbind option_bind].
      destruct (sum2 lm2 =? 0); reflexivity.
  - left. rewrite Eg1. now split.
Qed.

End DenseStep.

(** With black to move the subtraction wraps: the board handed to the scan
    has 255 in its player channel. *)
Lemma dense_step_black self s a lm0 post :
  valid_dense (Dense._size self) s -> at3 s 0 0 2 = 0 ->
  Dense._legal_moves_helper self s
    (Some (a / Dense._size self)) (Some (a mod Dense._size self)) true
  = Some (lm0, post) ->
  valid_discs (Dense._size self) post ->
  (looks_behind self post 0 /\ Dense.step self s a = None)
  \/ (~ looks_behind self post 0
      /\ Dense.sum_coins post = Dense._size self ^ 2
      /\ Dense.step self s a
         = Some (fill_channel post 2 255,
                 zeros2 (Z.to_nat (Dense._size self)) (Z.to_nat (Dense._size self)),
                 255, 1))
  \/ (~ looks_behind self post 0
      /\ Dense.sum_coins post <> Dense._size self ^ 2
      /\ exists lm2,
           Dense._legal_moves_helper self (fill_channel post 2 0) None None false
           = Some (lm2, fill_channel post 2 0)
           /\ Dense.step self s a
              = Some (fill_channel post 2 0, lm2, 0,
                      if sum2 lm2 =? 0 then 1 else 0)).
Proof.
  intros Hv Hp Eplay Hd.
  pose proof Hv as (HN & Hshape & _). pose proof Hd as (_ & Hshp & _).
  set (N := Dense._size self) in *.
  destruct (valid_discs_fill N post 255 Hd) as (Hd255 & Ep255 & _).
  pose proof (valid_discs_dense N post 0 Hd ltac:(now left)) as Hv0.
  destruct (helper_scan_spec self _ Hv0 None None) as (lm2 & E2 & _).
  assert (Eg255 : get3 (fill_channel post 2 255) 0 0 2 = Some 255).
  { destruct Hd255 as (_ & Hsh & _).
    rewrite (get3_at3 N N _ 0 0 2 Hsh) by lia. now rewrite Ep255. }
  assert (Eg0 : get3 (fill_channel post 2 0) 0 0 2 = Some 0).
  { destruct Hv0 as (_ & Hsh & _).
    rewrite (get3_at3 N N _ 0 0 2 Hsh) by lia.
    destruct (fill_channel_spec N N post 0 Hshp) as [_ Hat].
    now rewrite Hat by lia. }
  unfold Dense.step. fold N.
  destruct (Z.eqb_spec N 0) as [|_]; [lia|].
  rewrite Eplay. cbn [mbind option_bind].
  rewrite (get3_at3 N N s 0 0 2 Hshape) by lia. rewrite Hp. cbn [mbind option_bind].
  change (to_uint8 (Z.abs (to_uint8 (0 - 1)))) with 255.
  destruct (helper_wrapped_spec self _ Hd255 Ep255) as [[E Hb]|[E Hb]];
    fold N in E; rewrite E; cbn [mbind option_bind];
    rewrite (looks_behind_fill self post 255 0 Hshp ltac:(now left)) in Hb.
  - left. split; [assumption | reflexivity].
  - right. rewrite sum2_zeros2. cbn [Z.eqb]. rewrite sum_coins_fill.
    destruct (Z.eqb_spec (Dense.sum_coins post) (N ^ 2)) as [Hfull|Hnfull].
    + left. rewrite Eg255. cbn [mbind option_bind]. now repeat split.
    + right. split; [assumption|]. split; [assumption|]. exists lm2.
      rewrite fill_channel_twice, E2. cbn [mbind option_bind].
      split; [reflexivity|]. rewrite Eg0. cbn [mbind option_bind].
      destruct (sum2 lm2 =? 0); reflexivity.
Qed.

Lemma valid_discs_unfill n s q :
  shape3 n n s -> valid_discs n (fill_channel s 2 q) -> valid_discs n s.
Proof.
  intros Hshape (Hn & _ & Hcells).
  destruct (fill_channel_spec n n s q Hshape) as [_ Hat].
  split; [assumption|]. split; [assumption|]. intros r c Hr Hc.
  specialize (Hcells r c Hr Hc). rewrite !Hat in Hcells by lia.
  destruct (decide (0 = 2)) as [|_]; [lia|].
  destruct (decide (1 = 2)) as [|_]; [lia|]. exact Hcells.
Qed.

(** The move applicator on an empty cell leaves a board of discs on which
    every occupied cell is still occupied. *)
Lemma helper_play_discs self s r0 c0 :
  valid_dense (Dense._size self) s ->
  0 <= r0 < Dense._size self -> 0 <= c0 < Dense._size self ->
  dvacant s r0 c0 ->
  exists lm0 post,
    Dense._legal_moves_helper self s (Some r0) (Some c0) true = Some (lm0, post)
    /\ valid_discs (Dense._size self) post
    /\ forall r c, 0 <= r < Dense._size self -> 0 <= c < Dense._size self ->
         doccupied s r c -> doccupied post r c.
Proof.
  intros Hv Hr0 Hc0 Hvac.
  destruct (helper_play_spec self s Hv r0 c0 Hr0 Hc0 Hvac)
    as (lm0 & post & Eplay & Hshape & Hpt).
  exists lm0, post. split; [exact Eplay|].
  pose proof (moved_valid self s Hv r0 c0 Hc0 Hvac post 0 (conj Hshape Hpt)
                ltac:(now left)) as Hv0.
  pose proof (valid_discs_unfill _ post 0 Hshape (valid_dense_discs _ _ Hv0)) as Hd.
  split; [exact Hd|].
  intros r c Hr Hc Hocc. unfold doccupied in *.
  destruct Hd as (_ & _ & Hcells). destruct (Hcells r c Hr Hc) as (B0 & B1 & Hsum).
  destruct (Hpt r c Hr Hc) as (_ & Ac & Ao & Bc & Bo).
  destruct Hv as (_ & _ & Hp & Hc'). destruct (Hc' r c Hr Hc) as (_ & D0 & D1 & _).
  set (cur := at3 s 0 0 2) in *.
  assert (Hone : at3 post r c cur = 1 \/ at3 post r c (1 - cur) = 1).
  { destruct Bc as [Hz|Hz]; [|now left]. right. apply Ao.
    assert (Hnf : ~ flipped (dcell self s cur) (dcell self s (1 - cur)) r0 c0 r c)
      by (intros Hf; assert (at3 post r c cur = 1) by (apply Ac; tauto); lia).
    split; [|assumption].
    assert (Hnc : at3 s r c cur <> 1)
      by (intros Hc1; assert (at3 post r c cur = 1) by (apply Ac; tauto); lia).
    unfold bit01 in *. destruct Hp as [Hp|Hp]; rewrite Hp in *;
      [change (1 - 0) with 1 | change (1 - 1) with 0]; lia. }
  unfold bit01 in *. destruct Hp as [Hp|Hp]; rewrite Hp in *;
    [change (1 - 0) with 1 in Hone | change (1 - 1) with 0 in Hone]; lia.
Qed.

Lemma can_move_looks_behind self post :
  valid_discs (Dense._size self) post ->
  dcan_move self (fill_channel post 2 1) -> looks_behind self post 0.
Proof.
  intros Hd (r & c & Hr & Hc & Hleg).
  destruct (valid_discs_fill _ post 1 Hd) as (Hd1 & Ep & Hsame).
  pose proof Hd as (_ & Hshape & _).
  rewrite Ep in Hleg. change (1 - 1) with 0 in Hleg.
  destruct Hleg as [Hvac (dr & dc & n & Hin & Hn & Hopp & Hown)].
  apply (looks_behind_fill self post 1 0 Hshape ltac:(now left)).
  exists r, c, dr, dc. split; [split; assumption|]. split; [assumption|].
  split; [assumption|].
  pose proof (Hopp 1 ltac:(lia)) as H1. rewrite !Z.mul_1_l in H1.
  split; [exact H1|].
  assert (H2 : exists k, dcell self (fill_channel post 2 1) k (r + 2 * dr) (c + 2 * dc)
                         = true).
  { destruct (Z.eq_dec n 1) as [ -> |Hne].
    - exists 1. exact Hown.
    - exists 0. apply Hopp. lia. }
  destruct H2 as [k H2]. apply dcell_true in H2. destruct H2 as [Hrc2 Hk].
  split; [now apply check_legal_index_iff|].
  intros [V0 V1].
  destruct Hd1 as (_ & _ & Hcells).
  destruct (Hcells _ _ (proj1 Hrc2) (proj2 Hrc2)) as (B0 & B1 & Hsum).
  destruct (Z.eq_dec n 1) as [ -> |Hne].
  - apply dcell_true in Hown. change (1 + 1) with 2 in Hown. lia.
  - pose proof (Hopp 2 ltac:(lia)) as H2'. apply dcell_true in H2'. lia.
Qed.


(** ** From masks to arrays *)

Lemma converter_init_8 : Converter.init 8 = Some conv8.
Proof. vm_compute. reflexivity. Qed.

Lemma read_input_bitboard b w p :
  Converter.read_input conv8 (VTuple [b; w; p]) "bitboard"
  = Some (board_array b w (to_uint8 p), VTuple [b; w; p]).
Proof. vm_compute. reflexivity. Qed.

Lemma read_input_single x :
  exists x',
    Converter.read_input conv8 (VInt x) "bitboard_single"
    = Some (board_array x 0 0, VInt x').
Proof. eexists. vm_compute. reflexivity. Qed.

Lemma py_index_range n r : 0 <= r < n -> py_index (range n) r = Some r.
Proof.
  intros Hr. unfold range.
  rewrite py_index_lookup by (rewrite length_map, length_seq; lia).
  change (map Z.of_nat (seq 0 (Z.to_nat n))) with (Z.of_nat <$> seq 0 (Z.to_nat n)).
  rewrite list_lookup_fmap, lookup_seq_lt by lia. simpl. f_equal. lia.
Qed.

Lemma shr_iter_shiftr k t : shr_iter k t = Z.shiftr t (Z.of_nat k).
Proof.
  unfold shr_iter. induction k as [|k IH]; [now rewrite Z.shiftr_0_r|].
  rewrite Nat.iter_succ_r. cbn [Nat.iter].
  clear IH. revert t. induction k as [|k IH]; intros t.
  - reflexivity.
  - change (Nat.iter (S k) (fun t => Z.shiftr t 1) (Z.shiftr t 1))
      with (Z.shiftr (Nat.iter k (fun t => Z.shiftr t 1) (Z.shiftr t 1)) 1).
    rewrite IH, Z.shiftr_shiftr by lia. f_equal. lia.
Qed.

Lemma bitz_testbit x k : 0 <= k -> bitz x k = Z.b2z (Z.testbit x k).
Proof.
  intros Hk. unfold bitz. rewrite shr_iter_shiftr, Z2Nat.id by assumption.
  change 1 with (Z.ones 1). rewrite Z.land_ones by lia.
  rewrite Z.shiftr_div_pow2 by assumption. change (2 ^ 1) with 2.
  symmetry. now apply Z.testbit_spec'.
Qed.

Lemma b2z_bit01 b : bit01 (Z.b2z b).
Proof. destruct b; [now right | now left]. Qed.

Lemma b2z_eq_1 b : Z.b2z b = 1 <-> b = true.
Proof. destruct b; simpl; intuition congruence. Qed.

Lemma mask_array_spec x :
  shape2 8 8 (mask_array x)
  /\ forall r c, 0 <= r < 8 -> 0 <= c < 8 ->
       at2 (mask_array x) r c = Z.b2z (Z.testbit x (bit r c)).
Proof.
  split.
  - unfold mask_array. split; [reflexivity|].
    apply Forall_map, List.Forall_forall. intros r _. now rewrite length_map.
  - intros r c Hr Hc. unfold at2, get2, mask_array.
    rewrite py_index_map, py_index_range by assumption.
    cbn [fmap option_fmap option_map mbind option_bind].
    rewrite py_index_map, py_index_range by assumption. simpl.
    apply bitz_testbit. unfold bit. lia.
Qed.

Lemma board_array_spec b w p :
  shape3 8 8 (board_array b w p)
  /\ forall r c, 0 <= r < 8 -> 0 <= c < 8 ->
       at3 (board_array b w p) r c 0 = Z.b2z (Z.testbit b (bit r c))
       /\ at3 (board_array b w p) r c 1 = Z.b2z (Z.testbit w (bit r c))
       /\ at3 (board_array b w p) r c 2 = p.
Proof.
  split.
  - unfold board_array. split; [reflexivity|].
    apply Forall_map, List.Forall_forall. intros r _. cbn beta.
    split; [now rewrite length_map|].
    apply Forall_map, List.Forall_forall. now intros c _.
  - intros r c Hr Hc. unfold at3, get3, board_array.
    rewrite py_index_map, py_index_range by assumption.
    cbn [fmap option_fmap option_map mbind option_bind].
    rewrite py_index_map, py_index_range by assumption.
    cbn [fmap option_fmap option_map mbind option_bind].
    assert (Hk : 0 <= bit r c) by (unfold bit; lia).
    repeat split; simpl; now apply bitz_testbit.
Qed.

(** ** From arrays to masks *)

Lemma lsb_val_spec l :
  Forall bit01 l ->
  0 <= lsb_val l < 2 ^ Z.of_nat (length l)
  /\ forall k, (k < length l)%nat ->
       Z.testbit (lsb_val l) (Z.of_nat k) = (nth k l 0 =? 1).
Proof.
  induction 1 as [|x l Hx Hl IH]; cbn [lsb_val fold_right length].
  - split; [simpl; lia | intros k Hk; inversion Hk].
  - fold (lsb_val l). destruct IH as [Hb Hbits].
    rewrite Nat2Z.inj_succ, Z.pow_succ_r by lia.
    split; [unfold bit01 in Hx; lia|].
    assert (Hx' : x = Z.b2z (x =? 1)) by (destruct Hx as [ -> | -> ]; reflexivity).
    intros [|k] Hk.
    + cbn [nth]. rewrite Hx' at 1. rewrite Z.add_comm. apply Z.testbit_0_r.
    + cbn [nth]. rewrite Nat2Z.inj_succ, Hx', Z.add_comm.
      rewrite Z.testbit_succ_r by lia. apply Hbits. simpl in Hk. lia.
Qed.

Lemma length8 (l : list Z) :
  Z.of_nat (length l) = 8 ->
  exists x0 x1 x2 x3 x4 x5 x6 x7, l = [x0; x1; x2; x3; x4; x5; x6; x7].
Proof.
  intros H.
  destruct l as [|x0 [|x1 [|x2 [|x3 [|x4 [|x5 [|x6 [|x7 [|x8 l]]]]]]]]];
    simpl in H; try lia.
  now exists x0, x1, x2, x3, x4, x5, x6, x7.
Qed.

Lemma rows8 (a : ndarray2) :
  shape2 8 8 a ->
  exists r0 r1 r2 r3 r4 r5 r6 r7,
    a = [r0; r1; r2; r3; r4; r5; r6; r7]
    /\ Forall (fun row => Z.of_nat (length row) = 8) [r0; r1; r2; r3; r4; r5; r6; r7].
Proof.
  intros [Hlen Hrows].
  destruct a as [|r0 [|r1 [|r2 [|r3 [|r4 [|r5 [|r6 [|r7 [|r8 a]]]]]]]]];
    simpl in Hlen; try lia.
  now exists r0, r1, r2, r3, r4, r5, r6, r7.
Qed.

Ltac split_forall H :=
  repeat match type of H with
         | Forall _ (_ :: _) =>
             let H1 := fresh "Hrow" in
             apply Forall_cons_iff in H; destruct H as [H1 H]
         end.

Ltac cases8 r :=
  match goal with
  | H : 0 <= r < 8 |- _ =>
      let C := fresh "C" in
      assert (C : r = 0 \/ r = 1 \/ r = 2 \/ r = 3 \/ r = 4 \/ r = 5 \/ r = 6 \/ r = 7)
        by lia;
      clear H;
      destruct C as [ -> |[ -> |[ -> |[ -> |[ -> |[ -> |[ -> | -> ]]]]]]]
  end.

Lemma weighted_sum_spec a :
  shape2 8 8 a ->
  (forall r c, 0 <= r < 8 -> 0 <= c < 8 -> bit01 (at2 a r c)) ->
  board64 (weighted_sum a weights8)
  /\ forall r c, 0 <= r < 8 -> 0 <= c < 8 ->
       Z.testbit (weighted_sum a weights8) (bit r c) = (at2 a r c =? 1).
Proof.
  intros Ha Hbits. pose proof (proj2 (at2_forall 8 8 a bit01 Ha) Hbits) as HF.
  destruct (rows8 a Ha) as (r0 & r1 & r2 & r3 & r4 & r5 & r6 & r7 & -> & Hrows).
  clear Ha Hbits. split_forall Hrows. clear Hrows.
  repeat match goal with
         | H : Z.of_nat (length ?row) = 8 |- _ =>
             let x0 := fresh "x" in let x1 := fresh "x" in let x2 := fresh "x" in
             let x3 := fresh "x" in let x4 := fresh "x" in let x5 := fresh "x" in
             let x6 := fresh "x" in let x7 := fresh "x" in
             destruct (length8 row H) as (x0 & x1 & x2 & x3 & x4 & x5 & x6 & x7 & ->);
             clear H
         end.
  match goal with
  | |- context [weighted_sum ?A weights8] =>
      set (flat := rev (concat A));
      assert (Hval : weighted_sum A weights8 = lsb_val flat)
  end.
  { assert (HFf : Forall bit01 flat).
    { unfold flat. apply Forall_rev, Forall_concat. exact HF. }
    destruct (lsb_val_spec flat HFf) as [Hb _].
    change (Z.of_nat (length flat)) with 64 in Hb.
    unfold weighted_sum. rewrite Z.mod_small; [|].
    - let w := eval vm_compute in weights8 in change weights8 with w.
      unfold flat, lsb_val, sum2, sum1.
      cbn [zip_with map fold_right concat rev app]. ring.
    - let w := eval vm_compute in weights8 in change weights8 with w.
      unfold flat, lsb_val, sum2, sum1 in *.
      cbn [zip_with map fold_right concat rev app] in *.
      split; [|destruct Hb as [_ Hb]; eapply Z.le_lt_trans; [|exact Hb]];
        [eapply Z.le_trans; [apply Hb|] | ]; apply Z.eq_le_incl; ring. }
  rewrite Hval.
  assert (HFf : Forall bit01 flat).
  { unfold flat. apply Forall_rev, Forall_concat. exact HF. }
  destruct (lsb_val_spec flat HFf) as [Hb Hbit].
  split; [exact Hb|].
  intros r c Hr Hc. cases8 r; cases8 c;
    match goal with
    | |- Z.testbit _ (bit ?r ?c) = _ =>
        exact (Hbit (Z.to_nat (bit r c)) ltac:(vm_compute; lia))
    end.
Qed.

(** ** Arrays are determined by their entries *)

Lemma py_index_nat {A} (l : list A) (i : nat) x :
  l !! i = Some x -> py_index l (Z.of_nat i) = Some x.
Proof.
  intros H. pose proof (lookup_lt_Some _ _ _ H).
  rewrite py_index_lookup, Nat2Z.id by lia. exact H.
Qed.

Lemma ext2 n m a a' :
  shape2 n m a -> shape2 n m a' ->
  (forall r c, 0 <= r < n -> 0 <= c < m -> at2 a r c = at2 a' r c) ->
  a = a'.
Proof.
  intros [Hn Hrows] [Hn' Hrows'] Hext.
  apply (list_eq_same_length _ _ (length a)); [lia | reflexivity|].
  intros i row row' Hi Ei Ei'.
  pose proof (Forall_lookup_1 _ _ _ _ Hrows Ei) as Hlen.
  pose proof (Forall_lookup_1 _ _ _ _ Hrows' Ei') as Hlen'. cbn beta in *.
  apply (list_eq_same_length _ _ (length row)); [lia | reflexivity|].
  intros j x x' Hj Ej Ej'.
  specialize (Hext (Z.of_nat i) (Z.of_nat j) ltac:(lia) ltac:(lia)).
  unfold at2, get2 in Hext.
  rewrite (py_index_nat _ _ _ Ei), (py_index_nat _ _ _ Ei') in Hext.
  cbn [mbind option_bind] in Hext.
  now rewrite (py_index_nat _ _ _ Ej), (py_index_nat _ _ _ Ej') in Hext.
Qed.

Lemma ext3 n m s s' :
  shape3 n m s -> shape3 n m s' ->
  (forall r c k, 0 <= r < n -> 0 <= c < m -> 0 <= k < 3 ->
     at3 s r c k = at3 s' r c k) ->
  s = s'.
Proof.
  intros [Hn Hrows] [Hn' Hrows'] Hext.
  apply (list_eq_same_length _ _ (length s)); [lia | reflexivity|].
  intros i row row' Hi Ei Ei'.
  destruct (Forall_lookup_1 _ _ _ _ Hrows Ei) as [Hlen Hcells].
  destruct (Forall_lookup_1 _ _ _ _ Hrows' Ei') as [Hlen' Hcells'].
  apply (list_eq_same_length _ _ (length row)); [lia | reflexivity|].
  intros j cell cell' Hj Ej Ej'.
  pose proof (Forall_lookup_1 _ _ _ _ Hcells Ej) as Hl3.
  pose proof (Forall_lookup_1 _ _ _ _ Hcells' Ej') as Hl3'. cbn beta in *.
  apply (list_eq_same_length _ _ 3%nat); [assumption..|].
  intros k x x' Hk Ek Ek'.
  specialize (Hext (Z.of_nat i) (Z.of_nat j) (Z.of_nat k)
                ltac:(lia) ltac:(lia) ltac:(lia)).
  unfold at3, get3 in Hext.
  rewrite (py_index_nat _ _ _ Ei), (py_index_nat _ _ _ Ei') in Hext.
  cbn [mbind option_bind] in Hext.
  rewrite (py_index_nat _ _ _ Ej), (py_index_nat _ _ _ Ej') in Hext.
  cbn [mbind option_bind] in Hext.
  now rewrite (py_index_nat _ _ _ Ek), (py_index_nat _ _ _ Ek') in Hext.
Qed.

(** ** Round trips of the converter *)

Lemma bit01_b2z x : bit01 x -> Z.b2z (x =? 1) = x.
Proof. now intros [ -> | -> ]. Qed.

Lemma weighted_mask x : board64 x -> weighted_sum (mask_array x) weights8 = x.
Proof.
  intros Hx. destruct (mask_array_spec x) as [Hsh Hat].
  destruct (weighted_sum_spec (mask_array x) Hsh) as [Hb Hbit].
  { intros r c Hr Hc. rewrite Hat by assumption. apply b2z_bit01. }
  apply board64_ext; [assumption..|].
  intros r c Hin. apply inb_iff in Hin. destruct Hin as [Hr Hc].
  rewrite Hbit, Hat by assumption. now destruct (Z.testbit x (bit r c)).
Qed.

Lemma mask_weighted a :
  shape2 8 8 a ->
  (forall r c, 0 <= r < 8 -> 0 <= c < 8 -> bit01 (at2 a r c)) ->
  mask_array (weighted_sum a weights8) = a.
Proof.
  intros Ha Hbits. destruct (weighted_sum_spec a Ha Hbits) as [Hb Hbit].
  destruct (mask_array_spec (weighted_sum a weights8)) as [Hsh Hat].
  apply (ext2 8 8); [assumption..|].
  intros r c Hr Hc. rewrite Hat, Hbit by assumption.
  apply bit01_b2z. now apply Hbits.
Qed.

Lemma channel_board_array b w p :
  channel (board_array b w p) 0 = mask_array b
  /\ channel (board_array b w p) 1 = mask_array w.
Proof.
  unfold channel, board_array, mask_array. split;
    (rewrite map_map; apply map_ext; intros r;
     rewrite map_map; apply map_ext; intros c; reflexivity).
Qed.

Lemma to_uint8_bits a :
  Forall (Forall bit01) a -> map (map to_uint8) a = a.
Proof.
  intros HF. rewrite <- (map_id a) at 2. apply map_ext_Forall.
  eapply Forall_impl; [exact HF|]. intros row Hrow. cbn beta.
  rewrite <- (map_id row) at 2. apply map_ext_Forall.
  eapply Forall_impl; [exact Hrow|]. intros x [ -> | -> ]; reflexivity.
Qed.

Lemma assign_channel0_spec a :
  shape2 8 8 a ->
  exists board,
    Converter.assign_channel0 (zeros3 8 8) a = Some board
    /\ channel board 0 = map (map to_uint8) a.
Proof.
  intros Ha.
  destruct (rows8 a Ha) as (r0 & r1 & r2 & r3 & r4 & r5 & r6 & r7 & -> & Hrows).
  clear Ha. split_forall Hrows. clear Hrows.
  repeat match goal with
         | H : Z.of_nat (length ?row) = 8 |- _ =>
             let x0 := fresh "x" in let x1 := fresh "x" in let x2 := fresh "x" in
             let x3 := fresh "x" in let x4 := fresh "x" in let x5 := fresh "x" in
             let x6 := fresh "x" in let x7 := fresh "x" in
             destruct (length8 row H) as (x0 & x1 & x2 & x3 & x4 & x5 & x6 & x7 & ->);
             clear H
         end.
  eexists. split; vm_compute; reflexivity.
Qed.

Ltac eval_eqb :=
  repeat match goal with
         | |- context [String.eqb ?a ?b] =>
             let v := eval vm_compute in (String.eqb a b) in
             change (String.eqb a b) with v
         end;
  cbv iota.

Lemma convert_bitboard_ndarray3d b w p :
  Converter.convert conv8 (VTuple [b; w; p]) "bitboard" "ndarray3d"
  = Some (VArray3 (board_array b w (to_uint8 p))).
Proof.
  unfold Converter.convert. eval_eqb. rewrite read_input_bitboard.
  cbn [mbind option_bind]. eval_eqb. reflexivity.
Qed.

Lemma convert_ndarray3d_bitboard d :
  shape3 8 8 d ->
  Converter.convert conv8 (VArray3 d) "ndarray3d" "bitboard"
  = Some (VTuple [weighted_sum (channel d 0) weights8;
                  weighted_sum (channel d 1) weights8; at3 d 0 0 2]).
Proof.
  intros Hd. unfold Converter.convert. eval_eqb.
  unfold Converter.read_input. eval_eqb. cbn [mbind option_bind]. eval_eqb.
  rewrite (get3_at3 8 8 d 0 0 2 Hd) by lia. reflexivity.
Qed.

Lemma convert_single_ndarray x :
  Converter.convert conv8 (VInt x) "bitboard_single" "ndarray"
  = Some (VArray2 (mask_array x)).
Proof.
  unfold Converter.convert. eval_eqb.
  destruct (read_input_single x) as [x' ->].
  cbn [mbind option_bind]. eval_eqb.
  now rewrite (proj1 (channel_board_array x 0 0)).
Qed.

Lemma convert_ndarray_single a :
  shape2 8 8 a ->
  Converter.convert conv8 (VArray2 a) "ndarray" "bitboard_single"
  = Some (VInt (weighted_sum (map (map to_uint8) a) weights8)).
Proof.
  intros Ha. unfold Converter.convert. eval_eqb.
  unfold Converter.read_input. eval_eqb.
  destruct (assign_channel0_spec a Ha) as (board & E & Hch).
  change (zeros3 (Z.to_nat (Converter._size conv8)) (Z.to_nat (Converter._size conv8)))
    with (zeros3 8 8).
  rewrite E. cbn [mbind option_bind]. eval_eqb. now rewrite Hch.
Qed.

Lemma valid_dense_masks d :
  valid_dense 8 d ->
  let b := weighted_sum (channel d 0) weights8 in
  let w := weighted_sum (channel d 1) weights8 in
  valid_state [b; w; at3 d 0 0 2]
  /\ board_array b w (at3 d 0 0 2) = d.
Proof.
  intros (_ & Hshape & Hp & Hcells) b w.
  destruct (channel_spec 8 8 d 0 Hshape ltac:(lia)) as [Hs0 Hat0].
  destruct (channel_spec 8 8 d 1 Hshape ltac:(lia)) as [Hs1 Hat1].
  change (Z.to_nat 0) with 0%nat in *. change (Z.to_nat 1) with 1%nat in *.
  destruct (weighted_sum_spec _ Hs0) as [Hb Hbbit].
  { intros r c Hr Hc. rewrite Hat0 by assumption. now apply Hcells. }
  destruct (weighted_sum_spec _ Hs1) as [Hw Hwbit].
  { intros r c Hr Hc. rewrite Hat1 by assumption. now apply Hcells. }
  fold b in Hb, Hbbit. fold w in Hw, Hwbit. split.
  - exists b, w, (at3 d 0 0 2). split; [reflexivity|].
    split; [assumption|]. split; [assumption|]. split; [|exact Hp].
    apply board64_zero; [now apply board64_land_l|].
    intros r c Hin. apply inb_iff in Hin. destruct Hin as [Hr Hc].
    rewrite Z.land_spec, Hbbit, Hwbit, Hat0, Hat1 by assumption.
    destruct (Hcells r c Hr Hc) as (_ & H0 & H1 & Hsum).
    destruct (Z.eqb_spec (at3 d r c 0) 1), (Z.eqb_spec (at3 d r c 1) 1);
      simpl; try reflexivity. lia.
  - destruct (board_array_spec b w (at3 d 0 0 2)) as [Hsh Hat].
    apply (ext3 8 8); [assumption..|].
    intros r c k Hr Hc Hk. destruct (Hat r c Hr Hc) as (A0 & A1 & A2).
    destruct (Hcells r c Hr Hc) as (H2 & H0 & H1 & _).
    assert (k = 0 \/ k = 1 \/ k = 2) as [ -> |[ -> | -> ]] by lia.
    + rewrite A0, Hbbit, Hat0 by assumption. now apply bit01_b2z.
    + rewrite A1, Hwbit, Hat1 by assumption. now apply bit01_b2z.
    + now rewrite A2, H2.
Qed.

Lemma to_uint8_small x : 0 <= x < 256 -> to_uint8 x = x.
Proof. intros. unfold to_uint8. now apply Z.mod_small. Qed.

Lemma valid_state_array b w p :
  valid_state [b; w; p] ->
  valid_dense 8 (board_array b w p)
  /\ weighted_sum (channel (board_array b w p) 0) weights8 = b
  /\ weighted_sum (channel (board_array b w p) 1) weights8 = w
  /\ at3 (board_array b w p) 0 0 2 = p.
Proof.
  intros (b' & w' & p' & E & Hb & Hw & Hd & Hp). injection E as <- <- <-.
  destruct (board_array_spec b w p) as [Hsh Hat].
  destruct (channel_board_array b w p) as [-> ->].
  rewrite !weighted_mask by assumption.
  destruct (Hat 0 0 ltac:(lia) ltac:(lia)) as (_ & _ & A2).
  split; [|split; [reflexivity|split; [reflexivity | exact A2]]].
  split; [lia|]. split; [assumption|]. split; [rewrite A2; exact Hp|].
  intros r c Hr Hc. destruct (Hat r c Hr Hc) as (E0 & E1 & E2).
  rewrite E0, E1, E2, A2. split; [reflexivity|].
  split; [apply b2z_bit01|]. split; [apply b2z_bit01|].
  assert (Hin : inb r c = true) by (apply inb_iff; lia).
  destruct (Z.testbit b (bit r c)) eqn:Eb, (Z.testbit w (bit r c)) eqn:Ew;
    simpl; try lia.
  exfalso. apply (disjoint_cells b w r c Hd); now rewrite cell_inb.
Qed.

(** C6: on valid 8x8 states the conversions between the packed and the
    dense format are inverse to each other, both for whole states
    ([bitboard] and [ndarray3d]) and for single masks ([bitboard_single]
    and [ndarray]). *)
Theorem converter_round_trips conv s d x a :
  Converter.init 8 = Some conv ->
  valid_state s -> valid_dense 8 d -> board64 x ->
  shape2 8 8 a -> (forall r c, 0 <= r < 8 -> 0 <= c < 8 -> bit01 (at2 a r c)) ->
  (exists d', Converter.convert conv (VTuple s) "bitboard" "ndarray3d"
              = Some (VArray3 d')
     /\ Converter.convert conv (VArray3 d') "ndarray3d" "bitboard"
        = Some (VTuple s))
  /\ (exists s', Converter.convert conv (VArray3 d) "ndarray3d" "bitboard"
                 = Some (VTuple s')
        /\ Converter.convert conv (VTuple s') "bitboard" "ndarray3d"
           = Some (VArray3 d))
  /\ (exists a', Converter.convert conv (VInt x) "bitboard_single" "ndarray"
                 = Some (VArray2 a')
        /\ Converter.convert conv (VArray2 a') "ndarray" "bitboard_single"
           = Some (VInt x))
  /\ (exists x', Converter.convert conv (VArray2 a) "ndarray" "bitboard_single"
                 = Some (VInt x')
        /\ Converter.convert conv (VInt x') "bitboard_single" "ndarray"
           = Some (VArray2 a)).
Proof.
  intros Hconv Hs Hd Hx Ha Hbits.
  rewrite converter_init_8 in Hconv. injection Hconv as <-.
  split; [|split; [|split]].
  - pose proof Hs as (b & w & p & -> & _ & _ & _ & Hp).
    assert (Ep : to_uint8 p = p) by (apply to_uint8_small; lia).
    destruct (valid_state_array b w p Hs) as ((_ & Hsh & _) & Eb & Ew & E2).
    exists (board_array b w p).
    rewrite convert_bitboard_ndarray3d, Ep. split; [reflexivity|].
    rewrite convert_ndarray3d_bitboard by assumption. now rewrite Eb, Ew, E2.
  - pose proof Hd as (_ & Hsh & Hp & _).
    destruct (valid_dense_masks d Hd) as [_ Hback].
    eexists. split; [now apply convert_ndarray3d_bitboard|].
    rewrite convert_bitboard_ndarray3d, to_uint8_small
      by (unfold bit01 in Hp; lia).
    now rewrite Hback.
  - destruct (mask_array_spec x) as [Hsh Hat].
    exists (mask_array x). split; [apply convert_single_ndarray|].
    rewrite convert_ndarray_single by assumption.
    rewrite to_uint8_bits.
    + now rewrite weighted_mask.
    + apply (at2_forall 8 8 _ bit01 Hsh). intros r c Hr Hc.
      rewrite Hat by assumption. apply b2z_bit01.
  - eexists. split; [now apply convert_ndarray_single|].
    rewrite convert_single_ndarray, to_uint8_bits
      by (now apply (at2_forall 8 8 a bit01 Ha)).
    now rewrite mask_weighted.
Qed.

(** ** The two engines on the same position *)

Lemma run_ext own opp own' opp' r c dr dc n :
  (forall r c, own r c = own' r c) -> (forall r c, opp r c = opp' r c) ->
  (run own opp r c dr dc n <-> run own' opp' r c dr dc n).
Proof.
  intros Hown Hopp. unfold run. rewrite Hown.
  split; intros (Hn & Ho & Hw); (split; [assumption|]); (split; [|assumption]);
    intros i Hi; [rewrite <- Hopp | rewrite Hopp]; now apply Ho.
Qed.

Lemma captures_ext own opp own' opp' r c :
  (forall r c, own r c = own' r c) -> (forall r c, opp r c = opp' r c) ->
  (captures own opp r c <-> captures own' opp' r c).
Proof.
  intros Hown Hopp. unfold captures.
  split; intros (dr & dc & n & Hd & Hrun); exists dr, dc, n; (split; [assumption|]);
    now apply (run_ext own opp own' opp' r c dr dc n Hown Hopp).
Qed.

Lemma flipped_ext own opp own' opp' r0 c0 r c :
  (forall r c, own r c = own' r c) -> (forall r c, opp r c = opp' r c) ->
  (flipped own opp r0 c0 r c <-> flipped own' opp' r0 c0 r c).
Proof.
  intros Hown Hopp. unfold flipped.
  split; intros (dr & dc & n & i & Hd & Hrun & Hrest); exists dr, dc, n, i;
    (split; [assumption|]); (split; [|assumption]);
    now apply (run_ext own opp own' opp' r0 c0 dr dc n Hown Hopp).
Qed.

Lemma dense_size_8 : Dense._size (Dense.init 8) = 8.
Proof. reflexivity. Qed.

Section Agree.

Variables (b w p : Z).
Hypothesis Hvalid : valid_state [b; w; p].

Let s := [b; w; p].
Let d := board_array b w p.
Let self := Dense.init 8.

Lemma agree_valid : valid_dense (Dense._size self) d.
Proof. exact (proj1 (valid_state_array b w p Hvalid)). Qed.

Lemma agree_player : at3 d 0 0 2 = p /\ (p = 0 \/ p = 1).
Proof.
  split; [exact (proj2 (proj2 (proj2 (valid_state_array b w p Hvalid))))|].
  now destruct Hvalid as (b' & w' & p' & E & _ & _ & _ & Hp); injection E as <- <- <-.
Qed.

Lemma agree_cells r c :
  dcell self d p r c = cell (mover_board s) r c
  /\ dcell self d (1 - p) r c = cell (other_board s) r c.
Proof.
  unfold dcell, cell.
  change (Dense._check_legal_index self r c) with (inb r c).
  destruct (inb r c) eqn:Hin; [|now split]. apply inb_iff in Hin.
  destruct (board_array_spec b w p) as [_ Hat].
  destruct (Hat r c (proj1 Hin) (proj2 Hin)) as (A0 & A1 & _).
  fold d in A0, A1. cbn [andb].
  destruct agree_player as [_ [ -> | -> ]];
    change (1 - 0) with 1; change (1 - 1) with 0; rewrite A0, A1;
    cbn [mover_board other_board s Z.eqb];
    destruct (Z.testbit b (bit r c)), (Z.testbit w (bit r c)); split; reflexivity.
Qed.

Lemma agree_vacant r c :
  0 <= r < 8 -> 0 <= c < 8 ->
  (dvacant d r c <-> vacant (mover_board s) (other_board s) r c).
Proof.
  intros Hr Hc. unfold dvacant, vacant.
  assert (Hin : inb r c = true) by (apply inb_iff; lia).
  rewrite !cell_inb by assumption.
  destruct (board_array_spec b w p) as [_ Hat].
  destruct (Hat r c Hr Hc) as (A0 & A1 & _). fold d in A0, A1. rewrite A0, A1.
  destruct agree_player as [_ [ -> | -> ]]; cbn [mover_board other_board s Z.eqb];
    destruct (Z.testbit b (bit r c)), (Z.testbit w (bit r c)); simpl;
    intuition congruence.
Qed.

Lemma agree_legal r c :
  0 <= r < 8 -> 0 <= c < 8 ->
  (dlegal self d p (1 - p) r c <-> legal_cell (mover_board s) (other_board s) r c).
Proof.
  intros Hr Hc. unfold dlegal, legal_cell.
  rewrite (agree_vacant r c Hr Hc).
  rewrite (captures_ext _ _ (cell (mover_board s)) (cell (other_board s)) r c
             (fun r c => proj1 (agree_cells r c)) (fun r c => proj2 (agree_cells r c))).
  reflexivity.
Qed.

Lemma agree_scan m :
  BitBoard._legal_moves_helper (BitBoard.init 8) s = Some m ->
  Dense._legal_moves_helper self d None None false = Some (mask_array m, d).
Proof.
  intros Em.
  destruct (legal_moves_helper_valid 8 s Hvalid) as (m' & Em' & Hm).
  rewrite Em in Em'. injection Em' as <-.
  destruct (helper_scan_spec self d agree_valid None None) as (lm & E & Hsh & Hpt).
  rewrite E. do 2 f_equal.
  destruct (mask_array_spec m) as [Hsh' Hat].
  apply (ext2 8 8); [assumption..|].
  intros r c Hr Hc. rewrite Hat by assumption.
  destruct (Hpt r c Hr Hc) as [Hb Hleg].
  rewrite (proj1 agree_player) in Hleg. rewrite (agree_legal r c Hr Hc) in Hleg.
  assert (Hin : inb r c = true) by (apply inb_iff; lia).
  rewrite <- (proj2 Hm r c Hin) in Hleg.
  destruct (Z.testbit m (bit r c)); simpl.
  - now apply Hleg.
  - destruct Hb as [H|H]; [assumption|]. apply Hleg in H. discriminate.
Qed.

End Agree.

Lemma bit01_eq x y : bit01 x -> bit01 y -> (x = 1 <-> y = 1) -> x = y.
Proof. unfold bit01. intros [ -> | -> ] [ -> | -> ] H; lia. Qed.

Lemma mask_array_zero m : board64 m -> (sum2 (mask_array m) = 0 <-> m = 0).
Proof.
  intros Hm. destruct (mask_array_spec m) as [Hsh Hat].
  destruct (sum2_bounds 8 8 _ ltac:(lia) Hsh) as [Hz _].
  { intros r c Hr Hc. rewrite Hat by assumption. apply b2z_bit01. }
  rewrite Hz. split.
  - intros H. apply board64_zero; [assumption|]. intros r c Hin.
    apply inb_iff in Hin. destruct Hin as [Hr Hc].
    specialize (H r c Hr Hc). rewrite Hat in H by assumption.
    now destruct (Z.testbit m (bit r c)).
  - intros -> r c Hr Hc. rewrite Hat by assumption. now rewrite Z.bits_0.
Qed.

Lemma full_agree b w q :
  valid_state [b; w; q] ->
  (Dense.sum_coins (board_array b w q) = 8 ^ 2
   <-> occupied [b; w; q] = 0xFFFFFFFFFFFFFFFF).
Proof.
  intros Hv. destruct (valid_state_array b w q Hv) as (Hvd & _).
  rewrite (sum_coins_full 8 _ Hvd).
  destruct Hv as (b' & w' & q' & E & Hb & Hw & Hd & _). injection E as <- <- <-.
  destruct (board_array_spec b w q) as [_ Hat]. cbn [occupied].
  assert (Hones : board64 0xFFFFFFFFFFFFFFFF) by (unfold board64; lia).
  split.
  - intros H. apply board64_ext; [now apply board64_lor | assumption |].
    intros r c Hin. pose proof (bit_range r c Hin) as Hbit.
    apply inb_iff in Hin. destruct Hin as [Hr Hc].
    specialize (H r c Hr Hc). destruct (Hat r c Hr Hc) as (A0 & A1 & _).
    rewrite A0, A1 in H. rewrite Z.lor_spec.
    change 0xFFFFFFFFFFFFFFFF with (Z.ones 64). rewrite Z.ones_spec_low by lia.
    destruct (Z.testbit b (bit r c)), (Z.testbit w (bit r c)); simpl in *; lia.
  - intros H r c Hr Hc. destruct (Hat r c Hr Hc) as (A0 & A1 & _).
    rewrite A0, A1.
    assert (Hin : inb r c = true) by (apply inb_iff; lia).
    pose proof (bit_range r c Hin) as Hbit.
    assert (Hor : Z.testbit (Z.lor b w) (bit r c) = true).
    { rewrite H. change 0xFFFFFFFFFFFFFFFF with (Z.ones 64).
      now rewrite Z.ones_spec_low by lia. }
    rewrite Z.lor_spec in Hor.
    destruct (Z.testbit b (bit r c)) eqn:Eb, (Z.testbit w (bit r c)) eqn:Ew;
      simpl in *; try lia; try discriminate.
    exfalso. apply (disjoint_cells b w r c Hd); now rewrite cell_inb.
Qed.

Section AgreeStep.

Variables (b w p : Z).
Hypothesis Hvalid : valid_state [b; w; p].
Variables (r0 c0 : Z).
Hypothesis Hr0 : 0 <= r0 < 8.
Hypothesis Hc0 : 0 <= c0 < 8.

Let s := [b; w; p].
Let d := board_array b w p.
Let self := Dense.init 8.

Hypothesis Hvac : vacant (mover_board s) (other_board s) r0 c0.

Lemma agree_at r c k :
  0 <= r < 8 -> 0 <= c < 8 -> k = p \/ k = 1 - p ->
  (at3 d r c k = 1
   <-> cell (if k =? p then mover_board s else other_board s) r c = true).
Proof.
  intros Hr Hc Hk.
  destruct (agree_cells b w p Hvalid r c) as [Hm Ho]. fold d s self in Hm, Ho.
  destruct (agree_player b w p Hvalid) as [_ Hp].
  assert (Hd : forall k, dcell self d k r c = true <-> at3 d r c k = 1).
  { intros k'. rewrite dcell_true. change (Dense._size self) with 8. tauto. }
  destruct Hk as [ -> | -> ].
  - rewrite Z.eqb_refl, <- Hm. symmetry. apply Hd.
  - replace (1 - p =? p) with false by (symmetry; apply Z.eqb_neq; lia).
    rewrite <- Ho. symmetry. apply Hd.
Qed.

Lemma agree_post post_bb lm0 post_d q :
  BitBoard._get_next_board (BitBoard.init 8) s (2 ^ bit r0 c0) = Some post_bb ->
  Dense._legal_moves_helper self d (Some r0) (Some c0) true = Some (lm0, post_d) ->
  fill_channel post_d 2 q = state_array (set_player post_bb q).
Proof.
  intros Ebb Ed.
  assert (Hin : inb r0 c0 = true) by (apply inb_iff; lia).
  destruct (get_next_board_valid 8 s r0 c0 Hvalid Hin Hvac)
    as (post & E & Hvpost & Epl & Hown & Hopp).
  rewrite Ebb in E. injection E as <-.
  destruct (agree_player b w p Hvalid) as [Ep Hp].
  destruct (helper_play_spec self d (agree_valid b w p Hvalid) r0 c0 Hr0 Hc0
              (proj2 (agree_vacant b w p Hvalid r0 c0 Hr0 Hc0) Hvac))
    as (lm0' & post_d' & Eplay & Hshape & Hpt).
  fold d self in Eplay, Hpt, Ep. rewrite Ed in Eplay. injection Eplay as <- <-.
  rewrite Ep in Hpt. change (Dense._size self) with 8 in *.
  destruct Hvpost as (b' & w' & p' & -> & Hb' & Hw' & Hd' & Hp').
  cbn in Epl. injection Epl as ->.
  change (state_array (set_player [b'; w'; p] q)) with (board_array b' w' q).
  destruct (fill_channel_spec 8 8 post_d q Hshape) as [Hsh Hat].
  destruct (board_array_spec b' w' q) as [Hsh' Hat'].
  (* the two boards after the move, channel by channel *)
  assert (Hmover : forall r c, 0 <= r < 8 -> 0 <= c < 8 ->
            at3 post_d r c p = Z.b2z (Z.testbit (mover_board [b'; w'; p]) (bit r c))).
  { intros r c Hr Hc. destruct (Hpt r c Hr Hc) as (_ & Ac & _ & Bc & _).
    assert (Hin' : inb r c = true) by (apply inb_iff; lia).
    apply bit01_eq; [assumption | apply b2z_bit01|].
    rewrite Ac, b2z_eq_1, (proj2 Hown r c Hin'). unfold moved_own.
    rewrite (agree_at r c p Hr Hc ltac:(now left)), Z.eqb_refl.
    assert (Hfl : flipped (dcell self d p) (dcell self d (1 - p)) r0 c0 r c
                  <-> flipped (cell (mover_board s)) (cell (other_board s)) r0 c0 r c)
      by (apply flipped_ext; intros; now apply agree_cells).
    rewrite Hfl. tauto. }
  assert (Hother : forall r c, 0 <= r < 8 -> 0 <= c < 8 ->
            at3 post_d r c (1 - p)
            = Z.b2z (Z.testbit (other_board [b'; w'; p]) (bit r c))).
  { intros r c Hr Hc. destruct (Hpt r c Hr Hc) as (_ & _ & Ao & _ & Bo).
    assert (Hin' : inb r c = true) by (apply inb_iff; lia).
    apply bit01_eq; [assumption | apply b2z_bit01|].
    rewrite Ao, b2z_eq_1, (proj2 Hopp r c Hin'). unfold moved_opp.
    rewrite (agree_at r c (1 - p) Hr Hc ltac:(now right)).
    replace (1 - p =? p) with false by (symmetry; apply Z.eqb_neq; lia).
    assert (Hfl : flipped (dcell self d p) (dcell self d (1 - p)) r0 c0 r c
                  <-> flipped (cell (mover_board s)) (cell (other_board s)) r0 c0 r c)
      by (apply flipped_ext; intros; now apply agree_cells).
    rewrite Hfl. tauto. }
  apply (ext3 8 8); [assumption..|].
  intros r c k Hr Hc Hk. rewrite Hat by assumption.
  destruct (Hat' r c Hr Hc) as (A0 & A1 & A2).
  specialize (Hmover r c Hr Hc). specialize (Hother r c Hr Hc).
  assert (k = 0 \/ k = 1 \/ k = 2) as [ -> |[ -> | -> ]] by lia.
  - destruct (decide (0 = 2)) as [|_]; [lia|]. rewrite A0.
    destruct Hp as [ -> | -> ]; [exact Hmover | exact Hother].
  - destruct (decide (1 = 2)) as [|_]; [lia|]. rewrite A1.
    destruct Hp as [ -> | -> ]; [exact Hother | exact Hmover].
  - destruct (decide (2 = 2)) as [_|]; [|lia]. now rewrite A2.
Qed.

End AgreeStep.

Lemma occupied_set_player s q : valid_state s -> occupied (set_player s q) = occupied s.
Proof. now intros (b & w & p & -> & _). Qed.

Lemma state_array_set_player s q :
  valid_state s ->
  exists b w, set_player s q = [b; w; q]
    /\ state_array (set_player s q) = board_array b w q.
Proof. intros (b & w & p & -> & _). now exists b, w. Qed.

Lemma agree_step b w p r0 c0 :
  valid_state [b; w; p] -> p = 1 -> 0 <= r0 < 8 -> 0 <= c0 < 8 ->
  vacant (mover_board [b; w; p]) (other_board [b; w; p]) r0 c0 ->
  exists s' m' p' done,
    BitBoard.step (BitBoard.init 8) [b; w; p] (2 ^ bit r0 c0)
      = Some (s', m', p', done)
    /\ valid_state s' /\ board64 m'
    /\ Dense.step (Dense.init 8) (board_array b w p) (r0 * 8 + c0)
       = Some (state_array s', mask_array m', p', done).
Proof.
  intros Hvalid Hwhite Hr0 Hc0 Hvac.
  assert (Hin : inb r0 c0 = true) by (apply inb_iff; lia).
  destruct (agree_player b w p Hvalid) as [Ep Hp].
  destruct (step_spec 8 _ r0 c0 Hvalid Hin Hvac)
    as (post & m1 & Enext & Hvpost & Hpl & E1 & Hcases).
  cbn [player] in Hpl, E1, Hcases.
  rewrite (opponent_cases p Hp) in E1, Hcases.
  destruct (dense_step_spec (Dense.init 8) (board_array b w p)
              (agree_valid b w p Hvalid) r0 c0 Hr0 Hc0
              (proj2 (agree_vacant b w p Hvalid r0 c0 Hr0 Hc0) Hvac)
              (eq_trans Ep Hwhite))
    as (lm0 & post_d & lm1 & Eplay & _ & E1d & Hcases_d).
  rewrite Ep in E1d, Hcases_d.
  change (Dense._size (Dense.init 8)) with 8 in Hcases_d.
  pose proof (agree_post b w p Hvalid r0 c0 Hr0 Hc0 Hvac post lm0 post_d) as Hpost.
  rewrite (Hpost (1 - p) Enext Eplay) in E1d, Hcases_d.
  rewrite (Hpost p Enext Eplay) in Hcases_d. clear Hpost.
  (* the states handed to the legal-move generators *)
  assert (Hq : 1 - p = 0 \/ 1 - p = 1) by lia.
  pose proof (valid_set_player post (1 - p) Hvpost Hq) as Hv1.
  pose proof (valid_set_player post p Hvpost Hp) as Hv2.
  destruct (state_array_set_player post (1 - p) Hvpost) as (b1 & w1 & Es1 & Ea1).
  destruct (state_array_set_player post p Hvpost) as (b2 & w2 & Es2 & Ea2).
  rewrite Es1 in Hv1. rewrite Es2 in Hv2.
  destruct (legal_moves_helper_valid 8 _ Hv1) as (m1' & E1' & Hm1).
  rewrite <- Es1, E1 in E1'. injection E1' as <-.
  pose proof (agree_scan b1 w1 (1 - p) Hv1 m1) as Hscan1.
  rewrite <- Es1, <- Ea1 in Hscan1. specialize (Hscan1 E1).
  rewrite Hscan1 in E1d. injection E1d as <-.
  pose proof (mask_array_zero m1 (proj1 Hm1)) as Hzero1.
  pose proof (full_agree b1 w1 (1 - p) Hv1) as Hfull.
  rewrite <- Ea1, <- Es1, (occupied_set_player post (1 - p) Hvpost) in Hfull.
  destruct Hcases as [(Hm & Estep)|[(Hm & Hocc & Estep)|(Hm & Hocc & m2 & E2 & Estep)]].
  - (* the opponent can move *)
    exists (set_player post (1 - p)), m1, (1 - p), 0.
    split; [assumption|]. split; [now rewrite Es1|]. split; [apply Hm1|].
    destruct Hcases_d as [(_ & Ed)|[(Hs & _)|(Hs & _)]];
      [exact Ed | apply Hzero1 in Hs; contradiction..].
  - (* the board is full *)
    exists (set_player post (1 - p)), 0, (1 - p), 1. subst m1.
    split; [assumption|]. split; [now rewrite Es1|]. split; [apply board64_0|].
    destruct Hcases_d as [(Hs & _)|[(_ & _ & Ed)|(_ & Hn & _)]].
    + destruct Hs. now apply Hzero1.
    + exact Ed.
    + destruct Hn. now apply Hfull.
  - (* the opponent passes or the game is over *)
    destruct (legal_moves_helper_valid 8 _ Hv2) as (m2' & E2' & Hm2).
    rewrite <- Es2, E2 in E2'. injection E2' as <-.
    pose proof (agree_scan b2 w2 p Hv2 m2) as Hscan2.
    rewrite <- Es2, <- Ea2 in Hscan2. specialize (Hscan2 E2).
    exists (set_player post p), m2, p, (if m2 =? 0 then 1 else 0).
    split; [assumption|]. split; [now rewrite Es2|]. split; [apply Hm2|].
    destruct Hcases_d as [(Hs & _)|[(_ & Hf & _)|(_ & _ & lm2 & E2d & Ed)]].
    + destruct Hs. now apply Hzero1.
    + destruct Hocc. now apply Hfull.
    + rewrite Hscan2 in E2d. injection E2d as <-. rewrite Ed. do 2 f_equal.
      pose proof (mask_array_zero m2 (proj1 Hm2)) as Hzero2.
      destruct (Z.eqb_spec (sum2 (mask_array m2)) 0) as [Hz|Hz],
               (Z.eqb_spec m2 0) as [Hz'|Hz']; try reflexivity; tauto.
Qed.

Lemma convert_position pos :
  0 <= pos < 64 ->
  Converter.convert conv8 (VInt pos) "position" "bitboard_single"
  = Some (VInt (2 ^ (63 - pos))).
Proof.
  intros Hpos.
  assert (Hchk : position_check = true) by (vm_compute; reflexivity).
  unfold position_check in Hchk. rewrite forallb_forall in Hchk.
  specialize (Hchk pos (proj2 (in_range 64 pos) Hpos)).
  destruct (Converter.convert conv8 (VInt pos) "position" "bitboard_single")
    as [[| | |a|]|]; try discriminate.
  apply Z.eqb_eq in Hchk. now subst.
Qed.

Lemma position_cell pos :
  0 <= pos < 64 ->
  0 <= pos / 8 < 8 /\ 0 <= pos mod 8 < 8
  /\ 63 - pos = bit (pos / 8) (pos mod 8)
  /\ pos = pos / 8 * 8 + pos mod 8.
Proof.
  intros Hpos. pose proof (Z.div_mod pos 8 ltac:(lia)).
  pose proof (Z.mod_pos_bound pos 8 ltac:(lia)).
  assert (0 <= pos / 8 < 8)
    by (split; [apply Z.div_pos; lia | apply Z.div_lt_upper_bound; lia]).
  unfold bit. lia.
Qed.

(** C1: the two engines do not agree on [step] once black is to move.
    After white's opening move on cell [(3, 5)] both engines hold the same
    position, black to move, and the same three legal cells.  On black's
    legal answer at position 19, cell [(2, 3)], [step] of the bitboard
    engine returns the next state with white to move and [done = 0];
    [step] of the dense engine raises: it has written 255 into the player
    channel and reads that channel of a cell. *)
Theorem engines_disagree_black :
  Dense.step (Dense.init 8) start_dense 29 = Some (second_dense, second_legal, 0, 0)
  /\ BitBoard.step (BitBoard.init 8) start_state (2 ^ 34)
     = Some (second_state, second_moves, 0, 0)
  /\ Converter.convert conv8 (VTuple second_state) "bitboard" "ndarray3d"
     = Some (VArray3 second_dense)
  /\ Converter.convert conv8 (VInt second_moves) "bitboard_single" "ndarray"
     = Some (VArray2 second_legal)
  /\ Converter.convert conv8 (VInt 19) "position" "bitboard_single"
     = Some (VInt (2 ^ 44))
  /\ Z.testbit second_moves (63 - 19) = true
  /\ at2 second_legal (19 / 8) (19 mod 8) = 1
  /\ (exists s' m',
        BitBoard.step (BitBoard.init 8) second_state (2 ^ 44) = Some (s', m', 1, 0))
  /\ Dense.step (Dense.init 8) second_dense 19 = None.
Proof.
  repeat split; try (vm_compute; reflexivity).
  eexists _, _. vm_compute. reflexivity.
Qed.

(** X21: with white to move the two engines agree under the conversion of
    the representations.  On every valid 8x8 state the legal-move
    generators return the same set of cells, whoever is to move; and when
    white is to move, for every legal action the two [step]s return
    corresponding successor states, legal-move sets, next players and
    [done] flags. *)
Theorem engines_agree_white conv s d m :
  Converter.init 8 = Some conv ->
  valid_state s ->
  Converter.convert conv (VTuple s) "bitboard" "ndarray3d" = Some (VArray3 d) ->
  BitBoard._legal_moves_helper (BitBoard.init 8) s = Some m ->
  (exists lm,
     Dense._legal_moves_helper (Dense.init 8) d None None false = Some (lm, d)
     /\ Converter.convert conv (VInt m) "bitboard_single" "ndarray"
        = Some (VArray2 lm))
  /\ forall pos a,
       player s = 1 ->
       0 <= pos < 64 ->
       Converter.convert conv (VInt pos) "position" "bitboard_single"
         = Some (VInt a) ->
       Z.testbit m (63 - pos) = true ->
       exists s' m' d' lm' p' done,
         BitBoard.step (BitBoard.init 8) s a = Some (s', m', p', done)
         /\ Dense.step (Dense.init 8) d pos = Some (d', lm', p', done)
         /\ Converter.convert conv (VTuple s') "bitboard" "ndarray3d"
            = Some (VArray3 d')
         /\ Converter.convert conv (VInt m') "bitboard_single" "ndarray"
            = Some (VArray2 lm').
Proof.
  intros Hconv Hs Hd Em.
  rewrite converter_init_8 in Hconv. injection Hconv as <-.
  pose proof Hs as (b & w & p & -> & _ & _ & _ & Hp).
  rewrite convert_bitboard_ndarray3d, to_uint8_small in Hd by lia.
  injection Hd as <-.
  split.
  - exists (mask_array m). split; [now apply agree_scan|].
    apply convert_single_ndarray.
  - intros pos a Hwhite Hpos Ea Hlegal. cbn [player] in Hwhite.
    rewrite convert_position in Ea by assumption. injection Ea as <-.
    destruct (position_cell pos Hpos) as (Hr & Hc & Hbit & Hsplit).
    destruct (legal_moves_helper_valid 8 _ Hs) as (m' & Em' & Hm).
    rewrite Em in Em'. injection Em' as <-.
    assert (Hin : inb (pos / 8) (pos mod 8) = true) by (apply inb_iff; lia).
    rewrite Hbit in Hlegal. apply (proj2 Hm _ _ Hin) in Hlegal.
    destruct Hlegal as [Hvac _].
    destruct (agree_step b w p _ _ Hs Hwhite Hr Hc Hvac)
      as (s' & m' & p' & done & Ebb & Hvs' & Hm' & Edense).
    rewrite <- Hbit in Ebb. rewrite <- Hsplit in Edense.
    exists s', m', (state_array s'), (mask_array m'), p', done.
    split; [assumption|]. split; [assumption|].
    split; [|apply convert_single_ndarray].
    destruct Hvs' as (b' & w' & q & -> & _ & _ & _ & Hq).
    rewrite convert_bitboard_ndarray3d, to_uint8_small by lia. reflexivity.
Qed.

(** * The properties of the rules engine *)

(** C2: on every valid state the legal-move generator of either engine
    returns exactly the empty cells from which some one of the eight
    directions crosses one or more opposing discs and then reaches a disc
    of the side to move, before any empty cell and before the edge; an
    empty cell outside the returned set has no such direction. *)
Theorem legal_moves_exact bs s self d :
  valid_state s -> valid_dense (Dense._size self) d ->
  (exists m,
     BitBoard._legal_moves_helper (BitBoard.init bs) s = Some m
     /\ board64 m
     /\ forall r c, inb r c = true ->
          (Z.testbit m (bit r c) = true
           <-> vacant (mover_board s) (other_board s) r c
               /\ captures (cell (mover_board s)) (cell (other_board s)) r c))
  /\ (exists lm,
        Dense._legal_moves_helper self d None None false = Some (lm, d)
        /\ shape2 (Dense._size self) (Dense._size self) lm
        /\ forall r c, 0 <= r < Dense._size self -> 0 <= c < Dense._size self ->
             bit01 (at2 lm r c)
             /\ (at2 lm r c = 1
                 <-> dvacant d r c
                     /\ captures (dcell self d (at3 d 0 0 2))
                          (dcell self d (1 - at3 d 0 0 2)) r c)).
Proof.
  intros Hs Hd. split.
  - destruct (legal_moves_helper_valid bs s Hs) as (m & E & Hb & Hm).
    exists m. split; [assumption|]. split; [assumption|]. exact Hm.
  - exact (helper_scan_spec self d Hd None None).
Qed.

Lemma holds_nonzero m P :
  holds m P -> (m <> 0 <-> exists r c, inb r c = true /\ P r c).
Proof.
  intros [Hb Hm]. split.
  - intros Hne. destruct (board64_nonzero m Hb Hne) as (r & c & Hin & Hbit).
    exists r, c. split; [assumption|]. now apply Hm.
  - intros (r & c & Hin & HP) ->. apply Hm in HP; [|assumption].
    now rewrite Z.bits_0 in HP.
Qed.

Lemma can_move_iff bs s m :
  valid_state s ->
  BitBoard._legal_moves_helper (BitBoard.init bs) s = Some m ->
  board64 m /\ (m <> 0 <-> can_move s).
Proof.
  intros Hv E. destruct (legal_moves_helper_valid bs s Hv) as (m' & E' & Hm).
  rewrite E in E'. injection E' as <-. split; [apply Hm|].
  exact (holds_nonzero m _ Hm).
Qed.

Lemma board_full_iff s :
  valid_state s -> (occupied s = 0xFFFFFFFFFFFFFFFF <-> board_full s).
Proof.
  intros Hv. destruct (valid_state_boards s Hv) as (Hbp & Hbn & _).
  rewrite (proj2 (proj2 (proj2 (proj2 (set_player_boards s Hv))))).
  assert (Hones : board64 0xFFFFFFFFFFFFFFFF) by (unfold board64; lia).
  assert (Hcell : forall r c, inb r c = true ->
            (Z.testbit (Z.lor (mover_board s) (other_board s)) (bit r c) = true
             <-> ~ vacant (mover_board s) (other_board s) r c)).
  { intros r c Hin. unfold vacant. rewrite !cell_inb, Z.lor_spec by assumption.
    destruct (Z.testbit (mover_board s) (bit r c)),
             (Z.testbit (other_board s) (bit r c)); simpl; intuition congruence. }
  unfold board_full. split.
  - intros H r c Hin. apply Hcell; [assumption|]. rewrite H.
    change 0xFFFFFFFFFFFFFFFF with (Z.ones 64).
    apply Z.ones_spec_low. pose proof (bit_range r c Hin). lia.
  - intros H. apply board64_ext; [now apply board64_lor | assumption |].
    intros r c Hin. rewrite (proj2 (Hcell r c Hin) (H r c Hin)).
    change 0xFFFFFFFFFFFFFFFF with (Z.ones 64). symmetry.
    apply Z.ones_spec_low. pose proof (bit_range r c Hin). lia.
Qed.

Lemma board_full_set_player s q :
  valid_state s -> q = 0 \/ q = 1 -> (board_full (set_player s q) <-> board_full s).
Proof.
  intros Hv Hq. rewrite <- !board_full_iff by (try apply valid_set_player; assumption).
  now rewrite occupied_set_player.
Qed.

Lemma dcan_move_iff self d lm :
  valid_dense (Dense._size self) d ->
  Dense._legal_moves_helper self d None None false = Some (lm, d) ->
  (sum2 lm <> 0 <-> dcan_move self d).
Proof.
  intros Hv E. destruct (helper_scan_spec self d Hv None None) as (lm' & E' & Hsh & Hpt).
  rewrite E in E'. injection E' as <-.
  destruct Hv as (HN & _).
  destruct (sum2_bounds (Dense._size self) (Dense._size self) lm ltac:(lia) Hsh)
    as [Hz _].
  { intros r c Hr Hc. now apply Hpt. }
  unfold dcan_move. split.
  - intros Hne.
    (* some entry is not zero *)
    destruct (decide (Forall (Forall (fun x => x = 0)) lm)) as [Hall|Hex].
    + destruct Hne. apply Hz.
      exact (proj1 (at2_forall _ _ lm (fun x => x = 0) Hsh) Hall).
    + apply not_Forall_Exists in Hex; [|intros row; apply Forall_dec; intros x; apply Z.eq_dec].
      apply Exists_exists in Hex. destruct Hex as (row & Hrow & Hnz).
      apply not_Forall_Exists in Hnz; [|intros x; apply Z.eq_dec].
      apply Exists_exists in Hnz. destruct Hnz as (x & Hx & Hx0).
      apply list_elem_of_lookup in Hrow. apply list_elem_of_lookup in Hx.
      destruct Hrow as [i Hi], Hx as [j Hj].
      pose proof (lookup_lt_Some _ _ _ Hi) as Hilt.
      pose proof (lookup_lt_Some _ _ _ Hj) as Hjlt.
      destruct Hsh as [Hlen Hrows].
      pose proof (Forall_lookup_1 _ _ _ _ Hrows Hi) as Hrl. cbn beta in Hrl.
      assert (Hat : at2 lm (Z.of_nat i) (Z.of_nat j) = x).
      { unfold at2, get2. rewrite (py_index_nat _ _ _ Hi). cbn [mbind option_bind].
        now rewrite (py_index_nat _ _ _ Hj). }
      exists (Z.of_nat i), (Z.of_nat j).
      split; [lia|]. split; [lia|].
      destruct (Hpt (Z.of_nat i) (Z.of_nat j) ltac:(lia) ltac:(lia)) as [Hb Hleg].
      apply Hleg. rewrite Hat in Hb |- *. cbn in Hx0. unfold bit01 in Hb. lia.
  - intros (r & c & Hr & Hc & Hleg) Hzero.
    destruct (Hpt r c Hr Hc) as [_ H1]. apply H1 in Hleg.
    pose proof (proj1 Hz Hzero r c Hr Hc). lia.
Qed.

Lemma dboard_full_iff self d :
  valid_dense (Dense._size self) d ->
  (Dense.sum_coins d = Dense._size self ^ 2 <-> dboard_full self d).
Proof.
  intros Hv. rewrite (sum_coins_full _ d Hv).
  destruct Hv as (_ & _ & _ & Hcells). unfold dboard_full, dvacant.
  split; intros H r c Hr Hc; specialize (H r c Hr Hc);
    destruct (Hcells r c Hr Hc) as (_ & Hb & Hw & Hsum); unfold bit01 in *; lia.
Qed.

(** X22: turn resolution.  For a valid state and a legal cell, [step] of
    the bitboard engine resolves the turn by the nested fallback: the
    opponent moves next if it has a legal move in the position after the
    move; otherwise the game is over if the board is full; otherwise the
    turn goes back to the mover, who plays again if it has a legal move
    (the opponent passes), and the game is over, on the mover's empty
    legal-move set, if it has none.  [step] of the dense engine does the
    same when white is to move.  The legal-move set returned is the one of
    the returned state. *)
Theorem turn_resolution_white bs s r0 c0 self d rd cd :
  valid_state s -> inb r0 c0 = true ->
  legal_cell (mover_board s) (other_board s) r0 c0 ->
  valid_dense (Dense._size self) d ->
  at3 d 0 0 2 = 1 ->
  0 <= rd < Dense._size self -> 0 <= cd < Dense._size self ->
  dlegal self d (at3 d 0 0 2) (1 - at3 d 0 0 2) rd cd ->
  (exists post s' m' p' done,
     BitBoard._get_next_board (BitBoard.init bs) s (2 ^ bit r0 c0) = Some post
     /\ BitBoard.step (BitBoard.init bs) s (2 ^ bit r0 c0) = Some (s', m', p', done)
     /\ BitBoard._legal_moves_helper (BitBoard.init bs) s' = Some m'
     /\ let p := player s in
        let s1 := set_player post (opponent p) in
        let s2 := set_player post p in
        (can_move s1 /\ s' = s1 /\ p' = opponent p /\ done = 0)
        \/ (~ can_move s1 /\ board_full post
            /\ s' = s1 /\ p' = opponent p /\ done = 1 /\ m' = 0)
        \/ (~ can_move s1 /\ ~ board_full post /\ can_move s2
            /\ s' = s2 /\ p' = p /\ done = 0)
        \/ (~ can_move s1 /\ ~ board_full post /\ ~ can_move s2
            /\ s' = s2 /\ p' = p /\ done = 1 /\ m' = 0))
  /\ (exists lm0 post d' lm' p' done,
        Dense._legal_moves_helper self d (Some rd) (Some cd) true = Some (lm0, post)
        /\ Dense.step self d (rd * Dense._size self + cd) = Some (d', lm', p', done)
        /\ Dense._legal_moves_helper self d' None None false = Some (lm', d')
        /\ let p := at3 d 0 0 2 in
           let d1 := fill_channel post 2 (1 - p) in
           let d2 := fill_channel post 2 p in
           (dcan_move self d1 /\ d' = d1 /\ p' = 1 - p /\ done = 0)
           \/ (~ dcan_move self d1 /\ dboard_full self d1
               /\ d' = d1 /\ p' = 1 - p /\ done = 1 /\ sum2 lm' = 0)
           \/ (~ dcan_move self d1 /\ ~ dboard_full self d1 /\ dcan_move self d2
               /\ d' = d2 /\ p' = p /\ done = 0)
           \/ (~ dcan_move self d1 /\ ~ dboard_full self d1 /\ ~ dcan_move self d2
               /\ d' = d2 /\ p' = p /\ done = 1 /\ sum2 lm' = 0)).
Proof.
  intros Hs Hin [Hvac _] Hd Hwhite Hrd Hcd [Hdvac _]. split.
  - destruct (step_spec bs s r0 c0 Hs Hin Hvac)
      as (post & m1 & Enext & Hvpost & Hpl & E1 & Hcases).
    pose proof (valid_player s Hs) as Hp.
    assert (Hq : opponent (player s) = 0 \/ opponent (player s) = 1)
      by (rewrite opponent_cases by assumption; lia).
    pose proof (valid_set_player post _ Hvpost Hq) as Hv1.
    pose proof (valid_set_player post _ Hvpost Hp) as Hv2.
    destruct (can_move_iff bs _ m1 Hv1 E1) as [_ Hcan1].
    pose proof (board_full_iff post Hvpost) as Hfull.
    destruct Hcases as [(Hm & E)|[(Hm & Hocc & E)|(Hm & Hocc & m2 & E2 & E)]].
    + exists post, (set_player post (opponent (player s))), m1,
        (opponent (player s)), 0.
      repeat split; try assumption. left. tauto.
    + subst m1.
      exists post, (set_player post (opponent (player s))), 0,
        (opponent (player s)), 1.
      repeat split; try assumption. right; left.
      repeat split; try tauto; intros Hc; now apply Hcan1 in Hc.
    + subst m1. destruct (can_move_iff bs _ m2 Hv2 E2) as [_ Hcan2].
      exists post, (set_player post (player s)), m2, (player s),
        (if m2 =? 0 then 1 else 0).
      repeat split; try assumption. right; right.
      assert (Hn1 : ~ can_move (set_player post (opponent (player s))))
        by (intros Hc; now apply Hcan1 in Hc).
      destruct (Z.eqb_spec m2 0) as [Hz|Hz]; [right | left]; repeat split; tauto.
  - destruct (dense_step_spec self d Hd rd cd Hrd Hcd Hdvac Hwhite)
      as (lm0 & post & lm1 & Eplay & Hmoved & E1 & Hcases).
    pose proof Hd as (_ & _ & Hp & _).
    assert (Hq : bit01 (1 - at3 d 0 0 2)) by (unfold bit01 in *; lia).
    pose proof (moved_valid self d Hd rd cd Hcd Hdvac post _ Hmoved Hq) as Hv1.
    pose proof (moved_valid self d Hd rd cd Hcd Hdvac post _ Hmoved Hp) as Hv2.
    pose proof (dcan_move_iff self _ lm1 Hv1 E1) as Hcan1.
    pose proof (dboard_full_iff self _ Hv1) as Hfull.
    destruct Hcases as [(Hm & E)|[(Hm & Hocc & E)|(Hm & Hocc & lm2 & E2 & E)]].
    + exists lm0, post, (fill_channel post 2 (1 - at3 d 0 0 2)), lm1,
        (1 - at3 d 0 0 2), 0.
      repeat split; try assumption. left. tauto.
    + exists lm0, post, (fill_channel post 2 (1 - at3 d 0 0 2)), lm1,
        (1 - at3 d 0 0 2), 1.
      repeat split; try assumption. right; left. tauto.
    + pose proof (dcan_move_iff self _ lm2 Hv2 E2) as Hcan2.
      exists lm0, post, (fill_channel post 2 (at3 d 0 0 2)), lm2, (at3 d 0 0 2),
        (if sum2 lm2 =? 0 then 1 else 0).
      repeat split; try assumption. right; right.
      destruct (Z.eqb_spec (sum2 lm2) 0) as [Hz|Hz]; [right | left]; tauto.
Qed.

Lemma div_mod_cell n r c :
  0 <= r -> 0 <= c < n -> (r * n + c) / n = r /\ (r * n + c) mod n = c.
Proof.
  intros Hr Hc. split; symmetry.
  - apply Z.div_unique with c; lia.
  - apply Z.mod_unique with r; lia.
Qed.

Lemma dboard_full_discs self post :
  valid_discs (Dense._size self) post ->
  (Dense.sum_coins post = Dense._size self ^ 2 <-> dboard_full self post).
Proof.
  intros Hd.
  rewrite <- (sum_coins_fill post 0).
  rewrite (dboard_full_iff self _ (valid_discs_dense _ post 0 Hd ltac:(now left))).
  destruct (valid_discs_fill _ post 0 Hd) as (_ & _ & Hsame).
  unfold dboard_full, dvacant.
  split; intros H r c Hr Hc; specialize (H r c Hr Hc);
    rewrite !Hsame in * by (try assumption; lia); exact H.
Qed.

(** C3: with black to move, [step] of the dense engine does not resolve the
    turn by the nested fallback.  Take a valid board with black to move, a
    legal cell for black, and the board the move applicator makes of them:
    if white has a legal move on that board -- the case in which the turn
    passes to white with [done = 0] -- [step] raises.  The player channel
    it has written is 255, and the scan for white's moves reads that
    channel of a cell. *)
Theorem dense_step_raises_for_black self d rd cd lm0 post :
  valid_dense (Dense._size self) d ->
  at3 d 0 0 2 = 0 ->
  0 <= rd < Dense._size self -> 0 <= cd < Dense._size self ->
  dlegal self d 0 1 rd cd ->
  Dense._legal_moves_helper self d (Some rd) (Some cd) true = Some (lm0, post) ->
  dcan_move self (fill_channel post 2 1) ->
  Dense.step self d (rd * Dense._size self + cd) = None.
Proof.
  intros Hv Hp Hr Hc [Hvac _] Eplay Hcan.
  destruct (helper_play_discs self d rd cd Hv Hr Hc Hvac) as (lm0' & post' & E & Hd & _).
  rewrite Eplay in E. injection E as <- <-.
  destruct (div_mod_cell (Dense._size self) rd cd ltac:(lia) Hc) as [Ediv Emod].
  assert (Eplay' : Dense._legal_moves_helper self d
                     (Some ((rd * Dense._size self + cd) / Dense._size self))
                     (Some ((rd * Dense._size self + cd) mod Dense._size self)) true
                   = Some (lm0, post)) by (rewrite Ediv, Emod; exact Eplay).
  destruct (dense_step_black self d (rd * Dense._size self + cd) lm0 post
              Hv Hp Eplay' Hd)
    as [[_ E]|[(Hn & _)|(Hn & _)]]; [exact E | destruct Hn..];
    now apply can_move_looks_behind.
Qed.

(** X23: what [step] of the dense engine does with a move of black on an
    empty cell.  The turn is never handed to white.  [step] raises when
    the scan looks behind a black disc on the board after the move, which
    it does whenever white has a legal move there.  Otherwise white is
    passed over: on a full board [step] returns [done = 1] with 255 as
    the next player and in the player channel; on any other board the
    turn returns to black, with black's legal moves and [done = 1] exactly
    when there are none. *)
Theorem black_move_outcomes self d rd cd :
  valid_dense (Dense._size self) d ->
  at3 d 0 0 2 = 0 ->
  0 <= rd < Dense._size self -> 0 <= cd < Dense._size self ->
  dvacant d rd cd ->
  exists lm0 post,
    Dense._legal_moves_helper self d (Some rd) (Some cd) true = Some (lm0, post)
    /\ (dcan_move self (fill_channel post 2 1) -> looks_behind self post 0)
    /\ ((looks_behind self post 0
         /\ Dense.step self d (rd * Dense._size self + cd) = None)
        \/ (~ looks_behind self post 0 /\ dboard_full self post
            /\ Dense.step self d (rd * Dense._size self + cd)
               = Some (fill_channel post 2 255,
                       zeros2 (Z.to_nat (Dense._size self))
                         (Z.to_nat (Dense._size self)),
                       255, 1))
        \/ (~ looks_behind self post 0 /\ ~ dboard_full self post
            /\ exists lm2,
                 Dense._legal_moves_helper self (fill_channel post 2 0) None None false
                 = Some (lm2, fill_channel post 2 0)
                 /\ Dense.step self d (rd * Dense._size self + cd)
                    = Some (fill_channel post 2 0, lm2, 0,
                            if sum2 lm2 =? 0 then 1 else 0))).
Proof.
  intros Hv Hp Hr Hc Hvac.
  destruct (helper_play_discs self d rd cd Hv Hr Hc Hvac) as (lm0 & post & Eplay & Hd & _).
  exists lm0, post. split; [exact Eplay|].
  split; [now apply can_move_looks_behind|].
  destruct (div_mod_cell (Dense._size self) rd cd ltac:(lia) Hc) as [Ediv Emod].
  assert (Eplay' : Dense._legal_moves_helper self d
                     (Some ((rd * Dense._size self + cd) / Dense._size self))
                     (Some ((rd * Dense._size self + cd) mod Dense._size self)) true
                   = Some (lm0, post)) by (rewrite Ediv, Emod; exact Eplay).
  pose proof (dboard_full_discs self post Hd) as Hfull.
  destruct (dense_step_black self d (rd * Dense._size self + cd) lm0 post
              Hv Hp Eplay' Hd)
    as [[Hb E]|[(Hn & Hf & E)|(Hn & Hf & lm2 & E2 & E)]].
  - left. now split.
  - right; left. split; [assumption|]. split; [now apply Hfull | exact E].
  - right; right. split; [assumption|]. split; [now rewrite <- Hfull|].
    exists lm2. now split.
Qed.

(** ** One step of a game *)

Lemma moved_occupied s r0 c0 post :
  valid_state s -> inb r0 c0 = true ->
  valid_state post ->
  holds (mover_board post) (moved_own (mover_board s) (other_board s) r0 c0) ->
  holds (other_board post) (moved_opp (mover_board s) (other_board s) r0 c0) ->
  occupied post = Z.lor (occupied s) (2 ^ bit r0 c0).
Proof.
  intros Hs Hin Hpost Hown Hopp.
  rewrite (proj2 (proj2 (proj2 (proj2 (set_player_boards s Hs))))).
  rewrite (proj2 (proj2 (proj2 (proj2 (set_player_boards post Hpost))))).
  destruct (valid_state_boards s Hs) as (Hbp & Hbn & _).
  apply (holds_unique _ _ (fun r c =>
           (cell (mover_board s) r c = true \/ cell (other_board s) r c = true)
           \/ (r = r0 /\ c = c0))).
  - apply (holds_ext _ _ _ (holds_lor _ _ _ _ Hown Hopp)).
    intros r c Hrc. unfold moved_own, moved_opp. split.
    + intros [[H|[H|H]]|[H _]]; try tauto. apply flipped_opp in H. tauto.
    + intros [[H|H]|H]; try tauto.
      destruct (Z.testbit (mover_board post) (bit r c)) eqn:E.
      * left. now apply (proj2 Hown r c Hrc).
      * right. split; [assumption|]. intros Hf.
        assert (Hm : moved_own (mover_board s) (other_board s) r0 c0 r c)
          by (right; now left).
        apply (proj2 Hown r c Hrc) in Hm. congruence.
  - apply holds_lor; [apply holds_lor|].
    + split; [assumption|]. intros r c Hrc. now rewrite cell_inb.
    + split; [assumption|]. intros r c Hrc. now rewrite cell_inb.
    + now apply holds_pow2.
Qed.

Lemma step_valid bs s m a :
  valid_state s ->
  BitBoard._legal_moves_helper (BitBoard.init bs) s = Some m ->
  legal_action m a ->
  exists s' m' p' done,
    BitBoard.step (BitBoard.init bs) s a = Some (s', m', p', done)
    /\ valid_state s'
    /\ BitBoard._legal_moves_helper (BitBoard.init bs) s' = Some m'
    /\ occupied s' = Z.lor (occupied s) a
    /\ Z.land (occupied s) a = 0
    /\ (done = 0 \/ done = 1)
    /\ (done = 0 -> m' <> 0)
    /\ (done = 1 -> m' = 0).
Proof.
  intros Hs Em (r0 & c0 & Hin & -> & Hbit).
  destruct (legal_moves_helper_valid bs s Hs) as (m0 & Em0 & Hm).
  rewrite Em in Em0. injection Em0 as <-.
  apply (proj2 Hm r0 c0 Hin) in Hbit. destruct Hbit as [Hvac _].
  destruct (get_next_board_valid bs s r0 c0 Hs Hin Hvac)
    as (post & Enext & Hvpost & _ & Hown & Hopp).
  pose proof (moved_occupied s r0 c0 post Hs Hin Hvpost Hown Hopp) as Hocc.
  destruct (step_spec bs s r0 c0 Hs Hin Hvac)
    as (post' & m1 & Enext' & _ & Hpl & E1 & Hcases).
  rewrite Enext in Enext'. injection Enext' as <-.
  pose proof (valid_player s Hs) as Hp.
  assert (Hq : opponent (player s) = 0 \/ opponent (player s) = 1)
    by (rewrite opponent_cases by assumption; lia).
  pose proof (valid_set_player post _ Hvpost Hq) as Hv1.
  pose proof (valid_set_player post _ Hvpost Hp) as Hv2.
  assert (Hfree : Z.land (occupied s) (2 ^ bit r0 c0) = 0).
  { rewrite (proj2 (proj2 (proj2 (proj2 (set_player_boards s Hs))))).
    destruct (valid_state_boards s Hs) as (Hbp & Hbn & _).
    apply board64_zero; [apply board64_land_r, board64_pow2; assumption|].
    intros r c Hrc. rewrite Z.land_spec, Z.lor_spec.
    destruct (Z.testbit (2 ^ bit r0 c0) (bit r c)) eqn:E; [|apply andb_false_r].
    apply (proj2 (holds_pow2 r0 c0 Hin) r c Hrc) in E. destruct E as [-> ->].
    destruct Hvac as [V1 V2]. rewrite cell_inb in V1, V2 by assumption.
    now rewrite V1, V2. }
  destruct Hcases as [(Hm1 & E)|[(Hm1 & _ & E)|(Hm1 & _ & m2 & E2 & E)]].
  - exists (set_player post (opponent (player s))), m1, (opponent (player s)), 0.
    rewrite occupied_set_player by assumption.
    repeat split; try assumption; try tauto; try discriminate; now left.
  - subst m1.
    exists (set_player post (opponent (player s))), 0, (opponent (player s)), 1.
    rewrite occupied_set_player by assumption.
    repeat split; try assumption; try tauto; try discriminate; now right.
  - exists (set_player post (player s)), m2, (player s), (if m2 =? 0 then 1 else 0).
    rewrite occupied_set_player by assumption.
    destruct (Z.eqb_spec m2 0) as [Hz|Hz];
      repeat split; try assumption; try tauto; try discriminate; auto.
Qed.

Lemma zeros3_shape n : 0 <= n -> shape3 n n (zeros3 (Z.to_nat n) (Z.to_nat n)).
Proof.
  intros Hn. unfold zeros3. split.
  - rewrite length_replicate. lia.
  - apply Forall_replicate. split; [rewrite length_replicate; lia|].
    now apply Forall_replicate.
Qed.

Lemma zeros3_at n m r c k : at3 (zeros3 n m) r c k = 0.
Proof.
  unfold at3, get3, zeros3.
  destruct (py_index (replicate n (replicate m [0; 0; 0])) r) as [row|] eqn:Er;
    [|reflexivity].
  apply py_index_In, list_elem_of_In, elem_of_replicate in Er. destruct Er as [-> _].
  cbn [mbind option_bind].
  destruct (py_index (replicate m [0; 0; 0]) c) as [cell|] eqn:Ec; [|reflexivity].
  apply py_index_In, list_elem_of_In, elem_of_replicate in Ec. destruct Ec as [-> _].
  cbn [mbind option_bind].
  destruct (py_index [0; 0; 0] k) as [x|] eqn:Ek; [|reflexivity].
  apply py_index_In in Ek. simpl in Ek. simpl. intuition congruence.
Qed.

Lemma dense_reset_valid self :
  2 <= Dense._size self ->
  exists d lm,
    Dense.reset self = Some (d, lm, 1)
    /\ valid_dense (Dense._size self) d
    /\ Dense._legal_moves_helper self d None None false = Some (lm, d).
Proof.
  intros HN. unfold Dense.reset.
  destruct (Z.ltb_spec (Dense._size self) 0) as [|_]; [lia|].
  set (N := Dense._size self) in *. set (hw := N / 2 - 1).
  assert (Hhw : 0 <= hw /\ hw + 1 < N).
  { unfold hw. pose proof (Z.div_le_lower_bound N 2 1 ltac:(lia) ltac:(lia)).
    pose proof (Z.div_lt N 2 ltac:(lia) ltac:(lia)). lia. }
  pose proof (zeros3_shape N ltac:(lia)) as Hs0.
  destruct (set3_spec N N _ hw hw 1 1 Hs0 ltac:(lia) ltac:(lia) ltac:(lia))
    as (s1 & -> & Hs1 & A1). cbn [mbind option_bind].
  destruct (set3_spec N N s1 (hw + 1) (hw + 1) 1 1 Hs1 ltac:(lia) ltac:(lia) ltac:(lia))
    as (s2 & -> & Hs2 & A2). cbn [mbind option_bind].
  destruct (set3_spec N N s2 hw (hw + 1) 0 1 Hs2 ltac:(lia) ltac:(lia) ltac:(lia))
    as (s3 & -> & Hs3 & A3). cbn [mbind option_bind].
  destruct (set3_spec N N s3 (hw + 1) hw 0 1 Hs3 ltac:(lia) ltac:(lia) ltac:(lia))
    as (s4 & -> & Hs4 & A4). cbn [mbind option_bind].
  destruct (fill_channel_spec N N s4 1 Hs4) as [Hs5 A5].
  assert (Hvalid : valid_dense N (fill_channel s4 2 1)).
  { split; [lia|]. split; [assumption|].
    split; [rewrite A5 by lia; now right|].
    intros r c Hr Hc. rewrite !A5 by lia.
    destruct (decide (2 = 2)) as [_|]; [|lia].
    destruct (decide (0 = 2)) as [|_]; [lia|].
    destruct (decide (1 = 2)) as [|_]; [lia|].
    split; [reflexivity|].
    rewrite !A4, !A3, !A2, !A1, !zeros3_at by lia. unfold bit01.
    repeat match goal with |- context [decide ?P] => destruct (decide P) end;
      lia. }
  destruct (helper_scan_spec self _ Hvalid None None) as (lm & E & _).
  rewrite E. cbn [mbind option_bind]. exists (fill_channel s4 2 1), lm.
  split; [reflexivity|]. split; [exact Hvalid | exact E].
Qed.

Lemma doccupied_fill n s q r c :
  shape3 n n s -> 0 <= r < n -> 0 <= c < n ->
  (doccupied (fill_channel s 2 q) r c <-> doccupied s r c).
Proof.
  intros Hshape Hr Hc. destruct (fill_channel_spec n n s q Hshape) as [_ Hat].
  unfold doccupied. rewrite !Hat by lia.
  destruct (decide (0 = 2)) as [|_]; [lia|].
  destruct (decide (1 = 2)) as [|_]; [lia|]. reflexivity.
Qed.

(** What [step] hands on: a valid board with its legal-move array, or,
    where the player channel has wrapped, a board of discs with an all-zero
    array, from which there is no legal action. *)
Lemma dstep_valid self d lm a d' lm' p' done :
  valid_dense (Dense._size self) d ->
  Dense._legal_moves_helper self d None None false = Some (lm, d) ->
  dlegal_action self lm a ->
  Dense.step self d a = Some (d', lm', p', done) ->
  ((valid_dense (Dense._size self) d'
    /\ Dense._legal_moves_helper self d' None None false = Some (lm', d'))
   \/ (valid_discs (Dense._size self) d'
       /\ lm' = zeros2 (Z.to_nat (Dense._size self)) (Z.to_nat (Dense._size self))))
  /\ forall r c, 0 <= r < Dense._size self -> 0 <= c < Dense._size self ->
       doccupied d r c -> doccupied d' r c.
Proof.
  intros Hd Elm [Ha Hat] Hstep.
  pose proof Hd as (HN & Hshape & Hp & Hcells).
  set (N := Dense._size self) in *.
  assert (Hr0 : 0 <= a / N < N).
  { split; [apply Z.div_pos; lia|]. apply Z.div_lt_upper_bound; lia. }
  pose proof (Z.mod_pos_bound a N ltac:(lia)) as Hc0.
  assert (Ea : a = a / N * N + a mod N)
    by (pose proof (Z.div_mod a N ltac:(lia)); lia).
  destruct (helper_scan_spec self d Hd None None) as (lm0 & E0 & _ & Hpt).
  rewrite Elm in E0. injection E0 as <-.
  destruct (Hpt _ _ Hr0 Hc0) as [_ Hleg]. apply Hleg in Hat.
  destruct Hat as [Hvac _].
  destruct (helper_play_discs self d _ _ Hd Hr0 Hc0 Hvac)
    as (lm1 & post & Eplay & Hdiscs & Hmono).
  pose proof Hdiscs as (_ & Hshp & _).
  assert (Hkeep : forall q r c, 0 <= r < N -> 0 <= c < N ->
            doccupied d r c -> doccupied (fill_channel post 2 q) r c).
  { intros q r c Hr Hc Hocc. apply (doccupied_fill N post q r c Hshp Hr Hc).
    now apply Hmono. }
  destruct Hp as [Hblack|Hwhite].
  - (* black to move *)
    destruct (dense_step_black self d a lm1 post Hd Hblack Eplay Hdiscs)
      as [[_ E]|[(_ & _ & E)|(_ & _ & lm2 & E2 & E)]];
      fold N in E; rewrite Hstep in E; [discriminate| |]; injection E as -> -> -> ->.
    + split; [|apply Hkeep]. right.
      split; [exact (proj1 (valid_discs_fill N post 255 Hdiscs)) | reflexivity].
    + split; [|apply Hkeep]. left.
      split; [apply valid_discs_dense; [assumption | now left] | exact E2].
  - (* white to move *)
    destruct (dense_step_spec self d Hd _ _ Hr0 Hc0 Hvac Hwhite)
      as (lm1' & post' & lm2 & Eplay' & _ & E1 & Hcases).
    fold N in Eplay', E1, Hcases. rewrite Eplay in Eplay'. injection Eplay' as <- <-.
    rewrite <- Ea, Hstep, Hwhite in Hcases. change (1 - 1) with 0 in Hcases.
    rewrite Hwhite in E1. change (1 - 1) with 0 in E1.
    destruct Hcases as [(_ & E)|[(_ & _ & E)|(_ & _ & lm3 & E3 & E)]];
      injection E as -> -> -> ->; (split; [|apply Hkeep]); left.
    + split; [apply valid_discs_dense; [assumption | now left] | exact E1].
    + split; [apply valid_discs_dense; [assumption | now left] | exact E1].
    + split; [apply valid_discs_dense; [assumption | now right] | exact E3].
Qed.

(** ** Reachable states *)

Lemma reset_state_valid : valid_state [34628173824; 68853694464; 1].
Proof.
  exists 34628173824, 68853694464, 1. unfold board64.
  repeat split; try lia; try reflexivity; now right.
Qed.

Lemma reachable_valid bs s m :
  reachable (BitBoard.init bs) s m ->
  valid_state s /\ BitBoard._legal_moves_helper (BitBoard.init bs) s = Some m.
Proof.
  induction 1 as [s m p Hreset|s m a s' m' p' done Hreach [Hv Em] Ha Hstep].
  - unfold BitBoard.reset in Hreset.
    destruct (legal_moves_helper_valid bs _ reset_state_valid) as (m0 & E & _).
    rewrite E in Hreset. cbn [mbind option_bind] in Hreset.
    injection Hreset as <- <- <-. split; [exact reset_state_valid | exact E].
  - destruct (step_valid bs s m a Hv Em Ha)
      as (s1 & m1 & p1 & done1 & E & Hv1 & Em1 & _).
    rewrite Hstep in E. injection E as <- <- <- <-. now split.
Qed.

Lemma zeros2_no_action self a :
  ~ dlegal_action self
      (zeros2 (Z.to_nat (Dense._size self)) (Z.to_nat (Dense._size self))) a.
Proof. intros [_ H]. rewrite zeros2_at in H. discriminate. Qed.

Lemma dreachable_valid self d lm :
  2 <= Dense._size self ->
  dreachable self d lm ->
  (valid_dense (Dense._size self) d
   /\ Dense._legal_moves_helper self d None None false = Some (lm, d))
  \/ (valid_discs (Dense._size self) d
      /\ lm = zeros2 (Z.to_nat (Dense._size self)) (Z.to_nat (Dense._size self))).
Proof.
  intros HN.
  induction 1 as [d lm p Hreset|d lm a d' lm' p' done Hreach IH Ha Hstep].
  - destruct (dense_reset_valid self HN) as (d0 & lm0 & E & Hv & Em).
    rewrite Hreset in E. injection E as -> -> ->. left. now split.
  - destruct IH as [[Hv Em]|[_ ->]]; [|now apply zeros2_no_action in Ha].
    exact (proj1 (dstep_valid self d lm a d' lm' p' done Hv Em Ha Hstep)).
Qed.

(** C4: in every state reachable from [reset] by [step]s on legal cells
    the two sides occupy disjoint sets of cells, and a [step] on a legal
    cell never vacates a cell: the occupied cells of its result include
    those of its argument.  Bitboard engine first, dense engine second. *)
Theorem occupancy_invariant bs s m self d lm :
  2 <= Dense._size self ->
  (reachable (BitBoard.init bs) s m ->
   (exists b w p, s = [b; w; p] /\ Z.land b w = 0)
   /\ forall a s' m' p' done,
        legal_action m a ->
        BitBoard.step (BitBoard.init bs) s a = Some (s', m', p', done) ->
        forall r c, cell (occupied s) r c = true -> cell (occupied s') r c = true)
  /\ (dreachable self d lm ->
      (forall r c, 0 <= r < Dense._size self -> 0 <= c < Dense._size self ->
         ~ (at3 d r c 0 = 1 /\ at3 d r c 1 = 1))
      /\ forall a d' lm' p' done,
           dlegal_action self lm a ->
           Dense.step self d a = Some (d', lm', p', done) ->
           forall r c, 0 <= r < Dense._size self -> 0 <= c < Dense._size self ->
             doccupied d r c -> doccupied d' r c).
Proof.
  intros HN. split.
  - intros Hreach. destruct (reachable_valid bs s m Hreach) as [Hv Em]. split.
    + destruct Hv as (b & w & p & -> & _ & _ & Hd & _). now exists b, w, p.
    + intros a s' m' p' done Ha Hstep r c Hocc.
      destruct (step_valid bs s m a Hv Em Ha)
        as (s1 & m1 & p1 & done1 & E & _ & _ & Hocc' & _).
      rewrite Hstep in E. injection E as <- <- <- <-.
      rewrite Hocc'. apply cell_true in Hocc. destruct Hocc as [Hin Hbit].
      apply cell_true. split; [assumption|].
      now rewrite Z.lor_spec, Hbit.
  - intros Hreach. split.
    + assert (Hdiscs : valid_discs (Dense._size self) d).
      { destruct (dreachable_valid self d lm HN Hreach) as [[Hv _]|[Hv _]];
          [now apply valid_dense_discs | exact Hv]. }
      intros r c Hr Hc [H0 H1]. destruct Hdiscs as (_ & _ & Hcells).
      destruct (Hcells r c Hr Hc) as (_ & _ & Hsum). lia.
    + intros a d' lm' p' done Ha Hstep.
      destruct (dreachable_valid self d lm HN Hreach) as [[Hv Em]|[_ ->]];
        [|now apply zeros2_no_action in Ha].
      exact (proj2 (dstep_valid self d lm a d' lm' p' done Hv Em Ha Hstep)).
Qed.

(** ** Counting cells *)

Lemma range_NoDup n : NoDup (range n).
Proof.
  unfold range. apply (NoDup_fmap_2 Z.of_nat), NoDup_seq.
Qed.

Lemma sum1_indicator (f : Z -> Z) k l :
  NoDup l ->
  sum1 (map (fun i => f i + (if i =? k then 1 else 0)) l)
  = sum1 (map f l) + (if decide (k ∈ l) then 1 else 0).
Proof.
  induction 1 as [|x l Hx Hl IH].
  - simpl. destruct (decide (k ∈ [])) as [H|_]; [inversion H | reflexivity].
  - cbn [map sum1 fold_right]. fold (sum1 (map f l)).
    fold (sum1 (map (fun i => f i + (if i =? k then 1 else 0)) l)). rewrite IH.
    destruct (Z.eqb_spec x k) as [ -> |Hne].
    + destruct (decide (k ∈ l)) as [Hin|_];
        [exfalso; apply Hx; first [exact Hin | apply list_elem_of_In; exact Hin]|].
      destruct (decide (k ∈ k :: l)) as [_|Hn]; [lia|].
      destruct Hn. apply elem_of_cons. now left.
    + destruct (decide (k ∈ l)) as [Hin|Hnin].
      * destruct (decide (k ∈ x :: l)) as [_|Hn]; [lia|].
        destruct Hn. apply elem_of_cons. now right.
      * destruct (decide (k ∈ x :: l)) as [Hy|_]; [|lia].
        apply elem_of_cons in Hy. destruct Hy; [congruence | contradiction].
Qed.

Lemma popcount_add x k :
  0 <= k < 64 -> Z.testbit x k = false ->
  popcount64 (Z.lor x (2 ^ k)) = popcount64 x + 1.
Proof.
  intros Hk Hbit. unfold popcount64.
  rewrite (map_ext _ (fun i => Z.b2z (Z.testbit x i) + (if i =? k then 1 else 0))).
  - rewrite sum1_indicator by apply range_NoDup.
    destruct (decide (k ∈ range 64)) as [_|Hn]; [reflexivity|].
    destruct Hn. now apply list_elem_of_In, in_range.
  - intros i. rewrite Z.lor_spec, Z.pow2_bits_eqb by lia.
    rewrite (Z.eqb_sym k i).
    destruct (Z.eqb_spec i k) as [ -> |_].
    + now rewrite Hbit.
    + rewrite orb_false_r. lia.
Qed.

Lemma popcount_bounds x :
  0 <= popcount64 x <= 64
  /\ forall k, 0 <= k < 64 -> Z.testbit x k = false -> popcount64 x < 64.
Proof.
  unfold popcount64.
  assert (HF : Forall (fun v => 0 <= v <= 1)
                 (map (fun i => Z.b2z (Z.testbit x i)) (range 64))).
  { apply Forall_map, List.Forall_forall. intros i _. cbn beta.
    destruct (Z.testbit x i); simpl; lia. }
  destruct (sum1_bounds 1 _ HF) as (Hb & _ & Hfull).
  rewrite length_map in Hb, Hfull. change (Z.of_nat (length (range 64)) * 1) with 64 in *.
  split; [exact Hb|]. intros k Hk Hbit.
  destruct (Z.eq_dec (sum1 (map (fun i => Z.b2z (Z.testbit x i)) (range 64))) 64)
    as [Heq|Hne]; [exfalso | lia].
  apply Hfull in Heq. rewrite Forall_map, List.Forall_forall in Heq.
  specialize (Heq k (proj2 (in_range 64 k) Hk)). cbn beta in Heq.
  rewrite Hbit in Heq. discriminate.
Qed.

Lemma step_empties bs s m a s' m' p' done :
  valid_state s ->
  BitBoard._legal_moves_helper (BitBoard.init bs) s = Some m ->
  legal_action m a ->
  BitBoard.step (BitBoard.init bs) s a = Some (s', m', p', done) ->
  valid_state s'
  /\ BitBoard._legal_moves_helper (BitBoard.init bs) s' = Some m'
  /\ empties s' = empties s - 1
  /\ 0 <= empties s'
  /\ (done = 0 \/ done = 1)
  /\ (done = 0 -> m' <> 0 /\ 0 < empties s').
Proof.
  intros Hv Em Ha Hstep.
  destruct (step_valid bs s m a Hv Em Ha)
    as (s1 & m1 & p1 & done1 & E & Hv' & Em' & Hocc & Hfree & Hd & Hd0 & _).
  rewrite Hstep in E. injection E as <- <- <- <-.
  destruct Ha as (r0 & c0 & Hin & -> & _).
  pose proof (bit_range r0 c0 Hin) as Hbit.
  assert (Hvacbit : Z.testbit (occupied s) (bit r0 c0) = false).
  { assert (H : Z.testbit (Z.land (occupied s) (2 ^ bit r0 c0)) (bit r0 c0) = false)
      by (now rewrite Hfree, Z.bits_0).
    rewrite Z.land_spec, Z.pow2_bits_true, andb_true_r in H by lia. exact H. }
  assert (Hemp : empties s' = empties s - 1).
  { unfold empties. rewrite Hocc, popcount_add by assumption. lia. }
  split; [assumption|]. split; [assumption|]. split; [assumption|].
  split; [unfold empties; pose proof (proj1 (popcount_bounds (occupied s'))); lia|].
  split; [assumption|]. intros Hz. split; [now apply Hd0|].
  (* a legal cell of the next state is empty *)
  specialize (Hd0 Hz).
  destruct (can_move_iff bs s' m' Hv' Em') as [_ Hcan].
  apply Hcan in Hd0. destruct Hd0 as (r & c & Hrc & [[V1 V2] _]).
  pose proof (bit_range r c Hrc) as Hb.
  rewrite cell_inb in V1, V2 by assumption.
  unfold empties.
  enough (popcount64 (occupied s') < 64) by lia.
  apply (proj2 (popcount_bounds (occupied s')) (bit r c) Hb).
  rewrite (proj2 (proj2 (proj2 (proj2 (set_player_boards s' Hv'))))).
  now rewrite Z.lor_spec, V1, V2.
Qed.

(** C7: from a valid state with its legal-move set, every sequence of
    [step]s on legal cells is shorter than the number of empty cells as
    long as the game goes on (each step fills exactly one empty cell), and
    the game loop, whichever legal cell the agent picks, returns
    [done = 1] after at most as many steps as there are empty cells. *)
Theorem game_terminates bs s m :
  valid_state s ->
  BitBoard._legal_moves_helper (BitBoard.init bs) s = Some m ->
  (forall n s' m' done,
     plays (BitBoard.init bs) n s m s' m' done ->
     Z.of_nat n + empties s' = empties s
     /\ 0 <= empties s'
     /\ (done = 0 -> Z.of_nat n < empties s))
  /\ (forall move,
        (forall s m,
           valid_state s ->
           BitBoard._legal_moves_helper (BitBoard.init bs) s = Some m ->
           m <> 0 -> legal_action m (move s m)) ->
        m <> 0 ->
        exists n s' m',
          play_loop (BitBoard.init bs) move (Z.to_nat (empties s)) s m
            = Some (n, s', m', 1)
          /\ (1 <= n)%nat /\ Z.of_nat n <= empties s).
Proof.
  intros Hv Em. split.
  - intros n s' m' done Hplays. revert Hv Em.
    induction Hplays as [s m a s' m' p' done Ha Hstep
                        |n s m a s1 m1 p1 s' m' done Ha Hstep Hrest IH];
      intros Hv Em.
    + destruct (step_empties bs s m a s' m' p' done Hv Em Ha Hstep)
        as (_ & _ & He & H0 & _ & Hd). split; [lia|]. split; [lia|].
      intros Hz. destruct (Hd Hz). lia.
    + destruct (step_empties bs s m a s1 m1 p1 0 Hv Em Ha Hstep)
        as (Hv1 & Em1 & He & H0 & _ & _).
      destruct (IH Hv1 Em1) as (Hsum & H0' & Hd). split; [lia|]. split; [lia|].
      intros Hz. specialize (Hd Hz). lia.
  - intros move Hmove.
    assert (Hloop : forall fuel s m,
              valid_state s ->
              BitBoard._legal_moves_helper (BitBoard.init bs) s = Some m ->
              m <> 0 -> empties s <= Z.of_nat fuel ->
              exists n s' m',
                play_loop (BitBoard.init bs) move fuel s m = Some (n, s', m', 1)
                /\ (1 <= n)%nat /\ Z.of_nat n <= empties s).
    { induction fuel as [|fuel IH]; intros s0 m0 Hv0 Em0 Hm0 Hfuel.
      - (* a state with a legal move has an empty cell *)
        exfalso. destruct (can_move_iff bs s0 m0 Hv0 Em0) as [_ Hcan].
        apply Hcan in Hm0. destruct Hm0 as (r & c & Hrc & [[V1 V2] _]).
        pose proof (bit_range r c Hrc) as Hb.
        rewrite cell_inb in V1, V2 by assumption.
        assert (popcount64 (occupied s0) < 64).
        { apply (proj2 (popcount_bounds (occupied s0)) (bit r c) Hb).
          rewrite (proj2 (proj2 (proj2 (proj2 (set_player_boards s0 Hv0))))).
          now rewrite Z.lor_spec, V1, V2. }
        unfold empties in Hfuel. simpl in Hfuel. lia.
      - pose proof (Hmove s0 m0 Hv0 Em0 Hm0) as Ha.
        destruct (step_valid bs s0 m0 _ Hv0 Em0 Ha)
          as (s1 & m1 & p1 & done1 & E & _).
        destruct (step_empties bs s0 m0 _ s1 m1 p1 done1 Hv0 Em0 Ha E)
          as (Hv1 & Em1 & He & H0 & Hd & Hd0).
        cbn [play_loop]. rewrite E. cbn [mbind option_bind].
        destruct Hd as [ -> | -> ]; cbn [Z.eqb].
        + destruct (Hd0 eq_refl) as [Hm1 Hpos].
          destruct (IH s1 m1 Hv1 Em1 Hm1 ltac:(lia)) as (n & s' & m' & En & Hn & Hle).
          rewrite En. cbn [mbind option_bind].
          exists (S n), s', m'. split; [reflexivity|]. lia.
        + exists 1%nat, s1, m1. split; [reflexivity|]. lia. }
    intros Hm. apply Hloop; try assumption.
    unfold empties. pose proof (proj1 (popcount_bounds (occupied s))). lia.
Qed.

(** C5: on the 8x8 board [reset] of either engine returns the same
    starting position: two discs a side on the four centre cells, white on
    the diagonal [(3,3), (4,4)] and black on [(3,4), (4,3)], white (player
    1) to move, and exactly four legal cells. *)
Theorem reset_start :
  exists conv s m d lm,
    Converter.init 8 = Some conv
    /\ BitBoard.reset (BitBoard.init 8) = Some (s, m, 1)
    /\ Dense.reset (Dense.init 8) = Some (d, lm, 1)
    /\ Converter.convert conv (VTuple s) "bitboard" "ndarray3d" = Some (VArray3 d)
    /\ Converter.convert conv (VInt m) "bitboard_single" "ndarray" = Some (VArray2 lm)
    /\ channel d 0 = start_black /\ channel d 1 = start_white
    /\ channel d 2 = replicate 8 (replicate 8 1)
    /\ py_index s 2 = Some 1
    /\ lm = start_legal /\ sum2 lm = 4
    /\ BitBoard.count_coins (BitBoard.init 8) s = Some (2, 2)
    /\ Dense.count_coins (Dense.init 8) d = (2, 2).
Proof.
  exists conv8, [34628173824; 68853694464; 1], 8813810810880,
    (board_array 34628173824 68853694464 1), start_legal.
  repeat split; vm_compute; reflexivity.
Qed.

(** C8, as the code has it: constructing an engine never fails.  The
    dense engine keeps an even size as given, whatever its sign, and
    replaces an odd size by that size plus one; the bitboard engine
    ignores the size it is given and works on size 8. *)
Theorem construction_never_fails board_size :
  (exists env, Dense.construct board_size = Some env
     /\ Dense._size env = (if board_size mod 2 =? 0 then board_size else board_size + 1)
     /\ Dense._size env mod 2 = 0)
  /\ (exists env, BitBoard.construct board_size = Some env
        /\ BitBoard._size env = 8).
Proof.
  split.
  - eexists. split; [reflexivity|]. split; [reflexivity|]. cbn [Dense._size Dense.init].
    destruct (Z.eqb_spec (board_size mod 2) 0) as [H|H]; [assumption|].
    pose proof (Z.mod_pos_bound board_size 2 ltac:(lia)).
    rewrite Z.add_mod by lia.
    replace (board_size mod 2) with 1 by lia. reflexivity.
  - eexists. split; reflexivity.
Qed.

(** C8, as the claim states it, fails: sizes 7 (odd) and 0 (not positive)
    are accepted by both constructors, the dense engine going on with
    sizes 8 and 0. *)
Lemma construction_accepts_bad_sizes :
  (7 mod 2 <> 0 \/ 7 <= 0)
  /\ Dense.construct 7 = Some {| Dense._size := 8 |}
  /\ BitBoard.construct 7 = Some (BitBoard.init 8)
  /\ (0 mod 2 <> 0 \/ 0 <= 0)
  /\ Dense.construct 0 = Some {| Dense._size := 0 |}
  /\ BitBoard.construct 0 = Some (BitBoard.init 8)
  /\ ~ (forall board_size,
          board_size mod 2 <> 0 \/ board_size <= 0 ->
          Dense.construct board_size = None \/ BitBoard.construct board_size = None).
Proof.
  repeat split; try reflexivity; try (left; discriminate); try (right; lia).
  intros H. destruct (H 7 ltac:(left; discriminate)) as [E|E]; discriminate.
Qed.

(** C9: applying a move leaves the side to move as it is, in
    [_get_next_board] of the bitboard engine and in [_legal_moves_helper]
    with [play=True] of the dense engine, whose third channel is unchanged
    in every cell. *)
Theorem move_keeps_player bs s r0 c0 self d rd cd :
  valid_state s -> inb r0 c0 = true ->
  legal_cell (mover_board s) (other_board s) r0 c0 ->
  valid_dense (Dense._size self) d ->
  0 <= rd < Dense._size self -> 0 <= cd < Dense._size self ->
  dlegal self d (at3 d 0 0 2) (1 - at3 d 0 0 2) rd cd ->
  (exists post,
     BitBoard._get_next_board (BitBoard.init bs) s (2 ^ bit r0 c0) = Some post
     /\ py_index post 2 = py_index s 2
     /\ player post = player s)
  /\ (exists lm post,
        Dense._legal_moves_helper self d (Some rd) (Some cd) true = Some (lm, post)
        /\ channel post 2 = channel d 2
        /\ forall r c, 0 <= r < Dense._size self -> 0 <= c < Dense._size self ->
             at3 post r c 2 = at3 d r c 2).
Proof.
  intros Hs Hin [Hvac _] Hd Hrd Hcd [Hdvac _]. split.
  - destruct (get_next_board_valid bs s r0 c0 Hs Hin Hvac)
      as (post & E & Hvpost & Epl & _).
    exists post. split; [assumption|]. split; [assumption|].
    rewrite (valid_py_player _ Hs), (valid_py_player _ Hvpost) in Epl.
    now injection Epl.
  - destruct (helper_play_spec self d Hd rd cd Hrd Hcd Hdvac)
      as (lm & post & E & Hshape & Hpt).
    exists lm, post. split; [assumption|].
    assert (H2 : forall r c, 0 <= r < Dense._size self -> 0 <= c < Dense._size self ->
              at3 post r c 2 = at3 d r c 2) by (intros r c Hr Hc; now apply Hpt).
    split; [|exact H2].
    destruct Hd as (_ & Hshape' & _).
    destruct (channel_spec _ _ post 2 Hshape ltac:(lia)) as [Hs1 A1].
    destruct (channel_spec _ _ d 2 Hshape' ltac:(lia)) as [Hs2 A2].
    change (Z.to_nat 2) with 2%nat in *.
    apply (ext2 _ _ _ _ Hs1 Hs2). intros r c Hr Hc.
    rewrite A1, A2 by assumption. now apply H2.
Qed.

(** C10: the bitboard engine does not depend on the size it is built
    with: built with any [board_size] it is the engine built with 8, size
    8, and [reset], [step], [count_coins] and [_legal_moves_helper] return
    the same results. *)
Theorem bitboard_ignores_board_size board_size s a :
  BitBoard.init board_size = BitBoard.init 8
  /\ BitBoard._size (BitBoard.init board_size) = 8
  /\ BitBoard.reset (BitBoard.init board_size) = BitBoard.reset (BitBoard.init 8)
  /\ BitBoard.step (BitBoard.init board_size) s a
     = BitBoard.step (BitBoard.init 8) s a
  /\ BitBoard.count_coins (BitBoard.init board_size) s
     = BitBoard.count_coins (BitBoard.init 8) s
  /\ BitBoard._legal_moves_helper (BitBoard.init board_size) s
     = BitBoard._legal_moves_helper (BitBoard.init 8) s.
Proof. repeat split. Qed.

(** * The first two moves

    The theorems above that carry hypotheses, applied to the state [reset]
    returns and white's move on cell [(3, 5)], or to the state after that
    move and black's answer on cell [(2, 3)]. *)

Lemma start_dense_valid : valid_dense 8 start_dense.
Proof. exact (proj1 (valid_state_array _ _ _ reset_state_valid)). Qed.

Lemma start_legal_cell :
  legal_cell (mover_board start_state) (other_board start_state) 3 5.
Proof.
  split; [split; vm_compute; reflexivity|].
  exists 0, (-1), 1. split; [simpl; tauto|].
  split; [lia|]. split; [|vm_compute; reflexivity].
  intros i Hi. assert (i = 1) as -> by lia. vm_compute. reflexivity.
Qed.

Lemma start_dense_legal :
  dlegal (Dense.init 8) start_dense (at3 start_dense 0 0 2)
    (1 - at3 start_dense 0 0 2) 3 5.
Proof.
  split; [split; vm_compute; reflexivity|].
  exists 0, (-1), 1. split; [simpl; tauto|].
  split; [lia|]. split; [|vm_compute; reflexivity].
  intros i Hi. assert (i = 1) as -> by lia. vm_compute. reflexivity.
Qed.

Lemma start_action_legal : legal_action start_moves 17179869184.
Proof. exists 3, 5. repeat split; vm_compute; reflexivity. Qed.

Lemma highest_move_legal s m :
  board64 m -> m <> 0 -> legal_action m (highest_move s m).
Proof.
  intros [H0 H64] Hm. unfold highest_move.
  assert (Hpos : 0 < m) by lia.
  pose proof (Z.log2_nonneg m) as Hk0.
  assert (Hk : Z.log2 m < 64) by (apply Z.log2_lt_pow2; assumption).
  pose proof (Z.div_mod (63 - Z.log2 m) 8 ltac:(lia)) as Hdm.
  pose proof (Z.mod_pos_bound (63 - Z.log2 m) 8 ltac:(lia)) as Hmod.
  exists ((63 - Z.log2 m) / 8), ((63 - Z.log2 m) mod 8).
  assert (Hbit : bit ((63 - Z.log2 m) / 8) ((63 - Z.log2 m) mod 8) = Z.log2 m)
    by (unfold bit; lia).
  rewrite Hbit. split; [|split; [reflexivity|now apply Z.bit_log2]].
  apply inb_iff. lia.
Qed.

Lemma converter_round_trips_start :
  Converter.init 8 = Some conv8
  /\ valid_state start_state /\ valid_dense 8 start_dense
  /\ board64 start_moves /\ shape2 8 8 start_legal
  /\ (forall r c, 0 <= r < 8 -> 0 <= c < 8 -> bit01 (at2 start_legal r c))
  /\ (exists d', Converter.convert conv8 (VTuple start_state) "bitboard" "ndarray3d"
                 = Some (VArray3 d')
        /\ Converter.convert conv8 (VArray3 d') "ndarray3d" "bitboard"
           = Some (VTuple start_state))
  /\ (exists s', Converter.convert conv8 (VArray3 start_dense) "ndarray3d" "bitboard"
                 = Some (VTuple s')
        /\ Converter.convert conv8 (VTuple s') "bitboard" "ndarray3d"
           = Some (VArray3 start_dense))
  /\ (exists a', Converter.convert conv8 (VInt start_moves) "bitboard_single" "ndarray"
                 = Some (VArray2 a')
        /\ Converter.convert conv8 (VArray2 a') "ndarray" "bitboard_single"
           = Some (VInt start_moves))
  /\ (exists x', Converter.convert conv8 (VArray2 start_legal) "ndarray" "bitboard_single"
                 = Some (VInt x')
        /\ Converter.convert conv8 (VInt x') "bitboard_single" "ndarray"
           = Some (VArray2 start_legal)).
Proof.
  assert (Hi : Converter.init 8 = Some conv8) by (vm_compute; reflexivity).
  assert (Hx : board64 start_moves) by (split; vm_compute; congruence).
  assert (Ha : shape2 8 8 start_legal)
    by (split; [reflexivity | repeat constructor]).
  assert (Hb : forall r c, 0 <= r < 8 -> 0 <= c < 8 -> bit01 (at2 start_legal r c)).
  { intros r c Hr Hc. change start_legal with (mask_array start_moves).
    rewrite (proj2 (mask_array_spec start_moves) r c Hr Hc).
    destruct (Z.testbit start_moves (bit r c)); [right | left]; reflexivity. }
  repeat (split; [first [assumption | exact reset_state_valid
                        | exact start_dense_valid]|]).
  exact (converter_round_trips conv8 start_state start_dense start_moves
           start_legal Hi reset_state_valid start_dense_valid Hx Ha Hb).
Defined.

Lemma engines_agree_white_start :
  Converter.init 8 = Some conv8
  /\ valid_state start_state
  /\ Converter.convert conv8 (VTuple start_state) "bitboard" "ndarray3d"
     = Some (VArray3 start_dense)
  /\ BitBoard._legal_moves_helper (BitBoard.init 8) start_state = Some start_moves
  /\ (exists lm,
        Dense._legal_moves_helper (Dense.init 8) start_dense None None false
        = Some (lm, start_dense)
        /\ Converter.convert conv8 (VInt start_moves) "bitboard_single" "ndarray"
           = Some (VArray2 lm))
  /\ player start_state = 1
  /\ 0 <= 29 < 64
  /\ Converter.convert conv8 (VInt 29) "position" "bitboard_single"
     = Some (VInt 17179869184)
  /\ Z.testbit start_moves (63 - 29) = true
  /\ exists s' m' d' lm' p' done,
       BitBoard.step (BitBoard.init 8) start_state 17179869184
       = Some (s', m', p', done)
       /\ Dense.step (Dense.init 8) start_dense 29 = Some (d', lm', p', done)
       /\ Converter.convert conv8 (VTuple s') "bitboard" "ndarray3d"
          = Some (VArray3 d')
       /\ Converter.convert conv8 (VInt m') "bitboard_single" "ndarray"
          = Some (VArray2 lm').
Proof.
  assert (Hi : Converter.init 8 = Some conv8) by (vm_compute; reflexivity).
  assert (Hc : Converter.convert conv8 (VTuple start_state) "bitboard" "ndarray3d"
               = Some (VArray3 start_dense)) by (vm_compute; reflexivity).
  assert (Hm : BitBoard._legal_moves_helper (BitBoard.init 8) start_state
               = Some start_moves) by (vm_compute; reflexivity).
  assert (Hp : Converter.convert conv8 (VInt 29) "position" "bitboard_single"
               = Some (VInt 17179869184)) by (vm_compute; reflexivity).
  assert (Hb : Z.testbit start_moves (63 - 29) = true) by (vm_compute; reflexivity).
  assert (Hr : 0 <= 29 < 64) by lia.
  destruct (engines_agree_white conv8 start_state start_dense start_moves
              Hi reset_state_valid Hc Hm) as [H1 H2].
  repeat (split; [first [assumption | exact reset_state_valid | reflexivity]|]).
  exact (H2 29 17179869184 eq_refl Hr Hp Hb).
Defined.

Lemma legal_moves_exact_start :
  valid_state start_state
  /\ valid_dense (Dense._size (Dense.init 8)) start_dense
  /\ (exists m,
        BitBoard._legal_moves_helper (BitBoard.init 8) start_state = Some m
        /\ board64 m
        /\ forall r c, inb r c = true ->
             (Z.testbit m (bit r c) = true
              <-> vacant (mover_board start_state) (other_board start_state) r c
                  /\ captures (cell (mover_board start_state))
                       (cell (other_board start_state)) r c))
  /\ (exists lm,
        Dense._legal_moves_helper (Dense.init 8) start_dense None None false
        = Some (lm, start_dense)
        /\ shape2 8 8 lm
        /\ forall r c, 0 <= r < 8 -> 0 <= c < 8 ->
             bit01 (at2 lm r c)
             /\ (at2 lm r c = 1
                 <-> dvacant start_dense r c
                     /\ captures (dcell (Dense.init 8) start_dense (at3 start_dense 0 0 2))
                          (dcell (Dense.init 8) start_dense (1 - at3 start_dense 0 0 2))
                          r c)).
Proof.
  split; [exact reset_state_valid|]. split; [exact start_dense_valid|].
  exact (legal_moves_exact 8 start_state (Dense.init 8) start_dense
           reset_state_valid start_dense_valid).
Defined.

Lemma turn_resolution_white_start :
  valid_state start_state /\ inb 3 5 = true
  /\ legal_cell (mover_board start_state) (other_board start_state) 3 5
  /\ valid_dense (Dense._size (Dense.init 8)) start_dense
  /\ at3 start_dense 0 0 2 = 1
  /\ 0 <= 3 < Dense._size (Dense.init 8) /\ 0 <= 5 < Dense._size (Dense.init 8)
  /\ dlegal (Dense.init 8) start_dense (at3 start_dense 0 0 2)
       (1 - at3 start_dense 0 0 2) 3 5
  /\ (exists post s' m' p' done,
        BitBoard._get_next_board (BitBoard.init 8) start_state (2 ^ bit 3 5) = Some post
        /\ BitBoard.step (BitBoard.init 8) start_state (2 ^ bit 3 5)
           = Some (s', m', p', done)
        /\ BitBoard._legal_moves_helper (BitBoard.init 8) s' = Some m'
        /\ let p := player start_state in
           let s1 := set_player post (opponent p) in
           let s2 := set_player post p in
           (can_move s1 /\ s' = s1 /\ p' = opponent p /\ done = 0)
           \/ (~ can_move s1 /\ board_full post
               /\ s' = s1 /\ p' = opponent p /\ done = 1 /\ m' = 0)
           \/ (~ can_move s1 /\ ~ board_full post /\ can_move s2
               /\ s' = s2 /\ p' = p /\ done = 0)
           \/ (~ can_move s1 /\ ~ board_full post /\ ~ can_move s2
               /\ s' = s2 /\ p' = p /\ done = 1 /\ m' = 0))
  /\ (exists lm0 post d' lm' p' done,
        Dense._legal_moves_helper (Dense.init 8) start_dense (Some 3) (Some 5) true
        = Some (lm0, post)
        /\ Dense.step (Dense.init 8) start_dense (3 * Dense._size (Dense.init 8) + 5)
           = Some (d', lm', p', done)
        /\ Dense._legal_moves_helper (Dense.init 8) d' None None false = Some (lm', d')
        /\ let p := at3 start_dense 0 0 2 in
           let d1 := fill_channel post 2 (1 - p) in
           let d2 := fill_channel post 2 p in
           (dcan_move (Dense.init 8) d1 /\ d' = d1 /\ p' = 1 - p /\ done = 0)
           \/ (~ dcan_move (Dense.init 8) d1 /\ dboard_full (Dense.init 8) d1
               /\ d' = d1 /\ p' = 1 - p /\ done = 1 /\ sum2 lm' = 0)
           \/ (~ dcan_move (Dense.init 8) d1 /\ ~ dboard_full (Dense.init 8) d1
               /\ dcan_move (Dense.init 8) d2
               /\ d' = d2 /\ p' = p /\ done = 0)
           \/ (~ dcan_move (Dense.init 8) d1 /\ ~ dboard_full (Dense.init 8) d1
               /\ ~ dcan_move (Dense.init 8) d2
               /\ d' = d2 /\ p' = p /\ done = 1 /\ sum2 lm' = 0)).
Proof.
  assert (Hin : inb 3 5 = true) by reflexivity.
  assert (Hr : 0 <= 3 < Dense._size (Dense.init 8)) by (simpl; lia).
  assert (Hc : 0 <= 5 < Dense._size (Dense.init 8)) by (simpl; lia).
  split; [exact reset_state_valid|]. split; [exact Hin|].
  split; [exact start_legal_cell|]. split; [exact start_dense_valid|].
  split; [reflexivity|].
  split; [exact Hr|]. split; [exact Hc|]. split; [exact start_dense_legal|].
  exact (turn_resolution_white 8 start_state 3 5 (Dense.init 8) start_dense 3 5
           reset_state_valid Hin start_legal_cell start_dense_valid eq_refl Hr Hc
           start_dense_legal).
Defined.

Lemma occupancy_invariant_start :
  2 <= Dense._size (Dense.init 8)
  /\ reachable (BitBoard.init 8) start_state start_moves
  /\ legal_action start_moves 17179869184
  /\ BitBoard.step (BitBoard.init 8) start_state 17179869184
     = Some (second_state, second_moves, 0, 0)
  /\ cell (occupied start_state) 3 3 = true
  /\ dreachable (Dense.init 8) start_dense start_legal
  /\ dlegal_action (Dense.init 8) start_legal 29
  /\ Dense.step (Dense.init 8) start_dense 29
     = Some (second_dense, second_legal, 0, 0)
  /\ doccupied start_dense 3 3
  /\ (exists b w p, start_state = [b; w; p] /\ Z.land b w = 0)
  /\ cell (occupied second_state) 3 3 = true
  /\ (forall r c, 0 <= r < 8 -> 0 <= c < 8 ->
        ~ (at3 start_dense r c 0 = 1 /\ at3 start_dense r c 1 = 1))
  /\ doccupied second_dense 3 3.
Proof.
  assert (HN : 2 <= Dense._size (Dense.init 8)) by (simpl; lia).
  assert (Hreach : reachable (BitBoard.init 8) start_state start_moves)
    by (apply (reach_reset _ _ _ 1); vm_compute; reflexivity).
  assert (Hstep : BitBoard.step (BitBoard.init 8) start_state 17179869184
                  = Some (second_state, second_moves, 0, 0))
    by (vm_compute; reflexivity).
  assert (Hcell : cell (occupied start_state) 3 3 = true) by (vm_compute; reflexivity).
  assert (Hdreach : dreachable (Dense.init 8) start_dense start_legal)
    by (apply (dreach_reset _ _ _ 1); vm_compute; reflexivity).
  assert (Hda : dlegal_action (Dense.init 8) start_legal 29)
    by (split; [simpl; lia | vm_compute; reflexivity]).
  assert (Hdstep : Dense.step (Dense.init 8) start_dense 29
                   = Some (second_dense, second_legal, 0, 0))
    by (vm_compute; reflexivity).
  assert (Hdocc : doccupied start_dense 3 3) by (vm_compute; reflexivity).
  assert (H33 : 0 <= 3 < Dense._size (Dense.init 8)) by (simpl; lia).
  destruct (occupancy_invariant 8 start_state start_moves (Dense.init 8)
              start_dense start_legal HN) as [HB HD].
  destruct (HB Hreach) as [Hdisj Hmono].
  destruct (HD Hdreach) as [Hddisj Hdmono].
  split; [exact HN|]. split; [exact Hreach|]. split; [exact start_action_legal|].
  split; [exact Hstep|]. split; [exact Hcell|]. split; [exact Hdreach|].
  split; [exact Hda|]. split; [exact Hdstep|]. split; [exact Hdocc|].
  split; [exact Hdisj|].
  split; [exact (Hmono _ _ _ _ _ start_action_legal Hstep 3 3 Hcell)|].
  split; [exact Hddisj|].
  exact (Hdmono _ _ _ _ _ Hda Hdstep 3 3 H33 H33 Hdocc).
Defined.

Lemma second_state_valid : valid_state second_state.
Proof.
  exists 268435456, 120393302016, 0. unfold board64.
  repeat split; try lia; try reflexivity; now left.
Qed.

Lemma second_dense_valid : valid_dense 8 second_dense.
Proof. exact (proj1 (valid_state_array _ _ _ second_state_valid)). Qed.

Lemma second_dense_legal : dlegal (Dense.init 8) second_dense 0 1 2 3.
Proof.
  split; [split; vm_compute; reflexivity|].
  exists 1, 0, 1. split; [simpl; tauto|].
  split; [lia|]. split; [|vm_compute; reflexivity].
  intros i Hi. assert (i = 1) as -> by lia. vm_compute. reflexivity.
Qed.

Lemma third_post_white_moves : dcan_move (Dense.init 8) (fill_channel third_post 2 1).
Proof.
  exists 2, 2. split; [simpl; lia|]. split; [simpl; lia|].
  split; [split; vm_compute; reflexivity|].
  exists 1, 1, 1. split; [simpl; tauto|].
  split; [lia|]. split; [|vm_compute; reflexivity].
  intros i Hi. assert (i = 1) as -> by lia. vm_compute. reflexivity.
Qed.

Lemma dense_step_raises_for_black_second :
  valid_dense (Dense._size (Dense.init 8)) second_dense
  /\ at3 second_dense 0 0 2 = 0
  /\ 0 <= 2 < Dense._size (Dense.init 8) /\ 0 <= 3 < Dense._size (Dense.init 8)
  /\ dlegal (Dense.init 8) second_dense 0 1 2 3
  /\ Dense._legal_moves_helper (Dense.init 8) second_dense (Some 2) (Some 3) true
     = Some (mask_array (2 ^ 44), third_post)
  /\ dcan_move (Dense.init 8) (fill_channel third_post 2 1)
  /\ Dense.step (Dense.init 8) second_dense (2 * Dense._size (Dense.init 8) + 3) = None.
Proof.
  assert (Hr : 0 <= 2 < Dense._size (Dense.init 8)) by (simpl; lia).
  assert (Hc : 0 <= 3 < Dense._size (Dense.init 8)) by (simpl; lia).
  assert (Hp : at3 second_dense 0 0 2 = 0) by reflexivity.
  assert (Eplay : Dense._legal_moves_helper (Dense.init 8) second_dense
                    (Some 2) (Some 3) true
                  = Some (mask_array (2 ^ 44), third_post))
    by (vm_compute; reflexivity).
  split; [exact second_dense_valid|]. split; [exact Hp|].
  split; [exact Hr|]. split; [exact Hc|]. split; [exact second_dense_legal|].
  split; [exact Eplay|]. split; [exact third_post_white_moves|].
  exact (dense_step_raises_for_black (Dense.init 8) second_dense 2 3 _ third_post
           second_dense_valid Hp Hr Hc second_dense_legal Eplay
           third_post_white_moves).
Defined.

Lemma black_move_outcomes_second :
  valid_dense (Dense._size (Dense.init 8)) second_dense
  /\ at3 second_dense 0 0 2 = 0
  /\ 0 <= 2 < Dense._size (Dense.init 8) /\ 0 <= 3 < Dense._size (Dense.init 8)
  /\ dvacant second_dense 2 3
  /\ exists lm0 post,
       Dense._legal_moves_helper (Dense.init 8) second_dense (Some 2) (Some 3) true
       = Some (lm0, post)
       /\ (dcan_move (Dense.init 8) (fill_channel post 2 1)
           -> looks_behind (Dense.init 8) post 0)
       /\ ((looks_behind (Dense.init 8) post 0
            /\ Dense.step (Dense.init 8) second_dense
                 (2 * Dense._size (Dense.init 8) + 3) = None)
           \/ (~ looks_behind (Dense.init 8) post 0
               /\ dboard_full (Dense.init 8) post
               /\ Dense.step (Dense.init 8) second_dense
                    (2 * Dense._size (Dense.init 8) + 3)
                  = Some (fill_channel post 2 255,
                          zeros2 (Z.to_nat (Dense._size (Dense.init 8)))
                            (Z.to_nat (Dense._size (Dense.init 8))),
                          255, 1))
           \/ (~ looks_behind (Dense.init 8) post 0
               /\ ~ dboard_full (Dense.init 8) post
               /\ exists lm2,
                    Dense._legal_moves_helper (Dense.init 8) (fill_channel post 2 0)
                      None None false
                    = Some (lm2, fill_channel post 2 0)
                    /\ Dense.step (Dense.init 8) second_dense
                         (2 * Dense._size (Dense.init 8) + 3)
                       = Some (fill_channel post 2 0, lm2, 0,
                               if sum2 lm2 =? 0 then 1 else 0))).
Proof.
  assert (Hr : 0 <= 2 < Dense._size (Dense.init 8)) by (simpl; lia).
  assert (Hc : 0 <= 3 < Dense._size (Dense.init 8)) by (simpl; lia).
  assert (Hp : at3 second_dense 0 0 2 = 0) by reflexivity.
  split; [exact second_dense_valid|]. split; [exact Hp|].
  split; [exact Hr|]. split; [exact Hc|].
  split; [exact (proj1 second_dense_legal)|].
  exact (black_move_outcomes (Dense.init 8) second_dense 2 3
           second_dense_valid Hp Hr Hc (proj1 second_dense_legal)).
Defined.

Lemma game_terminates_start :
  valid_state start_state
  /\ BitBoard._legal_moves_helper (BitBoard.init 8) start_state = Some start_moves
  /\ plays (BitBoard.init 8) 1 start_state start_moves second_state second_moves 0
  /\ (forall s m,
        valid_state s ->
        BitBoard._legal_moves_helper (BitBoard.init 8) s = Some m ->
        m <> 0 -> legal_action m (highest_move s m))
  /\ start_moves <> 0
  /\ (Z.of_nat 1 + empties second_state = empties start_state
      /\ 0 <= empties second_state
      /\ (0 = 0 -> Z.of_nat 1 < empties start_state))
  /\ exists n s' m',
       play_loop (BitBoard.init 8) highest_move (Z.to_nat (empties start_state))
         start_state start_moves = Some (n, s', m', 1)
       /\ (1 <= n)%nat /\ Z.of_nat n <= empties start_state.
Proof.
  assert (Hm : BitBoard._legal_moves_helper (BitBoard.init 8) start_state
               = Some start_moves) by (vm_compute; reflexivity).
  assert (Hplays : plays (BitBoard.init 8) 1 start_state start_moves
                     second_state second_moves 0).
  { apply (plays_last _ _ _ 17179869184 _ _ 0); [exact start_action_legal|].
    vm_compute. reflexivity. }
  assert (Hmove : forall s m,
            valid_state s ->
            BitBoard._legal_moves_helper (BitBoard.init 8) s = Some m ->
            m <> 0 -> legal_action m (highest_move s m)).
  { intros s m Hv Em Hnz. apply highest_move_legal; [|exact Hnz].
    destruct (legal_moves_helper_valid 8 s Hv) as (m0 & Em0 & Hb & _).
    rewrite Em in Em0. injection Em0 as <-. exact Hb. }
  assert (Hnz : start_moves <> 0) by discriminate.
  destruct (game_terminates 8 start_state start_moves reset_state_valid Hm)
    as [Hcount Hend].
  split; [exact reset_state_valid|]. split; [exact Hm|]. split; [exact Hplays|].
  split; [exact Hmove|]. split; [exact Hnz|].
  split; [exact (Hcount _ _ _ _ Hplays)|].
  exact (Hend highest_move Hmove Hnz).
Defined.

Lemma move_keeps_player_start :
  valid_state start_state /\ inb 3 5 = true
  /\ legal_cell (mover_board start_state) (other_board start_state) 3 5
  /\ valid_dense (Dense._size (Dense.init 8)) start_dense
  /\ 0 <= 3 < Dense._size (Dense.init 8) /\ 0 <= 5 < Dense._size (Dense.init 8)
  /\ dlegal (Dense.init 8) start_dense (at3 start_dense 0 0 2)
       (1 - at3 start_dense 0 0 2) 3 5
  /\ (exists post,
        BitBoard._get_next_board (BitBoard.init 8) start_state (2 ^ bit 3 5) = Some post
        /\ py_index post 2 = py_index start_state 2
        /\ player post = player start_state)
  /\ (exists lm post,
        Dense._legal_moves_helper (Dense.init 8) start_dense (Some 3) (Some 5) true
        = Some (lm, post)
        /\ channel post 2 = channel start_dense 2
        /\ forall r c, 0 <= r < 8 -> 0 <= c < 8 ->
             at3 post r c 2 = at3 start_dense r c 2).
Proof.
  assert (Hin : inb 3 5 = true) by reflexivity.
  assert (Hr : 0 <= 3 < Dense._size (Dense.init 8)) by (simpl; lia).
  assert (Hc : 0 <= 5 < Dense._size (Dense.init 8)) by (simpl; lia).
  split; [exact reset_state_valid|]. split; [exact Hin|].
  split; [exact start_legal_cell|]. split; [exact start_dense_valid|].
  split; [exact Hr|]. split; [exact Hc|]. split; [exact start_dense_legal|].
  exact (move_keeps_player 8 start_state 3 5 (Dense.init 8) start_dense 3 5
           reset_state_valid Hin start_legal_cell start_dense_valid Hr Hc
           start_dense_legal).
Defined.

(** * Further properties of the code *)

(** ** Counting discs *)

Lemma range_succ (n : nat) :
  range (Z.of_nat (S n)) = 0 :: map Z.succ (range (Z.of_nat n)).
Proof.
  unfold range. rewrite !Nat2Z.id. cbn [seq map]. f_equal.
  rewrite <- seq_shift, !map_map. apply map_ext. intros i. lia.
Qed.

Lemma sum1_map_add {A} (f g : A -> Z) l :
  sum1 (map (fun i => f i + g i) l) = sum1 (map f l) + sum1 (map g l).
Proof. induction l as [|x l IH]; simpl; [reflexivity|]. rewrite IH. lia. Qed.

Lemma sum1_map_le {A} (f g : A -> Z) l :
  (forall i, In i l -> f i <= g i) -> sum1 (map f l) <= sum1 (map g l).
Proof.
  induction l as [|x l IH]; intros H; simpl; [lia|].
  pose proof (H x (or_introl eq_refl)).
  pose proof (IH (fun i Hi => H i (or_intror Hi))). lia.
Qed.

Lemma sum1_map_lt {A} (f g : A -> Z) l k :
  (forall i, In i l -> f i <= g i) -> In k l -> f k < g k ->
  sum1 (map f l) < sum1 (map g l).
Proof.
  induction l as [|x l IH]; intros H Hk Hlt; simpl; [destruct Hk|].
  pose proof (H x (or_introl eq_refl)).
  pose proof (sum1_map_le f g l (fun i Hi => H i (or_intror Hi))).
  destruct Hk as [ -> | Hk ]; [lia|].
  pose proof (IH (fun i Hi => H i (or_intror Hi)) Hk Hlt). lia.
Qed.

Lemma land_1_bit t : Z.land t 1 = Z.b2z (Z.testbit t 0).
Proof. exact (bitz_testbit t 0 ltac:(lia)). Qed.

Lemma count_loop_spec fuel : forall t n,
  0 <= t < 2 ^ Z.of_nat fuel ->
  BitBoard.count_loop fuel t n
  = Some (n + sum1 (map (fun i => Z.b2z (Z.testbit t i)) (range (Z.of_nat fuel)))).
Proof.
  induction fuel as [|fuel IH]; intros t n Ht.
  - assert (t = 0) as -> by (simpl in Ht; lia). simpl. f_equal. lia.
  - rewrite range_succ. cbn [BitBoard.count_loop map sum1 fold_right].
    fold (sum1 (map (fun i => Z.b2z (Z.testbit t i))
                  (map Z.succ (range (Z.of_nat fuel))))).
    rewrite map_map.
    destruct (Z.eqb_spec t 0) as [ -> | Hnz ].
    + f_equal. rewrite Z.bits_0. simpl.
      assert (E : forall l, sum1 (map (fun x => Z.b2z (Z.testbit 0 (Z.succ x))) l) = 0).
      { clear. induction l as [|x l IHl]; simpl; [reflexivity|].
        rewrite Z.bits_0. simpl. exact IHl. }
      rewrite E. lia.
    + rewrite IH.
      * f_equal. rewrite land_1_bit.
        assert (E : map (fun x => Z.b2z (Z.testbit t (Z.succ x))) (range (Z.of_nat fuel))
                    = map (fun i => Z.b2z (Z.testbit (Z.shiftr t 1) i))
                        (range (Z.of_nat fuel))).
        { apply map_ext_in. intros i Hi. apply in_range in Hi.
          rewrite Z.shiftr_spec by lia. now replace (i + 1) with (Z.succ i) by lia. }
        rewrite E. lia.
      * rewrite Z.shiftr_div_pow2 by lia. change (2 ^ 1) with 2.
        rewrite Nat2Z.inj_succ, Z.pow_succ_r in Ht by lia.
        split; [apply Z.div_pos; lia|]. apply Z.div_lt_upper_bound; lia.
Qed.

Lemma count_loop_popcount x :
  board64 x -> BitBoard.count_loop BitBoard.loop_fuel x 0 = Some (popcount64 x).
Proof.
  intros Hx. unfold BitBoard.loop_fuel. rewrite count_loop_spec by exact Hx.
  reflexivity.
Qed.

Lemma popcount_lor x y :
  Z.land x y = 0 -> popcount64 (Z.lor x y) = popcount64 x + popcount64 y.
Proof.
  intros H. unfold popcount64. rewrite <- sum1_map_add. f_equal.
  apply map_ext. intros i.
  assert (Hi : Z.testbit (Z.land x y) i = false) by (rewrite H; apply Z.bits_0).
  rewrite Z.land_spec in Hi. rewrite Z.lor_spec.
  destruct (Z.testbit x i), (Z.testbit y i); simpl in *;
    try discriminate; reflexivity.
Qed.

Lemma popcount_lt x y k :
  (forall i, 0 <= i < 64 -> Z.testbit x i = true -> Z.testbit y i = true) ->
  0 <= k < 64 -> Z.testbit x k = false -> Z.testbit y k = true ->
  popcount64 x < popcount64 y.
Proof.
  intros Hsub Hk Hx Hy. unfold popcount64.
  apply (sum1_map_lt _ _ _ k).
  - intros i Hi. apply in_range in Hi. specialize (Hsub i Hi).
    destruct (Z.testbit x i); [rewrite Hsub by reflexivity|];
      destruct (Z.testbit y i); simpl; lia.
  - now apply in_range.
  - rewrite Hx, Hy. simpl. lia.
Qed.

Lemma sum1_app l1 l2 : sum1 (l1 ++ l2) = sum1 l1 + sum1 l2.
Proof. induction l1 as [|x l1 IH]; simpl; [reflexivity|]. rewrite IH. lia. Qed.

Lemma sum1_rev l : sum1 (rev l) = sum1 l.
Proof.
  induction l as [|x l IH]; simpl; [reflexivity|].
  rewrite sum1_app, IH. simpl. lia.
Qed.

Lemma sum2_cells (f : Z -> Z) (rs cs : list Z) :
  sum2 (map (fun r => map (fun c => f (bit r c)) cs) rs)
  = sum1 (map f (concat (map (fun r => map (fun c => bit r c) cs) rs))).
Proof.
  induction rs as [|r rs IH]; [reflexivity|].
  change (sum2 (map (fun r => map (fun c => f (bit r c)) cs) (r :: rs)))
    with (sum1 (map (fun c => f (bit r c)) cs)
          + sum2 (map (fun r => map (fun c => f (bit r c)) cs) rs)).
  rewrite IH. cbn [map concat]. rewrite map_app, sum1_app, map_map. reflexivity.
Qed.

Lemma sum2_mask_array x : sum2 (mask_array x) = popcount64 x.
Proof.
  change (mask_array x)
    with (map (fun r => map (fun c => (bitz x) (bit r c)) (range 8)) (range 8)).
  rewrite sum2_cells.
  replace (concat (map (fun r => map (fun c => bit r c) (range 8)) (range 8)))
    with (rev (range 64)) by (vm_compute; reflexivity).
  rewrite map_rev, sum1_rev. unfold popcount64. f_equal. apply map_ext_in.
  intros k Hk. apply in_range in Hk. apply bitz_testbit. lia.
Qed.

Lemma count_coins_masks bs b w p :
  board64 b -> board64 w ->
  BitBoard.count_coins (BitBoard.init bs) [b; w; p]
  = Some (popcount64 b, popcount64 w).
Proof.
  intros Hb Hw. unfold BitBoard.count_coins.
  change (py_index [b; w; p] 0) with (Some b).
  change (py_index [b; w; p] 1) with (Some w).
  cbn [mbind option_bind].
  rewrite (count_loop_popcount b Hb). cbn [mbind option_bind].
  rewrite (count_loop_popcount w Hw). reflexivity.
Qed.

(** X7: [count_coins] of the bitboard engine returns, black first, the
    number of set bits of each of the two masks; both [while] loops end
    within 64 rounds and neither count exceeds 64. *)
Theorem count_coins_popcount bs b w p :
  board64 b -> board64 w ->
  BitBoard.count_coins (BitBoard.init bs) [b; w; p]
  = Some (popcount64 b, popcount64 w)
  /\ 0 <= popcount64 b <= 64 /\ 0 <= popcount64 w <= 64.
Proof.
  intros Hb Hw. split; [now apply count_coins_masks|].
  split; apply popcount_bounds.
Qed.

Lemma count_coins_popcount_start :
  board64 34628173824 /\ board64 68853694464
  /\ BitBoard.count_coins (BitBoard.init 8) start_state
     = Some (popcount64 34628173824, popcount64 68853694464)
  /\ popcount64 34628173824 = 2 /\ popcount64 68853694464 = 2.
Proof.
  assert (Hb : board64 34628173824) by (split; vm_compute; congruence).
  assert (Hw : board64 68853694464) by (split; vm_compute; congruence).
  split; [exact Hb|]. split; [exact Hw|].
  split; [exact (proj1 (count_coins_popcount 8 34628173824 68853694464 1 Hb Hw))|].
  split; vm_compute; reflexivity.
Defined.

(** X8: the two engines count the same discs: [count_coins] of the bitboard
    engine on a valid state returns what [count_coins] of the dense engine
    returns on the converted state. *)
Theorem count_coins_agree conv s d :
  Converter.init 8 = Some conv -> valid_state s ->
  Converter.convert conv (VTuple s) "bitboard" "ndarray3d" = Some (VArray3 d) ->
  BitBoard.count_coins (BitBoard.init 8) s
  = Some (Dense.count_coins (Dense.init 8) d).
Proof.
  intros Hc (b & w & p & -> & Hb & Hw & _ & _) E.
  rewrite converter_init_8 in Hc. injection Hc as <-.
  rewrite convert_bitboard_ndarray3d in E. injection E as <-.
  rewrite (count_coins_masks 8 b w p Hb Hw).
  unfold Dense.count_coins.
  destruct (channel_board_array b w (to_uint8 p)) as [-> ->].
  now rewrite !sum2_mask_array.
Qed.

(** ** What a move does to the bitboards *)

Lemma not_flipped_self own opp r0 c0 : ~ flipped own opp r0 c0 r0 c0.
Proof.
  intros (dr & dc & n & i & Hd & _ & Hi & Hr & Hc).
  apply directions_unit in Hd. destruct Hd as [Hnz Hunit].
  assert (dr = -1 \/ dr = 0 \/ dr = 1) as [ -> | [ -> | -> ] ] by lia;
  assert (dc = -1 \/ dc = 0 \/ dc = 1) as [ -> | [ -> | -> ] ] by lia; lia.
Qed.

(** X1: [_get_next_board] applies a move on an empty cell by the rules: the
    mover gains the cell and exactly the discs that lie on a run from it,
    the other side loses exactly those; the masks stay disjoint and the
    player entry is left as it is. *)
Theorem next_board_turns_runs bs s r0 c0 :
  valid_state s -> inb r0 c0 = true ->
  vacant (mover_board s) (other_board s) r0 c0 ->
  exists s',
    BitBoard._get_next_board (BitBoard.init bs) s (2 ^ bit r0 c0) = Some s'
    /\ valid_state s' /\ player s' = player s
    /\ forall r c, inb r c = true ->
         (cell (mover_board s') r c = true
          <-> cell (mover_board s) r c = true
              \/ (r = r0 /\ c = c0)
              \/ flipped (cell (mover_board s)) (cell (other_board s)) r0 c0 r c)
         /\ (cell (other_board s') r c = true
             <-> cell (other_board s) r c = true
                 /\ ~ flipped (cell (mover_board s)) (cell (other_board s)) r0 c0 r c).
Proof.
  intros Hs Hin Hvac.
  destruct (get_next_board_valid bs s r0 c0 Hs Hin Hvac)
    as (s' & E & Hv' & Ep & Hown & Hopp).
  exists s'. split; [exact E|]. split; [exact Hv'|]. split.
  - rewrite (valid_py_player _ Hs), (valid_py_player _ Hv') in Ep. now injection Ep.
  - intros r c Hrc. split.
    + rewrite (holds_cell _ _ r c Hown). unfold moved_own. tauto.
    + rewrite (holds_cell _ _ r c Hopp). unfold moved_opp. tauto.
Qed.

Lemma next_board_turns_runs_start :
  valid_state start_state /\ inb 3 5 = true
  /\ vacant (mover_board start_state) (other_board start_state) 3 5
  /\ exists s',
       BitBoard._get_next_board (BitBoard.init 8) start_state (2 ^ bit 3 5) = Some s'
       /\ valid_state s' /\ player s' = player start_state
       /\ forall r c, inb r c = true ->
            (cell (mover_board s') r c = true
             <-> cell (mover_board start_state) r c = true
                 \/ (r = 3 /\ c = 5)
                 \/ flipped (cell (mover_board start_state))
                      (cell (other_board start_state)) 3 5 r c)
            /\ (cell (other_board s') r c = true
                <-> cell (other_board start_state) r c = true
                    /\ ~ flipped (cell (mover_board start_state))
                          (cell (other_board start_state)) 3 5 r c).
Proof.
  assert (Hin : inb 3 5 = true) by reflexivity.
  assert (Hvac : vacant (mover_board start_state) (other_board start_state) 3 5)
    by (split; vm_compute; reflexivity).
  split; [exact reset_state_valid|]. split; [exact Hin|]. split; [exact Hvac|].
  exact (next_board_turns_runs 8 start_state 3 5 reset_state_valid Hin Hvac).
Defined.

(** X2: [_get_next_board] does not check its action.  Given the bit of a
    cell that holds a disc of the other side, it returns a state in which
    both masks hold that cell: not a valid state any more. *)
Theorem next_board_unchecked bs s r0 c0 :
  valid_state s -> inb r0 c0 = true ->
  cell (other_board s) r0 c0 = true ->
  exists b' w' p',
    BitBoard._get_next_board (BitBoard.init bs) s (2 ^ bit r0 c0) = Some [b'; w'; p']
    /\ Z.testbit b' (bit r0 c0) = true /\ Z.testbit w' (bit r0 c0) = true
    /\ ~ valid_state [b'; w'; p'].
Proof.
  intros Hs Hin Hopp.
  destruct (valid_state_boards s Hs) as (Hbp & Hbn & Hdisj).
  destruct (valid_state_reads s Hs) as (p & Hp & E2 & Ep & En).
  destruct (get_next_board_boards bs _ _ p s r0 c0 Hbp Hbn Hdisj E2 Ep En Hin)
    as (bp' & bn' & E & Hown & Hoth).
  assert (Hb1 : Z.testbit bp' (bit r0 c0) = true).
  { apply (proj2 Hown r0 c0 Hin). right; right. now split. }
  assert (Hb2 : Z.testbit bn' (bit r0 c0) = true).
  { apply (proj2 Hoth r0 c0 Hin). split; [exact Hopp | apply not_flipped_self]. }
  assert (Hbad : forall x y q, Z.testbit x (bit r0 c0) = true ->
            Z.testbit y (bit r0 c0) = true -> ~ valid_state [x; y; q]).
  { intros x y q Hx Hy (b & w & p0 & Heq & _ & _ & Hland & _).
    injection Heq as -> -> ->.
    assert (H : Z.testbit (Z.land b w) (bit r0 c0) = true)
      by (rewrite Z.land_spec, Hx, Hy; reflexivity).
    rewrite Hland, Z.bits_0 in H. discriminate. }
  destruct (p =? 0).
  - exists bp', bn', p. repeat split; [exact E | exact Hb1 | exact Hb2 | now apply Hbad].
  - exists bn', bp', p. repeat split; [exact E | exact Hb2 | exact Hb1 | now apply Hbad].
Qed.

Lemma next_board_unchecked_start :
  valid_state start_state /\ inb 3 4 = true
  /\ cell (other_board start_state) 3 4 = true
  /\ exists b' w' p',
       BitBoard._get_next_board (BitBoard.init 8) start_state (2 ^ bit 3 4)
       = Some [b'; w'; p']
       /\ Z.testbit b' (bit 3 4) = true /\ Z.testbit w' (bit 3 4) = true
       /\ ~ valid_state [b'; w'; p'].
Proof.
  assert (Hin : inb 3 4 = true) by reflexivity.
  assert (Hopp : cell (other_board start_state) 3 4 = true) by (vm_compute; reflexivity).
  split; [exact reset_state_valid|]. split; [exact Hin|]. split; [exact Hopp|].
  exact (next_board_unchecked 8 start_state 3 4 reset_state_valid Hin Hopp).
Defined.

(** A step on a legal cell, with the board [_get_next_board] returns. *)
Lemma step_post bs s m a :
  valid_state s ->
  BitBoard._legal_moves_helper (BitBoard.init bs) s = Some m ->
  legal_action m a ->
  exists r0 c0 post q m' done,
    inb r0 c0 = true /\ a = 2 ^ bit r0 c0
    /\ legal_cell (mover_board s) (other_board s) r0 c0
    /\ BitBoard._get_next_board (BitBoard.init bs) s a = Some post
    /\ valid_state post /\ player post = player s
    /\ holds (mover_board post) (moved_own (mover_board s) (other_board s) r0 c0)
    /\ holds (other_board post) (moved_opp (mover_board s) (other_board s) r0 c0)
    /\ (q = 0 \/ q = 1)
    /\ BitBoard.step (BitBoard.init bs) s a = Some (set_player post q, m', q, done).
Proof.
  intros Hs Em (r0 & c0 & Hin & -> & Hbit).
  destruct (legal_moves_helper_valid bs s Hs) as (m0 & Em0 & Hm).
  rewrite Em in Em0. injection Em0 as <-.
  apply (proj2 Hm r0 c0 Hin) in Hbit. pose proof Hbit as [Hvac _].
  destruct (get_next_board_valid bs s r0 c0 Hs Hin Hvac)
    as (post & Enext & Hvpost & _ & Hown & Hopp).
  destruct (step_spec bs s r0 c0 Hs Hin Hvac)
    as (post' & m1 & Enext' & _ & Hpl & E1 & Hcases).
  rewrite Enext in Enext'. injection Enext' as <-.
  pose proof (valid_player s Hs) as Hp.
  assert (Hq : opponent (player s) = 0 \/ opponent (player s) = 1)
    by (rewrite opponent_cases by assumption; lia).
  exists r0, c0, post.
  assert (Hfin : forall q m' done,
            (q = 0 \/ q = 1) ->
            BitBoard.step (BitBoard.init bs) s (2 ^ bit r0 c0)
            = Some (set_player post q, m', q, done) ->
            inb r0 c0 = true /\ 2 ^ bit r0 c0 = 2 ^ bit r0 c0
            /\ legal_cell (mover_board s) (other_board s) r0 c0
            /\ BitBoard._get_next_board (BitBoard.init bs) s (2 ^ bit r0 c0) = Some post
            /\ valid_state post /\ player post = player s
            /\ holds (mover_board post) (moved_own (mover_board s) (other_board s) r0 c0)
            /\ holds (other_board post) (moved_opp (mover_board s) (other_board s) r0 c0)
            /\ (q = 0 \/ q = 1)
            /\ BitBoard.step (BitBoard.init bs) s (2 ^ bit r0 c0)
               = Some (set_player post q, m', q, done)) by tauto.
  destruct Hcases as [(Hm1 & E)|[(Hm1 & _ & E)|(Hm1 & _ & m2 & E2 & E)]].
  - exists (opponent (player s)), m1, 0. now apply Hfin.
  - exists (opponent (player s)), m1, 1. subst m1. now apply Hfin.
  - exists (player s), m2, (if m2 =? 0 then 1 else 0). now apply Hfin.
Qed.

(** X9: a legal move adds one disc to the board and turns over at least
    one: by [count_coins] before and after a [step] on a legal cell, the
    total grows by exactly one, the mover gains at least two discs and the
    other side loses at least one. *)
Theorem legal_move_turns_discs bs s m a :
  valid_state s ->
  BitBoard._legal_moves_helper (BitBoard.init bs) s = Some m ->
  legal_action m a ->
  exists s' m' p' done b w b' w',
    BitBoard.step (BitBoard.init bs) s a = Some (s', m', p', done)
    /\ BitBoard.count_coins (BitBoard.init bs) s = Some (b, w)
    /\ BitBoard.count_coins (BitBoard.init bs) s' = Some (b', w')
    /\ b' + w' = b + w + 1
    /\ (player s = 0 -> b + 2 <= b' /\ w' < w)
    /\ (player s = 1 -> w + 2 <= w' /\ b' < b).
Proof.
  intros Hs Em Ha.
  destruct (step_post bs s m a Hs Em Ha)
    as (r0 & c0 & post & q & m' & done & Hin & -> & Hleg & Enext & Hvpost & Hpl
        & Hown & Hopp & Hq & Estep).
  pose proof (moved_occupied s r0 c0 post Hs Hin Hvpost Hown Hopp) as Hocc.
  destruct Hleg as [[V1 V2] Hcap].
  pose proof (bit_range r0 c0 Hin) as Hk.
  rewrite cell_inb in V1, V2 by assumption.
  destruct (valid_state_boards s Hs) as (Hbp & Hbn & Hdisj).
  destruct (valid_state_boards post Hvpost) as (Hbp' & Hbn' & Hdisj').
  (* the totals *)
  assert (Htot : popcount64 (mover_board post) + popcount64 (other_board post)
                 = popcount64 (mover_board s) + popcount64 (other_board s) + 1).
  { rewrite <- !popcount_lor by assumption.
    rewrite <- (proj2 (proj2 (proj2 (proj2 (set_player_boards s Hs))))).
    rewrite <- (proj2 (proj2 (proj2 (proj2 (set_player_boards post Hvpost))))).
    rewrite Hocc. apply popcount_add; [assumption|].
    rewrite (proj2 (proj2 (proj2 (proj2 (set_player_boards s Hs))))).
    now rewrite Z.lor_spec, V1, V2. }
  (* the other side loses a disc *)
  assert (Hless : popcount64 (other_board post) < popcount64 (other_board s)).
  { destruct Hcap as (dr & dc & n & Hd & Hn & Hrun & Hend).
    pose proof (Hrun 1 ltac:(lia)) as H1.
    apply cell_true in H1. destruct H1 as [Hin1 Hbit1].
    apply (popcount_lt _ _ (bit (r0 + 1 * dr) (c0 + 1 * dc))).
    - intros i Hi Hx. destruct (bit_surj i Hi) as (r & c & Hrc & <-).
      apply (proj2 Hopp r c Hrc) in Hx. destruct Hx as [Hx _].
      now rewrite cell_inb in Hx.
    - now apply bit_range.
    - destruct (Z.testbit (other_board post) (bit (r0 + 1 * dr) (c0 + 1 * dc))) eqn:E;
        [|reflexivity].
      apply (proj2 Hopp _ _ Hin1) in E. destruct E as [_ Hnf]. exfalso. apply Hnf.
      exists dr, dc, n, 1. repeat split; try assumption; lia.
    - exact Hbit1. }
  (* in terms of black and white *)
  destruct Hs as (b & w & p & -> & Hb & Hw & Hbw & Hp).
  destruct Hvpost as (b' & w' & p' & -> & Hb' & Hw' & Hbw' & Hp').
  cbn [player] in Hpl. subst p'.
  exists (set_player [b'; w'; p] q), m', q, done, (popcount64 b), (popcount64 w),
    (popcount64 b'), (popcount64 w').
  split; [exact Estep|].
  split; [exact (count_coins_masks bs b w p Hb Hw)|].
  split; [exact (count_coins_masks bs b' w' q Hb' Hw')|].
  cbn [mover_board other_board player] in *.
  destruct Hp as [ -> | -> ]; cbn [Z.eqb] in *; (split; [lia|]); split; intros; lia.
Qed.

Lemma legal_move_turns_discs_start :
  valid_state start_state
  /\ BitBoard._legal_moves_helper (BitBoard.init 8) start_state = Some start_moves
  /\ legal_action start_moves 17179869184
  /\ exists s' m' p' done b w b' w',
       BitBoard.step (BitBoard.init 8) start_state 17179869184
       = Some (s', m', p', done)
       /\ BitBoard.count_coins (BitBoard.init 8) start_state = Some (b, w)
       /\ BitBoard.count_coins (BitBoard.init 8) s' = Some (b', w')
       /\ b' + w' = b + w + 1
       /\ (player start_state = 0 -> b + 2 <= b' /\ w' < w)
       /\ (player start_state = 1 -> w + 2 <= w' /\ b' < b).
Proof.
  assert (Hm : BitBoard._legal_moves_helper (BitBoard.init 8) start_state
               = Some start_moves) by (vm_compute; reflexivity).
  split; [exact reset_state_valid|]. split; [exact Hm|].
  split; [exact start_action_legal|].
  exact (legal_move_turns_discs 8 start_state start_moves 17179869184
           reset_state_valid Hm start_action_legal).
Defined.

(** X6: [step] reports the end of the game exactly when neither side has a
    legal move on the board after the move; when it reports [done = 0] the
    player it returns has one. *)
Theorem game_over_iff bs s m a :
  valid_state s ->
  BitBoard._legal_moves_helper (BitBoard.init bs) s = Some m ->
  legal_action m a ->
  exists post s' m' p' done,
    BitBoard._get_next_board (BitBoard.init bs) s a = Some post
    /\ BitBoard.step (BitBoard.init bs) s a = Some (s', m', p', done)
    /\ (done = 0 \/ done = 1)
    /\ (done = 1 <-> ~ can_move (set_player post 0) /\ ~ can_move (set_player post 1))
    /\ (done = 0 -> player s' = p' /\ can_move s')
    /\ (done = 1 -> m' = 0).
Proof.
  intros Hs Em (r0 & c0 & Hin & -> & Hbit).
  destruct (legal_moves_helper_valid bs s Hs) as (m0 & Em0 & Hm).
  rewrite Em in Em0. injection Em0 as <-.
  apply (proj2 Hm r0 c0 Hin) in Hbit. destruct Hbit as [Hvac _].
  destruct (step_spec bs s r0 c0 Hs Hin Hvac)
    as (post & m1 & Enext & Hvpost & Hpl & E1 & Hcases).
  pose proof (valid_player s Hs) as Hp.
  assert (Hq : opponent (player s) = 0 \/ opponent (player s) = 1)
    by (rewrite opponent_cases by assumption; lia).
  pose proof (valid_set_player post _ Hvpost Hq) as Hv1.
  pose proof (valid_set_player post _ Hvpost Hp) as Hv2.
  destruct (can_move_iff bs _ m1 Hv1 E1) as [_ Hc1].
  assert (Hsides : forall P : list Z -> Prop,
            (P (set_player post 0) /\ P (set_player post 1))
            <-> (P (set_player post (opponent (player s)))
                 /\ P (set_player post (player s)))).
  { intros P. destruct Hp as [ -> | -> ]; cbn; tauto. }
  assert (Hpl' : forall q, valid_state (set_player post q) ->
            player (set_player post q) = q).
  { intros q (b & w & p0 & Heq & _). destruct Hvpost as (b' & w' & p' & -> & _).
    cbn in Heq. injection Heq as <- <- <-. reflexivity. }
  exists post.
  destruct Hcases as [(Hm1 & E)|[(Hm1 & Hfull & E)|(Hm1 & Hnfull & m2 & E2 & E)]].
  - exists (set_player post (opponent (player s))), m1, (opponent (player s)), 0.
    split; [exact Enext|]. split; [exact E|]. split; [now left|].
    split; [|split; [|discriminate]].
    + rewrite (Hsides (fun x => ~ can_move x)). split; [discriminate|].
      intros [H _]. exfalso. apply H, Hc1, Hm1.
    + intros _. split; [now apply Hpl'|]. now apply Hc1.
  - exists (set_player post (opponent (player s))), 0, (opponent (player s)), 1.
    split; [exact Enext|]. split; [exact E|]. split; [now right|].
    split; [|split; [discriminate|reflexivity]].
    split; [intros _|reflexivity].
    apply board_full_iff in Hfull; [|assumption].
    assert (Hno : forall q, q = 0 \/ q = 1 -> ~ can_move (set_player post q)).
    { intros q Hq' (r & c & Hrc & [Hv _]).
      apply (proj2 (board_full_set_player post q Hvpost Hq')) in Hfull.
      exact (Hfull r c Hrc Hv). }
    split; apply Hno; [now left | now right].
  - destruct (can_move_iff bs _ m2 Hv2 E2) as [_ Hc2].
    exists (set_player post (player s)), m2, (player s), (if m2 =? 0 then 1 else 0).
    split; [exact Enext|]. split; [exact E|].
    rewrite (Hsides (fun x => ~ can_move x)).
    destruct (Z.eqb_spec m2 0) as [Hz|Hz].
    + split; [now right|]. split; [|split; [discriminate|intros _; exact Hz]].
      split; [intros _|reflexivity]. split; intros H.
      * apply Hc1 in H. contradiction.
      * apply Hc2 in H. contradiction.
    + split; [now left|]. split; [|split; [|discriminate]].
      * split; [discriminate|]. intros [_ H]. exfalso. apply H, Hc2, Hz.
      * intros _. split; [now apply Hpl'|]. now apply Hc2.
Qed.

Lemma game_over_iff_start :
  valid_state start_state
  /\ BitBoard._legal_moves_helper (BitBoard.init 8) start_state = Some start_moves
  /\ legal_action start_moves 17179869184
  /\ exists post s' m' p' done,
       BitBoard._get_next_board (BitBoard.init 8) start_state 17179869184 = Some post
       /\ BitBoard.step (BitBoard.init 8) start_state 17179869184
          = Some (s', m', p', done)
       /\ (done = 0 \/ done = 1)
       /\ (done = 1 <-> ~ can_move (set_player post 0) /\ ~ can_move (set_player post 1))
       /\ (done = 0 -> player s' = p' /\ can_move s')
       /\ (done = 1 -> m' = 0).
Proof.
  assert (Hm : BitBoard._legal_moves_helper (BitBoard.init 8) start_state
               = Some start_moves) by (vm_compute; reflexivity).
  split; [exact reset_state_valid|]. split; [exact Hm|].
  split; [exact start_action_legal|].
  exact (game_over_iff 8 start_state start_moves 17179869184
           reset_state_valid Hm start_action_legal).
Defined.

(** ** What a move does to the dense board *)

(** X3: [_legal_moves_helper] with [play=True] applies a move on an empty
    cell by the rules: the mover's channel gains the cell and exactly the
    discs on a run from it, the other channel loses exactly those, and the
    player channel is left alone.  The mask it returns is not all zeros:
    it marks the played cell when the move is legal. *)
Theorem dense_move_turns_runs self d r0 c0 :
  valid_dense (Dense._size self) d ->
  0 <= r0 < Dense._size self -> 0 <= c0 < Dense._size self ->
  dvacant d r0 c0 ->
  let cur := at3 d 0 0 2 in
  let oppc := 1 - at3 d 0 0 2 in
  exists lm d',
    Dense._legal_moves_helper self d (Some r0) (Some c0) true = Some (lm, d')
    /\ shape2 (Dense._size self) (Dense._size self) lm
    /\ shape3 (Dense._size self) (Dense._size self) d'
    /\ forall r c, 0 <= r < Dense._size self -> 0 <= c < Dense._size self ->
         at3 d' r c 2 = at3 d r c 2
         /\ (at3 d' r c cur = 1
             <-> at3 d r c cur = 1 \/ (r = r0 /\ c = c0)
                 \/ flipped (dcell self d cur) (dcell self d oppc) r0 c0 r c)
         /\ (at3 d' r c oppc = 1
             <-> at3 d r c oppc = 1
                 /\ ~ flipped (dcell self d cur) (dcell self d oppc) r0 c0 r c)
         /\ bit01 (at3 d' r c cur) /\ bit01 (at3 d' r c oppc)
         /\ (at2 lm r c = 1 <-> r = r0 /\ c = c0 /\ dlegal self d cur oppc r0 c0).
Proof.
  intros Hvalid Hr0 Hc0 Hvac cur oppc.
  destruct (helper_channels self d Hvalid) as (Hcur & Eget & Eopp).
  pose proof Hvalid as (HN & Hshape & _ & Hcells).
  unfold Dense._legal_moves_helper. rewrite Eget. cbn [mbind option_bind].
  rewrite Eopp. cbn [for_each].
  destruct (cell_body_spec self d Hvalid _ _ Hcur r0 c0 Hr0 Hc0
              true _ d (zeros2_shape (Dense._size self) ltac:(lia)) Hshape)
    as (lm & d' & E & Hlm & Hs' & Hmask & _ & _ & Hpt).
  rewrite E. cbn [mbind option_bind].
  exists lm, d'. split; [reflexivity|]. split; [assumption|]. split; [assumption|].
  intros r c Hr Hc.
  destruct (Hpt eq_refl Hvac r c Hr Hc) as (A2 & Ac & Ao & Bc & Bo).
  destruct (Hcells r c Hr Hc) as (_ & Hb & Hw & _).
  destruct (Hmask r c Hr Hc) as [Hm _]. rewrite zeros2_at in Hm.
  split; [assumption|]. split; [exact Ac|]. split; [exact Ao|].
  subst cur oppc.
  split; [apply Bc; destruct Hcur as [[E1 E2]|[E1 E2]]; rewrite E1; assumption|].
  split; [apply Bo; destruct Hcur as [[E1 E2]|[E1 E2]]; rewrite E2; assumption|].
  rewrite Hm. split.
  - intros [H|(-> & -> & H)]; [discriminate|]. tauto.
  - intros (-> & -> & H). right. tauto.
Qed.

Lemma start_dense_vacant : dvacant start_dense 3 5.
Proof. split; vm_compute; reflexivity. Qed.

Lemma dense_move_turns_runs_start :
  valid_dense (Dense._size (Dense.init 8)) start_dense
  /\ 0 <= 3 < Dense._size (Dense.init 8) /\ 0 <= 5 < Dense._size (Dense.init 8)
  /\ dvacant start_dense 3 5
  /\ exists lm d',
       Dense._legal_moves_helper (Dense.init 8) start_dense (Some 3) (Some 5) true
       = Some (lm, d')
       /\ shape2 8 8 lm /\ shape3 8 8 d'
       /\ forall r c, 0 <= r < 8 -> 0 <= c < 8 ->
            at3 d' r c 2 = at3 start_dense r c 2
            /\ (at3 d' r c (at3 start_dense 0 0 2) = 1
                <-> at3 start_dense r c (at3 start_dense 0 0 2) = 1
                    \/ (r = 3 /\ c = 5)
                    \/ flipped (dcell (Dense.init 8) start_dense (at3 start_dense 0 0 2))
                         (dcell (Dense.init 8) start_dense (1 - at3 start_dense 0 0 2))
                         3 5 r c)
            /\ (at3 d' r c (1 - at3 start_dense 0 0 2) = 1
                <-> at3 start_dense r c (1 - at3 start_dense 0 0 2) = 1
                    /\ ~ flipped (dcell (Dense.init 8) start_dense (at3 start_dense 0 0 2))
                          (dcell (Dense.init 8) start_dense (1 - at3 start_dense 0 0 2))
                          3 5 r c)
            /\ bit01 (at3 d' r c (at3 start_dense 0 0 2))
            /\ bit01 (at3 d' r c (1 - at3 start_dense 0 0 2))
            /\ (at2 lm r c = 1
                <-> r = 3 /\ c = 5
                    /\ dlegal (Dense.init 8) start_dense (at3 start_dense 0 0 2)
                         (1 - at3 start_dense 0 0 2) 3 5).
Proof.
  assert (Hr : 0 <= 3 < Dense._size (Dense.init 8)) by (simpl; lia).
  assert (Hc : 0 <= 5 < Dense._size (Dense.init 8)) by (simpl; lia).
  split; [exact start_dense_valid|]. split; [exact Hr|]. split; [exact Hc|].
  split; [exact start_dense_vacant|].
  exact (dense_move_turns_runs (Dense.init 8) start_dense 3 5
           start_dense_valid Hr Hc start_dense_vacant).
Defined.

Lemma fill_player_valid n d q :
  valid_dense n d -> bit01 q ->
  valid_dense n (fill_channel d 2 q)
  /\ get3 (fill_channel d 2 q) 0 0 2 = Some q.
Proof.
  intros (HN & Hshape & Hp & Hcells) Hq.
  destruct (fill_channel_spec n n d q Hshape) as [Hsh Hat].
  split.
  - split; [assumption|]. split; [assumption|].
    split; [rewrite Hat by lia; assumption|].
    intros r c Hr Hc. rewrite !Hat by lia.
    destruct (decide (2 = 2)) as [_|]; [|lia].
    destruct (decide (0 = 2)) as [|_]; [lia|].
    destruct (decide (1 = 2)) as [|_]; [lia|].
    split; [reflexivity|]. destruct (Hcells r c Hr Hc) as (_ & Hb & Hw & Hsum).
    tauto.
  - rewrite (get3_at3 n n _ 0 0 2 Hsh) by lia. now rewrite Hat by lia.
Qed.

(** X4: the dense engine does not reject a move on an occupied cell.
    [_legal_moves_helper] with [play=True] returns the board as it was with
    an all-zero mask, and [step] goes on to resolve the turn.  Whenever
    [step] returns, it returns the same discs, with the player channel set
    to the player it returns.  With white to move it does return, and the
    player is 0 or 1; with black to move it raises when the scan looks
    behind a black disc. *)
Theorem dense_occupied_cell_passes self d r0 c0 :
  valid_dense (Dense._size self) d ->
  0 <= r0 < Dense._size self -> 0 <= c0 < Dense._size self ->
  ~ dvacant d r0 c0 ->
  Dense._legal_moves_helper self d (Some r0) (Some c0) true
  = Some (zeros2 (Z.to_nat (Dense._size self)) (Z.to_nat (Dense._size self)), d)
  /\ (forall d' lm' p' done,
        Dense.step self d (r0 * Dense._size self + c0) = Some (d', lm', p', done) ->
        d' = fill_channel d 2 p')
  /\ (at3 d 0 0 2 = 1 ->
      exists lm' p' done,
        Dense.step self d (r0 * Dense._size self + c0)
        = Some (fill_channel d 2 p', lm', p', done)
        /\ (p' = 0 \/ p' = 1))
  /\ (at3 d 0 0 2 = 0 -> looks_behind self d 0 ->
      Dense.step self d (r0 * Dense._size self + c0) = None).
Proof.
  intros Hvalid Hr0 Hc0 Hocc.
  destruct (helper_channels self d Hvalid) as (Hcur & Eget & Eopp).
  pose proof Hvalid as (HN & Hshape & Hp & Hcells).
  set (N := Dense._size self) in *.
  assert (Eplay : Dense._legal_moves_helper self d (Some r0) (Some c0) true
                  = Some (zeros2 (Z.to_nat N) (Z.to_nat N), d)).
  { unfold Dense._legal_moves_helper. rewrite Eget. cbn [mbind option_bind].
    rewrite Eopp. cbn [for_each]. fold N.
    pose proof (zeros2_shape N ltac:(lia)) as Hz.
    destruct (cell_body_spec self d Hvalid _ _ Hcur r0 c0 Hr0 Hc0 true _ d Hz Hshape)
      as (lm & d' & E & Hlm & _ & Hmask & _ & Hsame & _).
    fold N in E. rewrite E. cbn [mbind option_bind].
    rewrite (Hsame eq_refl Hocc). do 2 f_equal.
    apply (ext2 N N); [assumption | assumption |].
    intros r c Hr Hc. destruct (Hmask r c Hr Hc) as [Hm Hb].
    rewrite zeros2_at in *. destruct (Hb (or_introl eq_refl)) as [H0|H1]; [exact H0|].
    apply Hm in H1. destruct H1 as [H1|(-> & -> & [Hv _])]; [discriminate|contradiction]. }
  split; [exact Eplay|].
  destruct (div_mod_cell N r0 c0 ltac:(lia) Hc0) as [Ediv Emod].
  assert (Eplay' : Dense._legal_moves_helper self d
                     (Some ((r0 * N + c0) / N)) (Some ((r0 * N + c0) mod N)) true
                   = Some (zeros2 (Z.to_nat N) (Z.to_nat N), d))
    by (rewrite Ediv, Emod; exact Eplay).
  (* white to move *)
  assert (Hw : at3 d 0 0 2 = 1 ->
          exists lm' p' done,
            Dense.step self d (r0 * N + c0) = Some (fill_channel d 2 p', lm', p', done)
            /\ (p' = 0 \/ p' = 1)).
  { intros Hwhite.
    destruct (fill_player_valid N d 0 Hvalid ltac:(now left)) as [Hv1 Eg1].
    destruct (fill_player_valid N d 1 Hvalid ltac:(now right)) as [Hv2 Eg2].
    destruct (helper_scan_spec self _ Hv1 None None) as (lm1 & E1 & _).
    destruct (helper_scan_spec self _ Hv2 None None) as (lm2 & E2 & _).
    unfold Dense.step. fold N.
    destruct (Z.eqb_spec N 0) as [|_]; [lia|].
    rewrite Eplay'. cbn [mbind option_bind].
    rewrite Eget, Hwhite. cbn [mbind option_bind].
    change (to_uint8 (Z.abs (to_uint8 (1 - 1)))) with 0. rewrite E1.
    cbn [mbind option_bind].
    destruct (Z.eqb_spec (sum2 lm1) 0) as [Hz|Hnz].
    - destruct (Z.eqb_spec (Dense.sum_coins (fill_channel d 2 0)) (N ^ 2))
        as [Hfull|Hnfull].
      + rewrite Eg1. cbn [mbind option_bind]. exists lm1, 0, 1.
        split; [reflexivity | now left].
      + rewrite fill_channel_twice, E2. cbn [mbind option_bind].
        rewrite Eg2. cbn [mbind option_bind].
        exists lm2, 1, (if sum2 lm2 =? 0 then 1 else 0).
        split; [destruct (sum2 lm2 =? 0); reflexivity | now right].
    - rewrite Eg1. cbn [mbind option_bind]. exists lm1, 0, 0.
      split; [reflexivity | now left]. }
  split; [|split; [exact Hw|]].
  - intros d' lm' p' done Hstep. destruct Hp as [Hblack|Hwhite].
    + destruct (dense_step_black self d (r0 * N + c0) _ d Hvalid Hblack Eplay'
                  (valid_dense_discs _ _ Hvalid))
        as [[_ E]|[(_ & _ & E)|(_ & _ & lm2 & _ & E)]];
        fold N in E; rewrite Hstep in E; [discriminate| |];
        injection E as -> -> -> ->; reflexivity.
    + destruct (Hw Hwhite) as (lm1 & p1 & done1 & E & _).
      rewrite Hstep in E. now injection E as -> -> -> ->.
  - intros Hblack Hlooks.
    destruct (dense_step_black self d (r0 * N + c0) _ d Hvalid Hblack Eplay'
                (valid_dense_discs _ _ Hvalid))
      as [[_ E]|[(Hn & _)|(Hn & _)]]; [exact E | contradiction..].
Qed.

Lemma start_dense_occupied : ~ dvacant start_dense 3 3.
Proof. intros [_ H]. vm_compute in H. discriminate. Qed.

Lemma dense_occupied_cell_passes_start :
  valid_dense (Dense._size (Dense.init 8)) start_dense
  /\ 0 <= 3 < Dense._size (Dense.init 8)
  /\ ~ dvacant start_dense 3 3
  /\ Dense._legal_moves_helper (Dense.init 8) start_dense (Some 3) (Some 3) true
     = Some (zeros2 8 8, start_dense)
  /\ (forall d' lm' p' done,
        Dense.step (Dense.init 8) start_dense (3 * 8 + 3) = Some (d', lm', p', done) ->
        d' = fill_channel start_dense 2 p')
  /\ (at3 start_dense 0 0 2 = 1 ->
      exists lm' p' done,
        Dense.step (Dense.init 8) start_dense (3 * 8 + 3)
        = Some (fill_channel start_dense 2 p', lm', p', done)
        /\ (p' = 0 \/ p' = 1))
  /\ (at3 start_dense 0 0 2 = 0 -> looks_behind (Dense.init 8) start_dense 0 ->
      Dense.step (Dense.init 8) start_dense (3 * 8 + 3) = None).
Proof.
  assert (Hr : 0 <= 3 < Dense._size (Dense.init 8)) by (simpl; lia).
  split; [exact start_dense_valid|]. split; [exact Hr|].
  split; [exact start_dense_occupied|].
  exact (dense_occupied_cell_passes (Dense.init 8) start_dense 3 3
           start_dense_valid Hr Hr start_dense_occupied).
Defined.

(** X5: [step] of the dense engine raises [IndexError] on an action that
    is no cell index: one that is [_size ** 2] or more, or below
    [- _size ** 2]. *)
Theorem dense_step_out_of_range self d a :
  valid_dense (Dense._size self) d ->
  Dense._size self ^ 2 <= a \/ a < - Dense._size self ^ 2 ->
  Dense.step self d a = None.
Proof.
  intros Hvalid Ha.
  destruct (helper_channels self d Hvalid) as (Hcur & Eget & Eopp).
  pose proof Hvalid as (HN & [Hlen _] & _).
  set (N := Dense._size self) in *.
  assert (Hrow : N <= a / N \/ a / N < - N).
  { destruct Ha as [Ha|Ha]; [left|right].
    - apply Z.div_le_lower_bound; lia.
    - apply Z.div_lt_upper_bound; lia. }
  assert (Eplay : Dense._legal_moves_helper self d (Some (a / N)) (Some (a mod N)) true
                  = None).
  { unfold Dense._legal_moves_helper. rewrite Eget. cbn [mbind option_bind for_each].
    unfold Dense.cell_body, get3. rewrite py_index_out by lia. reflexivity. }
  unfold Dense.step. fold N. destruct (Z.eqb_spec N 0) as [|_]; [lia|].
  rewrite Eplay. reflexivity.
Qed.

Lemma dense_step_out_of_range_start :
  valid_dense (Dense._size (Dense.init 8)) start_dense
  /\ (Dense._size (Dense.init 8) ^ 2 <= 64 \/ 64 < - Dense._size (Dense.init 8) ^ 2)
  /\ Dense.step (Dense.init 8) start_dense 64 = None.
Proof.
  assert (Ha : Dense._size (Dense.init 8) ^ 2 <= 64
               \/ 64 < - Dense._size (Dense.init 8) ^ 2) by (left; simpl; lia).
  split; [exact start_dense_valid|]. split; [exact Ha|].
  exact (dense_step_out_of_range (Dense.init 8) start_dense 64 start_dense_valid Ha).
Defined.

(** X10: for every size from 2 on, [reset] of the dense engine returns the
    standard opening: white on [(h, h)] and [(h+1, h+1)], black on
    [(h, h+1)] and [(h+1, h)] for [h = _size // 2 - 1], every other cell
    empty, white (player 1) to move everywhere on the player channel, and
    with it the legal moves of that position. *)
Theorem dense_reset_layout self :
  2 <= Dense._size self ->
  let h := Dense._size self / 2 - 1 in
  exists d lm,
    Dense.reset self = Some (d, lm, 1)
    /\ valid_dense (Dense._size self) d
    /\ Dense._legal_moves_helper self d None None false = Some (lm, d)
    /\ forall r c, 0 <= r < Dense._size self -> 0 <= c < Dense._size self ->
         at3 d r c 2 = 1
         /\ (at3 d r c 1 = 1 <-> (r = h /\ c = h) \/ (r = h + 1 /\ c = h + 1))
         /\ (at3 d r c 0 = 1 <-> (r = h /\ c = h + 1) \/ (r = h + 1 /\ c = h)).
Proof.
  intros HN h. unfold Dense.reset.
  destruct (Z.ltb_spec (Dense._size self) 0) as [|_]; [lia|].
  set (N := Dense._size self) in *. fold h.
  assert (Hh : 0 <= h /\ h + 1 < N).
  { unfold h. pose proof (Z.div_le_lower_bound N 2 1 ltac:(lia) ltac:(lia)).
    pose proof (Z.div_lt N 2 ltac:(lia) ltac:(lia)). lia. }
  clearbody h.
  pose proof (zeros3_shape N ltac:(lia)) as Hs0.
  destruct (set3_spec N N _ h h 1 1 Hs0 ltac:(lia) ltac:(lia) ltac:(lia))
    as (s1 & -> & Hs1 & A1). cbn [mbind option_bind].
  destruct (set3_spec N N s1 (h + 1) (h + 1) 1 1 Hs1 ltac:(lia) ltac:(lia) ltac:(lia))
    as (s2 & -> & Hs2 & A2). cbn [mbind option_bind].
  destruct (set3_spec N N s2 h (h + 1) 0 1 Hs2 ltac:(lia) ltac:(lia) ltac:(lia))
    as (s3 & -> & Hs3 & A3). cbn [mbind option_bind].
  destruct (set3_spec N N s3 (h + 1) h 0 1 Hs3 ltac:(lia) ltac:(lia) ltac:(lia))
    as (s4 & -> & Hs4 & A4). cbn [mbind option_bind].
  destruct (fill_channel_spec N N s4 1 Hs4) as [Hs5 A5].
  assert (Hcells : forall r c, 0 <= r < N -> 0 <= c < N ->
            at3 (fill_channel s4 2 1) r c 2 = 1
            /\ (at3 (fill_channel s4 2 1) r c 1 = 1
                <-> (r = h /\ c = h) \/ (r = h + 1 /\ c = h + 1))
            /\ (at3 (fill_channel s4 2 1) r c 0 = 1
                <-> (r = h /\ c = h + 1) \/ (r = h + 1 /\ c = h))
            /\ bit01 (at3 (fill_channel s4 2 1) r c 0)
            /\ bit01 (at3 (fill_channel s4 2 1) r c 1)
            /\ at3 (fill_channel s4 2 1) r c 0 + at3 (fill_channel s4 2 1) r c 1 <= 1).
  { intros r c Hr Hc. rewrite !A5 by lia.
    destruct (decide (2 = 2)) as [_|]; [|lia].
    destruct (decide (0 = 2)) as [|_]; [lia|].
    destruct (decide (1 = 2)) as [|_]; [lia|].
    rewrite !A4, !A3, !A2, !A1, !zeros3_at by lia. unfold bit01.
    repeat match goal with |- context [decide ?P] => destruct (decide P) end;
      lia. }
  assert (Hvalid : valid_dense N (fill_channel s4 2 1)).
  { split; [lia|]. split; [assumption|].
    split; [rewrite A5 by lia; now right|].
    intros r c Hr Hc. destruct (Hcells r c Hr Hc) as (H2 & _ & _ & B0 & B1 & Hsum).
    rewrite H2, A5 by lia. tauto. }
  destruct (helper_scan_spec self _ Hvalid None None) as (lm & E & _).
  rewrite E. cbn [mbind option_bind]. exists (fill_channel s4 2 1), lm.
  split; [reflexivity|]. split; [exact Hvalid|]. split; [exact E|].
  intros r c Hr Hc. destruct (Hcells r c Hr Hc) as (H2 & H1 & H0 & _). tauto.
Qed.

Lemma dense_reset_layout_8 :
  2 <= Dense._size (Dense.init 8)
  /\ exists d lm,
       Dense.reset (Dense.init 8) = Some (d, lm, 1)
       /\ valid_dense 8 d
       /\ Dense._legal_moves_helper (Dense.init 8) d None None false = Some (lm, d)
       /\ forall r c, 0 <= r < 8 -> 0 <= c < 8 ->
            at3 d r c 2 = 1
            /\ (at3 d r c 1 = 1 <-> (r = 3 /\ c = 3) \/ (r = 3 + 1 /\ c = 3 + 1))
            /\ (at3 d r c 0 = 1 <-> (r = 3 /\ c = 3 + 1) \/ (r = 3 + 1 /\ c = 3)).
Proof.
  assert (HN : 2 <= Dense._size (Dense.init 8)) by (simpl; lia).
  split; [exact HN|]. exact (dense_reset_layout (Dense.init 8) HN).
Defined.

(** X11: a size that is not positive is accepted by the constructor of the
    dense engine, and the error shows at [reset], which raises. *)
Theorem dense_reset_needs_positive_size board_size :
  board_size <= 0 ->
  exists env, Dense.construct board_size = Some env /\ Dense.reset env = None.
Proof.
  intros Hneg. eexists. split; [reflexivity|].
  unfold Dense.reset, Dense.init. cbn [Dense._size].
  set (N := if board_size mod 2 =? 0 then board_size else board_size + 1).
  assert (HN : N <= 0).
  { unfold N. destruct (Z.eqb_spec (board_size mod 2) 0) as [E|E]; [lia|].
    assert (board_size <> 0) by (intros ->; apply E; reflexivity). lia. }
  destruct (Z.ltb_spec N 0) as [|Hge]; [reflexivity|].
  assert (N = 0) as -> by lia. reflexivity.
Qed.

Lemma dense_reset_needs_positive_size_0 :
  0 <= 0
  /\ exists env, Dense.construct 0 = Some env /\ Dense.reset env = None.
Proof.
  assert (H : 0 <= 0) by lia.
  split; [exact H|]. exact (dense_reset_needs_positive_size 0 H).
Defined.

(** ** The converter outside the valid 8x8 states *)

Lemma doubling_overflow (l : list Z) : forall (flat : list Z) k,
  0 <= k <= 64 -> 65 <= k + Z.of_nat (length l) ->
  for_each l
    (fun i '(flat, x) =>
       if x <? 2 ^ 64 then flat ← py_setitem flat i x; Some (flat, x * 2) else None)
    (flat, 2 ^ k) = None.
Proof.
  induction l as [|i l IH]; intros flat k Hk Hlen; [simpl in Hlen; lia|].
  cbn [for_each]. destruct (Z.ltb_spec (2 ^ k) (2 ^ 64)) as [Hlt|Hge].
  - destruct (py_setitem flat i (2 ^ k)) as [flat'|]; [|reflexivity].
    cbn [mbind option_bind].
    assert (k < 64) by (apply (Z.pow_lt_mono_r_iff 2); lia).
    replace (2 ^ k * 2) with (2 ^ (k + 1)) by (rewrite Z.pow_add_r; lia).
    apply IH; [lia|]. cbn [length] in Hlen. lia.
  - reflexivity.
Qed.

(** X12: a converter can be built exactly for the sizes 1 to 8.  A size
    that is not positive cannot be reshaped to and a size above 8 needs a
    weight that does not fit 64 bits; for the others cell [(r, c)] gets
    the weight [2 ** (n*n - 1 - (n*r + c))]. *)
Theorem converter_sizes board_size :
  Converter.init board_size
  = if (1 <=? board_size) && (board_size <=? 8)
    then Some {| Converter._size := board_size;
                 Converter._array_to_bitboard := weights board_size |}
    else None.
Proof.
  destruct (Z.leb_spec 1 board_size) as [H1|H1]; cbn [andb].
  - destruct (Z.leb_spec board_size 8) as [H8|H8].
    + assert (C : board_size = 1 \/ board_size = 2 \/ board_size = 3 \/ board_size = 4
                  \/ board_size = 5 \/ board_size = 6 \/ board_size = 7 \/ board_size = 8)
        by lia.
      destruct C as [ -> |[ -> |[ -> |[ -> |[ -> |[ -> |[ -> | -> ]]]]]]];
        vm_compute; reflexivity.
    + unfold Converter.init. rewrite (doubling_overflow _ _ 0); [reflexivity|lia|].
      unfold rev_range, range.
      rewrite length_rev, length_map, length_seq, Nat2Z.id, length_replicate.
      rewrite Z2Nat.id by nia. nia.
  - unfold Converter.init.
    destruct (for_each _ _ _) as [[flat x]|]; [|reflexivity].
    cbn [mbind option_bind].
    destruct (Z.leb_spec board_size 0) as [_|]; [reflexivity|lia].
Qed.

Lemma mask_array_mod x : mask_array (x mod 2 ^ 64) = mask_array x.
Proof.
  destruct (mask_array_spec x) as [Hs Ha].
  destruct (mask_array_spec (x mod 2 ^ 64)) as [Hs' Ha'].
  apply (ext2 8 8); [assumption..|].
  intros r c Hr Hc. rewrite Ha, Ha' by assumption. f_equal.
  apply Z.mod_pow2_bits_low. unfold bit. lia.
Qed.

Lemma mask_array_bits x : Forall (Forall bit01) (mask_array x).
Proof.
  destruct (mask_array_spec x) as [Hs Ha].
  apply (at2_forall 8 8 _ bit01 Hs).
  intros r c Hr Hc. rewrite Ha by assumption. apply b2z_bit01.
Qed.

(** X13: the dense form of a mask keeps its low 64 bits only.  For every
    integer [x], negative ones included, converting [x] from
    [bitboard_single] to [ndarray] and back returns [x mod 2 ** 64]. *)
Theorem single_round_trip_truncates x :
  exists conv a,
    Converter.init 8 = Some conv
    /\ Converter.convert conv (VInt x) "bitboard_single" "ndarray" = Some (VArray2 a)
    /\ Converter.convert conv (VArray2 a) "ndarray" "bitboard_single"
       = Some (VInt (x mod 2 ^ 64)).
Proof.
  exists conv8, (mask_array x). split; [exact converter_init_8|].
  split; [apply convert_single_ndarray|].
  rewrite convert_ndarray_single by apply mask_array_spec.
  rewrite (to_uint8_bits _ (mask_array_bits x)), <- mask_array_mod.
  rewrite weighted_mask; [reflexivity|].
  apply Z.mod_pos_bound. lia.
Qed.

Lemma zeros3_8_length : length (zeros3 8 8) = 8%nat.
Proof. reflexivity. Qed.

(** X14: the [position] format.  A position from 0 to 63 is converted to
    the mask with the one bit [63 - pos]; a position from -64 to -1 wraps
    around like a negative index and gives the mask of [pos + 64]; any
    other position raises [IndexError]. *)
Theorem convert_position_cases pos :
  exists conv,
    Converter.init 8 = Some conv
    /\ Converter.convert conv (VInt pos) "position" "bitboard_single"
       = if (0 <=? pos) && (pos <? 64) then Some (VInt (2 ^ (63 - pos)))
         else if (-64 <=? pos) && (pos <? 0) then Some (VInt (2 ^ (63 - (pos + 64))))
         else None.
Proof.
  exists conv8. split; [exact converter_init_8|].
  destruct (Z.leb_spec 0 pos) as [H0|H0]; cbn [andb].
  - destruct (Z.ltb_spec pos 64) as [H64|H64].
    + apply convert_position. lia.
    + destruct (Z.leb_spec (-64) pos) as [_|]; [|lia]. cbn [andb].
      destruct (Z.ltb_spec pos 0) as [|_]; [lia|].
      unfold Converter.convert. eval_eqb. unfold Converter.read_input. eval_eqb.
      change (Converter._size conv8) with 8. cbn [Z.eqb].
      change (zeros3 (Z.to_nat 8) (Z.to_nat 8)) with (zeros3 8 8).
      unfold set3. rewrite py_index_out; [reflexivity|].
      rewrite zeros3_8_length. left.
      change (Z.of_nat 8) with 8. apply Z.div_le_lower_bound; lia.
  - destruct (Z.leb_spec (-64) pos) as [Hlo|Hlo]; cbn [andb].
    + destruct (Z.ltb_spec pos 0) as [_|]; [|lia].
      assert (Hchk : forallb (fun q =>
                match Converter.convert conv8 (VInt (q - 64)) "position"
                        "bitboard_single" with
                | Some (VInt a) => a =? 2 ^ (63 - q)
                | _ => false
                end) (range 64) = true) by (vm_compute; reflexivity).
      rewrite forallb_forall in Hchk.
      specialize (Hchk (pos + 64) (proj2 (in_range 64 (pos + 64)) ltac:(lia))).
      replace (pos + 64 - 64) with pos in Hchk by lia.
      destruct (Converter.convert conv8 (VInt pos) "position" "bitboard_single")
        as [[| | |a|]|]; try discriminate.
      apply Z.eqb_eq in Hchk. now subst.
    + unfold Converter.convert. eval_eqb. unfold Converter.read_input. eval_eqb.
      change (Converter._size conv8) with 8. cbn [Z.eqb].
      change (zeros3 (Z.to_nat 8) (Z.to_nat 8)) with (zeros3 8 8).
      unfold set3. rewrite py_index_out; [reflexivity|].
      rewrite zeros3_8_length. right.
      change (Z.of_nat 8) with 8. apply Z.div_lt_upper_bound; lia.
Qed.

(** X15: only a dense board can be converted to the [bitboard] format.
    [convert] reads the player from its input as from a three-dimensional
    array, so an integer given as [bitboard_single] or [position] and an
    array given as [ndarray] make it raise, whatever the converter. *)
Theorem bitboard_output_needs_board self x a :
  Converter.convert self (VInt x) "bitboard_single" "bitboard" = None
  /\ Converter.convert self (VInt x) "position" "bitboard" = None
  /\ Converter.convert self (VArray2 a) "ndarray" "bitboard" = None.
Proof.
  split; [|split]; unfold Converter.convert; eval_eqb;
    unfold Converter.read_input; eval_eqb.
  - destruct (Converter.unpack _ _ _ _) as [[board x']|]; [|reflexivity].
    cbn [mbind option_bind]. eval_eqb. reflexivity.
  - destruct (Converter._size self =? 0); [reflexivity|].
    destruct (set3 _ _ _ _ _) as [board|]; [|reflexivity].
    cbn [mbind option_bind]. eval_eqb. reflexivity.
  - destruct (Converter.assign_channel0 _ _) as [board|]; [|reflexivity].
    cbn [mbind option_bind]. eval_eqb. reflexivity.
Qed.

(** ** Neighbours on the bitboard *)

(** X16: [_get_neighbors] returns the cells of [e] that touch a disc of [s]:
    a 64-bit mask that holds a cell exactly when [e] holds it and one of
    its eight neighbours on the board is in [s].  Every direction is found
    in both dictionaries, and no disc wraps around an edge. *)
Theorem get_neighbors_adjacent bs s e :
  exists n,
    BitBoard._get_neighbors (BitBoard.init bs) s e = Some n
    /\ board64 n
    /\ forall r c, inb r c = true ->
         (Z.testbit n (bit r c) = true
          <-> Z.testbit e (bit r c) = true
              /\ exists dr dc, In (dr, dc) Dense.directions
                   /\ cell s (r + dr) (c + dc) = true).
Proof.
  eexists. split.
  - unfold BitBoard._get_neighbors.
    cbn [foldl BitBoard._directions BitBoard.init map fst BitBoard.shift_table
         dict_get BitBoard._bit_shift_fn BitBoard._incorrect_shift_mask].
    eval_eqb. cbn [mbind option_bind]. reflexivity.
  - pose proof shift_ok_left as [B1 S1]. pose proof shift_ok_right as [B2 S2].
    pose proof shift_ok_top as [B3 S3]. pose proof shift_ok_bottom as [B4 S4].
    pose proof shift_ok_right_top as [B5 S5]. pose proof shift_ok_left_top as [B6 S6].
    pose proof shift_ok_right_bottom as [B7 S7].
    pose proof shift_ok_left_bottom as [B8 S8].
    split.
    + apply board64_land_l.
      repeat apply board64_lor; try apply board64_0; now apply board64_land_r.
    + intros r c Hin.
      rewrite Z.land_spec, !Z.lor_spec, Z.bits_0.
      rewrite (S1 s r c Hin), (S2 s r c Hin), (S3 s r c Hin), (S4 s r c Hin),
        (S5 s r c Hin), (S6 s r c Hin), (S7 s r c Hin), (S8 s r c Hin).
      rewrite andb_true_iff, !orb_true_iff.
      split.
      * intros [Hn He]. split; [exact He|].
        destruct Hn as [[[[[[[[H|H]|H]|H]|H]|H]|H]|H]|H]; [discriminate|..];
          do 2 eexists; (split; [|exact H]); apply in_directions; tauto.
      * intros [He (dr & dc & Hd & H)]. split; [|exact He].
        apply in_directions in Hd.
        destruct Hd as [E|[E|[E|[E|[E|[E|[E|E]]]]]]]; injection E as -> ->; tauto.
Qed.

(** ** A whole game *)

Lemma can_move_empties bs s m :
  valid_state s ->
  BitBoard._legal_moves_helper (BitBoard.init bs) s = Some m ->
  m <> 0 -> 0 < empties s.
Proof.
  intros Hv Em Hm. destruct (can_move_iff bs s m Hv Em) as [_ Hcan].
  apply Hcan in Hm. destruct Hm as (r & c & Hrc & [[V1 V2] _]).
  pose proof (bit_range r c Hrc) as Hb.
  rewrite cell_inb in V1, V2 by assumption.
  assert (popcount64 (occupied s) < 64).
  { apply (proj2 (popcount_bounds (occupied s)) (bit r c) Hb).
    rewrite (proj2 (proj2 (proj2 (proj2 (set_player_boards s Hv))))).
    now rewrite Z.lor_spec, V1, V2. }
  unfold empties. lia.
Qed.

Lemma played_last_entry env s m p entries s' :
  played env s m p entries s' ->
  exists init last,
    entries = init ++ [last]
    /\ Game.t_done last = 1 /\ Game.t_next_s last = s' /\ Game.t_reward last = -1.
Proof.
  induction 1 as [s m p a s' m' p' Ha Hstep
                 |s m p a s1 m1 p1 rest s' Ha Hstep Hrest IH].
  - exists [], (Game.mkTransition s m p a s' m' p' 1 (-1)). now repeat split.
  - destruct IH as (init & last & -> & Hd & Hs & Hr).
    exists (Game.mkTransition s m p a s1 m1 p1 0 (-1) :: init), last.
    now repeat split.
Qed.

Lemma py_index_last {A} (init : list A) (x : A) :
  py_index (init ++ [x]) (-1) = Some x.
Proof.
  unfold py_index. cbn [Z.leb Z.compare].
  rewrite length_app. cbn [length].
  destruct (Z.leb_spec (- Z.of_nat (length init + 1)) (-1)) as [_|]; [|lia].
  replace (Z.to_nat (Z.of_nat (length init + 1) + -1)) with (length init) by lia.
  now apply list_lookup_middle.
Qed.

Lemma py_setitem_last {A} (init : list A) (x y : A) :
  py_setitem (init ++ [x]) (-1) y = Some (init ++ [y]).
Proof.
  unfold py_setitem. cbn [Z.leb Z.compare].
  rewrite length_app. cbn [length].
  destruct (Z.leb_spec (- Z.of_nat (length init + 1)) (-1)) as [_|]; [|lia].
  replace (Z.to_nat (Z.of_nat (length init + 1) + -1)) with (length init + 0)%nat by lia.
  now rewrite insert_app_r.
Qed.

Lemma play_while_spec bs (g : Game.Game) (P : list (Z * Game.Player)) :
  Game._env g = BitBoard.init bs ->
  (forall q, q = 0 \/ q = 1 ->
     exists pl, dict_get Z.eqb P q = Some pl /\ lawful g pl) ->
  forall fuel s m cur hist0,
    valid_state s ->
    BitBoard._legal_moves_helper (BitBoard.init bs) s = Some m ->
    m <> 0 -> cur = 0 \/ cur = 1 ->
    empties s <= Z.of_nat fuel ->
    exists entries s',
      Game.play_while fuel g P s m cur hist0 = Some (s', hist0 ++ entries)
      /\ played (BitBoard.init bs) s m cur entries s'
      /\ Z.of_nat (length entries) + empties s' = empties s
      /\ valid_state s'.
Proof.
  intros Henv Hplayers.
  induction fuel as [|fuel IH]; intros s m cur hist0 Hv Em Hm Hcur Hfuel.
  - pose proof (can_move_empties bs s m Hv Em Hm). simpl in Hfuel. lia.
  - destruct (Hplayers cur Hcur) as (pl & Epl & Hlaw).
    destruct (Hlaw s m Hv ltac:(rewrite Henv; exact Em) Hm)
      as (s_in & m_in & a & Es & Emm & Ea & Ha).
    destruct (step_post bs s m a Hv Em Ha)
      as (r0 & c0 & post & q & m1 & done1 & _ & _ & _ & _ & _ & _ & _ & _ & Hq & Estep).
    destruct (step_empties bs s m a _ _ _ _ Hv Em Ha Estep)
      as (Hv1 & Em1 & He & H0 & Hd & Hd0).
    cbn [Game.play_while]. rewrite Epl. cbn [mbind option_bind].
    rewrite Es. cbn [mbind option_bind]. rewrite Emm. cbn [mbind option_bind].
    rewrite Ea. cbn [mbind option_bind]. rewrite Henv, Estep.
    cbn [mbind option_bind].
    destruct Hd as [ -> | -> ].
    + change (truthy 0) with false. cbv iota.
      destruct (Hd0 eq_refl) as [Hm1 Hpos].
      destruct (IH (set_player post q) m1 q
                  (hist0 ++ [Game.mkTransition s m cur a (set_player post q) m1 q 0 (-1)])
                  Hv1 Em1 Hm1 Hq ltac:(lia))
        as (entries & s' & E & Hplayed & Hlen & Hv').
      exists (Game.mkTransition s m cur a (set_player post q) m1 q 0 (-1) :: entries), s'.
      split; [rewrite E, <- app_assoc; reflexivity|].
      split; [now apply (played_more _ _ _ _ _ _ _ _ _ _ Ha Estep)|].
      split; [cbn [length]; lia | exact Hv'].
    + change (truthy 1) with true. cbv iota.
      exists [Game.mkTransition s m cur a (set_player post q) m1 q 1 (-1)],
        (set_player post q).
      split; [reflexivity|].
      split; [now apply played_last|].
      split; [cbn [length]; lia | exact Hv1].
Qed.

(** What [play] returns between two lawful players. *)
Lemma play_result player1 player2 board_size g below_half random_assignment :
  Game.init player1 player2 board_size = Some g ->
  lawful g player1 -> lawful g player2 ->
  exists winner g' init last b w,
    Game.play (Game.reset g below_half random_assignment) = Some (winner, g')
    /\ played (Game._env g) start_state start_moves 1 (init ++ [last])
         (Game.t_next_s last)
    /\ Game._hist g' = Some (init ++ [with_reward last winner])
    /\ (length (init ++ [last]) <= 60)%nat
    /\ BitBoard.count_coins (Game._env g) (Game.t_next_s last) = Some (b, w)
    /\ b + w = 4 + Z.of_nat (length (init ++ [last]))
    /\ winner = (if w <? b then 0 else if b <? w then 1 else -1).
Proof.
  intros Hinit Hl1 Hl2.
  unfold Game.init in Hinit. rewrite converter_init_8 in Hinit.
  cbn [mbind option_bind] in Hinit. injection Hinit as <-.
  set (g := {| Game._p1 := player1; Game._p2 := player2; Game._size := board_size;
               Game._env := BitBoard.init board_size; Game._converter := conv8;
               Game._rewards := _; Game._p := None; Game._hist := None |}) in *.
  set (P := if below_half && random_assignment
            then [(0, Game._p1 g); (1, Game._p2 g)]
            else [(1, Game._p1 g); (0, Game._p2 g)]).
  assert (HP : forall q, q = 0 \/ q = 1 ->
            exists pl, dict_get Z.eqb P q = Some pl /\ lawful (Game.reset g below_half random_assignment) pl).
  { intros q [ -> | -> ]; unfold P; destruct (below_half && random_assignment);
      cbn; eauto. }
  assert (Em : BitBoard._legal_moves_helper (BitBoard.init board_size) start_state
               = Some start_moves) by (vm_compute; reflexivity).
  assert (Hm : start_moves <> 0) by discriminate.
  assert (He : empties start_state <= Z.of_nat Game.loop_fuel) by (vm_compute; discriminate).
  destruct (play_while_spec board_size (Game.reset g below_half random_assignment) P
              eq_refl HP Game.loop_fuel start_state start_moves 1 []
              reset_state_valid Em Hm (or_intror eq_refl) He)
    as (entries & s' & E & Hplayed & Hlen & Hv').
  destruct (played_last_entry _ _ _ _ _ _ Hplayed) as (init & last & -> & Hd & Hs & Hr).
  destruct Hv' as (b & w & p & -> & Hb & Hw & Hbw & _).
  assert (Hdiscs : popcount64 b + popcount64 w
                   = 4 + Z.of_nat (length (init ++ [last]))).
  { change (empties start_state) with 60 in Hlen. unfold empties, occupied in Hlen.
    rewrite popcount_lor in Hlen by exact Hbw. lia. }
  assert (Hmoves : (length (init ++ [last]) <= 60)%nat).
  { pose proof (popcount_bounds b) as [Bb _]. pose proof (popcount_bounds w) as [Bw _].
    change (empties start_state) with 60 in Hlen. unfold empties, occupied in Hlen.
    rewrite popcount_lor in Hlen by exact Hbw.
    pose proof (proj1 (popcount_bounds (Z.lor b w))) as Bo.
    rewrite popcount_lor in Bo by exact Hbw. lia. }
  exists (if popcount64 w <? popcount64 b then 0
          else if popcount64 b <? popcount64 w then 1 else -1).
  eexists. exists init, last, (popcount64 b), (popcount64 w).
  split.
  - unfold Game.play.
    change (Game._env (Game.reset g below_half random_assignment))
      with (BitBoard.init board_size).
    replace (BitBoard.reset (BitBoard.init board_size))
      with (Some (start_state, start_moves, 1)) by (vm_compute; reflexivity).
    cbn [mbind option_bind Game.reset Game._p Game._hist]. fold P.
    rewrite E. cbn [mbind option_bind app].
    rewrite (count_coins_masks board_size b w p Hb Hw).
    cbn [mbind option_bind].
    rewrite py_index_last. cbn [mbind option_bind].
    rewrite py_setitem_last. cbn [mbind option_bind]. reflexivity.
  - cbn [Game._hist Game._env].
    split; [rewrite Hs; exact Hplayed|]. split; [reflexivity|].
    split; [exact Hmoves|].
    split; [rewrite Hs; exact (count_coins_masks board_size b w p Hb Hw)|].
    split; [exact Hdiscs | reflexivity].
Qed.

(** X17: [play] runs a whole game and names its winner.  Between two players
    that answer with legal moves it returns after at most 60 moves; the
    history it leaves holds one entry per move, each a [step] of the engine
    on a legal action from the state the entry before ended in, starting
    from [reset], with [done] set on the last entry only; the last state
    holds four discs more than there were moves; the winner, 0 for black,
    1 for white, -1 for a tie, goes by the disc counts of the last state
    and is written into the last entry, the others keep -1. *)
Theorem play_ends_with_winner player1 player2 board_size g below_half random_assignment :
  Game.init player1 player2 board_size = Some g ->
  lawful g player1 -> lawful g player2 ->
  exists winner g' init last b w,
    Game.play (Game.reset g below_half random_assignment) = Some (winner, g')
    /\ played (Game._env g) start_state start_moves 1 (init ++ [last])
         (Game.t_next_s last)
    /\ Game._hist g' = Some (init ++ [with_reward last winner])
    /\ (length (init ++ [last]) <= 60)%nat
    /\ BitBoard.count_coins (Game._env g) (Game.t_next_s last) = Some (b, w)
    /\ b + w = 4 + Z.of_nat (length (init ++ [last]))
    /\ winner = (if w <? b then 0 else if b <? w then 1 else -1).
Proof.
  intros Hinit Hl1 Hl2.
  exact (play_result player1 player2 board_size g below_half random_assignment
           Hinit Hl1 Hl2).
Qed.

Lemma highest_player_lawful g bs :
  Game._env g = BitBoard.init bs -> lawful g highest_player.
Proof.
  intros Henv s m Hv Em Hm. rewrite Henv in Em.
  exists (VTuple s), (VInt m), (highest_move [] m).
  split; [reflexivity|]. split; [reflexivity|]. split; [reflexivity|].
  apply highest_move_legal; [|exact Hm].
  destruct (legal_moves_helper_valid bs s Hv) as (m0 & Em0 & Hb & _).
  rewrite Em in Em0. injection Em0 as <-. exact Hb.
Qed.

(** ** The symmetries of the board *)

Lemma array64 (a : ndarray2) :
  shape2 8 8 a ->
  exists a00 a01 a02 a03 a04 a05 a06 a07 a10 a11 a12 a13 a14 a15 a16 a17
         a20 a21 a22 a23 a24 a25 a26 a27 a30 a31 a32 a33 a34 a35 a36 a37
         a40 a41 a42 a43 a44 a45 a46 a47 a50 a51 a52 a53 a54 a55 a56 a57
         a60 a61 a62 a63 a64 a65 a66 a67 a70 a71 a72 a73 a74 a75 a76 a77,
    a = [ [a00; a01; a02; a03; a04; a05; a06; a07];
          [a10; a11; a12; a13; a14; a15; a16; a17];
          [a20; a21; a22; a23; a24; a25; a26; a27];
          [a30; a31; a32; a33; a34; a35; a36; a37];
          [a40; a41; a42; a43; a44; a45; a46; a47];
          [a50; a51; a52; a53; a54; a55; a56; a57];
          [a60; a61; a62; a63; a64; a65; a66; a67];
          [a70; a71; a72; a73; a74; a75; a76; a77] ].
Proof.
  intros Ha. destruct (rows8 a Ha) as (r0 & r1 & r2 & r3 & r4 & r5 & r6 & r7 & -> & Hrows).
  split_forall Hrows.
  repeat match goal with
         | H : Z.of_nat (length ?row) = 8 |- _ =>
             let x0 := fresh "x" in let x1 := fresh "x" in let x2 := fresh "x" in
             let x3 := fresh "x" in let x4 := fresh "x" in let x5 := fresh "x" in
             let x6 := fresh "x" in let x7 := fresh "x" in
             destruct (length8 row H) as (x0 & x1 & x2 & x3 & x4 & x5 & x6 & x7 & ->);
             clear H
         end.
  repeat eexists.
Qed.

Ltac moves_cells_tac :=
  intros a Ha;
  destruct (array64 a Ha) as
    (a00 & a01 & a02 & a03 & a04 & a05 & a06 & a07 & a10 & a11 & a12 & a13 & a14 & a15 & a16 & a17
     & a20 & a21 & a22 & a23 & a24 & a25 & a26 & a27 & a30 & a31 & a32 & a33 & a34 & a35 & a36 & a37
     & a40 & a41 & a42 & a43 & a44 & a45 & a46 & a47 & a50 & a51 & a52 & a53 & a54 & a55 & a56 & a57
     & a60 & a61 & a62 & a63 & a64 & a65 & a66 & a67 & a70 & a71 & a72 & a73 & a74 & a75 & a76 & a77
     & ->);
  clear Ha;
  split;
  [ split; [reflexivity | repeat constructor]
  | intros r c Hr Hc; cases8 r; cases8 c; reflexivity ].

(** The eleven functions of [_nd_trans_fn] as symmetries. *)
Lemma normal_left_moves : moves_cells (fun x => rot90 x 1) (mkSym true false true).
Proof. moves_cells_tac. Qed.

Lemma normal_top_moves : moves_cells (fun x => rot90 x 2) (mkSym false true true).
Proof. moves_cells_tac. Qed.

Lemma normal_right_moves : moves_cells (fun x => rot90 x 3) (mkSym true true false).
Proof. moves_cells_tac. Qed.

Lemma horizontal_bottom_moves : moves_cells (fun x => flip_axis0 x) (mkSym false true false).
Proof. moves_cells_tac. Qed.

Lemma horizontal_left_moves :
  moves_cells (fun x => rot90 (flip_axis0 x) 1) (mkSym true true true).
Proof. moves_cells_tac. Qed.

Lemma horizontal_top_moves :
  moves_cells (fun x => rot90 (flip_axis0 x) 2) (mkSym false false true).
Proof. moves_cells_tac. Qed.

Lemma horizontal_right_moves :
  moves_cells (fun x => rot90 (flip_axis0 x) 3) (mkSym true false false).
Proof. moves_cells_tac. Qed.

Lemma vertical_bottom_moves : moves_cells (fun x => flip_axis1 x) (mkSym false false true).
Proof. moves_cells_tac. Qed.

Lemma vertical_left_moves :
  moves_cells (fun x => rot90 (flip_axis1 x) 1) (mkSym true false false).
Proof. moves_cells_tac. Qed.

Lemma vertical_top_moves :
  moves_cells (fun x => rot90 (flip_axis1 x) 2) (mkSym false true false).
Proof. moves_cells_tac. Qed.

Lemma vertical_right_moves :
  moves_cells (fun x => rot90 (flip_axis1 x) 3) (mkSym true true true).
Proof. moves_cells_tac. Qed.

Lemma trans_fn_moves :
  Forall (fun kf => exists g, moves_cells kf.2 g) Game._nd_trans_fn.
Proof.
  unfold Game._nd_trans_fn.
  repeat (apply Forall_cons; split; [eexists; cbn [snd]|]);
    [ apply normal_left_moves | apply normal_top_moves | apply normal_right_moves
    | apply horizontal_bottom_moves | apply horizontal_left_moves
    | apply horizontal_top_moves | apply horizontal_right_moves
    | apply vertical_bottom_moves | apply vertical_left_moves
    | apply vertical_top_moves | apply vertical_right_moves | apply Forall_nil_2 ].
Qed.

(** What a symmetry does to cells and directions. *)
Lemma sym_inb g r c : inb (sym_cell g r c).1 (sym_cell g r c).2 = inb r c.
Proof.
  apply Bool.eq_iff_eq_true. rewrite !inb_iff.
  destruct g as [[] [] []]; cbn; lia.
Qed.

Lemma sym_range g r c :
  0 <= r < 8 -> 0 <= c < 8 ->
  0 <= (sym_cell g r c).1 < 8 /\ 0 <= (sym_cell g r c).2 < 8.
Proof. intros Hr Hc. apply inb_iff. rewrite sym_inb. apply inb_iff. lia. Qed.

Lemma sym_affine g r c dr dc i :
  sym_cell g (r + i * dr) (c + i * dc)
  = ((sym_cell g r c).1 + i * (sym_dir g dr dc).1,
     (sym_cell g r c).2 + i * (sym_dir g dr dc).2).
Proof. destruct g as [[] [] []]; cbn; f_equal; ring. Qed.

Lemma sym_dir_in g dr dc :
  In (dr, dc) Dense.directions ->
  In ((sym_dir g dr dc).1, (sym_dir g dr dc).2) Dense.directions.
Proof.
  rewrite !in_directions.
  intros [E|[E|[E|[E|[E|[E|[E|E]]]]]]]; injection E as -> ->;
    destruct g as [[] [] []]; cbn; tauto.
Qed.

Lemma sym_cell_inv g r c :
  sym_cell g (sym_cell (sym_inv g) r c).1 (sym_cell (sym_inv g) r c).2 = (r, c)
  /\ sym_cell (sym_inv g) (sym_cell g r c).1 (sym_cell g r c).2 = (r, c).
Proof. destruct g as [[] [] []]; cbn; split; f_equal; lia. Qed.

Lemma sym_dir_inv g dr dc :
  sym_dir g (sym_dir (sym_inv g) dr dc).1 (sym_dir (sym_inv g) dr dc).2 = (dr, dc).
Proof. destruct g as [[] [] []]; cbn; f_equal; lia. Qed.

Section Symmetric.

Variable g : symmetry.
Variables own opp : Z -> Z -> bool.

Let own' (r c : Z) : bool := own (sym_cell g r c).1 (sym_cell g r c).2.
Let opp' (r c : Z) : bool := opp (sym_cell g r c).1 (sym_cell g r c).2.

Lemma run_sym r c dr dc n :
  run own' opp' r c dr dc n
  <-> run own opp (sym_cell g r c).1 (sym_cell g r c).2
        (sym_dir g dr dc).1 (sym_dir g dr dc).2 n.
Proof.
  unfold run, own', opp'. rewrite sym_affine. cbn [fst snd].
  split; intros (Hn & Hrun & Hend); (split; [exact Hn|]); (split; [|exact Hend]);
    intros i Hi; specialize (Hrun i Hi); rewrite sym_affine in *; exact Hrun.
Qed.

Lemma captures_sym r c :
  captures own' opp' r c
  <-> captures own opp (sym_cell g r c).1 (sym_cell g r c).2.
Proof.
  unfold captures. split.
  - intros (dr & dc & n & Hd & Hrun).
    exists (sym_dir g dr dc).1, (sym_dir g dr dc).2, n.
    split; [now apply sym_dir_in | now apply run_sym].
  - intros (dr & dc & n & Hd & Hrun).
    exists (sym_dir (sym_inv g) dr dc).1, (sym_dir (sym_inv g) dr dc).2, n.
    split; [now apply sym_dir_in|]. apply run_sym. now rewrite sym_dir_inv.
Qed.

Lemma flipped_sym r0 c0 r c :
  flipped own' opp' r0 c0 r c
  <-> flipped own opp (sym_cell g r0 c0).1 (sym_cell g r0 c0).2
        (sym_cell g r c).1 (sym_cell g r c).2.
Proof.
  unfold flipped. split.
  - intros (dr & dc & n & i & Hd & Hrun & Hi & -> & ->).
    exists (sym_dir g dr dc).1, (sym_dir g dr dc).2, n, i.
    split; [now apply sym_dir_in|]. split; [now apply run_sym|].
    split; [exact Hi|]. rewrite sym_affine. now split.
  - intros (dr & dc & n & i & Hd & Hrun & Hi & Er & Ec).
    exists (sym_dir (sym_inv g) dr dc).1, (sym_dir (sym_inv g) dr dc).2, n, i.
    split; [now apply sym_dir_in|].
    split; [apply run_sym; now rewrite sym_dir_inv|]. split; [exact Hi|].
    assert (E : sym_cell g r c
                = sym_cell g (r0 + i * (sym_dir (sym_inv g) dr dc).1)
                    (c0 + i * (sym_dir (sym_inv g) dr dc).2)).
    { rewrite sym_affine, sym_dir_inv. cbn [fst snd]. rewrite <- Er, <- Ec.
      now destruct (sym_cell g r c). }
    pose proof (proj2 (sym_cell_inv g r c)) as E1.
    rewrite E in E1. rewrite (proj2 (sym_cell_inv g _ _)) in E1.
    injection E1 as <- <-. now split.
Qed.

End Symmetric.

(** The image of a mask under an array function that is a symmetry. *)
Section Image.

Variables (f : ndarray2 -> ndarray2) (g : symmetry).
Hypothesis Hf : moves_cells f g.

Lemma image_bits x :
  board64 (mask_image f x)
  /\ forall r c, inb r c = true ->
       Z.testbit (mask_image f x) (bit r c)
       = Z.testbit x (bit (sym_cell g r c).1 (sym_cell g r c).2).
Proof.
  destruct (mask_array_spec x) as [Hs Ha].
  destruct (Hf (mask_array x) Hs) as [Hs' Ha'].
  assert (Hat : forall r c, 0 <= r < 8 -> 0 <= c < 8 ->
            at2 (f (mask_array x)) r c
            = Z.b2z (Z.testbit x (bit (sym_cell g r c).1 (sym_cell g r c).2))).
  { intros r c Hr Hc. destruct (sym_range g r c Hr Hc) as [Hr' Hc'].
    now rewrite Ha', Ha. }
  destruct (weighted_sum_spec (f (mask_array x)) Hs') as [Hb Hbit].
  { intros r c Hr Hc. rewrite Hat by assumption. apply b2z_bit01. }
  split; [exact Hb|].
  intros r c Hin. apply inb_iff in Hin. destruct Hin as [Hr Hc].
  unfold mask_image. rewrite Hbit, Hat by assumption.
  now destruct (Z.testbit x _).
Qed.

Lemma image_cell x r c :
  cell (mask_image f x) r c = cell x (sym_cell g r c).1 (sym_cell g r c).2.
Proof.
  unfold cell. rewrite sym_inb. destruct (inb r c) eqn:Hin; [|reflexivity].
  cbn [andb]. now apply image_bits.
Qed.

Lemma image_holds x (P : Z -> Z -> Prop) :
  holds x P ->
  holds (mask_image f x) (fun r c => P (sym_cell g r c).1 (sym_cell g r c).2).
Proof.
  intros [Hb HP]. split; [apply image_bits|].
  intros r c Hin. rewrite (proj2 (image_bits x) r c Hin).
  apply HP. now rewrite sym_inb.
Qed.

Lemma image_zero x : board64 x -> (mask_image f x = 0 <-> x = 0).
Proof.
  intros Hx.
  assert (Hself : holds x (fun r c => Z.testbit x (bit r c) = true))
    by (split; [assumption|tauto]).
  pose proof (image_holds x _ Hself) as Himg.
  pose proof (holds_nonzero _ _ Hself) as N1.
  pose proof (holds_nonzero _ _ Himg) as N2.
  assert (Hiff : mask_image f x <> 0 <-> x <> 0).
  { rewrite N1, N2. split.
    - intros (r & c & Hin & H). exists (sym_cell g r c).1, (sym_cell g r c).2.
      split; [now rewrite sym_inb | exact H].
    - intros (r & c & Hin & H).
      exists (sym_cell (sym_inv g) r c).1, (sym_cell (sym_inv g) r c).2.
      pose proof (proj1 (sym_cell_inv g r c)) as E.
      split.
      + rewrite <- sym_inb with (g := g). now rewrite E.
      + now rewrite E. }
  destruct (Z.eq_dec (mask_image f x) 0), (Z.eq_dec x 0); tauto.
Qed.

Lemma image_pow2 r0 c0 :
  inb r0 c0 = true ->
  inb (sym_cell (sym_inv g) r0 c0).1 (sym_cell (sym_inv g) r0 c0).2 = true
  /\ mask_image f (2 ^ bit r0 c0)
     = 2 ^ bit (sym_cell (sym_inv g) r0 c0).1 (sym_cell (sym_inv g) r0 c0).2.
Proof.
  intros Hin.
  pose proof (proj1 (sym_cell_inv g r0 c0)) as E.
  assert (Hin' : inb (sym_cell (sym_inv g) r0 c0).1 (sym_cell (sym_inv g) r0 c0).2 = true).
  { rewrite <- sym_inb with (g := g). now rewrite E. }
  split; [exact Hin'|].
  apply (holds_unique _ _ (fun r c => (sym_cell g r c).1 = r0 /\ (sym_cell g r c).2 = c0)).
  - exact (image_holds _ _ (holds_pow2 r0 c0 Hin)).
  - apply (holds_ext _ _ _ (holds_pow2 _ _ Hin')).
    intros r c _. split.
    + intros [-> ->]. now rewrite E.
    + intros [H1 H2]. pose proof (proj2 (sym_cell_inv g r c)) as E2.
      rewrite H1, H2 in E2. rewrite E2. now split.
Qed.

Lemma image_valid s :
  valid_state s ->
  valid_state (state_image f s)
  /\ mover_board (state_image f s) = mask_image f (mover_board s)
  /\ other_board (state_image f s) = mask_image f (other_board s)
  /\ player (state_image f s) = player s
  /\ forall q, set_player (state_image f s) q = state_image f (set_player s q).
Proof.
  intros (b & w & p & -> & Hb & Hw & Hbw & Hp). cbn [state_image].
  split.
  - exists (mask_image f b), (mask_image f w), p.
    split; [reflexivity|]. split; [apply image_bits|]. split; [apply image_bits|].
    split; [|exact Hp].
    apply board64_zero; [apply board64_land_l, image_bits|].
    intros r c Hin. rewrite Z.land_spec, !(proj2 (image_bits _) r c Hin).
    rewrite <- Z.land_spec, Hbw. apply Z.bits_0.
  - cbn [mover_board other_board player].
    split; [now destruct (p =? 0)|]. split; [now destruct (p =? 0)|].
    split; reflexivity.
Qed.

Lemma vacant_image bp bn r c :
  vacant (mask_image f bp) (mask_image f bn) r c
  <-> vacant bp bn (sym_cell g r c).1 (sym_cell g r c).2.
Proof. unfold vacant. now rewrite !image_cell. Qed.

Lemma legal_cell_image bp bn r c :
  legal_cell (mask_image f bp) (mask_image f bn) r c
  <-> legal_cell bp bn (sym_cell g r c).1 (sym_cell g r c).2.
Proof.
  unfold legal_cell. rewrite vacant_image.
  rewrite <- (captures_sym g (cell bp) (cell bn) r c).
  rewrite (captures_ext (cell (mask_image f bp)) (cell (mask_image f bn))
             (fun r c => cell bp (sym_cell g r c).1 (sym_cell g r c).2)
             (fun r c => cell bn (sym_cell g r c).1 (sym_cell g r c).2))
    by (intros; apply image_cell).
  reflexivity.
Qed.

Lemma helper_image bs s m :
  valid_state s ->
  BitBoard._legal_moves_helper (BitBoard.init bs) s = Some m ->
  BitBoard._legal_moves_helper (BitBoard.init bs) (state_image f s)
  = Some (mask_image f m).
Proof.
  intros Hv Em.
  destruct (legal_moves_helper_valid bs s Hv) as (m0 & Em0 & Hm).
  rewrite Em in Em0. injection Em0 as <-.
  destruct (image_valid s Hv) as (Hv' & Emov & Eoth & _).
  destruct (legal_moves_helper_valid bs _ Hv') as (m' & Em' & Hm').
  rewrite Em'. f_equal.
  apply (holds_unique _ _ _ Hm'). rewrite Emov, Eoth.
  apply (holds_ext _ _ _ (image_holds _ _ Hm)).
  intros r c _. symmetry. apply legal_cell_image.
Qed.

Lemma legal_action_image m a :
  board64 m -> legal_action m a -> legal_action (mask_image f m) (mask_image f a).
Proof.
  intros Hm (r0 & c0 & Hin & -> & Hbit).
  destruct (image_pow2 r0 c0 Hin) as [Hin' E].
  exists (sym_cell (sym_inv g) r0 c0).1, (sym_cell (sym_inv g) r0 c0).2.
  split; [exact Hin'|]. split; [exact E|].
  rewrite (proj2 (image_bits m) _ _ Hin').
  now rewrite (proj1 (sym_cell_inv g r0 c0)).
Qed.

Lemma next_board_image bs s r0 c0 post :
  valid_state s -> inb r0 c0 = true ->
  vacant (mover_board s) (other_board s) r0 c0 ->
  BitBoard._get_next_board (BitBoard.init bs) s (2 ^ bit r0 c0) = Some post ->
  valid_state post
  /\ BitBoard._get_next_board (BitBoard.init bs) (state_image f s)
       (mask_image f (2 ^ bit r0 c0)) = Some (state_image f post).
Proof.
  intros Hv Hin Hvac E.
  destruct (get_next_board_valid bs s r0 c0 Hv Hin Hvac)
    as (post0 & E0 & Hvpost & Epl & Hown & Hopp).
  rewrite E in E0. injection E0 as <-. split; [exact Hvpost|].
  destruct (image_valid s Hv) as (Hv' & Emov & Eoth & Eplayer & _).
  destruct (image_valid post Hvpost) as (Hvp' & Emov' & Eoth' & Eplayer' & _).
  destruct (image_pow2 r0 c0 Hin) as [Hin' Ea]. rewrite Ea.
  pose proof (proj1 (sym_cell_inv g r0 c0)) as Einv.
  set (r1 := (sym_cell (sym_inv g) r0 c0).1) in *.
  set (c1 := (sym_cell (sym_inv g) r0 c0).2) in *.
  assert (Hvac' : vacant (mover_board (state_image f s))
                    (other_board (state_image f s)) r1 c1).
  { rewrite Emov, Eoth. apply vacant_image. now rewrite Einv. }
  destruct (get_next_board_valid bs _ r1 c1 Hv' Hin' Hvac')
    as (post' & E' & Hvpost' & Epl' & Hown' & Hopp').
  rewrite E'. f_equal.
  (* the two boards and the player of [post'] are those of the image *)
  assert (Hflip : forall r c,
            flipped (cell (mask_image f (mover_board s)))
              (cell (mask_image f (other_board s))) r1 c1 r c
            <-> flipped (cell (mover_board s)) (cell (other_board s)) r0 c0
                  (sym_cell g r c).1 (sym_cell g r c).2).
  { intros r c.
    rewrite (flipped_ext (cell (mask_image f (mover_board s)))
               (cell (mask_image f (other_board s)))
               (fun r c => cell (mover_board s) (sym_cell g r c).1 (sym_cell g r c).2)
               (fun r c => cell (other_board s) (sym_cell g r c).1 (sym_cell g r c).2))
      by (intros; apply image_cell).
    rewrite (flipped_sym g). now rewrite Einv. }
  assert (Hcellmap : forall r c,
            (r = r1 /\ c = c1)
            <-> ((sym_cell g r c).1 = r0 /\ (sym_cell g r c).2 = c0)).
  { intros r c. split.
    - intros [-> ->]. now rewrite Einv.
    - intros [H1 H2]. pose proof (proj2 (sym_cell_inv g r c)) as E2.
      rewrite H1, H2 in E2. subst r1 c1. now rewrite E2. }
  assert (Emover : mover_board post' = mover_board (state_image f post)).
  { rewrite Emov'. apply (holds_unique _ _ _ Hown').
    apply (holds_ext _ _ _ (image_holds _ _ Hown)).
    intros r c _. rewrite Emov, Eoth. unfold moved_own.
    rewrite !image_cell, Hflip, Hcellmap. tauto. }
  assert (Eother : other_board post' = other_board (state_image f post)).
  { rewrite Eoth'. apply (holds_unique _ _ _ Hopp').
    apply (holds_ext _ _ _ (image_holds _ _ Hopp)).
    intros r c _. rewrite Emov, Eoth. unfold moved_opp.
    rewrite !image_cell, Hflip. tauto. }
  assert (Eplayers : player post' = player (state_image f post)).
  { rewrite Eplayer'.
    rewrite (valid_py_player _ Hvpost'), (valid_py_player _ Hv') in Epl'.
    rewrite (valid_py_player _ Hvpost), (valid_py_player _ Hv) in Epl.
    injection Epl' as ->. injection Epl as ->. exact Eplayer. }
  destruct Hvpost' as (b1 & w1 & p1 & -> & _ & _ & _ & Hp1).
  destruct Hvp' as (b2 & w2 & p2 & E2 & _ & _ & _ & Hp2).
  rewrite E2 in *.
  cbn [mover_board other_board player] in Emover, Eother, Eplayers. subst p2.
  destruct Hp1 as [ -> | -> ]; cbn [Z.eqb] in Emover, Eother; now subst.
Qed.

Lemma board_full_image s :
  valid_state s -> (board_full (state_image f s) <-> board_full s).
Proof.
  intros Hv. destruct (image_valid s Hv) as (_ & Emov & Eoth & _).
  unfold board_full. rewrite Emov, Eoth. split; intros H r c Hin.
  - pose proof (proj1 (sym_cell_inv g r c)) as E.
    assert (Hin' : inb (sym_cell (sym_inv g) r c).1 (sym_cell (sym_inv g) r c).2 = true).
    { rewrite <- sym_inb with (g := g). now rewrite E. }
    specialize (H _ _ Hin'). rewrite vacant_image, E in H. exact H.
  - rewrite vacant_image. apply H. now rewrite sym_inb.
Qed.

Lemma step_image bs s m a s' m' p' done :
  valid_state s ->
  BitBoard._legal_moves_helper (BitBoard.init bs) s = Some m ->
  legal_action m a ->
  BitBoard.step (BitBoard.init bs) s a = Some (s', m', p', done) ->
  BitBoard.step (BitBoard.init bs) (state_image f s) (mask_image f a)
  = Some (state_image f s', mask_image f m', p', done).
Proof.
  intros Hv Em (r0 & c0 & Hin & -> & Hbit) Estep.
  destruct (legal_moves_helper_valid bs s Hv) as (m0 & Em0 & Hm).
  rewrite Em in Em0. injection Em0 as <-.
  apply (proj2 Hm r0 c0 Hin) in Hbit. destruct Hbit as [Hvac _].
  destruct (step_spec bs s r0 c0 Hv Hin Hvac)
    as (post & m1 & Enext & Hvpost & Hpl & E1 & Hcases).
  destruct (image_valid s Hv) as (Hv' & Emov & Eoth & Eplayer & _).
  destruct (image_valid post Hvpost) as (Hvp' & _ & _ & _ & Eset).
  destruct (next_board_image bs s r0 c0 post Hv Hin Hvac Enext) as [_ Enext'].
  destruct (image_pow2 r0 c0 Hin) as [Hin' Ea]. rewrite Ea in *.
  pose proof (proj1 (sym_cell_inv g r0 c0)) as Einv.
  set (r1 := (sym_cell (sym_inv g) r0 c0).1) in *.
  set (c1 := (sym_cell (sym_inv g) r0 c0).2) in *.
  assert (Hvac' : vacant (mover_board (state_image f s))
                    (other_board (state_image f s)) r1 c1).
  { rewrite Emov, Eoth. apply vacant_image. now rewrite Einv. }
  destruct (step_spec bs _ r1 c1 Hv' Hin' Hvac')
    as (post' & m1' & Enext'' & _ & _ & E1' & Hcases').
  rewrite Enext' in Enext''. injection Enext'' as <-.
  rewrite Eplayer, Eset in E1', Hcases'.
  pose proof (valid_player s Hv) as Hp.
  assert (Hq : opponent (player s) = 0 \/ opponent (player s) = 1)
    by (rewrite opponent_cases by assumption; lia).
  pose proof (valid_set_player post _ Hvpost Hq) as Hv1.
  pose proof (valid_set_player post _ Hvpost Hp) as Hv2.
  rewrite (helper_image bs _ _ Hv1 E1) in E1'. injection E1' as <-.
  destruct (can_move_iff bs _ m1 Hv1 E1) as [Hb1 _].
  pose proof (image_zero m1 Hb1) as Hz1.
  assert (Hfull : occupied (state_image f post) = 0xFFFFFFFFFFFFFFFF
                  <-> occupied post = 0xFFFFFFFFFFFFFFFF).
  { rewrite !board_full_iff by assumption. now apply board_full_image. }
  rewrite Eset in Hcases'.
  destruct Hcases as [(Hm1 & E)|[(Hm1 & Hf1 & E)|(Hm1 & Hf1 & m2 & E2 & E)]];
    rewrite Estep in E; injection E as -> -> -> ->.
  - destruct Hcases' as [(_ & E')|[(Hm1' & _)|(Hm1' & _)]];
      [exact E' | tauto | tauto].
  - destruct Hcases' as [(Hm1' & _)|[(_ & _ & E')|(_ & Hf1' & _)]];
      [tauto | | tauto].
    rewrite E'. now rewrite (proj2 (image_zero 0 board64_0) eq_refl).
  - destruct Hcases' as [(Hm1' & _)|[(_ & Hf1' & _)|(_ & _ & m2' & E2' & E')]];
      [tauto | tauto |].
    rewrite (helper_image bs _ _ Hv2 E2) in E2'. injection E2' as <-.
    destruct (can_move_iff bs _ m2 Hv2 E2) as [Hb2 _].
    pose proof (image_zero m2 Hb2) as Hz2.
    rewrite E'. do 2 f_equal.
    destruct (Z.eqb_spec (mask_image f m2) 0) as [H0|H0];
      destruct (Z.eqb_spec m2 0) as [H0'|H0']; tauto.
Qed.

Lemma genuine_image bs t :
  genuine (BitBoard.init bs) t -> genuine (BitBoard.init bs) (transition_image f t).
Proof.
  intros (Hv & Em & Ha & Estep). unfold genuine, transition_image.
  cbn [Game.t_s Game.t_legal_moves Game.t_a Game.t_next_s
       Game.t_next_legal_moves Game.t_next_player Game.t_done].
  split; [now apply image_valid|]. split; [now apply helper_image|].
  split; [|now apply (step_image bs _ _ _ _ _ _ _ Hv Em Ha)].
  apply legal_action_image; [|exact Ha].
  now destruct (can_move_iff bs _ _ Hv Em).
Qed.

End Image.

(** What [create_board_reps] returns. *)
Lemma for_each_collect {A B} (h : A -> B) (body : A -> list B -> option (list B)) l :
  (forall x acc, body x acc = Some (acc ++ [h x])) ->
  forall acc, for_each l body acc = Some (acc ++ map h l).
Proof.
  intros Hbody. induction l as [|x l IH]; intros acc; cbn [for_each map].
  - now rewrite app_nil_r.
  - rewrite Hbody. cbn [mbind option_bind]. rewrite IH, <- app_assoc. reflexivity.
Qed.

Lemma to_ndarray_eq g x :
  Game._converter g = conv8 -> Game.to_ndarray g x = Some (mask_array x).
Proof.
  intros Hc. unfold Game.to_ndarray. now rewrite Hc, convert_single_ndarray.
Qed.

Lemma create_board_reps_eq g tr b w p l b' w' p' l' :
  Game._converter g = conv8 ->
  Game.t_s tr = b :: w :: p :: l ->
  Game.t_next_s tr = b' :: w' :: p' :: l' ->
  Game.create_board_reps g tr
  = Some (("normal_bottom"%string, tr)
          :: map (fun kf => (kf.1, transition_image kf.2 tr)) Game._nd_trans_fn).
Proof.
  intros Hc Es En. unfold Game.create_board_reps. cbv zeta.
  rewrite Es, En, Hc.
  change (py_index (b :: w :: p :: l) 0) with (Some b).
  change (py_index (b :: w :: p :: l) 1) with (Some w).
  change (py_index (b' :: w' :: p' :: l') 0) with (Some b').
  change (py_index (b' :: w' :: p' :: l') 1) with (Some w').
  cbn [mbind option_bind].
  repeat (rewrite to_ndarray_eq by exact Hc; cbn [mbind option_bind]).
  change (py_index (b :: w :: p :: l) 0) with (Some b).
  change (py_index (b :: w :: p :: l) 1) with (Some w).
  change (py_index (b' :: w' :: p' :: l') 0) with (Some b').
  change (py_index (b' :: w' :: p' :: l') 1) with (Some w').
  cbn [mbind option_bind].
  rewrite (for_each_collect
             (fun kf : string * (ndarray2 -> ndarray2) =>
                (kf.1, transition_image kf.2 tr))).
  - reflexivity.
  - intros [key fn] acc. cbn [fst snd]. unfold transition_image. rewrite Es, En.
    reflexivity.
Qed.

Lemma game_init_fields player1 player2 board_size g :
  Game.init player1 player2 board_size = Some g ->
  Game._converter g = conv8 /\ Game._env g = BitBoard.init board_size.
Proof.
  unfold Game.init. rewrite converter_init_8. cbn [mbind option_bind].
  intros E. injection E as <-. now split.
Qed.

(** The representations of a transition the engine stands behind. *)
Lemma reps_genuine g bs tr :
  Game._converter g = conv8 -> Game._env g = BitBoard.init bs ->
  genuine (BitBoard.init bs) tr ->
  exists reps,
    Game.create_board_reps g tr = Some reps
    /\ map fst reps = "normal_bottom"%string :: map fst Game._nd_trans_fn
    /\ Forall (fun kt =>
                 genuine (BitBoard.init bs) kt.2
                 /\ Game.t_current_player kt.2 = Game.t_current_player tr
                 /\ Game.t_next_player kt.2 = Game.t_next_player tr
                 /\ Game.t_done kt.2 = Game.t_done tr
                 /\ Game.t_reward kt.2 = Game.t_reward tr) reps.
Proof.
  intros Hc Henv Hgen.
  pose proof Hgen as (Hv & Em & Ha & Estep).
  destruct (step_valid bs _ _ _ Hv Em Ha)
    as (s1 & m1 & p1 & d1 & Estep' & Hv1 & _).
  rewrite Estep in Estep'. injection Estep' as <- _ _ _.
  destruct Hv as (b & w & p & Es & _). destruct Hv1 as (b' & w' & p' & En & _).
  eexists. split; [exact (create_board_reps_eq g tr _ _ _ _ _ _ _ _ Hc Es En)|].
  split.
  - cbn [map fst]. rewrite map_map. reflexivity.
  - apply Forall_cons. split; [split; [exact Hgen | now repeat split]|].
    apply Forall_map. eapply Forall_impl; [exact trans_fn_moves|].
    intros [key fn] [sym Hsym]. cbn [fst snd] in *.
    split; [now apply (genuine_image fn sym Hsym)|]. now repeat split.
Qed.

(** X19: the twelve representations [create_board_reps] makes of a
    transition of the game are transitions of the game.  Given an entry
    that holds a valid state, its legal moves, a legal action and what
    [step] returns for them, every entry of the dictionary holds the same
    for the rotated or mirrored board, with the players, [done] and the
    reward of the original. *)
Theorem board_reps_are_transitions player1 player2 board_size g tr :
  Game.init player1 player2 board_size = Some g ->
  genuine (Game._env g) tr ->
  exists reps,
    Game.create_board_reps g tr = Some reps
    /\ map fst reps = "normal_bottom"%string :: map fst Game._nd_trans_fn
    /\ Forall (fun kt =>
                 genuine (Game._env g) kt.2
                 /\ Game.t_current_player kt.2 = Game.t_current_player tr
                 /\ Game.t_next_player kt.2 = Game.t_next_player tr
                 /\ Game.t_done kt.2 = Game.t_done tr
                 /\ Game.t_reward kt.2 = Game.t_reward tr) reps.
Proof.
  intros Hinit Hgen.
  destruct (game_init_fields _ _ _ _ Hinit) as [Hc Henv]. rewrite Henv in *.
  exact (reps_genuine g board_size tr Hc Henv Hgen).
Qed.

Lemma image_same f1 f2 g t :
  moves_cells f1 g -> moves_cells f2 g ->
  transition_image f1 t = transition_image f2 t.
Proof.
  intros H1 H2.
  assert (Hm : forall x, mask_image f1 x = mask_image f2 x).
  { intros x. unfold mask_image. f_equal.
    destruct (mask_array_spec x) as [Hs _].
    destruct (H1 _ Hs) as [Hs1 A1], (H2 _ Hs) as [Hs2 A2].
    apply (ext2 8 8); [assumption..|].
    intros r c Hr Hc. now rewrite A1, A2. }
  assert (Hst : forall s, state_image f1 s = state_image f2 s).
  { intros [|b [|w [|p l]]]; cbn [state_image]; now rewrite ?Hm. }
  unfold transition_image. now rewrite !Hm, !Hst.
Qed.

Lemma create_board_reps_reads g tr reps :
  Game._converter g = conv8 ->
  Game.create_board_reps g tr = Some reps ->
  exists b w p l b' w' p' l',
    Game.t_s tr = b :: w :: p :: l /\ Game.t_next_s tr = b' :: w' :: p' :: l'.
Proof.
  intros Hc. unfold Game.create_board_reps. cbv zeta.
  destruct (Game.t_s tr) as [|b [|w [|p l]]];
    destruct (Game.t_next_s tr) as [|b' [|w' [|p' l']]];
    try (intros _; do 8 eexists; split; reflexivity);
    repeat match goal with
           | |- context [py_index ?l ?i] =>
               let v := eval vm_compute in (py_index l i) in
               change (py_index l i) with v
           end;
    cbn [mbind option_bind];
    repeat (rewrite to_ndarray_eq by exact Hc; cbn [mbind option_bind]);
    cbn [for_each Game._nd_trans_fn mbind option_bind];
    discriminate.
Qed.

(** X20: four of the twelve representations are repeated.  There are eight
    symmetries of the square, and in every dictionary [create_board_reps]
    returns the entries of [horizontal_top] and [vertical_bottom] are
    equal, and so are those of [vertical_top] and [horizontal_bottom], of
    [horizontal_left] and [vertical_right], and of [horizontal_right] and
    [vertical_left]. *)
Theorem board_reps_repeat player1 player2 board_size g tr reps :
  Game.init player1 player2 board_size = Some g ->
  Game.create_board_reps g tr = Some reps ->
  exists t1 t2 t3 t4,
    dict_get String.eqb reps "horizontal_top"%string = Some t1
    /\ dict_get String.eqb reps "vertical_bottom"%string = Some t1
    /\ dict_get String.eqb reps "vertical_top"%string = Some t2
    /\ dict_get String.eqb reps "horizontal_bottom"%string = Some t2
    /\ dict_get String.eqb reps "horizontal_left"%string = Some t3
    /\ dict_get String.eqb reps "vertical_right"%string = Some t3
    /\ dict_get String.eqb reps "horizontal_right"%string = Some t4
    /\ dict_get String.eqb reps "vertical_left"%string = Some t4.
Proof.
  intros Hinit E.
  destruct (game_init_fields _ _ _ _ Hinit) as [Hc _].
  destruct (create_board_reps_reads g tr reps Hc E)
    as (b & w & p & l & b' & w' & p' & l' & Es & En).
  rewrite (create_board_reps_eq g tr _ _ _ _ _ _ _ _ Hc Es En) in E.
  injection E as <-.
  exists (transition_image (fun x => flip_axis1 x) tr),
    (transition_image (fun x => flip_axis0 x) tr),
    (transition_image (fun x => rot90 (flip_axis0 x) 1) tr),
    (transition_image (fun x => rot90 (flip_axis1 x) 1) tr).
  cbn [dict_get map Game._nd_trans_fn fst snd]. eval_eqb.
  split; [f_equal; exact (image_same _ _ _ tr horizontal_top_moves vertical_bottom_moves)|].
  split; [reflexivity|].
  split; [f_equal; exact (image_same _ _ _ tr vertical_top_moves horizontal_bottom_moves)|].
  split; [reflexivity|]. split; [reflexivity|].
  split; [f_equal; exact (image_same _ _ _ tr vertical_right_moves horizontal_left_moves)|].
  split; [f_equal; exact (image_same _ _ _ tr horizontal_right_moves vertical_left_moves)|].
  reflexivity.
Qed.

(** The opening of a game as a case of the theorems on [Game]. *)
Lemma opening_genuine bs : genuine (BitBoard.init bs) opening_transition.
Proof.
  split; [exact reset_state_valid|].
  split; [vm_compute; reflexivity|].
  split; [exact start_action_legal | vm_compute; reflexivity].
Qed.

Lemma highest_game :
  exists g, Game.init highest_player highest_player 8 = Some g
            /\ Game._env g = BitBoard.init 8 /\ Game._converter g = conv8.
Proof.
  unfold Game.init. rewrite converter_init_8. cbn [mbind option_bind].
  eexists. split; [reflexivity|]. now split.
Qed.

Lemma board_reps_are_transitions_opening :
  exists g,
    Game.init highest_player highest_player 8 = Some g
    /\ genuine (Game._env g) opening_transition
    /\ exists reps,
         Game.create_board_reps g opening_transition = Some reps
         /\ map fst reps = "normal_bottom"%string :: map fst Game._nd_trans_fn
         /\ Forall (fun kt =>
                      genuine (Game._env g) kt.2
                      /\ Game.t_current_player kt.2
                         = Game.t_current_player opening_transition
                      /\ Game.t_next_player kt.2 = Game.t_next_player opening_transition
                      /\ Game.t_done kt.2 = Game.t_done opening_transition
                      /\ Game.t_reward kt.2 = Game.t_reward opening_transition) reps.
Proof.
  destruct highest_game as (g & Hinit & Henv & Hc).
  assert (Hgen : genuine (Game._env g) opening_transition)
    by (rewrite Henv; apply opening_genuine).
  exists g. split; [exact Hinit|]. split; [exact Hgen|].
  exact (board_reps_are_transitions highest_player highest_player 8 g
           opening_transition Hinit Hgen).
Defined.

Lemma board_reps_repeat_opening :
  exists g reps,
    Game.init highest_player highest_player 8 = Some g
    /\ Game.create_board_reps g opening_transition = Some reps
    /\ exists t1 t2 t3 t4,
         dict_get String.eqb reps "horizontal_top"%string = Some t1
         /\ dict_get String.eqb reps "vertical_bottom"%string = Some t1
         /\ dict_get String.eqb reps "vertical_top"%string = Some t2
         /\ dict_get String.eqb reps "horizontal_bottom"%string = Some t2
         /\ dict_get String.eqb reps "horizontal_left"%string = Some t3
         /\ dict_get String.eqb reps "vertical_right"%string = Some t3
         /\ dict_get String.eqb reps "horizontal_right"%string = Some t4
         /\ dict_get String.eqb reps "vertical_left"%string = Some t4.
Proof.
  destruct highest_game as (g & Hinit & Henv & Hc).
  assert (E : Game.create_board_reps g opening_transition
              = Some (("normal_bottom"%string, opening_transition)
                      :: map (fun kf => (kf.1, transition_image kf.2 opening_transition))
                           Game._nd_trans_fn))
    by (apply (create_board_reps_eq g opening_transition
                 34628173824 68853694464 1 [] 268435456 120393302016 0 []);
        [exact Hc | reflexivity | reflexivity]).
  exists g. eexists. split; [exact Hinit|]. split; [exact E|].
  exact (board_reps_repeat highest_player highest_player 8 g opening_transition _
           Hinit E).
Defined.

Lemma play_ends_with_winner_highest :
  exists g,
    Game.init highest_player highest_player 8 = Some g
    /\ lawful g highest_player
    /\ exists winner g' init last b w,
         Game.play (Game.reset g true true) = Some (winner, g')
         /\ played (Game._env g) start_state start_moves 1 (init ++ [last])
              (Game.t_next_s last)
         /\ Game._hist g' = Some (init ++ [with_reward last winner])
         /\ (length (init ++ [last]) <= 60)%nat
         /\ BitBoard.count_coins (Game._env g) (Game.t_next_s last) = Some (b, w)
         /\ b + w = 4 + Z.of_nat (length (init ++ [last]))
         /\ winner = (if w <? b then 0 else if b <? w then 1 else -1).
Proof.
  destruct highest_game as (g & Hinit & Henv & Hc).
  pose proof (highest_player_lawful g 8 Henv) as Hlaw.
  exists g. split; [exact Hinit|]. split; [exact Hlaw|].
  exact (play_ends_with_winner highest_player highest_player 8 g true true
           Hinit Hlaw Hlaw).
Defined.

(** The entries of a game are transitions the engine stands behind. *)
Lemma played_genuine bs s m p entries s' :
  valid_state s ->
  BitBoard._legal_moves_helper (BitBoard.init bs) s = Some m ->
  played (BitBoard.init bs) s m p entries s' ->
  Forall (genuine (BitBoard.init bs)) entries.
Proof.
  intros Hv Em Hplayed. revert Hv Em.
  induction Hplayed as [s m p a s' m' p' Ha Hstep
                       |s m p a s1 m1 p1 rest s' Ha Hstep Hrest IH];
    intros Hv Em.
  - apply Forall_cons. split; [|apply Forall_nil_2]. now repeat split.
  - destruct (step_empties bs s m a _ _ _ _ Hv Em Ha Hstep) as (Hv1 & Em1 & _).
    apply Forall_cons. split; [now repeat split | now apply IH].
Qed.

(** X18: the history of a game feeds [create_board_reps].  After [play]
    between two players that answer with legal moves, every entry of the
    history is accepted by [create_board_reps], which returns twelve
    entries for it, each of them a transition of the game. *)
Theorem history_entries_have_reps player1 player2 board_size g below_half
    random_assignment :
  Game.init player1 player2 board_size = Some g ->
  lawful g player1 -> lawful g player2 ->
  exists winner g' hist,
    Game.play (Game.reset g below_half random_assignment) = Some (winner, g')
    /\ Game._hist g' = Some hist
    /\ Forall (fun t =>
                 exists reps,
                   Game.create_board_reps g' t = Some reps
                   /\ length reps = 12%nat
                   /\ Forall (fun kt => genuine (Game._env g') kt.2) reps) hist.
Proof.
  intros Hinit Hl1 Hl2.
  destruct (play_result player1 player2 board_size g below_half random_assignment
              Hinit Hl1 Hl2)
    as (winner & g' & init & last & b & w & Eplay & Hplayed & Ehist & _).
  destruct (game_init_fields _ _ _ _ Hinit) as [Hc Henv].
  assert (Hg' : Game._converter g' = conv8 /\ Game._env g' = BitBoard.init board_size).
  { unfold Game.play in Eplay.
    destruct (BitBoard.reset _) as [[[s0 m0] p0]|]; [|discriminate].
    cbn [mbind option_bind Game.reset Game._p Game._hist] in Eplay.
    destruct (Game.play_while _ _ _ _ _ _ _) as [[s1 h1]|]; [|discriminate].
    cbn [mbind option_bind] in Eplay.
    destruct (BitBoard.count_coins _ _) as [[b1 w1]|]; [|discriminate].
    cbn [mbind option_bind] in Eplay.
    destruct (py_index h1 (-1)) as [l1|]; [|discriminate].
    cbn [mbind option_bind] in Eplay.
    destruct (py_setitem h1 (-1) _) as [h2|]; [|discriminate].
    cbn [mbind option_bind] in Eplay. injection Eplay as _ <-.
    cbn [Game._converter Game._env Game.reset]. now split. }
  destruct Hg' as [Hc' Henv'].
  exists winner, g', (init ++ [with_reward last winner]).
  split; [exact Eplay|]. split; [exact Ehist|].
  rewrite Henv in Hplayed.
  assert (Em : BitBoard._legal_moves_helper (BitBoard.init board_size) start_state
               = Some start_moves) by (vm_compute; reflexivity).
  pose proof (played_genuine _ _ _ _ _ _ reset_state_valid Em Hplayed) as Hgen.
  apply Forall_app in Hgen. destruct Hgen as [Hinit' Hlast].
  apply Forall_cons in Hlast. destruct Hlast as [Hlast _].
  assert (Hall : Forall (genuine (BitBoard.init board_size))
                   (init ++ [with_reward last winner])).
  { apply Forall_app. split; [exact Hinit'|].
    apply Forall_cons. split; [exact Hlast | apply Forall_nil_2]. }
  eapply Forall_impl; [exact Hall|].
  intros t Ht. rewrite Henv'.
  destruct (reps_genuine g' board_size t Hc' Henv' Ht) as (reps & E & Hkeys & Hreps).
  exists reps. split; [exact E|]. split.
  - rewrite <- (length_map fst), Hkeys. reflexivity.
  - eapply Forall_impl; [exact Hreps|]. intros kt Hkt. apply Hkt.
Qed.

Lemma history_entries_have_reps_highest :
  exists g,
    Game.init highest_player highest_player 8 = Some g
    /\ lawful g highest_player
    /\ exists winner g' hist,
         Game.play (Game.reset g true true) = Some (winner, g')
         /\ Game._hist g' = Some hist
         /\ Forall (fun t =>
                      exists reps,
                        Game.create_board_reps g' t = Some reps
                        /\ length reps = 12%nat
                        /\ Forall (fun kt => genuine (Game._env g') kt.2) reps) hist.
Proof.
  destruct highest_game as (g & Hinit & Henv & Hc).
  pose proof (highest_player_lawful g 8 Henv) as Hlaw.
  exists g. split; [exact Hinit|]. split; [exact Hlaw|].
  exact (history_entries_have_reps highest_player highest_player 8 g true true
           Hinit Hlaw Hlaw).
Defined.

Lemma count_coins_agree_start :
  Converter.init 8 = Some conv8 /\ valid_state start_state
  /\ Converter.convert conv8 (VTuple start_state) "bitboard" "ndarray3d"
     = Some (VArray3 start_dense)
  /\ BitBoard.count_coins (BitBoard.init 8) start_state
     = Some (Dense.count_coins (Dense.init 8) start_dense).
Proof.
  assert (Hi : Converter.init 8 = Some conv8) by (vm_compute; reflexivity).
  assert (Hc : Converter.convert conv8 (VTuple start_state) "bitboard" "ndarray3d"
               = Some (VArray3 start_dense)) by (vm_compute; reflexivity).
  split; [exact Hi|]. split; [exact reset_state_valid|]. split; [exact Hc|].
  exact (count_coins_agree conv8 start_state start_dense Hi reset_state_valid Hc).
Defined.
